(* ===== verification/_CoqProject ===== *)
-Q . S2P
Prelude.v
Utils.v
Tree.v
Mode.v
TreeInv.v
TreeInsert.v
TreeFuel.v
TreePrio.v
TreeTest.v
Router.v
Group.v
Context.v
Keys.v
Strconv.v
Reflect.v
Setters.v
Traverse.v
Binding.v
BindingReq.v
Writer.v
Response.v
Handler.v
Serve.v
Server.v
Race.v
Pipeline.v
Example.v
