(* ===== verification/Prelude.v ===== *)
(** * hapi: a verification development for the HTTP router of hookya/hapi

    ** The program

    hapi is a small Go web framework.  Its engineering core is the
    per-method compressed-prefix (radix) routing tree of
    [src/unnamed/part_003] (second half, from [type methodTree] on):
    [node.addRoute] inserts a path with its handler chain, splitting edges
    at the longest common prefix and reordering children by priority;
    [node.getValue] looks a request path up.  Around the tree sit the method
    table and the engine ([src/unnamed/part_000]: [Engine.addRoute],
    [handleHTTPRequest]), the route groups ([src/unnamed/part_001], first
    half: [RouterGroup]), the request context ([src/unnamed/part_001],
    second half: the flow control [Next]/[Abort] and the [Keys] store), the
    run mode and debug output ([src/unnamed/part_003], first half) and the
    helpers of [src/utils.go].  A registration goes from a verb of a group
    ([RouterGroup.GET]) through [handle] (join the path, convert the
    handler, prepend the middleware) to [Engine.addRoute] (three
    assertions, find or create the root of the method) to [node.addRoute];
    a request goes from [Engine.ServeHTTP], which takes a context from
    the pool, through [handleHTTPRequest] and [methodTrees] to
    [node.getValue], and the chain found is run by [Context.Next].

    What a user registers is a function of a request struct and a
    response struct.  [convertHandler] ([src/convert.go]) checks the two
    types by reflection when the route is registered and returns the
    handler that, for each request, fills a new request struct from the
    parameters of the URL, the headers and the body ([Query], [Header],
    [convertReqBody], with [Traverse] of [src/unnamed/part_002] and the
    [Set] functions of [src/utils.go]), calls the function, and writes
    the response struct with [Context.Data] as JSON to the response
    writer.  [func main] of [src/unnamed/part_001] is an example program
    with three such functions.

    ** The files, and the code they model

    - [Prelude] (this file): Go values shared by every component (byte
      strings, slices, machine integers with their wrap-around), the
      [result] type of computations that may panic or run out of fuel with
      its notation (scope [go_scope]), the rearrangement [list_move] that
      the priority reordering performs on [indices], the scan [indexByte],
      the tactics and the hint databases [go] and [go_rw].
    - [Utils] ([src/utils.go]): [joinPaths], [lastChar], [assert1],
      [resolveAddress]; the class [PathLib], what the development needs of
      Go's [path.Join], with a reference instance.
    - [Tree] ([src/unnamed/part_003], [src/unnamed/part_000]): [node] is
      the Go struct; [min], [longestCommonPrefix], [incrementChildPrio],
      [insertChild], [addChild], [addRoute] and [getValue] are the Go
      functions.  [addRoute_walk] is the [walk] loop as written;
      [walk_step] (with [walk_split], [walk_child], [walk_finish]) is one
      iteration as a value, and [addRoute_walk_unfold] says the loop is the
      iteration of the step.  The lemmas are the behaviour of each helper.
    - [Mode]: [SetMode], [IsDebugging], [debugPrint], [debugPrintRoute];
      the computations that print ([logged], with the notation [let+]):
      what a function has printed, in order, beside its result.
    - [TreeInv]: the invariant of the tree ([wf_node], [wf_root]: [indices]
      aligned with [children], no byte twice, non-empty segments below the
      root), the routes a tree denotes ([routes]) and its abstract state
      ([table], a finite map from paths to chains); [getValue] is lookup
      in the table.
    - [TreeInsert]: one iteration of the walk keeps the invariant and the
      routes ([walk_step_spec]); [addRoute] is insertion in the table.
    - [TreeFuel]: the length of the walk.  [length path + 1] iterations
      decide a call; the slash shortcut makes the loop of the source
      diverge on trees that registrations build; a duplicate registration
      panics.
    - [TreePrio]: the descending order of the children by priority is an
      invariant of [addRoute] until a [uint32] priority wraps.
    - [TreeTest] ([src/tree_test.go]): the test of the tree as a
      definition, and that it passes.
    - [Router]: [methodTrees.get], [New], [Engine.addRoute] and the search
      of [handleHTTPRequest]; the engine's table of routes per method.
      [Engine_addRoute] is the method without its output, on which the
      theory of the engine is built; [Engine_addRoute_out] is the method
      with the call of [debugPrintRoute], and has the same result.
    - [Group]: every method of [RouterGroup], and [Engine.Use]; [handle]
      with what it prints ([handle_out]); the interface [Group] as the
      record [Group_methods] of its methods, with the methods of a
      group and of the engine; the groups that a program can make
      ([made_group]), and the registrations of a program one after
      another ([register_all] on a list of [registration]s).
    - [Context]: [reset], [Copy], [Next], [IsAborted], [Abort], [Set],
      [Get], [MustGet] and the typed getters.
    - [Keys]: [Context.Set] and [Context.Get] with the mutex of the
      context, for goroutines that share a context.  [access_step] is
      the two methods statement by statement, on the context with its
      mutex ([guarded]); a [caller] is a call ([access]) with the
      statement it is at ([position]); [calls_step] and [run_calls] let
      the goroutines step in any order.  [sync.RWMutex] is the record
      [RWMutex] with [Lock], [Unlock], [RLock] and [RUnlock]: library
      code.  [apply_access], [atomic_step] and [run_atomic] are the calls
      one at a time, by [Context_Set] and [Context_Get].
    - [Strconv], [Reflect]: models of the parts of Go's [strconv] and
      [reflect] that the binding calls: the parsers and printers of
      integers; types ([rtype]), values ([rvalue]), the flags that decide
      whether a value can be set, zero values and [has_type].  They are
      library code, not code of the repository.
    - [Setters] ([src/utils.go]): [Set] (here [SetValue]), [SetArray],
      [SetInt], [SetUint], [SetFloat].
    - [Traverse] ([src/unnamed/part_002]): [TraverseType] and [Traverse];
      a callback is a function that is given the state it has captured
      and returns it ([callback]); [flat_fields] is the list of the
      fields the traversals reach.
    - [Binding], [BindingReq] ([src/convert.go], the request):
      [validateReqFields], [newReqConvertFunc] and the function it returns
      ([reqConvertFunc] on the record [reqConvert]), [Query], [Header],
      [convertReqBody], [queryParamName], [queryParamValues].
    - [Writer]: the response writer, which the sources use and the
      repository does not declare: the class [ResponseWriter] of what the
      sources call, the laws the theorems need, and the writer of gin
      ([mem_writer]) as an instance with the laws.
    - [Response] ([src/unnamed/part_001]): [RequestBody],
      [ResponseBodySize], [Data], [Ok], [Json], [StatusJson], [getData],
      [isNilValue], [ClientIP], [RemoteIP], [Deadline], [Done], [Err],
      [Value].
    - [Handler] ([src/convert.go], the response): [convertHandler] and the
      handler it returns ([run_converted] on the record [converted]),
      [newRespWriteFunc] and the function it returns ([respWriteFunc]),
      [validateRespFields], [ValidateRespHeader], [WriteRespHeader]; the
      types and the three functions of the example program.
    - [Serve] ([src/unnamed/part_000]): [ServeHTTP], [handleHTTPRequest],
      [serveError], [allocateContext], [Handler], [Run]; the engine with
      its pool is the record [server].
    - [Server]: the server that [http.ListenAndServe] runs, with the
      requests one after another: the function [serve_all] on a list of
      requests, the labelled step [serves] (one call of [ServeHTTP]) and
      its closure [serving], and the servers that are [reachable].
    - [Race]: the requests that are served at the same time.
      [ServeHTTP_step] is [ServeHTTP] statement by statement, on a
      memory of contexts ([shared]: the contexts by address, and the pool
      as a list of addresses); a [goroutine] is the call of one request
      with the statement it is at ([point]); [schedule_step] lets one
      goroutine of a [system] take a step, [run_schedule] runs a list of
      such choices and [interleaves] is the relation of all of them.
    - [Pipeline]: the composition.  [as_HandlerFunc] is [convertHandler]
      as [handle] calls it and [call_handler] the call of a handler of a
      chain, for every type of functions in which the closure of
      [convertHandler] can be called; the theorems follow a function from
      [handle] through [Engine.addRoute], [ServeHTTP], [getValue] and
      [Next] to [run_converted].
    - [Example] ([src/unnamed/part_001]): [func main] with what it
      prints, its routes registered through [Group.GET] and
      [Handler.convertHandler], and requests served by [Serve.ServeHTTP]
      on the engine it has built; an instance of [Pipeline].

    ** What the theorems show

    - Refinement: [TreeInv.getValue_refines], [TreeInsert.addRoute_refines],
      [Router.Engine_addRoute_refines], [TreeTest.addRoutes_refines]: the
      tree, the engine and a sequence of registrations implement a finite
      map.  Round trips and frames follow ([getValue_addRoute],
      [getValue_addRoute_other], [Engine_find_addRoute],
      [Engine_method_isolation], [Group.handle_registers]).
    - Invariants: [addRoute_wf] (shape), [TreePrio.addRoute_sorted]
      (order), [Group.Group_spec] (rooted base paths),
      [Mode.SetMode_mode_ok].
    - Termination and its failure: [TreeFuel.addRoute_enough_fuel],
      [addRoute_out_of_fuel], [addRoute_diverges],
      [Router.Engine_addRoute_diverges].
    - Errors: the assertions of [Engine.addRoute], the duplicate-route
      panic ([TreeFuel.addRoute_duplicate]), [Mode.SetMode_spec].
    - Machine integers: [Context.Next_abort] and its bound 64
      ([Next_abort_overrun]: in every longer chain the handlers from
      position 64 on run after an abort), [Next_too_many] ([int8] of a
      length),
      [TreePrio.incrementChildPrio_wraps] ([uint32]),
      [Setters.Set_int_range] (the widths of the integer kinds).
    - The traversals: [Traverse.TraverseType_flat] ([TraverseType] is a
      fold over [flat_fields]), [Traverse_total] ([Traverse] returns and
      keeps the type when the callback does, with an invariant of the
      state of the callback), [Traverse_checking] (with a callback that
      only checks the fields, [Traverse] ends as [TraverseType] does),
      [Traverse_ext], [Traverse_stops], [Traverse_unexported_pointer]
      (the embedded pointer that makes it panic).
    - The binding of the request: [BindingReq.validateReqFields_spec]
      (what is accepted, and the [todo] returned),
      [reqConvertFunc_total] (the function returned never panics on an
      accepted type and gives a request of the type),
      [Setters.Set_has_type], [Binding.queryParamValues_ambiguous].
    - The response: [Response.Data_status], [StatusJson_twice],
      [RequestBody_cached], [Value_Set];
      [Handler.validateRespFields_spec], [ValidateRespHeader_spec] (the
      types of headers that are accepted), [WriteRespHeader_first],
      [respWriteFunc_nil_Header], [respWriteFunc_typed_nil].
    - The converted handler: [Handler.run_converted_safe]: it returns, or
      panics with [args-err], or ends as the function of the user does.
    - Serving: [Serve.ServeHTTP_answers] (every request is answered),
      [ServeHTTP_registered] (the chain that was registered is run),
      [ServeHTTP_recovers], [ServeHTTP_not_found], [ServeHTTP_status]
      (the status 500 that every request ends with),
      [ServeHTTP_keeps_Keys] (the keys that the next request inherits).
    - The server, by induction on its runs: [Server.serve_all_answers]
      (every request of a list is answered, and the server never
      panics), [reachable_invariant] (the engine and its routes do not
      change, the pool holds at most one context, and its contexts have
      been answered), [serve_all_serving] and [serving_serve_all] (the
      function and the step relation agree), [serving_deterministic].
    - Requests at the same time: [Race.ServeHTTP_steps_refines] (the
      steps of one goroutine alone do what [Serve.ServeHTTP] does on the
      server with the contexts of the pool),
      [Race.sequential_serve_all] (goroutines that take their steps one
      after another do what [Server.serve_all] does with the list of the
      requests), [Race.every_request_returns] (unless a handler runs
      for ever every schedule returns, a goroutine that is given its
      five steps has returned, and when all have returned every context
      has been answered and is in the pool, but for the contexts of the
      requests whose handlers have panicked),
      [Race.run_schedule_no_panic], [Race.own_context] (by
      induction on the interleaving: no pointer dangles, and a context
      that a goroutine owns is owned by no other and is not in the pool),
      [Race.Put_before_deferred] (the second request takes the context
      between [engine.pool.Put(c)] and the deferred function of the
      first, and [serveError] of the first writes 500 to the second
      client), [Race.sample_overtaken] (the two orders on the sample
      server).
    - The keys under the mutex: [Keys.linearizable] (the calls of [Set]
      and [Get] of goroutines that share a context do and return what
      [Context_Set] and [Context_Get] do one call after another, in the
      order in which the calls take effect), [Keys.mutual_exclusion]
      (no goroutine reads or writes the map while another writes it),
      [Keys.run_calls_returns] (no unlock of a free mutex and no store
      into a [nil] map), [Keys.calls_return] (from every state some
      schedule lets every call return: no deadlock), [Keys.Set_alone]
      and [Get_alone] (one call alone is the function of [Context]).
    - The composition: [Pipeline.registered_function_served]: a
      function registered through a group, behind its middleware,
      answers the requests for its route whatever the program registers
      after it, and the only panics are [args-err] and those of the
      function.
    - The groups and the interface: [Group.made_group_ok],
      [handle_returns_group] (no method returns the engine),
      [chained_registrations]; [Group.register_all_finds] (every
      registration of a program that has returned is found, with the
      middleware of its group before its handler) over
      [Router.Engine_addRoute_keeps] (a registration takes no chain
      away).
    - What is printed: [Mode.log_bind_assoc] and the other laws of the
      computations that print, [Router.Engine_addRoute_out_result]
      (printing does not change the result),
      [Engine_addRoute_out_duplicate] (a duplicate is printed before the
      panic), [Group.handle_out_line], [Example.main_prints].
    - The example program: [Example.main_registers] and
      [Example.example_served] are examples, by evaluation of the whole
      path from [GET] to the bytes of the response, with the encoder
      and the writer of the example.

    ** Modelling conventions

    - A Go [string] is a [list ascii] (a sequence of bytes; [len] is
      [length], [s[i:]] is [drop i s], [s[:i]] is [take i s]).
    - A slice that the code compares with [nil] ([HandlersChain]) is an
      [option (list _)]: [None] is [nil], [Some []] the empty non-nil
      slice.  Slices that are only measured, indexed and appended to
      ([children]) are plain lists.  A map that may be [nil] is an
      [option] of a [gmap].
    - [uint32] and [int8] values are [Z] with the wrap-around written out
      ([uint32_wrap], [int8_wrap]).  Lengths and indices are [nat]: Go's
      [int] is 64 bits wide and no length of this program approaches it.
      The bit size 0 of [strconv] is 64 too ([Strconv.bit_size]): on a
      platform with an [int] of 32 bits the range of [Setters.SetInt]
      for [int] and [uint] is the smaller one.
    - A Go panic is the [Panic] result.  The tree is mutated in place in
      Go; here every operation returns the new tree ([set_child] and
      [Router.set_root] write back what Go writes through a pointer), and
      a panic returns no tree: the partially updated tree a recovered
      panic would leave behind is not modelled.
    - Handlers are Go closures.  The tree and the engine never call them:
      there [HandlerFunc] is any type.  [Context] takes their semantics as
      a parameter [run], which is given the continuation that [c.Next()]
      is inside the handler; [Group] takes them as function values that
      may be [nil].
    - A closure that the code returns is a record of the variables it
      has captured and a function of the record ([Binding.reqConvert]
      with [reqConvertFunc], [Handler.converted] with [run_converted]).
      A callback that assigns to captured variables takes them as a
      state and returns them.
    - A Go map that is ranged over ([url.Values], [http.Header]) is an
      association list whose order is the order of the iteration.
    - Library functions whose code is not in the repository are
      variables of the sections, with the hypotheses the theorems need of
      them ([json.Unmarshal] keeps the type of the value it fills;
      [reflect.Value.Call] returns the context and the response struct or
      panics), or classes with laws ([Utils.PathLib],
      [Writer.ResponseWriter]).  The witnesses and the example instantiate
      them.
    - [recover] in the deferred function of [ServeHTTP] is a match on
      the result of the handlers.  A panic returns no context: the
      parameter [at_panic] of [ServeHTTP] is what the handlers had done to
      the context when they panicked.
    - The pool of contexts is a list: [Get] takes the first context, or
      a new one, and [Put] appends.  [sync.Pool] promises no order.
    - A pointer that two goroutines may have ([*Context] in [Race]) is
      an address, an index into the list of the contexts that were
      allocated; an assignment through the pointer is an update of the
      list.  Where a context has one user at a time ([Serve], [Server])
      it is a value.  A goroutine is a record with the statement it is
      at, and a step of the system is a step of one of them.
    - A mutex is a value beside the data it guards ([Keys.guarded]).
      [Lock] and [RLock] are partial functions: a goroutine that would
      block takes no step, and the schedule goes on with another.  The
      fatal errors of the run time (unlock of a free mutex, store into a
      [nil] map) are panics of the model.
    - What the program prints is a list of calls of [fmt.Fprintf];
      a function that prints returns the list beside its result
      ([Mode.logged]).  [fmt.Println(err)] of [ServeHTTP] and the
      [debugPrint] of [serveError] are not in a list: [ServeHTTP] returns
      the panic value and [serveError] the error that they print.
    - A Go interface is a record of its methods ([Group.Group_methods]);
      a value of the interface is one of the dynamic types that
      implement it ([Group.returned]), and a call of a method on it goes
      to the methods of that type ([Group.on_returned]).

    ** Fuel

    - The [walk] loop of [addRoute] does not terminate on every input; it
      is modelled with fuel, one unit per iteration, and [OutOfFuel] for
      every fuel is divergence.  [TreeFuel] proves that [length path + 1]
      units are enough whenever the loop terminates: below the root every
      iteration that goes round again has used up a byte of the path.
    - [getValue] descends one child per iteration: it is a structural
      recursion on the tree and needs no fuel.
    - [Context.Next] calls handlers that may call [Next] and may set
      [index] back: it takes fuel, one unit per nested call and one per
      iteration.  The theorems give the fuel that is enough for chains
      whose handlers leave [index] alone.
    - [ServeHTTP] passes its fuel to [Next]; [Serve.ServeHTTP_registered]
      gives the fuel for a chain, one more than its length, and the
      example is served with 10.  [Pipeline.registered_function_served]
      asks for more fuel than the group has middleware; the function of
      the program is a parameter, and a function that does not return is
      the one case in which [ServeHTTP] does not.
    - [Server.serve_all] gives every request the same fuel; a step of
      [serves] is a call that has returned.
    - [Race.ServeHTTP_steps] counts statements, not fuel: five steps are
      a whole call, and a goroutine that has returned stays where it is.
      The handlers of a request are one step, with the fuel of
      [ServeHTTP].
    - [Keys.run_calls] needs no fuel: a step of a goroutine that waits
      for the mutex leaves the system as it is.  [Keys.steps_left] is
      the measure of [Keys.calls_return]: five steps for [Set] and
      three for [Get].
    - [TraverseType] and [Traverse] recurse on the type, [getValue] on
      the tree: no fuel.

    ** Not modelled

    - The steps of the handlers of two requests against each other.  In
      [Race] the handlers of a request run in one step, on a context that
      no other goroutine owns ([Race.own_context]), and the steps that
      interleave are the statements of [ServeHTTP].  [sync.Pool] is a
      list there too: its caches per processor and the collection of
      idle contexts are not modelled.
    - Of the fields of a context only [Keys] is behind the mutex; what
      goroutines that share a context do to its other fields at the
      same time is not modelled.  The order in which
      [sync.RWMutex] lets waiting goroutines in is not modelled: [Keys]
      lets any of them in, readers too while a writer waits.
    - The bytes of JSON: [json.Unmarshal] and the encoder are
      parameters; the encoder of the example writes integers, strings and
      structs of them.  [strconv.ParseFloat] is a parameter.
    - [net/http]: [http.ListenAndServe] and the h2c handler are
      parameters of [Run]; a request is a record of the fields the
      sources read, and [URL], which [net/http] never leaves [nil], is
      not a pointer of its own: a request made by hand with a [nil]
      [URL], on which [handleHTTPRequest] panics, is not modelled.
      [sync.Pool] is the list of its contexts, first in, first out.
      The server of [Server] is what [net/http] does with
      the handler when the requests come one at a time, and the system
      of [Race] what it does when they come together.
    - The output of the verbs other than [GET], which print as [GET]
      does ([Group.handle_out] with another method).
    - What follows [getValue] in [src/unnamed/part_003] (the
      case-insensitive lookup) and the commented-out blocks of the other
      files are comments, not code.
    - The state that a panic of registration leaves in the tree.
*)

From stdpp Require Export base tactics option list.
From stdpp Require Export strings.
From Stdlib Require Export ZArith Ascii Lia.

(** ** Go values *)

(** A Go string: an immutable sequence of bytes. *)
Abbreviation gostring := (list ascii).

(** The bytes of a string literal. *)
Abbreviation bytes := String.list_ascii_of_string.

(** A slice that may be [nil]. *)
Abbreviation slice A := (option (list A)).

(** [len] of a slice; [len(nil)] is 0. *)
Definition slice_len {A} (s : slice A) : nat :=
  match s with
  | Some l => length l
  | None => 0
  end.

(** The Go slice expression [s[lo:hi]] for [lo <= hi <= len(s)]. *)
Definition subslice {A} (lo hi : nat) (s : list A) : list A :=
  take (hi - lo) (drop lo s).

(** [uint32] arithmetic wraps around modulo [2^32]. *)
Definition uint32_wrap (z : Z) : Z := (z mod 2 ^ 32)%Z.

(** [int8] arithmetic wraps around into [-128..127]. *)
Definition int8_wrap (z : Z) : Z := ((z + 128) mod 256 - 128)%Z.

(** ** Panics and results *)

(** The value a Go panic carries: a message given to [panic], or one of
    the run-time errors of indexing and slicing. *)
Inductive panic_value : Type :=
| PanicMsg (msg : gostring)
| PanicIndex
| PanicSlice.

(** The outcome of a computation: a value, a panic, or no answer within
    the fuel given. *)
Inductive result (A : Type) : Type :=
| Ok (a : A)
| Panic (v : panic_value)
| OutOfFuel.

Arguments Ok {A} a.
Arguments Panic {A} v.
Arguments OutOfFuel {A}.

Definition result_bind {A B} (m : result A) (k : A -> result B) : result B :=
  match m with
  | Ok a => k a
  | Panic v => Panic v
  | OutOfFuel => OutOfFuel
  end.

Definition result_map {A B} (f : A -> B) (m : result A) : result B :=
  result_bind m (fun a => Ok (f a)).

(** [is_ok m]: the computation returned a value. *)
Definition is_ok {A} (m : result A) : bool :=
  match m with
  | Ok _ => true
  | _ => false
  end.

Declare Scope go_scope.
Delimit Scope go_scope with go.
Notation "'let*' x ':=' m 'in' k" := (result_bind m (fun x => k))
  (at level 10, x name, m at level 100, k at level 200, only parsing) : go_scope.
Notation "'let*' ' pat ':=' m 'in' k" := (result_bind m (fun pat => k))
  (at level 10, pat pattern, m at level 100, k at level 200, only parsing) : go_scope.
Open Scope go_scope.

(** ** Scanning and rearranging lists *)

(** The index of the first byte of [s] equal to [c]: the loops
    [for i := 0; i < len(s); i++ { if c == s[i] ... }] of the tree. *)
Definition indexByte (c : ascii) (s : gostring) : option nat :=
  fst <$> list_find (fun x => x = c) s.

(** [list_move newPos pos l] moves the element at [pos] to [newPos]
    ([newPos <= pos]), shifting the elements between them one place to
    the right: the string that [incrementChildPrio] rebuilds,
    [s[:newPos] + s[pos:pos+1] + s[newPos:pos] + s[pos+1:]]. *)
Definition list_move {A} (newPos pos : nat) (l : list A) : list A :=
  take newPos l ++ subslice pos (pos + 1) l ++ subslice newPos pos l ++ drop (pos + 1) l.

(** ** Automation *)

Create HintDb go discriminated.
Create Rewrite HintDb go_rw.

(** Case analysis on the result that a bind scrutinises. *)
Ltac case_result :=
  match goal with
  | |- context [result_bind ?m _] =>
      let E := fresh "E" in destruct m eqn:E; simpl
  | H : context [result_bind ?m _] |- _ =>
      let E := fresh "E" in destruct m eqn:E; simpl in H
  end.

(** Inversion of equations between results. *)
Ltac inv_result :=
  repeat match goal with
  | H : Ok _ = Ok _ |- _ => injection H as H; try subst
  | H : Ok _ = Panic _ |- _ => discriminate H
  | H : Ok _ = OutOfFuel |- _ => discriminate H
  | H : Panic _ = Ok _ |- _ => discriminate H
  | H : OutOfFuel = Ok _ |- _ => discriminate H
  | H : Panic _ = OutOfFuel |- _ => discriminate H
  | H : OutOfFuel = Panic _ |- _ => discriminate H
  | H : Panic _ = Panic _ |- _ => injection H as H; try subst
  end.

(** ** Lemmas on results *)

Lemma result_bind_Ok {A B} (m : result A) (k : A -> result B) b :
  result_bind m k = Ok b <-> exists a, m = Ok a /\ k a = Ok b.
Proof.
  destruct m; simpl; split; try (intros (? & ? & ?)); try discriminate; eauto.
  by simplify_eq.
Qed.

Lemma result_bind_assoc {A B C} (m : result A) (k : A -> result B) (h : B -> result C) :
  result_bind (result_bind m k) h = result_bind m (fun a => result_bind (k a) h).
Proof. by destruct m. Qed.

Lemma result_bind_ret {A} (m : result A) : result_bind m Ok = m.
Proof. by destruct m. Qed.

(** ** Lemmas on slices of lists *)

Section lists.
Context {A : Type}.
Implicit Types (l k : list A) (x y : A) (i j n : nat).

Lemma subslice_length lo hi l :
  lo <= hi <= length l -> length (subslice lo hi l) = hi - lo.
Proof. intros ?. unfold subslice. rewrite length_take, length_drop. lia. Qed.

Lemma subslice_app_mid l1 l2 l3 :
  subslice (length l1) (length l1 + length l2) (l1 ++ l2 ++ l3) = l2.
Proof.
  unfold subslice. rewrite drop_app_length.
  replace (length l1 + length l2 - length l1) with (length l2) by lia.
  by rewrite take_app_length.
Qed.

Lemma subslice_one l i x : l !! i = Some x -> subslice i (i + 1) l = [x].
Proof.
  intros Hi. unfold subslice. replace (i + 1 - i) with 1 by lia.
  by rewrite (drop_S _ _ _ Hi).
Qed.

(** The rearrangement, on a list cut at the two positions. *)
Lemma list_move_app l1 l2 x l3 :
  list_move (length l1) (length l1 + length l2) (l1 ++ l2 ++ x :: l3)
  = l1 ++ x :: l2 ++ l3.
Proof.
  unfold list_move. rewrite take_app_length. f_equal.
  rewrite (subslice_one _ _ x).
  2:{ rewrite lookup_app_r by lia. rewrite lookup_app_r by lia.
      by replace (length l1 + length l2 - length l1 - length l2) with 0 by lia. }
  simpl. f_equal. rewrite subslice_app_mid. f_equal.
  rewrite app_assoc.
  replace (length l1 + length l2 + 1) with (length ((l1 ++ l2) ++ [x]))
    by (rewrite !length_app; simpl; lia).
  change (x :: l3) with ([x] ++ l3).
  by rewrite (app_assoc (l1 ++ l2) [x] l3), drop_app_length.
Qed.

Lemma list_move_same i l : i < length l -> list_move i i l = l.
Proof.
  intros Hi. destruct (lookup_lt_is_Some_2 l i Hi) as [x Hx].
  rewrite <- (take_drop_middle l i x Hx) at 1.
  rewrite <- (take_drop_middle l i x Hx) at 3.
  pose proof (list_move_app (take i l) [] x (drop (S i) l)) as Hm.
  rewrite length_take, Nat.min_l in Hm by lia. simpl in Hm.
  by rewrite Nat.add_0_r in Hm.
Qed.

(** Writing two neighbours crosswise swaps them. *)
Lemma swap_adjacent l1 x y l3 :
  <[length l1 := x]> (<[S (length l1) := y]> (l1 ++ y :: x :: l3)) = l1 ++ x :: y :: l3.
Proof.
  rewrite insert_app_r_alt, (Nat.sub_succ_l _ _ (Nat.le_refl _)), Nat.sub_diag by lia.
  by rewrite insert_app_r_alt, Nat.sub_diag by lia.
Qed.

(** A list cut at two positions [i <= j] inside it. *)
Lemma list_cut i j l :
  i <= j < length l ->
  exists l1 l2 x l3,
    l = l1 ++ l2 ++ x :: l3 /\ length l1 = i /\ length l2 = j - i /\ l !! j = Some x.
Proof.
  intros Hij. destruct (lookup_lt_is_Some_2 l j) as [x Hx]; [lia|].
  exists (take i l), (subslice i j l), x, (drop (S j) l). split_and!.
  - rewrite <- (take_drop i l) at 1. f_equal. unfold subslice.
    rewrite <- (take_drop (j - i) (drop i l)) at 1. f_equal.
    rewrite drop_drop. replace (i + (j - i)) with j by lia.
    by apply drop_S.
  - rewrite length_take. lia.
  - apply subslice_length. lia.
  - done.
Qed.

Lemma list_move_cut i j l :
  i <= j < length l ->
  exists l1 l2 x l3,
    l = l1 ++ l2 ++ x :: l3 /\ list_move i j l = l1 ++ x :: l2 ++ l3 /\
    length l1 = i /\ length l2 = j - i.
Proof.
  intros Hij. destruct (list_cut i j l Hij) as (l1 & l2 & x & l3 & -> & <- & Hl2 & _).
  exists l1, l2, x, l3. split_and!; [done| |done|done].
  replace j with (length l1 + length l2) by lia. apply list_move_app.
Qed.

Lemma list_move_perm i j l : i <= j < length l -> list_move i j l ≡ₚ l.
Proof.
  intros Hij. destruct (list_move_cut i j l Hij) as (l1 & l2 & x & l3 & -> & -> & _).
  f_equiv. by rewrite Permutation_middle.
Qed.

Lemma length_list_move i j l : i <= j < length l -> length (list_move i j l) = length l.
Proof. intros Hij. by rewrite (list_move_perm i j l Hij). Qed.

(** The element moved is found at its new position. *)
Lemma list_move_lookup i j l : i <= j < length l -> list_move i j l !! i = l !! j.
Proof.
  intros Hij.
  destruct (list_move_cut i j l Hij) as (l1 & l2 & x & l3 & -> & -> & Hl1 & Hl2).
  rewrite lookup_app_r, (lookup_app_r l1) by lia.
  rewrite <- Hl1, Nat.sub_diag. simpl.
  rewrite lookup_app_r by lia. by replace (j - length l1 - length l2) with 0 by lia.
Qed.

(** Two lists rearranged the same way stay related position by position. *)
Lemma Forall2_list_move {B} (R : A -> B -> Prop) i j l (k : list B) :
  Forall2 R l k -> Forall2 R (list_move i j l) (list_move i j k).
Proof.
  intros HR. unfold list_move, subslice.
  repeat first [apply Forall2_app | apply Forall2_take | apply Forall2_drop | done].
Qed.

Lemma list_move_insert i j l x :
  i <= j < length l ->
  list_move i j (<[j := x]> l) = <[i := x]> (list_move i j l).
Proof.
  intros Hij.
  destruct (list_cut i j l Hij) as (l1 & l2 & y & l3 & -> & Hl1 & Hl2 & _).
  replace j with (length l1 + length l2) by lia. subst i.
  rewrite insert_app_r_alt, Nat.add_comm, Nat.add_sub by lia.
  rewrite insert_app_r_alt, Nat.sub_diag by lia. simpl.
  rewrite !(Nat.add_comm (length l2)), !list_move_app.
  rewrite insert_app_r_alt, Nat.sub_diag by lia. done.
Qed.

End lists.

(** ** Lemmas on [indexByte] *)

Lemma indexByte_Some c s i :
  indexByte c s = Some i <->
  s !! i = Some c /\ forall j y, s !! j = Some y -> j < i -> y <> c.
Proof.
  unfold indexByte. split.
  - destruct (list_find _ s) as [[j x]|] eqn:E; simpl; [|done].
    intros [= ->]. apply list_find_Some in E as (? & -> & ?). done.
  - intros [Hi Hlt]. erewrite (proj2 (list_find_Some _ s i c)); [done|].
    split_and!; done.
Qed.

Lemma indexByte_None c s : indexByte c s = None <-> c ∉ s.
Proof.
  unfold indexByte. rewrite fmap_None, list_find_None, Forall_forall.
  split; [intros H Hin; by apply (H c)|intros H x Hx ->; done].
Qed.

Lemma indexByte_lt c s i : indexByte c s = Some i -> i < length s.
Proof. intros [H _]%indexByte_Some. by apply lookup_lt_Some in H. Qed.

(** With pairwise distinct bytes the first match is the only one. *)
Lemma indexByte_NoDup c s i : NoDup s -> s !! i = Some c -> indexByte c s = Some i.
Proof.
  intros Hnd Hi. apply indexByte_Some. split; [done|].
  intros j y Hj Hlt ->. pose proof (NoDup_lookup _ _ _ _ Hnd Hi Hj). lia.
Qed.

(** ** Lemmas on machine integers *)

Lemma uint32_wrap_range z : (0 <= uint32_wrap z < 2 ^ 32)%Z.
Proof. unfold uint32_wrap. apply Z.mod_pos_bound. lia. Qed.

Lemma uint32_wrap_small z : (0 <= z < 2 ^ 32)%Z -> uint32_wrap z = z.
Proof. unfold uint32_wrap. apply Z.mod_small. Qed.

Lemma int8_wrap_range z : (-128 <= int8_wrap z <= 127)%Z.
Proof. unfold int8_wrap. pose proof (Z.mod_pos_bound (z + 128) 256). lia. Qed.

Lemma int8_wrap_small z : (-128 <= z <= 127)%Z -> int8_wrap z = z.
Proof. intros ?. unfold int8_wrap. rewrite Z.mod_small; lia. Qed.

#[export] Hint Resolve uint32_wrap_range int8_wrap_range : go.
#[export] Hint Rewrite @result_bind_ret @result_bind_assoc : go_rw.

(** ** Lemmas on [≫=] over an updated list *)

(** Replacing one element changes the bind by what the element
    contributes. *)
Lemma bind_insert_perm {A B} (f : A -> list B) (l : list A) j x y extra :
  l !! j = Some x -> f y ≡ₚ extra ++ f x ->
  <[j := y]> l ≫= f ≡ₚ extra ++ (l ≫= f).
Proof.
  intros Hj Hf. pose proof (lookup_lt_Some _ _ _ Hj).
  rewrite insert_take_drop by done.
  rewrite <- (take_drop_middle l j x Hj) at 3.
  rewrite !bind_app, !bind_cons, Hf, <- !(assoc_L (++)).
  apply Permutation_app_swap_app.
Qed.

Lemma head_drop {A} (l : list A) i : head (drop i l) = l !! i.
Proof. by rewrite head_lookup, lookup_drop, Nat.add_0_r. Qed.

Lemma head_take {A} (l : list A) i : 0 < i -> head (take i l) = head l.
Proof. destruct i, l; simpl; (done || lia). Qed.

Lemma head_app_nonempty {A} (l k : list A) : l ≠ [] -> head (l ++ k) = head l.
Proof. by destruct l. Qed.
