(* ===== verification/Utils.v ===== *)
(** * Utils: the helpers of [src/utils.go]

    [joinPaths], [lastChar], [assert1] and [resolveAddress].  [joinPaths]
    calls [path.Join] of Go's library: the class [PathLib] says what this
    development needs of it, the theorems are proved for every instance,
    and [reference_PathLib] is an instance, a join that cleans the path
    component by component. *)

From S2P Require Import Prelude.

(** [func lastChar(str string) uint8]: the last byte; panics on the empty
    string. *)
Definition lastChar (str : gostring) : result ascii :=
  if decide (str = []) then
    Panic (PanicMsg (bytes "The length of the string can't be 0"))
  else
    match str !! (length str - 1) with
    | Some c => Ok c
    | None => Panic PanicIndex
    end.

(** [func assert1(guard bool, text string)]: panics with [text] unless
    [guard] holds. *)
Definition assert1 (guard : bool) (text : gostring) : result unit :=
  if negb guard then Panic (PanicMsg text) else Ok tt.

(** [func resolveAddress(addr string) string]: the default port for the
    empty address. *)
Definition resolveAddress (addr : gostring) : gostring :=
  if decide (addr = []) then bytes ":8080" else addr.

(** What [joinPaths] needs of [path.Join]: the join of a path with a
    non-empty path is not empty, and the join of a rooted path is rooted. *)
Class PathLib : Type := {
  Join : gostring -> gostring -> gostring;
  Join_nonempty a b : b ≠ [] -> Join a b ≠ [];
  Join_rooted a b : head a = Some "/"%char -> head (Join a b) = Some "/"%char
}.

(** [func joinPaths(absolutePath, relativePath string) string]. *)
Definition joinPaths `{PathLib} (absolutePath relativePath : gostring) : result gostring :=
  if decide (relativePath = []) then Ok absolutePath
  else
    let finalPath := Join absolutePath relativePath in
    let* a := lastChar relativePath in
    if decide (a = "/"%char) then
      let* b := lastChar finalPath in
      if decide (b ≠ "/"%char) then Ok (finalPath ++ bytes "/") else Ok finalPath
    else Ok finalPath.

(** ** A reference instance of [PathLib] *)

(** The components of a path, between the slashes. *)
Fixpoint components (s cur : gostring) : list gostring :=
  match s with
  | [] => [reverse cur]
  | c :: s =>
      if decide (c = "/"%char) then reverse cur :: components s []
      else components s (c :: cur)
  end.

(** One component on the stack of the components kept so far, the last
    one first: [.] and the empty component are dropped, [..] takes the
    component before it away. *)
Definition push_component (rooted : bool) (stack : list gostring) (c : gostring) :
    list gostring :=
  if decide (c = [] \/ c = bytes ".") then stack
  else if decide (c = bytes "..") then
    match stack with
    | [] => if rooted then [] else [c]
    | top :: rest => if decide (top = bytes "..") then c :: stack else rest
    end
  else c :: stack.

(** The components joined with slashes. *)
Fixpoint with_slashes (cs : list gostring) : gostring :=
  match cs with
  | [] => []
  | [c] => c
  | c :: cs => c ++ "/"%char :: with_slashes cs
  end.

(** The shortest path that names what [p] names. *)
Definition reference_Clean (p : gostring) : gostring :=
  let rooted := bool_decide (head p = Some "/"%char) in
  let body := with_slashes (reverse (foldl (push_component rooted) [] (components p []))) in
  if rooted then "/"%char :: body
  else if decide (body = []) then bytes "." else body.

(** The join of the non-empty elements, cleaned. *)
Definition reference_Join (a b : gostring) : gostring :=
  if decide (a = []) then (if decide (b = []) then [] else reference_Clean b)
  else if decide (b = []) then reference_Clean a
  else reference_Clean (a ++ "/"%char :: b).

(** ** What the helpers compute *)

Lemma reference_Clean_nonempty p : reference_Clean p ≠ [].
Proof. unfold reference_Clean. repeat case_match; done. Qed.

Lemma reference_Clean_rooted p :
  head p = Some "/"%char -> head (reference_Clean p) = Some "/"%char.
Proof. intros Hp. unfold reference_Clean. by rewrite bool_decide_eq_true_2. Qed.

Lemma reference_Join_nonempty a b : b ≠ [] -> reference_Join a b ≠ [].
Proof.
  intros Hb. unfold reference_Join. repeat case_decide; auto using reference_Clean_nonempty.
Qed.

Lemma reference_Join_rooted a b :
  head a = Some "/"%char -> head (reference_Join a b) = Some "/"%char.
Proof.
  intros Ha. unfold reference_Join. repeat case_decide; subst; try done.
  all: apply reference_Clean_rooted; by destruct a.
Qed.

Definition reference_PathLib : PathLib :=
  {| Join := reference_Join;
     Join_nonempty := reference_Join_nonempty;
     Join_rooted := reference_Join_rooted |}.

Lemma assert1_true text : assert1 true text = Ok tt.
Proof. done. Qed.

Lemma assert1_false text : assert1 false text = Panic (PanicMsg text).
Proof. done. Qed.

Lemma assert1_Ok guard text : assert1 guard text = Ok tt <-> guard = true.
Proof. by destruct guard. Qed.

Lemma lastChar_snoc str c : lastChar (str ++ [c]) = Ok c.
Proof.
  unfold lastChar. rewrite decide_False by (by destruct str).
  rewrite length_app, Nat.add_sub. simpl. by rewrite list_lookup_middle.
Qed.

Lemma lastChar_last str : str ≠ [] -> lastChar str = from_option Ok (Panic PanicIndex) (last str).
Proof.
  intros Hne. destruct str as [|c str _] using rev_ind; [done|].
  by rewrite lastChar_snoc, last_snoc.
Qed.

(** [lastChar] returns exactly on the non-empty strings: the index it
    reads is always in range. *)
Lemma lastChar_is_ok str : is_ok (lastChar str) = bool_decide (str ≠ []).
Proof.
  destruct str as [|c str _] using rev_ind; [done|].
  rewrite lastChar_snoc. simpl. symmetry. apply bool_decide_eq_true. by destruct str.
Qed.

Lemma resolveAddress_nonempty addr : resolveAddress addr ≠ [].
Proof. unfold resolveAddress. by case_decide. Qed.

Lemma resolveAddress_idem addr : resolveAddress (resolveAddress addr) = resolveAddress addr.
Proof. unfold resolveAddress. repeat case_decide; done. Qed.

(** ** [joinPaths] *)

Section join.
Context `{PathLib}.

Lemma joinPaths_empty a : joinPaths a [] = Ok a.
Proof. done. Qed.

(** [joinPaths] never reaches the panic of [lastChar]. *)
Lemma joinPaths_Ok a r :
  exists p, joinPaths a r = Ok p /\
    (r = [] -> p = a) /\
    (r ≠ [] -> p = Join a r \/ p = Join a r ++ bytes "/").
Proof.
  unfold joinPaths. destruct (decide (r = [])) as [->|Hr]; [by eexists|].
  pose proof (Join_nonempty a r Hr) as Hj.
  rewrite !lastChar_last by done.
  destruct (last r) as [x|] eqn:Hx; [|by apply last_None in Hx].
  destruct (last (Join a r)) as [y|] eqn:Hy; [|by apply last_None in Hy].
  simpl. repeat case_decide; eexists; (split; [done|]); split; (done || auto).
Qed.

Lemma joinPaths_rooted a r p :
  head a = Some "/"%char -> joinPaths a r = Ok p -> head p = Some "/"%char.
Proof.
  intros Ha Hp. destruct (joinPaths_Ok a r) as (p' & Hp' & Hempty & Hne).
  rewrite Hp in Hp'. injection Hp' as <-.
  destruct (decide (r = [])) as [Hr|Hr]; [by rewrite Hempty|].
  pose proof (Join_rooted a r Ha) as Hj.
  destruct (Hne Hr) as [->| ->]; [done|]. by destruct (Join a r).
Qed.

(** A relative path that ends in a slash gives a path that ends in a
    slash. *)
Lemma joinPaths_slash a r p :
  last r = Some "/"%char -> joinPaths a r = Ok p -> last p = Some "/"%char.
Proof.
  intros Hr. unfold joinPaths. rewrite decide_False by (by intros ->).
  assert (r ≠ []) as Hne by (by intros ->).
  pose proof (Join_nonempty a r Hne) as Hj.
  rewrite !lastChar_last, Hr by done. simpl.
  destruct (last (Join a r)) as [y|] eqn:Hy; [|by apply last_None in Hy]. simpl.
  case_decide as Hy'; intros [= <-]; [by rewrite last_snoc|].
  rewrite Hy. f_equal. by destruct (decide (y = "/"%char)).
Qed.

End join.
