(* ===== verification/Tree.v ===== *)
(** * Tree: the radix tree of routes

    The Go struct [node] and its methods ([src/unnamed/part_003], from
    [type methodTree] on), translated function by function.  A method that
    mutates its receiver returns the new node; [addRoute]'s walk, which
    replaces [n] by one of its children and goes round its loop again,
    rebuilds the parent around the child the recursive call returns.

    The second half of the file states what each operation computes.  The
    invariant of the tree and the routes it denotes are in [TreeInv]. *)

From S2P Require Import Prelude.

(** ** Data *)

(** [type HandlersChain []HandlerFunc].  The tree stores chains and never
    calls a handler, so [HandlerFunc] is a parameter. *)
Definition HandlersChain (HandlerFunc : Type) : Type := slice HandlerFunc.

(** [HandlersChain.Last]: the last handler of the chain, [nil] for an
    empty chain. *)
Definition Last {HandlerFunc} (c : HandlersChain HandlerFunc) : option HandlerFunc :=
  match c with
  | Some l => if decide (0 < length l) then l !! (length l - 1) else None
  | None => None
  end.

Section tree.
Context {HandlerFunc : Type}.

(** [type node struct]. *)
#[warnings="-register-all"]
Inductive node : Type := Node {
  path : gostring;
  indices : gostring;
  priority : Z;
  children : list node;
  handlers : HandlersChain HandlerFunc;
  fullPath : gostring
}.

(** The zero value [node{}] ([new(node)], [&node{}]). *)
Definition zero_node : node :=
  {| path := []; indices := []; priority := 0; children := [];
     handlers := None; fullPath := [] |}.

(** ** Operations *)

(** [func min(a, b int) int]. *)
Definition min (a b : nat) : nat := if a <=? b then a else b.

(** The loop of [longestCommonPrefix]: [for i < max && a[i] == b[i] { i++ }],
    with [n = max - i] iterations left. *)
Fixpoint lcp_loop (n i : nat) (a b : gostring) : nat :=
  match n with
  | 0 => i
  | S n' =>
      match a !! i, b !! i with
      | Some x, Some y => if decide (x = y) then lcp_loop n' (S i) a b else i
      | _, _ => i
      end
  end.

(** [func longestCommonPrefix(a, b string) int]. *)
Definition longestCommonPrefix (a b : gostring) : nat :=
  let max := min (length a) (length b) in
  lcp_loop max 0 a b.

(** [cs[pos].priority++] on a [uint32]. *)
Definition incPriority (n : node) : node :=
  {| path := path n; indices := indices n;
     priority := uint32_wrap (priority n + 1);
     children := children n; handlers := handlers n; fullPath := fullPath n |}.

(** The reordering loop of [incrementChildPrio]:
    [for ; newPos > 0 && cs[newPos-1].priority < prio; newPos-- { swap }].
    It returns the slice and the final [newPos]. *)
Fixpoint bubble (cs : list node) (newPos : nat) (prio : Z) : list node * nat :=
  match newPos with
  | 0 => (cs, 0)
  | S k =>
      match cs !! k, cs !! newPos with
      | Some a, Some b =>
          if (priority a <? prio)%Z
          then bubble (<[k := b]> (<[newPos := a]> cs)) k prio
          else (cs, newPos)
      | _, _ => (cs, newPos)
      end
  end.

(** [func (n *node) incrementChildPrio(pos int) int]: the node after the
    call and the position returned.  [cs[pos]] panics out of range, and so
    do the slice expressions that rebuild [indices]. *)
Definition incrementChildPrio (n : node) (pos : nat) : result (node * nat) :=
  match children n !! pos with
  | None => Panic PanicIndex
  | Some c =>
      let cs := <[pos := incPriority c]> (children n) in
      let prio := priority (incPriority c) in
      let '(cs, newPos) := bubble cs pos prio in
      if decide (newPos ≠ pos) then
        if decide (pos + 1 <= length (indices n)) then
          Ok ({| path := path n; indices := list_move newPos pos (indices n);
                 priority := priority n; children := cs;
                 handlers := handlers n; fullPath := fullPath n |}, newPos)
        else Panic PanicSlice
      else
        Ok ({| path := path n; indices := indices n;
               priority := priority n; children := cs;
               handlers := handlers n; fullPath := fullPath n |}, newPos)
  end.

(** [func (n *node) insertChild(path, fullPath string, handlers HandlersChain)]. *)
Definition insertChild (n : node) (path' fullPath' : gostring)
    (handlers' : HandlersChain HandlerFunc) : node :=
  {| path := path'; indices := indices n; priority := priority n;
     children := children n; handlers := handlers'; fullPath := fullPath' |}.

(** [func (n *node) addChild(child *node)]. *)
Definition addChild (n child : node) : node :=
  {| path := path n; indices := indices n; priority := priority n;
     children := children n ++ [child];
     handlers := handlers n; fullPath := fullPath n |}.

(** The "split edge" block of [addRoute], taken when [i < len(n.path)]:
    the node's contents move into a new only child that keeps the rest of
    the segment, and the node keeps the common prefix [path[:i]]. *)
Definition splitEdge (n : node) (i : nat) (path' : gostring) : node :=
  let child :=
    {| path := drop i (path n); indices := indices n;
       priority := uint32_wrap (priority n - 1);
       children := children n; handlers := handlers n;
       fullPath := fullPath n |} in
  {| path := take i path'; indices := subslice i (i + 1) (path n);
     priority := priority n; children := [child];
     handlers := None; fullPath := fullPath n |}.

(** The message of the duplicate-route panic. *)
Definition duplicate_msg (fullPath' : gostring) : gostring :=
  bytes "handlers are already registered for path '" ++ fullPath' ++ bytes "'".

(** Replace the child at position [i]: the effect on [n] of the walk
    going on inside [n.children[i]]. *)
Definition set_child (n : node) (i : nat) (c : node) : node :=
  {| path := path n; indices := indices n; priority := priority n;
     children := <[i := c]> (children n);
     handlers := handlers n; fullPath := fullPath n |}.

(** The [walk] loop of [addRoute], one unit of fuel per iteration.  The
    fresh child of the last branch is built with its segment and handlers
    before it is appended: in Go [insertChild] writes them through the
    pointer after [incrementChildPrio] has moved the child, and the two
    touch different fields. *)
Fixpoint addRoute_walk (fuel : nat) (n : node) (path' fullPath' : gostring)
    (handlers' : HandlersChain HandlerFunc) : result node :=
  match fuel with
  | 0 => OutOfFuel
  | S fuel =>
      let i := longestCommonPrefix path' (path n) in
      let n := if decide (i < length (path n)) then splitEdge n i path' else n in
      if decide (i < length path') then
        let path' := drop i path' in
        match path' with
        | [] => Panic PanicIndex
        | c :: _ =>
            if decide (c = "/"%char ∧ length (children n) = 1) then
              match children n !! 0 with
              | None => Panic PanicIndex
              | Some ch =>
                  let* ch' := addRoute_walk fuel (incPriority ch) path' fullPath' handlers' in
                  Ok (set_child n 0 ch')
              end
            else
              match indexByte c (indices n) with
              | Some i =>
                  let* '(n, i) := incrementChildPrio n i in
                  match children n !! i with
                  | None => Panic PanicIndex
                  | Some ch =>
                      let* ch' := addRoute_walk fuel ch path' fullPath' handlers' in
                      Ok (set_child n i ch')
                  end
              | None =>
                  let child :=
                    insertChild
                      {| path := []; indices := []; priority := 0; children := [];
                         handlers := None; fullPath := fullPath' |}
                      path' fullPath' handlers' in
                  let n :=
                    {| path := path n; indices := indices n ++ [c];
                       priority := priority n; children := children n;
                       handlers := handlers n; fullPath := fullPath n |} in
                  let n := addChild n child in
                  let* '(n, _) := incrementChildPrio n (length (indices n) - 1) in
                  Ok n
              end
        end
      else
        match handlers n with
        | Some _ => Panic (PanicMsg (duplicate_msg fullPath'))
        | None =>
            Ok {| path := path n; indices := indices n; priority := priority n;
                  children := children n; handlers := handlers';
                  fullPath := fullPath' |}
        end
  end.

(** [func (n *node) addRoute(path string, handlers HandlersChain)]. *)
Definition addRoute (fuel : nat) (n : node) (path' : gostring)
    (handlers' : HandlersChain HandlerFunc) : result node :=
  let fullPath' := path' in
  let n := incPriority n in
  if decide (length (path n) = 0 ∧ length (children n) = 0) then
    Ok (insertChild n path' fullPath' handlers')
  else addRoute_walk fuel n path' fullPath' handlers'.

(** One iteration of the [walk] loop as a value: the loop either leaves
    [addRoute] ([StepDone]: a return or a panic), or goes round again
    ([StepDescend]) with [n] replaced by the child at position [i] of the
    node it has just updated and with the rest of the path.  [addRoute_walk]
    is the iteration of this step ([addRoute_walk_unfold]). *)
Inductive walk_step_result : Type :=
| StepDone (r : result node)
| StepDescend (parent : node) (i : nat) (child : node) (path' : gostring).

(** The end of the loop body, "otherwise add handle to current node":
    the path is used up at [n]. *)
Definition walk_finish (n : node) (fullPath' : gostring)
    (handlers' : HandlersChain HandlerFunc) : result node :=
  match handlers n with
  | Some _ => Panic (PanicMsg (duplicate_msg fullPath'))
  | None =>
      Ok {| path := path n; indices := indices n; priority := priority n;
            children := children n; handlers := handlers';
            fullPath := fullPath' |}
  end.

(** The block "make new node a child of this node", on the rest [path']
    of the path: the slash shortcut, the scan of [indices], or a fresh
    child. *)
Definition walk_child (n : node) (path' fullPath' : gostring)
    (handlers' : HandlersChain HandlerFunc) : walk_step_result :=
  match path' with
  | [] => StepDone (Panic PanicIndex)
  | c :: _ =>
      if decide (c = "/"%char ∧ length (children n) = 1) then
        match children n !! 0 with
        | None => StepDone (Panic PanicIndex)
        | Some ch => StepDescend n 0 (incPriority ch) path'
        end
      else
        match indexByte c (indices n) with
        | Some i =>
            match incrementChildPrio n i with
            | Ok (n, i) =>
                match children n !! i with
                | None => StepDone (Panic PanicIndex)
                | Some ch => StepDescend n i ch path'
                end
            | Panic v => StepDone (Panic v)
            | OutOfFuel => StepDone OutOfFuel
            end
        | None =>
            let child :=
              insertChild
                {| path := []; indices := []; priority := 0; children := [];
                   handlers := None; fullPath := fullPath' |}
                path' fullPath' handlers' in
            let n :=
              {| path := path n; indices := indices n ++ [c];
                 priority := priority n; children := children n;
                 handlers := handlers n; fullPath := fullPath n |} in
            let n := addChild n child in
            StepDone (let* '(n, _) := incrementChildPrio n (length (indices n) - 1) in
                      Ok n)
        end
  end.

(** The node after the "split edge" block. *)
Definition walk_split (n : node) (path' : gostring) : node :=
  let i := longestCommonPrefix path' (path n) in
  if decide (i < length (path n)) then splitEdge n i path' else n.

Definition walk_step (n : node) (path' fullPath' : gostring)
    (handlers' : HandlersChain HandlerFunc) : walk_step_result :=
  let i := longestCommonPrefix path' (path n) in
  let n := walk_split n path' in
  if decide (i < length path') then walk_child n (drop i path') fullPath' handlers'
  else StepDone (walk_finish n fullPath' handlers').

(** [n.children[i]] followed by the rest of the walk [k] inside that
    child. *)
Definition at_child {B} (k : node -> result B) : list node -> nat -> result B :=
  fix go (cs : list node) (i : nat) : result B :=
    match cs with
    | [] => Panic PanicIndex
    | ch :: cs' =>
        match i with
        | 0 => k ch
        | S i' => go cs' i'
        end
    end.

(** [func (n *node) getValue(path string) (handlers HandlersChain)]: each
    iteration of the [walk] loop moves to a child, so the loop is a
    recursion on the tree. *)
Fixpoint getValue (n : node) (path' : gostring) : result (HandlersChain HandlerFunc) :=
  let prefix := path n in
  if decide (length prefix < length path' ∧ take (length prefix) path' = prefix) then
    let path' := drop (length prefix) path' in
    match path' with
    | [] => Panic PanicIndex
    | idxc :: _ =>
        match indexByte idxc (indices n) with
        | Some i => at_child (fun ch => getValue ch path') (children n) i
        | None => Ok None
        end
    end
  else if decide (path' = prefix) then Ok (handlers n)
  else Ok None.

End tree.

Arguments node : clear implicits.
Arguments walk_step_result : clear implicits.

(** ** An induction principle that reaches the children *)

Section node_induction.
Context {HandlerFunc : Type}.
Variable P : node HandlerFunc -> Prop.
Hypothesis IH : forall n, Forall P (children n) -> P n.

Fixpoint node_ind' (n : node HandlerFunc) : P n :=
  IH n
    ((fix go (cs : list (node HandlerFunc)) : Forall P cs :=
        match cs with
        | [] => Forall_nil_2 P
        | c :: cs' => Forall_cons_2 P c cs' (node_ind' c) (go cs')
        end) (children n)).

End node_induction.

(** ** What the operations compute *)

Section tree_lemmas.
Context {HandlerFunc : Type}.
Implicit Types (n c : node HandlerFunc) (cs : list (node HandlerFunc)).
Implicit Types (a b p q : gostring) (hs : HandlersChain HandlerFunc).

Lemma min_spec (x y : nat) : min x y = Nat.min x y.
Proof. unfold min. destruct (Nat.leb_spec x y); lia. Qed.

(** *** [longestCommonPrefix] *)

Lemma lcp_loop_max_prefix k i a b :
  i + k = Nat.min (length a) (length b) ->
  take i a = take i b ->
  lcp_loop k i a b = i + length (max_prefix (drop i a) (drop i b)).2.
Proof.
  revert i. induction k as [|k IHk]; intros i Hk Hpre; simpl.
  - assert (drop i a = [] \/ drop i b = []) as [->| ->].
    { destruct (decide (length a <= length b)); [left|right]; apply drop_ge; lia. }
    + simpl. lia.
    + destruct (drop i a); simpl; lia.
  - destruct (lookup_lt_is_Some_2 a i) as [x Hx]; [lia|].
    destruct (lookup_lt_is_Some_2 b i) as [y Hy]; [lia|].
    rewrite Hx, Hy, (drop_S _ _ _ Hx), (drop_S _ _ _ Hy). simpl.
    unfold decide, decide_rel. destruct (Ascii.eq_dec x y) as [->|]; simpl; [|lia].
    rewrite IHk; [lia|lia|].
    by rewrite (take_S_r _ _ _ Hx), (take_S_r _ _ _ Hy), Hpre.
Qed.

(** The two strings split at the length returned: a common part, and
    rests that differ in their first byte when both have one. *)
Lemma longestCommonPrefix_split a b :
  exists k a' b',
    a = k ++ a' /\ b = k ++ b' /\ longestCommonPrefix a b = length k /\
    (forall x y, head a' = Some x -> head b' = Some y -> x <> y).
Proof.
  destruct (max_prefix a b) as [[a' b'] k] eqn:E.
  exists k, a', b'. split_and!.
  - by apply max_prefix_fst_alt in E.
  - by apply max_prefix_snd_alt in E.
  - unfold longestCommonPrefix. rewrite lcp_loop_max_prefix.
    + by rewrite !drop_0, E.
    + by rewrite min_spec.
    + done.
  - intros x y Hx Hy. destruct a' as [|x' a'], b' as [|y' b']; simplify_eq/=.
    by eapply max_prefix_max_snoc.
Qed.

Lemma longestCommonPrefix_app k a b :
  (forall x y, head a = Some x -> head b = Some y -> x <> y) ->
  longestCommonPrefix (k ++ a) (k ++ b) = length k.
Proof.
  intros Hne.
  destruct (longestCommonPrefix_split (k ++ a) (k ++ b)) as (k' & a' & b' & Ha & Hb & -> & Hne').
  destruct (decide (length k' = length k)) as [|Hlen]; [done|exfalso].
  assert (length k' < length k \/ length k < length k') as [Hlt|Hlt] by lia.
  - pose proof (f_equal (lookup (length k')) Ha) as Ha'.
    pose proof (f_equal (lookup (length k')) Hb) as Hb'.
    rewrite (lookup_app_l k), (lookup_app_r k') in Ha', Hb' by lia.
    rewrite Nat.sub_diag, <-!head_lookup in Ha', Hb'.
    destruct (lookup_lt_is_Some_2 k (length k') Hlt) as [x Hx].
    eapply (Hne' x x); congruence.
  - pose proof (f_equal (lookup (length k)) Ha) as Ha'.
    pose proof (f_equal (lookup (length k)) Hb) as Hb'.
    rewrite (lookup_app_l k'), (lookup_app_r k) in Ha', Hb' by lia.
    rewrite Nat.sub_diag, <-!head_lookup in Ha', Hb'.
    destruct (lookup_lt_is_Some_2 k' (length k) Hlt) as [x Hx].
    eapply (Hne x x); congruence.
Qed.

Lemma longestCommonPrefix_le a b :
  longestCommonPrefix a b <= length a /\ longestCommonPrefix a b <= length b.
Proof.
  destruct (longestCommonPrefix_split a b) as (k & a' & b' & -> & -> & -> & _).
  rewrite !length_app. lia.
Qed.

Lemma longestCommonPrefix_take a b :
  take (longestCommonPrefix a b) a = take (longestCommonPrefix a b) b.
Proof.
  destruct (longestCommonPrefix_split a b) as (k & a' & b' & -> & -> & Hl & _).
  rewrite Hl. by rewrite !take_app_length.
Qed.

(** The whole of [k] is common when [k] is a prefix of the other string. *)
Lemma longestCommonPrefix_prefix k a : longestCommonPrefix (k ++ a) k = length k.
Proof.
  rewrite <- (app_nil_r k) at 2. by apply longestCommonPrefix_app.
Qed.

Lemma longestCommonPrefix_diag a : longestCommonPrefix a a = length a.
Proof.
  pose proof (longestCommonPrefix_prefix a []) as H. by rewrite app_nil_r in H.
Qed.

(** Strings that start alike have a common prefix; strings that start
    differently have none. *)
Lemma longestCommonPrefix_pos a b x :
  head a = Some x -> head b = Some x -> 0 < longestCommonPrefix a b.
Proof.
  destruct (longestCommonPrefix_split a b) as (k & a' & b' & -> & -> & -> & Hne).
  destruct k; simpl; [|lia]. intros Ha Hb. by destruct (Hne x x).
Qed.

Lemma longestCommonPrefix_zero a b :
  head a ≠ head b -> longestCommonPrefix a b = 0.
Proof.
  destruct (longestCommonPrefix_split a b) as (k & a' & b' & -> & -> & -> & _).
  by destruct k.
Qed.

(** *** [incrementChildPrio] *)

(** The reordering loop moves the child at the end of [l1] leftwards past
    the longest run of siblings of strictly lower priority. *)
Lemma bubble_app (l1 : list (node HandlerFunc)) x l3 prio :
  exists l1a l1b,
    l1 = l1a ++ l1b /\
    bubble (l1 ++ x :: l3) (length l1) prio = (l1a ++ x :: l1b ++ l3, length l1a) /\
    Forall (fun y => (priority y < prio)%Z) l1b /\
    (forall y, last l1a = Some y -> (prio <= priority y)%Z).
Proof.
  revert l3. induction l1 as [|y l1 IH] using rev_ind; intros l3.
  - exists [], []. by split_and!.
  - rewrite length_app, Nat.add_1_r, <- (assoc_L (++)). simpl.
    rewrite (list_lookup_middle l1 _ y (length l1)) by done.
    rewrite lookup_app_r, (Nat.sub_succ_l _ _ (Nat.le_refl _)), Nat.sub_diag by lia.
    simpl. destruct (Z.ltb_spec (priority y) prio) as [Hlt|Hge].
    + rewrite swap_adjacent.
      destruct (IH (y :: l3)) as (l1a & l1b & -> & -> & Hlow & Hhigh).
      exists l1a, (l1b ++ [y]). split_and!.
      * by rewrite (assoc_L (++)).
      * by rewrite <- (assoc_L (++) l1b [y]).
      * apply Forall_app. split; [done|]. by constructor.
      * done.
    + exists (l1 ++ [y]), []. split_and!.
      * by rewrite app_nil_r.
      * by rewrite length_app, Nat.add_1_r, <- (assoc_L (++) l1 [y]).
      * constructor.
      * intros y'. rewrite last_snoc. by intros [= <-].
Qed.

(** The loop's result as a rearrangement of the slice. *)
Lemma bubble_move cs pos prio :
  pos < length cs ->
  exists newPos,
    bubble cs pos prio = (list_move newPos pos cs, newPos) /\ newPos <= pos.
Proof.
  intros Hpos. destruct (list_cut pos pos cs) as (l1 & l2 & x & l3 & -> & Hl1 & Hl2 & _); [lia|].
  destruct l2; [|simpl in Hl2; lia]. simpl. subst pos.
  destruct (bubble_app l1 x l3 prio) as (l1a & l1b & -> & -> & _).
  exists (length l1a). split; [|rewrite length_app; lia].
  f_equal. rewrite length_app, <- (assoc_L (++)). symmetry. apply list_move_app.
Qed.

(** [incrementChildPrio] on a position inside both [children] and
    [indices]: the child's priority is incremented, and child and index
    byte move to the position returned. *)
Lemma incrementChildPrio_Ok n pos c :
  children n !! pos = Some c ->
  pos < length (indices n) ->
  exists newPos,
    newPos <= pos /\
    incrementChildPrio n pos =
      Ok ({| path := path n; indices := list_move newPos pos (indices n);
             priority := priority n;
             children := <[newPos := incPriority c]> (list_move newPos pos (children n));
             handlers := handlers n; fullPath := fullPath n |}, newPos).
Proof.
  intros Hc Hidx. unfold incrementChildPrio. rewrite Hc.
  pose proof (lookup_lt_Some _ _ _ Hc) as Hpos.
  destruct (bubble_move (<[pos := incPriority c]> (children n)) pos
              (priority (incPriority c))) as (newPos & -> & Hle).
  { by rewrite length_insert. }
  exists newPos. split; [done|].
  rewrite list_move_insert by lia.
  destruct (decide (newPos ≠ pos)) as [Hne|Heq].
  - by rewrite decide_True by lia.
  - assert (newPos = pos) as -> by lia. by rewrite !list_move_same by lia.
Qed.

Lemma incrementChildPrio_Panic_index n pos :
  children n !! pos = None -> incrementChildPrio n pos = Panic PanicIndex.
Proof. intros Hc. unfold incrementChildPrio. by rewrite Hc. Qed.

(** *** [getValue] *)

Lemma at_child_lookup {B} (k : node HandlerFunc -> result B) cs i :
  at_child k cs i =
  match cs !! i with
  | Some ch => k ch
  | None => Panic PanicIndex
  end.
Proof. revert i. induction cs as [|c cs IH]; intros [|i]; simpl; auto. Qed.

(** One iteration of [getValue]'s loop. *)
Lemma getValue_unfold n p :
  getValue n p =
  if decide (length (path n) < length p /\ take (length (path n)) p = path n) then
    match drop (length (path n)) p with
    | [] => Panic PanicIndex
    | idxc :: _ =>
        match indexByte idxc (indices n) with
        | Some i =>
            match children n !! i with
            | Some ch => getValue ch (drop (length (path n)) p)
            | None => Panic PanicIndex
            end
        | None => Ok None
        end
    end
  else if decide (p = path n) then Ok (handlers n)
  else Ok None.
Proof.
  destruct n as [np ni npr ncs nh nf]. simpl.
  destruct (decide _); [|done]. destruct (drop _ p); [done|].
  destruct (indexByte _ _); [|done]. by rewrite at_child_lookup.
Qed.

(** *** [addRoute] *)

(** The walk is the iteration of [walk_step]. *)
Lemma addRoute_walk_unfold fuel n p fp hs :
  addRoute_walk (S fuel) n p fp hs =
  match walk_step n p fp hs with
  | StepDone r => r
  | StepDescend n' i ch p' =>
      let* ch' := addRoute_walk fuel ch p' fp hs in Ok (set_child n' i ch')
  end.
Proof.
  unfold walk_step, walk_child, walk_finish, walk_split. simpl.
  repeat (case_match; simplify_eq/=; try done).
Qed.

(** More fuel does not change a result that was reached. *)
Lemma addRoute_walk_mono fuel fuel' n p fp hs r :
  addRoute_walk fuel n p fp hs = r -> r <> OutOfFuel -> fuel <= fuel' ->
  addRoute_walk fuel' n p fp hs = r.
Proof.
  revert fuel' n p r. induction fuel as [|fuel IH]; intros fuel' n p r Hr Hne Hle.
  { simpl in Hr. congruence. }
  destruct fuel' as [|fuel']; [lia|]. subst r.
  rewrite !addRoute_walk_unfold in *.
  destruct (walk_step n p fp hs) as [r|n' i ch p']; [done|].
  destruct (addRoute_walk fuel ch p' fp hs) eqn:E; [| |done].
  all: by rewrite (IH fuel' _ _ _ E) by (done || lia).
Qed.

End tree_lemmas.
