(* ===== verification/Mode.v ===== *)
(** * Mode: the run mode and the debug output

    The first part of [src/unnamed/part_003]: the package variables [Mode]
    and [modeName], [SetMode], [IsDebugging], and the debug printers
    [debugPrint] and [debugPrintRoute].  The two variables are a record
    that the functions pass along; what is written to standard output is
    the list of the calls of [fmt.Fprintf] (format and values), in order.
    [nameOfFunction] ([src/utils.go]) asks the run time for the name of a
    function: the names are a parameter of the section. *)

From S2P Require Import Prelude Tree.

(** ** Constants *)

(** [const EnvMode = "MODE"]. *)
Definition EnvMode : gostring := bytes "MODE".

(** [debugCode = iota], [releaseCode], [testCode]. *)
Definition debugCode : Z := 0.
Definition releaseCode : Z := 1.
Definition testCode : Z := 2.

(** [DebugMode], [ReleaseMode], [TestMode]. *)
Definition DebugMode : gostring := bytes "debug".
Definition ReleaseMode : gostring := bytes "release".
Definition TestMode : gostring := bytes "test".

(** ** State and output *)

(** The package variables [Mode] and [modeName]. *)
Record mode_state : Type := ModeState {
  Mode : Z;
  modeName : gostring
}.

(** Their initial values: [Mode = debugCode], [modeName = DebugMode]. *)
Definition initial_mode : mode_state := {| Mode := debugCode; modeName := DebugMode |}.

(** A value passed to a printer. *)
Inductive value : Type :=
| VString (s : gostring)
| VInt (i : Z).

(** A call of [fmt.Fprintf(os.Stdout, format, values...)]. *)
Record output : Type := Fprintf {
  format : gostring;
  values : list value
}.

(** ** Operations *)

Definition SetMode_msg (value : gostring) : gostring :=
  bytes "hapi mode unknown: " ++ value ++ bytes " (available mode: debug release test)".

(** [func SetMode(value string)]: the panic of the [default] case leaves
    both variables as they are. *)
Definition SetMode (value : gostring) (st : mode_state) : result mode_state :=
  let value := if decide (value = []) then DebugMode else value in
  let* m :=
    if decide (value = DebugMode) then Ok debugCode
    else if decide (value = ReleaseMode) then Ok releaseCode
    else if decide (value = TestMode) then Ok testCode
    else Panic (PanicMsg (SetMode_msg value)) in
  Ok {| Mode := m; modeName := value |}.

(** [func init()], given the environment. *)
Definition init (getenv : gostring -> gostring) (st : mode_state) : result mode_state :=
  let mode := getenv EnvMode in
  SetMode mode st.

(** [func IsDebugging() bool]. *)
Definition IsDebugging (st : mode_state) : bool := bool_decide (Mode st = debugCode).

(** The string of the one byte ["\n"]. *)
Definition newline : gostring := ["010"%char].

(** [strings.HasSuffix]. *)
Definition HasSuffix (s suffix : gostring) : bool := bool_decide (suffix `suffix_of` s).

(** [func debugPrint(format string, values ...any)]. *)
Definition debugPrint (st : mode_state) (format : gostring) (values : list value) :
    list output :=
  if IsDebugging st then
    let format := if negb (HasSuffix format newline) then format ++ newline else format in
    [Fprintf (bytes "[hapi-debug] " ++ format) values]
  else [].

Section route.
Context {HandlerFunc : Type}.

(** The name the run time gives for a function. *)
Variable name : HandlerFunc -> gostring.

(** [func nameOfFunction(f any) string], on a [HandlerFunc]: the name of
    a [nil] function is empty. *)
Definition nameOfFunction (f : option HandlerFunc) : gostring :=
  match f with
  | Some f => name f
  | None => []
  end.

(** [func debugPrintRoute(httpMethod, absolutePath string, handlers
    HandlersChain)], given the variable [DebugPrintRouteFunc]. *)
Definition debugPrintRoute (st : mode_state)
    (DebugPrintRouteFunc : option (gostring -> gostring -> gostring -> Z -> list output))
    (httpMethod absolutePath : gostring) (handlers : HandlersChain HandlerFunc) :
    list output :=
  if IsDebugging st then
    let nuHandlers := Z.of_nat (slice_len handlers) in
    let handlerName := nameOfFunction (Last handlers) in
    match DebugPrintRouteFunc with
    | None =>
        debugPrint st (bytes "%-6s %-25s --> %s (%d handlers)" ++ newline)
          [VString httpMethod; VString absolutePath; VString handlerName; VInt nuHandlers]
    | Some f => f httpMethod absolutePath handlerName nuHandlers
    end
  else [].

End route.

(** ** Computations that print

    A function that prints and may panic: what it has printed, in
    order, and its result.  What was printed before a panic stays
    printed. *)
Definition logged (A : Type) : Type := list output * result A.

(** A function that prints nothing, and a call of a printer. *)
Definition log_lift {A} (r : result A) : logged A := ([], r).
Definition log_print (out : list output) : logged unit := (out, Ok tt).

(** One computation after another. *)
Definition log_bind {A B} (m : logged A) (k : A -> logged B) : logged B :=
  match m.2 with
  | Ok a => (m.1 ++ (k a).1, (k a).2)
  | Panic v => (m.1, Panic v)
  | OutOfFuel => (m.1, OutOfFuel)
  end.

Notation "'let+' x ':=' m 'in' k" := (log_bind m (fun x => k))
  (at level 10, x name, m at level 100, k at level 200, only parsing) : go_scope.
Notation "'let+' ' pat ':=' m 'in' k" := (log_bind m (fun pat => k))
  (at level 10, pat pattern, m at level 100, k at level 200, only parsing) : go_scope.

(** ** The invariant *)

(** [modeName] is the name of [Mode]. *)
Definition mode_ok (st : mode_state) : Prop :=
  (Mode st = debugCode /\ modeName st = DebugMode) \/
  (Mode st = releaseCode /\ modeName st = ReleaseMode) \/
  (Mode st = testCode /\ modeName st = TestMode).

(** ** The contract *)

(** [SetMode] accepts the empty string and the three names, sets
    both variables to the mode named (debug for the empty string), and
    panics with the message of the source on anything else, changing
    nothing. *)
Theorem SetMode_spec value st :
  SetMode value st =
  if decide (value = [] \/ value = DebugMode) then Ok (ModeState debugCode DebugMode)
  else if decide (value = ReleaseMode) then Ok (ModeState releaseCode ReleaseMode)
  else if decide (value = TestMode) then Ok (ModeState testCode TestMode)
  else Panic (PanicMsg (SetMode_msg value)).
Proof.
  unfold SetMode. repeat case_decide; subst; simpl; try done; tauto.
Qed.

(** Whatever the variables held, after [SetMode] has returned
    [modeName] is the name of [Mode]. *)
Theorem SetMode_mode_ok value st st' :
  SetMode value st = Ok st' -> mode_ok st'.
Proof.
  unfold SetMode, mode_ok. repeat case_decide; subst; simpl; intros [= <-]; simpl; tauto.
Qed.

(** Outside debug mode [debugPrint] prints nothing; in debug mode
    it prints one line, which begins with the prefix of the package and
    ends in a newline whether the format had one or not. *)
Theorem debugPrint_line st fmt vs :
  (IsDebugging st = false -> debugPrint st fmt vs = []) /\
  Forall (fun o => bytes "[hapi-debug] " `prefix_of` format o /\
                   HasSuffix (format o) newline = true /\ values o = vs)
    (debugPrint st fmt vs).
Proof.
  unfold debugPrint. destruct (IsDebugging st); [|by split]. split; [done|].
  apply Forall_singleton. cbn [format values]. split_and!; [by eexists| |done].
  unfold HasSuffix in *. apply bool_decide_eq_true.
  case_bool_decide as Hs; cbn [negb]; apply suffix_app_r; [done|by apply suffix_app_r].
Qed.

(** The route of a registration is printed only in debug mode, and
    then through [DebugPrintRouteFunc] when it is set, with the name of
    the last handler of the chain and the length of the chain. *)
Lemma debugPrintRoute_spec {HandlerFunc} (name : HandlerFunc -> gostring) st f m p hs :
  debugPrintRoute name st (Some f) m p hs =
  if IsDebugging st
  then f m p (from_option name [] (Last hs)) (Z.of_nat (slice_len hs))
  else [].
Proof. unfold debugPrintRoute, nameOfFunction. by destruct (IsDebugging st), (Last hs). Qed.

(** ** Computations that print *)

Section logged_lemmas.
Context {A B C : Type}.
Implicit Types (m : logged A) (r : result A) (out : list output).

(** The result of a sequence is the sequence of the results: what is
    printed does not change what is computed. *)
Lemma log_bind_result m (k : A -> logged B) :
  (log_bind m k).2 = result_bind m.2 (fun a => (k a).2).
Proof. unfold log_bind. by destruct m.2. Qed.

(** What a sequence prints: what the first computation prints, then
    what the second prints when the first has returned. *)
Lemma log_bind_output m (k : A -> logged B) :
  (log_bind m k).1 = m.1 ++ match m.2 with Ok a => (k a).1 | _ => [] end.
Proof. unfold log_bind. destruct m.2; simpl; by rewrite ?app_nil_r. Qed.

Lemma log_lift_bind r (k : A -> logged B) :
  log_bind (log_lift r) k = match r with Ok a => k a | Panic v => ([], Panic v)
                                       | OutOfFuel => ([], OutOfFuel) end.
Proof. unfold log_bind, log_lift. destruct r; simpl; [by destruct (k _)|done..]. Qed.

Lemma log_print_bind out (k : unit -> logged B) :
  log_bind (log_print out) k = (out ++ (k tt).1, (k tt).2).
Proof. done. Qed.

Lemma log_bind_lift m : log_bind m (fun a => log_lift (Ok a)) = m.
Proof. unfold log_bind. destruct m as [out []]; simpl; by rewrite ?app_nil_r. Qed.

Lemma log_bind_assoc m (k : A -> logged B) (k' : B -> logged C) :
  log_bind (log_bind m k) k' = log_bind m (fun a => log_bind (k a) k').
Proof.
  unfold log_bind. destruct m as [out [a| |]]; simpl; [|done..].
  destruct (k a) as [out' [b| |]]; simpl; by rewrite ?(assoc_L (++)).
Qed.

End logged_lemmas.

(** ** Witnesses *)

Lemma SetMode_mode_ok_witness : mode_ok (ModeState releaseCode ReleaseMode).
Proof.
  apply (SetMode_mode_ok ReleaseMode initial_mode). reflexivity.
Defined.
