(* ===== verification/TreeInv.v ===== *)
(** * TreeInv: the invariant of the tree and the routes it denotes

    [wf_node] and [wf_root] say when a tree is well formed: the index
    string of a node holds the first bytes of its children, in order and
    without repetition, and only the root's segment may be empty.
    [routes] lists the (path, handlers) pairs a tree registers and [table]
    is the finite map they form.  The main result is that [getValue]
    implements lookup in [table], and never panics, on a well-formed
    tree; the order of the children, which the priorities decide, does not
    matter. *)

From stdpp Require Import gmap.
From S2P Require Import Prelude Tree.

(** ** Sample trees, for the witnesses *)

(** The tree of the routes [/hi] and [/contact]. *)
Definition sample_tree : node nat :=
  {| path := bytes "/"; indices := bytes "hc"; priority := 2;
     children :=
       [ {| path := bytes "hi"; indices := []; priority := 1; children := [];
            handlers := Some [1]; fullPath := bytes "/hi" |};
         {| path := bytes "contact"; indices := []; priority := 1; children := [];
            handlers := Some [2]; fullPath := bytes "/contact" |} ];
     handlers := None; fullPath := bytes "/hi" |}.

(** The same routes with the children in the other order. *)
Definition sample_tree_swapped : node nat :=
  {| path := bytes "/"; indices := bytes "ch"; priority := 2;
     children :=
       [ {| path := bytes "contact"; indices := []; priority := 1; children := [];
            handlers := Some [2]; fullPath := bytes "/contact" |};
         {| path := bytes "hi"; indices := []; priority := 1; children := [];
            handlers := Some [1]; fullPath := bytes "/hi" |} ];
     handlers := None; fullPath := bytes "/hi" |}.

Section inv.
Context {HandlerFunc : Type}.
Implicit Types (n c ch : node HandlerFunc) (cs : list (node HandlerFunc)).
Implicit Types (p q : gostring) (h : list HandlerFunc).

(** ** The invariant *)

(** [indices] names the first bytes of [children], position by position. *)
Definition aligned (idx : gostring) cs : Prop :=
  Forall2 (fun b ch => head (path ch) = Some b) idx cs.

(** The edges out of a node: aligned, and no byte twice. *)
Definition wf_edges n : Prop :=
  NoDup (indices n) /\ aligned (indices n) (children n).

#[global] Instance aligned_dec idx cs : Decision (aligned idx cs).
Proof. unfold aligned. apply _. Defined.

#[global] Instance wf_edges_dec n : Decision (wf_edges n).
Proof. unfold wf_edges. apply _. Defined.

(** A node below the root, as a boolean: a non-empty segment,
    well-formed edges, well-formed children. *)
Fixpoint wf_nodeb n : bool :=
  bool_decide (path n ≠ []) && bool_decide (wf_edges n) && forallb wf_nodeb (children n).

Definition wf_node n : Prop := wf_nodeb n = true.

(** What every node satisfies, the root included. *)
Definition wf_children n : Prop :=
  wf_edges n /\ Forall wf_node (children n).

(** The root: its segment may be empty, and the tree that [addRoute]
    takes for empty (no segment, no children) registers nothing. *)
Definition wf_rootb n : bool :=
  bool_decide (wf_edges n) && forallb wf_nodeb (children n) &&
  match path n, children n, handlers n with
  | [], [], Some _ => false
  | _, _, _ => true
  end.

Definition wf_root n : Prop := wf_rootb n = true.

(** ** The routes of a tree *)

(** The route a node registers itself. *)
Definition own_route n : list (gostring * list HandlerFunc) :=
  match handlers n with
  | Some h => [(path n, h)]
  | None => []
  end.

(** The routes of the tree under [n], as paths from [n]: its own, and
    those of its children behind its segment. *)
Fixpoint routes n : list (gostring * list HandlerFunc) :=
  own_route n ++ (prod_map (app (path n)) id <$> (children n ≫= routes)).

(** The table of routes: the abstract state of the tree. *)
Definition table n : gmap gostring (list HandlerFunc) := list_to_map (routes n).

(** ** Unfolding the invariant *)

Lemma wf_node_unfold n :
  wf_node n <-> path n ≠ [] /\ wf_children n.
Proof.
  unfold wf_node, wf_children. destruct n as [np ni npr ncs nh nf]. simpl.
  rewrite !andb_true_iff, !bool_decide_eq_true, forallb_forall, Forall_forall.
  setoid_rewrite <- list_elem_of_In. tauto.
Qed.

Lemma wf_root_unfold n :
  wf_root n <->
  wf_children n /\ (path n = [] -> children n = [] -> handlers n = None).
Proof.
  unfold wf_root, wf_rootb, wf_children.
  rewrite !andb_true_iff, !bool_decide_eq_true, forallb_forall, Forall_forall.
  setoid_rewrite <- list_elem_of_In.
  destruct (path n), (children n), (handlers n); intuition (done || congruence).
Qed.

Lemma wf_node_children n : wf_node n -> wf_children n.
Proof. by intros [_ ?]%wf_node_unfold. Qed.

Lemma wf_node_path n : wf_node n -> path n ≠ [].
Proof. by intros [? _]%wf_node_unfold. Qed.

Lemma wf_root_children n : wf_root n -> wf_children n.
Proof. by intros [? _]%wf_root_unfold. Qed.

Lemma wf_node_root n : wf_node n -> wf_root n.
Proof.
  intros [Hp Hc]%wf_node_unfold. apply wf_root_unfold. split; [done|].
  by intros ?.
Qed.

(** Alignment, position by position. *)
Lemma aligned_lookup idx cs i ch :
  aligned idx cs -> cs !! i = Some ch -> idx !! i = head (path ch).
Proof.
  intros Ha Hc. destruct (Forall2_lookup_r _ _ _ _ _ Ha Hc) as (b & -> & ->). done.
Qed.

Lemma aligned_length idx cs : aligned idx cs -> length idx = length cs.
Proof. apply Forall2_length. Qed.

(** Under the invariant the index scan finds exactly the child that
    starts with the byte. *)
Lemma wf_edges_index n i ch b :
  wf_edges n -> children n !! i = Some ch -> head (path ch) = Some b ->
  indexByte b (indices n) = Some i.
Proof.
  intros [Hnd Ha] Hc Hb. apply indexByte_NoDup; [done|].
  by rewrite (aligned_lookup _ _ _ _ Ha Hc).
Qed.

Lemma wf_edges_child n i b :
  wf_edges n -> indexByte b (indices n) = Some i ->
  exists ch, children n !! i = Some ch /\ head (path ch) = Some b.
Proof.
  intros [_ Ha] [Hi _]%indexByte_Some.
  destruct (Forall2_lookup_l _ _ _ _ _ Ha Hi) as (ch & ? & ?). eauto.
Qed.

(** ** Unfolding the routes *)

Lemma routes_unfold n :
  routes n = own_route n ++ (prod_map (app (path n)) id <$> (children n ≫= routes)).
Proof. by destruct n. Qed.

Lemma elem_of_own_route n p h :
  (p, h) ∈ own_route n <-> p = path n /\ handlers n = Some h.
Proof.
  unfold own_route. destruct (handlers n) as [h'|].
  - rewrite list_elem_of_singleton. split; [by intros [= -> ->]|by intros [-> [= ->]]].
  - rewrite elem_of_nil. split; [done|by intros [_ ?]].
Qed.

(** A route of [n] is its own or a route of a child behind its segment. *)
Lemma elem_of_routes n p h :
  (p, h) ∈ routes n <->
  (p = path n /\ handlers n = Some h) \/
  exists ch p', ch ∈ children n /\ p = path n ++ p' /\ (p', h) ∈ routes ch.
Proof.
  rewrite routes_unfold, elem_of_app, elem_of_own_route, list_elem_of_fmap.
  setoid_rewrite list_elem_of_bind. split.
  - intros [?|([p' h'] & [= -> ->] & ch & ? & ?)]; [by left|right; eauto].
  - intros [?|(ch & p' & ? & -> & ?)]; [by left|right].
    exists (p', h). eauto.
Qed.

(** Every route of a node starts with the node's segment. *)
Lemma routes_prefix n p h : (p, h) ∈ routes n -> exists p', p = path n ++ p'.
Proof.
  intros [[-> _]|(ch & p' & _ & -> & _)]%elem_of_routes.
  - exists []. by rewrite app_nil_r.
  - by exists p'.
Qed.

Lemma routes_head n p h : wf_node n -> (p, h) ∈ routes n -> head p = head (path n).
Proof.
  intros Hp%wf_node_path [p' ->]%routes_prefix. by destruct (path n).
Qed.

(** The priority plays no part in the routes. *)
Lemma routes_incPriority n : routes (incPriority n) = routes n.
Proof. by rewrite !routes_unfold. Qed.

(** ** [getValue] implements lookup *)

(** What [getValue] returns is registered. *)
Lemma getValue_sound n p h : getValue n p = Ok (Some h) -> (p, h) ∈ routes n.
Proof.
  revert p. induction n as [n IH] using node_ind'. intros p.
  rewrite getValue_unfold, elem_of_routes.
  destruct (decide _) as [[Hlen Htake]|_].
  - destruct (drop _ p) as [|b p'] eqn:Hdrop; [done|].
    destruct (indexByte _ _) as [i|]; [|done].
    destruct (children n !! i) as [ch|] eqn:Hch; [|done].
    intros Hget. right. exists ch, (b :: p'). split_and!.
    + by eapply list_elem_of_lookup_2.
    + by rewrite <- Htake, <- Hdrop, take_drop.
    + rewrite Forall_forall in IH. eapply IH; [|done].
      by eapply list_elem_of_lookup_2.
  - destruct (decide _) as [->|]; [|done]. intros [= ?]. by left.
Qed.

(** What is registered is what [getValue] returns. *)
Lemma getValue_complete n p h :
  wf_children n -> (p, h) ∈ routes n -> getValue n p = Ok (Some h).
Proof.
  revert p. induction n as [n IH] using node_ind'. intros p [He Hcs].
  rewrite getValue_unfold.
  intros [[-> Hh]|(ch & p' & Hch & -> & Hp')]%elem_of_routes.
  - rewrite decide_False by (intros [? _]; lia). by rewrite decide_True, Hh.
  - rewrite Forall_forall in IH, Hcs.
    pose proof (Hcs _ Hch) as Hwf.
    pose proof (routes_head _ _ _ Hwf Hp') as Hhd.
    destruct p' as [|b p']; [by destruct (wf_node_path _ Hwf), (path ch)|].
    rewrite take_app_length, drop_app_length.
    rewrite decide_True by (rewrite length_app; simpl; split; [lia|done]).
    apply list_elem_of_lookup in Hch as [i Hi].
    rewrite (wf_edges_index n i ch b) by done. rewrite Hi.
    apply IH; [by eapply list_elem_of_lookup_2|by apply wf_node_children|done].
Qed.

(** On a well-formed tree no index of [getValue] is out of range. *)
Lemma getValue_no_panic n p : wf_children n -> exists r, getValue n p = Ok r.
Proof.
  revert p. induction n as [n IH] using node_ind'. intros p [He Hcs].
  rewrite getValue_unfold.
  destruct (decide _) as [[Hlen Htake]|_]; [|destruct (decide _); eauto].
  destruct (drop _ p) as [|b p'] eqn:Hdrop.
  { apply (f_equal length) in Hdrop. rewrite length_drop in Hdrop. simpl in Hdrop. lia. }
  destruct (indexByte _ _) as [i|] eqn:Hi; [|eauto].
  destruct (wf_edges_child n i b He Hi) as (ch & Hch & _). rewrite Hch.
  rewrite Forall_forall in IH, Hcs.
  apply IH; [|apply wf_node_children, Hcs]; by eapply list_elem_of_lookup_2.
Qed.

(** A path is registered at most once. *)
Lemma routes_functional n p h h' :
  wf_children n -> (p, h) ∈ routes n -> (p, h') ∈ routes n -> h = h'.
Proof.
  intros Hwf H1%(getValue_complete _ _ _ Hwf) H2%(getValue_complete _ _ _ Hwf).
  congruence.
Qed.

Lemma lookup_table n p h :
  wf_children n -> table n !! p = Some h <-> (p, h) ∈ routes n.
Proof.
  intros Hwf. unfold table. symmetry. apply elem_of_list_to_map'.
  intros h' ??. by eapply routes_functional.
Qed.

Lemma getValue_table n p : wf_children n -> getValue n p = Ok (table n !! p).
Proof.
  intros Hwf. destruct (getValue_no_panic n p Hwf) as [[h|] Hr]; rewrite Hr; f_equal.
  - symmetry. by apply lookup_table, getValue_sound.
  - destruct (table n !! p) as [h|] eqn:Hlk; [|done].
    apply lookup_table, (getValue_complete _ _ _ Hwf) in Hlk; [congruence|done].
Qed.

(** Tables are equal when the routes are the same up to order. *)
Lemma table_perm n n' :
  wf_children n -> wf_children n' -> routes n ≡ₚ routes n' -> table n = table n'.
Proof.
  intros Hwf Hwf' Hperm. apply map_eq. intros p. apply option_eq. intros h.
  rewrite !lookup_table by done. by rewrite Hperm.
Qed.

(** One more route in the list is one more binding in the table. *)
Lemma table_insert_perm n n' p h :
  wf_children n -> wf_children n' -> routes n' ≡ₚ (p, h) :: routes n ->
  table n' = <[p := h]> (table n).
Proof.
  intros Hwf Hwf' Hr. apply map_eq. intros q. apply option_eq. intros h'.
  rewrite lookup_insert_Some, !lookup_table, Hr, elem_of_cons by done.
  split; [|by intros [[-> ->]|[_ ?]]; [left|right]].
  intros [[= -> ->]|Hin]; [by left|].
  destruct (decide (p = q)) as [->|]; [left|by right]. split; [done|].
  eapply (routes_functional n'); [done|rewrite Hr..]; rewrite elem_of_cons; eauto.
Qed.

(** ** The contract of [getValue] *)

(** [C2] Refinement: on a well-formed tree [getValue] returns, without
    panicking, exactly what the table of routes holds for the path: the
    registered chain for a registered path and [nil] for any other. *)
Theorem getValue_refines n p :
  wf_root n -> getValue n p = Ok (table n !! p).
Proof. intros Hwf. by apply getValue_table, wf_root_children. Qed.

(** Soundness of lookup, with no assumption on the tree: a chain
    that [getValue] returns for a path is registered under that path. *)
Theorem getValue_registered n p h :
  getValue n p = Ok (Some h) -> (p, h) ∈ routes n.
Proof. apply getValue_sound. Qed.

(** The priorities never change what is found: two well-formed
    trees whose routes are the same up to order, as are a tree and any
    reordering of its children by [incrementChildPrio], answer every
    lookup alike. *)
Theorem getValue_order_irrelevant n n' p :
  wf_root n -> wf_root n' -> routes n ≡ₚ routes n' ->
  getValue n p = getValue n' p.
Proof.
  intros Hwf%wf_root_children Hwf'%wf_root_children Hperm.
  by rewrite !getValue_table, (table_perm n n').
Qed.

End inv.

(** ** Witnesses *)

Lemma getValue_refines_witness :
  getValue sample_tree (bytes "/hi") = Ok (table sample_tree !! bytes "/hi").
Proof. apply (getValue_refines sample_tree (bytes "/hi")). reflexivity. Defined.

Lemma getValue_registered_witness :
  (bytes "/contact", [2]) ∈ routes sample_tree.
Proof. apply (getValue_registered sample_tree (bytes "/contact") [2]). reflexivity. Defined.

Lemma getValue_order_irrelevant_witness :
  getValue sample_tree (bytes "/contact") = getValue sample_tree_swapped (bytes "/contact").
Proof.
  apply (getValue_order_irrelevant sample_tree sample_tree_swapped (bytes "/contact"));
    [reflexivity|reflexivity|].
  apply perm_swap.
Defined.
