(* ===== verification/TreeInsert.v ===== *)
(** * TreeInsert: [addRoute] implements insertion

    [addRoute] keeps the tree well formed and adds exactly the route it is
    given to the table of the tree ([TreeInv.table]); registering a path
    twice panics; and the walk is analysed far enough to say when it
    returns: the fuel [length path + 1] is enough whenever any fuel is,
    and the walk diverges when the "slash" shortcut takes it into an only
    child that does not start with a slash.

    The proofs follow the loop body, cut as [Tree.walk_step] cuts it: the
    split of the edge, the end of the path, the choice of a child. *)

From stdpp Require Import gmap.
From S2P Require Import Prelude Tree TreeInv.

(** ** Sample trees, for the witnesses *)

(** [sample_tree] after [addRoute] of [/co], which splits [contact]. *)
Definition sample_tree_co : node nat :=
  Eval vm_compute in
    match addRoute 9 sample_tree (bytes "/co") (Some [3]) with
    | Ok t => t
    | _ => zero_node
    end.

(** A leaf that does not start with a slash. *)
Definition sample_leaf : node nat :=
  {| path := bytes "b"; indices := []; priority := 1; children := [];
     handlers := Some [2]; fullPath := bytes "/ab" |}.

Section insert.
Context {HandlerFunc : Type}.
Implicit Types (n c ch : node HandlerFunc) (cs : list (node HandlerFunc)).
Implicit Types (p q fp : gostring) (b : ascii) (h : list HandlerFunc).
Implicit Types (hs : HandlersChain HandlerFunc).

(** The route a call of [addRoute] registers: none for a [nil] chain. *)
Definition new_route p hs : list (gostring * list HandlerFunc) :=
  match hs with
  | Some h => [(p, h)]
  | None => []
  end.

(** The leaf [addRoute] appends when no child starts with the next byte. *)
Definition fresh_leaf p fp hs : node HandlerFunc :=
  {| path := p; indices := []; priority := 0; children := [];
     handlers := hs; fullPath := fp |}.

(** Put [k] in front of the path of every route. *)
Definition behind (k : gostring) (rs : list (gostring * list HandlerFunc)) :
    list (gostring * list HandlerFunc) :=
  prod_map (app k) id <$> rs.

#[local] Arguments behind : simpl never.

(** What an iteration that goes round again leaves behind: the node [n2]
    it has updated, still well formed and with the routes of [n1], and in
    it, at position [j], the child [ch] the walk continues in (up to its
    priority), which starts with the next byte of the path unless the
    slash shortcut chose it. *)
Definition descends n1 p n2 (j : nat) ch : Prop :=
  wf_children n2 /\ path n2 = path n1 /\ routes n2 ≡ₚ routes n1 /\
  (exists ch0, children n2 !! j = Some ch0 /\ path ch0 = path ch /\
               routes ch0 = routes ch) /\
  wf_node ch /\ (head (path ch) = head p \/ head p = Some "/"%char).

(** What an iteration that returns leaves behind: a well-formed node with
    the routes of [n1] and the new one. *)
Definition returns n1 p hs (r : result (node HandlerFunc)) : Prop :=
  exists n', r = Ok n' /\ wf_children n' /\ path n' = path n1 /\
    (path n' = [] -> children n' ≠ []) /\
    routes n' ≡ₚ new_route p hs ++ routes n1.

(** What the walk promises for a node below the root that it enters with
    the rest [p] of the path, within [fuel] iterations: if it returns, the
    node is well formed, starts as before and has the new route. *)
Definition walk_inner_spec (fuel : nat) fp hs : Prop :=
  forall ch p ch',
    wf_node ch -> p ≠ [] ->
    head (path ch) = head p \/ head p = Some "/"%char ->
    addRoute_walk fuel ch p fp hs = Ok ch' ->
    wf_node ch' /\ head (path ch') = head (path ch) /\
    routes ch' ≡ₚ new_route p hs ++ routes ch.

(** ** Routes of an updated node *)

Lemma behind_new_route k p hs : behind k (new_route p hs) = new_route (k ++ p) hs.
Proof. by destruct hs. Qed.

Lemma behind_behind k k' rs : behind k (behind k' rs) = behind (k ++ k') rs.
Proof.
  unfold behind. rewrite <- list_fmap_compose. apply list_fmap_ext.
  intros _ [p h] _. simpl. by rewrite (assoc_L (++)).
Qed.

Lemma behind_nil rs : behind [] rs = rs.
Proof.
  unfold behind. rewrite <- (list_fmap_id rs) at 2. apply list_fmap_ext.
  by intros _ [p h] _.
Qed.

Lemma routes_behind n :
  routes n = own_route n ++ behind (path n) (children n ≫= routes).
Proof. apply routes_unfold. Qed.

(** A node that registers nothing itself and has one child. *)
Lemma routes_only_child n c :
  children n = [c] -> handlers n = None -> routes n = behind (path n) (routes c).
Proof.
  intros Hc Hh. rewrite routes_behind. unfold own_route. rewrite Hh, Hc. simpl.
  by rewrite app_nil_r.
Qed.

(** A node with the content of [n] and the end of its segment. *)
Lemma routes_same_content c n k :
  children c = children n -> handlers c = handlers n -> path n = k ++ path c ->
  behind k (routes c) = routes n.
Proof.
  intros Hc Hh Hp. rewrite !routes_behind. unfold own_route.
  rewrite Hc, Hh, Hp. unfold behind at 1. rewrite fmap_app, <- behind_behind.
  by destruct (handlers n).
Qed.

(** A node whose children contribute [extra] more routes. *)
Lemma routes_children_perm n n' extra :
  path n' = path n -> handlers n' = handlers n ->
  children n' ≫= routes ≡ₚ extra ++ (children n ≫= routes) ->
  routes n' ≡ₚ behind (path n) extra ++ routes n.
Proof.
  intros Hp Hh Hcs. rewrite !routes_behind. unfold own_route, behind.
  rewrite Hp, Hh, Hcs, fmap_app. apply Permutation_app_swap_app.
Qed.

(** ** The invariant of an updated node *)

Lemma wf_nodeb_incPriority n : wf_nodeb (incPriority n) = wf_nodeb n.
Proof. by destruct n. Qed.

Lemma wf_node_incPriority n : wf_node n -> wf_node (incPriority n).
Proof. unfold wf_node. by rewrite wf_nodeb_incPriority. Qed.

Lemma wf_node_intro n : path n ≠ [] -> wf_children n -> wf_node n.
Proof. intros. by apply wf_node_unfold. Qed.

(** ** [set_child]: the walk went on inside a child *)

Lemma set_child_wf n j c0 c' :
  wf_children n -> children n !! j = Some c0 ->
  wf_node c' -> head (path c') = head (path c0) ->
  wf_children (set_child n j c').
Proof.
  intros [[Hnd Ha] Hcs] Hj Hwf Hhd. split; [split|]; simpl; [done| |].
  - unfold aligned in *.
    destruct (Forall2_lookup_r _ _ _ _ _ Ha Hj) as (b & Hb & Hb').
    rewrite <- (list_insert_id (indices n) j b Hb).
    apply Forall2_insert; [done|congruence].
  - by apply Forall_insert.
Qed.

Lemma set_child_routes n j c0 c' extra :
  children n !! j = Some c0 -> routes c' ≡ₚ extra ++ routes c0 ->
  routes (set_child n j c') ≡ₚ behind (path n) extra ++ routes n.
Proof.
  intros Hj Hc'. apply routes_children_perm; [done..|]. simpl.
  by eapply bind_insert_perm.
Qed.

(** ** The split of an edge *)

Lemma splitEdge_wf n i p :
  wf_children n -> i < length (path n) -> wf_children (splitEdge n i p).
Proof.
  intros Hwf Hi. destruct (lookup_lt_is_Some_2 _ _ Hi) as [b Hb].
  split; [split|]; simpl.
  - rewrite (subslice_one _ _ _ Hb). apply NoDup_singleton.
  - rewrite (subslice_one _ _ _ Hb). repeat constructor. simpl.
    by rewrite head_drop.
  - repeat constructor. apply wf_node_intro; simpl; [|done].
    intros Hnil%(f_equal length). rewrite length_drop in Hnil. simpl in Hnil. lia.
Qed.

Lemma splitEdge_routes n i p :
  take i p = take i (path n) -> routes (splitEdge n i p) = routes n.
Proof.
  intros Hp. erewrite routes_only_child by done.
  apply routes_same_content; simpl; [done..|]. by rewrite Hp, take_drop.
Qed.

(** The node after the "split edge" block: well formed, with the common
    prefix for its segment and the routes it had. *)
Lemma walk_split_spec n p :
  wf_children n ->
  wf_children (walk_split n p) /\
  path (walk_split n p) = take (longestCommonPrefix p (path n)) p /\
  routes (walk_split n p) = routes n.
Proof.
  intros Hwf. unfold walk_split.
  pose proof (longestCommonPrefix_le p (path n)) as [_ Hle].
  pose proof (longestCommonPrefix_take p (path n)) as Htake.
  destruct (decide _) as [Hlt|Hge].
  - split_and!; [by apply splitEdge_wf|done|by apply splitEdge_routes].
  - split_and!; [done| |done]. rewrite Htake, take_ge; [done|lia].
Qed.

(** ** [incrementChildPrio] under the invariant *)

(** Moving a child and its index byte together keeps the edges well
    formed. *)
Lemma moved_wf_edges (idx : gostring) cs i j c :
  NoDup idx -> aligned idx cs -> i <= j -> cs !! j = Some c ->
  NoDup (list_move i j idx) /\
  aligned (list_move i j idx) (<[i := incPriority c]> (list_move i j cs)).
Proof.
  intros Hnd Ha Hij Hj. pose proof (lookup_lt_Some _ _ _ Hj) as Hlt.
  pose proof (aligned_length _ _ Ha) as Hlen.
  split; [by rewrite list_move_perm by lia|].
  destruct (Forall2_lookup_r _ _ _ _ _ Ha Hj) as (b & Hb & Hb').
  rewrite <- (list_insert_id (list_move i j idx) i b)
    by (rewrite list_move_lookup by lia; done).
  apply Forall2_insert; [by apply Forall2_list_move|done].
Qed.

Lemma incrementChildPrio_wf n pos c :
  wf_children n -> children n !! pos = Some c ->
  exists n' newPos,
    incrementChildPrio n pos = Ok (n', newPos) /\
    wf_children n' /\ path n' = path n /\ handlers n' = handlers n /\
    children n' !! newPos = Some (incPriority c) /\
    children n' ≫= routes ≡ₚ children n ≫= routes.
Proof.
  intros [[Hnd Ha] Hcs] Hc. pose proof (lookup_lt_Some _ _ _ Hc) as Hlt.
  destruct (incrementChildPrio_Ok n pos c Hc) as (newPos & Hle & ->).
  { by rewrite (aligned_length _ _ Ha). }
  eexists _, _. split; [done|]. simpl.
  assert (list_move newPos pos (children n) !! newPos = Some c) as Hnew
    by (rewrite list_move_lookup by lia; done).
  split_and!; [split| | | |].
  - by apply moved_wf_edges.
  - simpl. apply Forall_insert; [by rewrite list_move_perm by lia|].
    apply wf_node_incPriority. by eapply Forall_lookup_1.
  - done.
  - done.
  - apply list_lookup_insert_eq. rewrite length_list_move; lia.
  - rewrite (bind_insert_perm routes _ _ c _ []); [|done|by rewrite routes_incPriority].
    simpl. by rewrite list_move_perm by lia.
Qed.

(** ** The end of the path: [walk_finish] *)

Lemma walk_finish_None n fp hs :
  wf_children n -> handlers n = None ->
  exists n', walk_finish n fp hs = Ok n' /\
    wf_children n' /\ path n' = path n /\ children n' = children n /\
    routes n' = new_route (path n) hs ++ routes n.
Proof.
  intros Hwf Hh. unfold walk_finish. rewrite Hh. eexists. split; [done|].
  split_and!; [done..|]. rewrite !routes_behind. unfold own_route. simpl.
  rewrite Hh. by destruct hs.
Qed.

Lemma walk_finish_Some n fp hs h :
  handlers n = Some h ->
  walk_finish n fp hs = Panic (PanicMsg (duplicate_msg fp)).
Proof. intros Hh. unfold walk_finish. by rewrite Hh. Qed.

(** ** The choice of a child: [walk_child] *)

(** The slash shortcut. *)
Lemma walk_child_slash n ch0 p fp hs :
  wf_children n -> children n = [ch0] -> head p = Some "/"%char ->
  exists ch, walk_child n p fp hs = StepDescend n 0 ch p /\ descends n p n 0 ch.
Proof.
  intros Hwf Hcs Hp. destruct p as [|c p]; simplify_eq/=.
  exists (incPriority ch0). unfold walk_child.
  rewrite decide_True by (by rewrite Hcs). rewrite Hcs. simpl. split; [done|].
  split_and!; [done..| | |by right].
  - exists ch0. rewrite Hcs, routes_incPriority. by split_and!.
  - apply wf_node_incPriority. destruct Hwf as [_ Hall]. rewrite Hcs in Hall.
    by inversion_clear Hall.
Qed.

(** A child that starts with the next byte. *)
Lemma walk_child_index n b p fp hs i :
  wf_children n -> ¬ (b = "/"%char /\ length (children n) = 1) ->
  indexByte b (indices n) = Some i ->
  exists n2 j ch,
    walk_child n (b :: p) fp hs = StepDescend n2 j ch (b :: p) /\
    descends n (b :: p) n2 j ch.
Proof.
  intros Hwf Hno Hi. destruct (wf_edges_child n i b (proj1 Hwf) Hi) as (ch0 & Hch0 & Hhd).
  destruct (incrementChildPrio_wf n i ch0 Hwf Hch0)
    as (n2 & j & Hinc & Hwf2 & Hp2 & Hh2 & Hj & Hperm).
  exists n2, j, (incPriority ch0). unfold walk_child.
  rewrite decide_False by done. rewrite Hi, Hinc, Hj. split; [done|].
  split_and!; [done..| | | |by left].
  - rewrite <- (app_nil_l (routes n)), <- (fmap_nil (prod_map (app (path n)) id)).
    by apply (routes_children_perm n n2 []).
  - by exists (incPriority ch0).
  - apply wf_node_incPriority. destruct Hwf as [_ Hall]. by eapply Forall_lookup_1.
Qed.

Lemma fresh_leaf_wf p fp hs : p ≠ [] -> wf_node (fresh_leaf p fp hs).
Proof.
  intros Hp. apply wf_node_intro; [done|]. repeat split; simpl; constructor.
Qed.

Lemma fresh_leaf_routes p fp hs : routes (fresh_leaf p fp hs) = new_route p hs.
Proof. rewrite routes_behind. unfold own_route. simpl. destruct hs; by rewrite ?app_nil_r. Qed.

(** The node with the leaf appended, before its priority is counted. *)
Lemma appended_wf n b p fp hs :
  wf_children n -> b ∉ indices n ->
  wf_children
    (addChild
       {| path := path n; indices := indices n ++ [b]; priority := priority n;
          children := children n; handlers := handlers n; fullPath := fullPath n |}
       (fresh_leaf (b :: p) fp hs)).
Proof.
  intros [[Hnd Ha] Hcs] Hc. split; [split|]; simpl.
  - apply NoDup_app. split_and!; [done| |apply NoDup_singleton].
    intros x Hx ->%list_elem_of_singleton. done.
  - apply Forall2_app; [done|]. by repeat constructor.
  - apply Forall_app. split; [done|]. apply Forall_singleton. by apply fresh_leaf_wf.
Qed.

Lemma walk_child_fresh n b p fp hs :
  wf_children n -> ¬ (b = "/"%char /\ length (children n) = 1) ->
  indexByte b (indices n) = None ->
  exists r, walk_child n (b :: p) fp hs = StepDone r /\
            returns n (path n ++ b :: p) hs r.
Proof.
  intros Hwf Hno Hi%indexByte_None. unfold walk_child.
  rewrite decide_False by done. rewrite (proj2 (indexByte_None _ _) Hi).
  eexists. split; [done|]. fold (fresh_leaf (b :: p) fp hs).
  pose proof (appended_wf n b p fp hs Hwf Hi) as Hwf2.
  set (n2 := addChild _ _) in *.
  destruct (incrementChildPrio_wf n2 (length (indices n2) - 1) (fresh_leaf (b :: p) fp hs))
    as (n3 & j & -> & Hwf3 & Hp3 & Hh3 & Hj & Hperm); [done| |].
  { simpl. rewrite length_app, (aligned_length _ _ (proj2 (proj1 Hwf))). simpl.
    rewrite Nat.add_sub. by apply list_lookup_middle. }
  simpl. exists n3. split_and!; [done..| |].
  - intros _ Hnil. by rewrite Hnil in Hj.
  - rewrite <- behind_new_route, <- (fresh_leaf_routes _ fp).
    apply routes_children_perm; [done..|]. rewrite Hperm. simpl.
    rewrite bind_app. simpl. rewrite app_nil_r. apply Permutation_app_comm.
Qed.

(** The three cases together. *)
Lemma walk_child_spec n p fp hs :
  wf_children n -> p ≠ [] ->
  match walk_child n p fp hs with
  | StepDone r => returns n (path n ++ p) hs r
  | StepDescend n2 j ch p' => p' = p /\ descends n p n2 j ch
  end.
Proof.
  intros Hwf Hp. destruct p as [|b p]; [done|].
  destruct (decide (b = "/"%char /\ length (children n) = 1)) as [[-> Hlen]|Hno].
  - destruct (children n) as [|ch0 [|]] eqn:Hcs; try done.
    destruct (walk_child_slash n ch0 ("/"%char :: p) fp hs) as (ch & -> & ?); done.
  - destruct (indexByte b (indices n)) as [i|] eqn:Hi.
    + destruct (walk_child_index n b p fp hs i) as (n2 & j & ch & -> & ?); done.
    + destruct (walk_child_fresh n b p fp hs) as (r & -> & ?); done.
Qed.

(** ** One iteration: [walk_step] *)

Lemma walk_step_spec n p fp hs :
  wf_children n -> p ≠ [] ->
  match walk_step n p fp hs with
  | StepDone r =>
      r = Panic (PanicMsg (duplicate_msg fp)) \/ returns (walk_split n p) p hs r
  | StepDescend n2 j ch p' =>
      p = path (walk_split n p) ++ p' /\ p' ≠ [] /\ descends (walk_split n p) p' n2 j ch
  end.
Proof.
  intros Hwf Hp. destruct (walk_split_spec n p Hwf) as (Hwf1 & Hp1 & _).
  pose proof (longestCommonPrefix_le p (path n)) as [Hle _].
  unfold walk_step. destruct (decide _) as [Hlt|Hge].
  - assert (drop (longestCommonPrefix p (path n)) p ≠ []) as Hne.
    { intros Hnil%(f_equal length). rewrite length_drop in Hnil. simpl in Hnil. lia. }
    pose proof (walk_child_spec _ _ fp hs Hwf1 Hne) as Hchild.
    rewrite Hp1, take_drop in Hchild.
    destruct (walk_child _ _ _ _); [by right|]. destruct Hchild as [-> ?].
    by rewrite Hp1, take_drop.
  - rewrite take_ge in Hp1 by lia.
    destruct (handlers (walk_split n p)) as [h0|] eqn:Hh.
    + left. by eapply walk_finish_Some.
    + right. destruct (walk_finish_None _ fp hs Hwf1 Hh) as (n' & -> & ? & Hp' & _ & Hr).
      exists n'. split_and!; [done..| |by rewrite Hr, Hp1]. congruence.
Qed.

(** The walk went on inside [ch] and came back with [ch']. *)
Lemma descends_returns n1 p' n2 j ch ch' hs :
  descends n1 p' n2 j ch -> wf_node ch' -> head (path ch') = head (path ch) ->
  routes ch' ≡ₚ new_route p' hs ++ routes ch ->
  returns n1 (path n1 ++ p') hs (Ok (set_child n2 j ch')).
Proof.
  intros (Hwf2 & Hp2 & Hr2 & (ch0 & Hj & Hpc & Hrc) & _) Hwf' Hhd' Hr'.
  exists (set_child n2 j ch'). split_and!; [done| |done| |].
  - eapply set_child_wf; [done..|]. by rewrite Hpc.
  - intros _ Hnil%(f_equal length). simpl in Hnil. rewrite length_insert in Hnil.
    apply lookup_lt_Some in Hj. lia.
  - rewrite <- Hrc in Hr'. rewrite (set_child_routes _ _ _ _ _ Hj Hr').
    by rewrite behind_new_route, Hp2, Hr2.
Qed.

(** ** The divergence of the walk *)

(** Taken into a node that does not start with a slash, with a slash as
    the next byte of the path, the walk splits the node at length 0,
    takes the slash shortcut into the only child, which is the node it
    came from, and so on for ever. *)
Lemma walk_slash_diverges fuel n p fp hs :
  path n ≠ [] -> head (path n) ≠ Some "/"%char -> head p = Some "/"%char ->
  addRoute_walk fuel n p fp hs = OutOfFuel.
Proof.
  revert n. induction fuel as [|fuel IH]; intros n Hne Hhd Hp; [done|].
  rewrite addRoute_walk_unfold. unfold walk_step, walk_split.
  rewrite longestCommonPrefix_zero by congruence.
  assert (0 < length (path n)) by (destruct (path n); simpl; (done || lia)).
  destruct p as [|b p]; simplify_eq/=.
  destruct (decide (0 < length (path n))); [|done]. simpl. by rewrite IH.
Qed.

(** ** The walk as a whole *)

(** One iteration on top of walks that keep their promise. *)
Lemma walk_S_returns fuel n p fp hs n' :
  walk_inner_spec fuel fp hs -> wf_children n -> p ≠ [] ->
  addRoute_walk (S fuel) n p fp hs = Ok n' ->
  returns (walk_split n p) p hs (Ok n').
Proof.
  intros IH Hwf Hp. rewrite addRoute_walk_unfold.
  pose proof (walk_step_spec n p fp hs Hwf Hp) as Hstep.
  destruct (walk_step n p fp hs) as [r|n2 j ch p'].
  - intros ->. by destruct Hstep.
  - destruct Hstep as (Hpeq & Hp' & Hd).
    destruct (addRoute_walk fuel ch p' fp hs) as [ch'| |] eqn:E; [|done..].
    intros [= <-]. pose proof Hd as (_ & _ & _ & _ & Hwfch & Hhd).
    destruct (IH ch p' ch') as (? & ? & ?); [done..|].
    rewrite Hpeq at 2. by eapply descends_returns.
Qed.

Lemma walk_inner fuel fp hs : walk_inner_spec fuel fp hs.
Proof.
  induction fuel as [|fuel IH]; intros n p n' Hwf Hp Hhd Hwalk; [done|].
  destruct (decide (head (path n) = head p)) as [Heq|Hne].
  2:{ destruct Hhd as [?|Hsl]; [done|].
      rewrite walk_slash_diverges in Hwalk; [done|by apply wf_node_path|congruence|done]. }
  pose proof (wf_node_children _ Hwf) as Hwfc.
  apply walk_S_returns in Hwalk as (? & [= <-] & Hwf' & Hp' & _ & Hr'); [|done..].
  destruct (walk_split_spec n p Hwfc) as (_ & Hp1 & Hr1).
  destruct p as [|b p]; [done|].
  assert (0 < longestCommonPrefix (b :: p) (path n)) as Hpos
    by (by eapply longestCommonPrefix_pos).
  rewrite Hp1 in Hp'. split_and!.
  - apply wf_node_intro; [|done]. rewrite Hp'.
    destruct (longestCommonPrefix _ _); [lia|done].
  - by rewrite Hp', head_take.
  - by rewrite Hr', Hr1.
Qed.

(** ** [addRoute] on the root *)

Lemma wf_rootb_incPriority n : wf_rootb (incPriority n) = wf_rootb n.
Proof. by destruct n. Qed.

(** The empty tree takes the path as the segment of the root. *)
Lemma insertChild_empty n p hs :
  wf_root n -> p ≠ [] -> path n = [] -> children n = [] ->
  wf_root (insertChild n p p hs) /\
  routes (insertChild n p p hs) = new_route p hs ++ routes n.
Proof.
  intros [[He Hcs] Hnone]%wf_root_unfold Hp Hpn Hcn. split.
  - apply wf_root_unfold. split; [by split|]. simpl. by intros ->.
  - rewrite !routes_behind. unfold own_route. simpl.
    rewrite (Hnone Hpn Hcn), Hcn. simpl. by destruct hs.
Qed.

Lemma addRoute_Ok fuel n p hs n' :
  wf_root n -> p ≠ [] -> addRoute fuel n p hs = Ok n' ->
  wf_root n' /\ routes n' ≡ₚ new_route p hs ++ routes n.
Proof.
  intros Hwf Hp. unfold addRoute. rewrite <- (routes_incPriority n).
  unfold wf_root in Hwf. rewrite <- wf_rootb_incPriority in Hwf.
  set (n0 := incPriority n) in *. destruct (decide _) as [[Hpn Hcn]|_].
  - intros [= <-]. apply length_zero_iff_nil in Hpn, Hcn.
    destruct (insertChild_empty n0 p hs) as [? ->]; done.
  - destruct fuel as [|fuel]; [done|]. intros Hwalk.
    pose proof (wf_root_children _ Hwf) as Hwfc.
    apply walk_S_returns in Hwalk as (? & [= <-] & Hwf' & _ & Hnonempty & Hr');
      [|apply walk_inner|done..].
    destruct (walk_split_spec n0 p Hwfc) as (_ & _ & Hr1).
    split; [|by rewrite Hr', Hr1]. apply wf_root_unfold. split; [done|].
    intros ??. by destruct Hnonempty.
Qed.

(** ** The contract of [addRoute] *)

(** [C1] Refinement: a call of [addRoute] that returns, on a well-formed
    tree and a non-empty path, leaves a well-formed tree whose table of
    routes is the old table with the path bound to the chain. *)
Theorem addRoute_refines fuel n p h n' :
  wf_root n -> p ≠ [] -> addRoute fuel n p (Some h) = Ok n' ->
  wf_root n' /\ table n' = <[p := h]> (table n).
Proof.
  intros Hwf Hp Hadd. destruct (addRoute_Ok _ _ _ _ _ Hwf Hp Hadd) as [Hwf' Hr].
  split; [done|]. by apply table_insert_perm; [apply wf_root_children..|].
Qed.

(** [C3] Round trip: after [addRoute] has registered a chain under a
    path, [getValue] on the new tree returns that chain for that path. *)
Theorem getValue_addRoute fuel n p h n' :
  wf_root n -> p ≠ [] -> addRoute fuel n p (Some h) = Ok n' ->
  getValue n' p = Ok (Some h).
Proof.
  intros Hwf Hp Hadd. destruct (addRoute_Ok _ _ _ _ _ Hwf Hp Hadd) as [Hwf' Hr].
  apply getValue_complete; [by apply wf_root_children|].
  rewrite Hr. simpl. by left.
Qed.

(** [C8] Frame: [addRoute] changes the answer of [getValue] for no path
    but the one it registers. *)
Theorem getValue_addRoute_other fuel n p hs n' q :
  wf_root n -> p ≠ [] -> addRoute fuel n p hs = Ok n' -> q ≠ p ->
  getValue n' q = getValue n q.
Proof.
  intros Hwf Hp Hadd Hq. destruct (addRoute_Ok _ _ _ _ _ Hwf Hp Hadd) as [Hwf' Hr].
  pose proof (wf_root_children _ Hwf). pose proof (wf_root_children _ Hwf').
  rewrite !getValue_table by done. f_equal. apply option_eq. intros h'.
  rewrite !lookup_table, Hr, elem_of_app by done.
  split; [intros [Hin|]|by right]; [|done]. destruct hs; simpl in Hin; [|by inversion Hin].
  apply list_elem_of_singleton in Hin. by simplify_eq.
Qed.

(** [C5] Invariant: [addRoute] keeps the tree well formed, whatever chain
    it is given, [nil] included. *)
Theorem addRoute_wf fuel n p hs n' :
  wf_root n -> p ≠ [] -> addRoute fuel n p hs = Ok n' -> wf_root n'.
Proof. intros Hwf Hp Hadd. by destruct (addRoute_Ok _ _ _ _ _ Hwf Hp Hadd). Qed.

End insert.

(** ** Witnesses *)

Lemma addRoute_refines_witness :
  wf_root sample_tree_co /\
  table sample_tree_co = <[bytes "/co" := [3]]> (table sample_tree).
Proof.
  apply (addRoute_refines 9 sample_tree (bytes "/co") [3] sample_tree_co);
    [reflexivity|discriminate|reflexivity].
Defined.

Lemma getValue_addRoute_witness :
  getValue sample_tree_co (bytes "/co") = Ok (Some [3]).
Proof.
  apply (getValue_addRoute 9 sample_tree (bytes "/co") [3] sample_tree_co);
    [reflexivity|discriminate|reflexivity].
Defined.

Lemma getValue_addRoute_other_witness :
  getValue sample_tree_co (bytes "/contact") = getValue sample_tree (bytes "/contact").
Proof.
  apply (getValue_addRoute_other 9 sample_tree (bytes "/co") (Some [3]) sample_tree_co);
    [reflexivity|discriminate|reflexivity|discriminate].
Defined.

Lemma addRoute_wf_witness : wf_root sample_tree_co.
Proof.
  apply (addRoute_wf 9 sample_tree (bytes "/co") (Some [3]) sample_tree_co);
    [reflexivity|discriminate|reflexivity].
Defined.

