(* ===== verification/TreeFuel.v ===== *)
(** * TreeFuel: how long the walk of [addRoute] runs

    The [walk] loop of [node.addRoute] ([src/unnamed/part_003]) has no
    bound in the source; [Tree.addRoute_walk] gives it one unit of fuel per
    iteration.  This file shows what the fuel means:

    - every iteration below the root uses up at least one byte of the path,
      unless it takes the slash shortcut into a child that does not start
      with a slash, and from there the loop never ends;
    - so [S (length p)] iterations decide the call: the result with that
      fuel is the result with any larger fuel, and [OutOfFuel] with that
      fuel is [OutOfFuel] with every fuel, that is, a loop that does not
      terminate;
    - a tree with a node whose only child does not start with a slash, as
      after [/a] and [/ab], makes [addRoute] loop on [/a/...];
    - registering a registered path again panics with the message of the
      source. *)

From S2P Require Import Prelude Tree TreeInv TreeInsert.

(** ** Sample trees, for the witnesses *)

(** The tree after [addRoute] of [/a] and of [/ab]: the root [/a] with the
    only child [b]. *)
Definition sample_a_ab : node nat :=
  Eval vm_compute in
    match
      (let* t := addRoute 9 zero_node (bytes "/a") (Some [1]) in
       addRoute 9 t (bytes "/ab") (Some [2]))
    with
    | Ok t => t
    | _ => zero_node
    end.

Section fuel.
Context {HandlerFunc : Type}.
Implicit Types (n c ch : node HandlerFunc) (cs : list (node HandlerFunc)).
Implicit Types (p q fp : gostring) (b : ascii) (h : list HandlerFunc).
Implicit Types (hs : HandlersChain HandlerFunc).

(** The state of the walk when it enters a node below the root with the
    rest [p] of the path: the index scan chose a child that starts with
    the next byte, the slash shortcut chose the only child. *)
Definition enters n p : Prop :=
  wf_node n /\ p ≠ [] /\ (head (path n) = head p \/ head p = Some "/"%char).

(** ** One iteration *)

Lemma walk_step_descend n p fp hs n2 j ch p' :
  wf_children n -> p ≠ [] -> walk_step n p fp hs = StepDescend n2 j ch p' ->
  enters ch p' /\ length p' + longestCommonPrefix p (path n) = length p.
Proof.
  intros Hwf Hp Hs. pose proof (walk_step_spec n p fp hs Hwf Hp) as H.
  rewrite Hs in H. destruct H as (Hpp & Hp' & Hd).
  destruct (walk_split_spec n p Hwf) as (_ & Hpath & _).
  split; [unfold enters, descends in *; tauto|].
  rewrite Hpath in Hpp. apply (f_equal length) in Hpp.
  rewrite length_app, length_take in Hpp.
  pose proof (longestCommonPrefix_le p (path n)). lia.
Qed.

(** The iteration that follows a registered path goes into the child that
    holds the route. *)
Lemma walk_child_registered n ch q h fp hs :
  wf_children n -> ch ∈ children n -> (q, h) ∈ routes ch ->
  exists n2 j, walk_child n q fp hs = StepDescend n2 j (incPriority ch) q.
Proof.
  intros Hwf Hch Hq. pose proof Hwf as [He Hcs]. rewrite Forall_forall in Hcs.
  pose proof (routes_head _ _ _ (Hcs _ Hch) Hq) as Hhd.
  destruct q as [|b q]; [by destruct (wf_node_path _ (Hcs _ Hch)); destruct (path ch)|].
  unfold walk_child. destruct (decide _) as [[_ Hone]|Hno].
  - destruct (children n) as [|c [|]] eqn:Hc; simplify_eq/=.
    apply list_elem_of_singleton in Hch as ->. by eexists _, _.
  - apply list_elem_of_lookup in Hch as [i Hi].
    rewrite (wf_edges_index n i ch b) by done.
    destruct (incrementChildPrio_wf n i ch) as (n' & j & -> & _ & _ & _ & -> & _);
      [done..|].
    by eexists _, _.
Qed.

(** ** The walk below the root *)

(** Fuel beyond the length of the rest of the path changes nothing. *)
Lemma walk_fuel f f' n p fp hs :
  enters n p -> length p <= f -> length p <= f' ->
  addRoute_walk f n p fp hs = addRoute_walk f' n p fp hs.
Proof.
  revert f' n p. induction f as [|f IH]; intros f' n p (Hwf & Hp & Hhd) Hf Hf'.
  { destruct p; simpl in *; [done|lia]. }
  destruct f' as [|f']; [destruct p; simpl in *; [done|lia]|].
  destruct (decide (head (path n) = head p)) as [Heq|Hne].
  2:{ destruct Hhd as [?|Hsl]; [done|].
      by rewrite !walk_slash_diverges by (done || by apply wf_node_path || congruence). }
  rewrite !addRoute_walk_unfold.
  destruct (walk_step n p fp hs) as [r|n2 j ch p'] eqn:Hs; [done|].
  destruct (walk_step_descend _ _ _ _ _ _ _ _ (wf_node_children _ Hwf) Hp Hs) as [He Hlen].
  assert (0 < longestCommonPrefix p (path n)).
  { destruct p as [|x p]; [done|]. by apply (longestCommonPrefix_pos _ _ x). }
  by rewrite (IH f' ch p') by (done || lia).
Qed.

(** The walk along a registered path ends in the duplicate-route panic. *)
Lemma walk_registered f n p h fp hs :
  wf_children n -> (p, h) ∈ routes n -> length p - length (path n) < f ->
  addRoute_walk f n p fp hs = Panic (PanicMsg (duplicate_msg fp)).
Proof.
  revert n p. induction f as [|f IH]; intros n p Hwf Hin Hf; [lia|].
  rewrite addRoute_walk_unfold. unfold walk_step, walk_split.
  apply elem_of_routes in Hin as [[-> Hh]|(ch & q & Hch & -> & Hq)].
  - rewrite longestCommonPrefix_diag, !decide_False by lia.
    by apply walk_finish_Some with h.
  - pose proof Hwf as [_ Hcs]. rewrite Forall_forall in Hcs.
    destruct (routes_prefix _ _ _ Hq) as [q' ->].
    pose proof (wf_node_path _ (Hcs _ Hch)) as Hne.
    assert (0 < length (path ch)) by (destruct (path ch); simpl; (done || lia)).
    rewrite longestCommonPrefix_prefix, drop_app_length.
    rewrite (decide_False (P := _ < length (path n))) by lia.
    rewrite decide_True by (rewrite !length_app; lia).
    destruct (walk_child_registered n ch _ h fp hs Hwf Hch Hq) as (n2 & j & ->).
    rewrite (IH (incPriority ch) _); [done| |by rewrite routes_incPriority|].
    + by apply wf_node_children, wf_node_incPriority, Hcs.
    + revert Hf. simpl. rewrite !length_app. lia.
Qed.

(** ** The call *)

Lemma addRoute_mono fuel fuel' n p hs r :
  addRoute fuel n p hs = r -> r <> OutOfFuel -> fuel <= fuel' ->
  addRoute fuel' n p hs = r.
Proof.
  unfold addRoute. case_decide; [done|]. apply addRoute_walk_mono.
Qed.

Lemma addRoute_fuel f f' n p hs :
  wf_root n -> p ≠ [] -> length p < f -> length p < f' ->
  addRoute f n p hs = addRoute f' n p hs.
Proof.
  intros Hwf Hp Hf Hf'. unfold addRoute. case_decide; [done|].
  destruct f as [|f]; [lia|]. destruct f' as [|f']; [lia|].
  rewrite !addRoute_walk_unfold.
  assert (wf_children (incPriority n)) as Hwfc.
  { apply wf_root_children. unfold wf_root. by rewrite wf_rootb_incPriority. }
  destruct (walk_step _ p p hs) as [r|n2 j ch p'] eqn:Hs; [done|].
  destruct (walk_step_descend _ _ _ _ _ _ _ _ Hwfc Hp Hs) as [He Hlen].
  by rewrite (walk_fuel f f') by (done || lia).
Qed.

(** Whatever [addRoute] returns, it returns within [S (length p)]
    iterations. *)
Lemma addRoute_reached fuel n p hs r :
  wf_root n -> p ≠ [] -> addRoute fuel n p hs = r -> r <> OutOfFuel ->
  addRoute (S (length p)) n p hs = r.
Proof.
  intros Hwf Hp Hr Hne. destruct (decide (length p < fuel)).
  - by rewrite (addRoute_fuel _ fuel) by (done || lia).
  - rewrite (addRoute_fuel _ (S (length p) + fuel)) by (done || lia).
    apply (addRoute_mono fuel); [done..|lia].
Qed.

(** The slash shortcut into an only child that does not start with a
    slash. *)
Lemma walk_shortcut_diverges fuel n ch p fp hs :
  path n ≠ [] -> children n = [ch] ->
  path ch ≠ [] -> head (path ch) ≠ Some "/"%char ->
  addRoute_walk fuel n (path n ++ "/"%char :: p) fp hs = OutOfFuel.
Proof.
  intros Hn Hc Hch Hhd. destruct fuel as [|fuel]; [done|].
  assert (0 < length (path n)) by (destruct (path n); simpl; (done || lia)).
  rewrite addRoute_walk_unfold. unfold walk_step, walk_split.
  rewrite longestCommonPrefix_prefix, drop_app_length.
  rewrite (decide_False (P := _ < length (path n))) by lia.
  rewrite decide_True by (rewrite length_app; simpl; lia).
  unfold walk_child. rewrite Hc. simpl.
  by rewrite walk_slash_diverges.
Qed.

Lemma addRoute_loops fuel n ch p hs :
  path n ≠ [] -> children n = [ch] ->
  path ch ≠ [] -> head (path ch) ≠ Some "/"%char ->
  addRoute fuel n (path n ++ "/"%char :: p) hs = OutOfFuel.
Proof.
  intros Hn Hc Hch Hhd. unfold addRoute.
  rewrite decide_False by (simpl; rewrite Hc; simpl; lia).
  by apply (walk_shortcut_diverges fuel (incPriority n) ch).
Qed.

(** A registered path is registered once. *)
Lemma addRoute_registered fuel n p h hs :
  wf_root n -> (p, h) ∈ routes n -> length p < fuel ->
  addRoute fuel n p hs = Panic (PanicMsg (duplicate_msg p)).
Proof.
  intros Hwf Hin Hf. unfold addRoute. destruct (decide _) as [[Hp Hc]|_].
  - apply wf_root_unfold in Hwf as [_ Hempty].
    apply length_zero_iff_nil in Hp, Hc. simpl in Hp, Hc.
    rewrite routes_unfold, Hc in Hin. simpl in Hin. rewrite app_nil_r in Hin.
    apply elem_of_own_route in Hin as [_ Hh]. by rewrite Hempty in Hh.
  - apply walk_registered with h; [|by rewrite routes_incPriority|simpl; lia].
    apply wf_root_children. unfold wf_root. by rewrite wf_rootb_incPriority.
Qed.

(** [C6] Enough fuel: whatever [addRoute] returns on a well-formed tree,
    value or panic, it returns within [S (length p)] iterations of the
    walk. *)
Theorem addRoute_enough_fuel fuel n p hs r :
  wf_root n -> p ≠ [] -> addRoute fuel n p hs = r -> r <> OutOfFuel ->
  addRoute (S (length p)) n p hs = r.
Proof. apply addRoute_reached. Qed.

(** Running out of [S (length p)] units of fuel is no artefact of the
    model: the walk then returns with no fuel at all, which is a loop of
    the source that does not terminate. *)
Theorem addRoute_out_of_fuel n p hs :
  wf_root n -> p ≠ [] -> addRoute (S (length p)) n p hs = OutOfFuel ->
  forall fuel, addRoute fuel n p hs = OutOfFuel.
Proof.
  intros Hwf Hp Hout fuel.
  destruct (addRoute fuel n p hs) as [n'|v|] eqn:Hr; [| |done].
  all: by rewrite (addRoute_reached fuel n p hs _ Hwf Hp Hr) in Hout.
Qed.

(** [C4] The loop of the slash shortcut: at a node with a segment and an
    only child that does not start with a slash, [addRoute] of a path that
    goes on with a slash after the segment never returns. *)
Theorem addRoute_diverges fuel n ch p hs :
  path n ≠ [] -> children n = [ch] ->
  path ch ≠ [] -> head (path ch) ≠ Some "/"%char ->
  addRoute fuel n (path n ++ "/"%char :: p) hs = OutOfFuel.
Proof. apply addRoute_loops. Qed.

(** [C7] Duplicate rejection: [addRoute] of a path that the well-formed
    tree registers panics with the message of the source, whatever the
    chain, given fuel for the length of the path. *)
Theorem addRoute_duplicate fuel n p h hs :
  wf_root n -> (p, h) ∈ routes n -> length p < fuel ->
  addRoute fuel n p hs = Panic (PanicMsg (duplicate_msg p)).
Proof. apply addRoute_registered. Qed.

End fuel.

(** ** Witnesses *)

Lemma addRoute_enough_fuel_witness :
  addRoute 4 sample_tree (bytes "/co") (Some [3]) = Ok sample_tree_co.
Proof.
  apply (addRoute_enough_fuel 9 sample_tree (bytes "/co") (Some [3]));
    [reflexivity|discriminate|reflexivity|discriminate].
Defined.

Lemma addRoute_out_of_fuel_witness :
  addRoute 1000 sample_a_ab (bytes "/a/c") (Some [3]) = OutOfFuel.
Proof.
  apply (addRoute_out_of_fuel sample_a_ab (bytes "/a/c") (Some [3]));
    [reflexivity|discriminate|reflexivity].
Defined.

Lemma addRoute_diverges_witness :
  addRoute 1000 sample_a_ab (bytes "/a/c") (Some [3]) = OutOfFuel.
Proof.
  apply (addRoute_diverges 1000 sample_a_ab sample_leaf (bytes "c") (Some [3])).
  - discriminate.
  - reflexivity.
  - discriminate.
  - discriminate.
Defined.

Lemma addRoute_duplicate_witness :
  addRoute 4 sample_tree (bytes "/hi") (Some [7]) =
  Panic (PanicMsg (duplicate_msg (bytes "/hi"))).
Proof.
  apply (addRoute_duplicate 4 sample_tree (bytes "/hi") [1] (Some [7]));
    [reflexivity|by apply getValue_sound|simpl; lia].
Defined.
