(* ===== verification/TreePrio.v ===== *)
(** * TreePrio: the order of the children

    [node.incrementChildPrio] ([src/unnamed/part_003]) keeps the children
    of a node in descending order of priority, so that the scan of
    [indices] tries the busiest subtree first.  This file states that
    order as an invariant of the whole tree ([prio_ok]), together with
    the range of the [uint32] counters, and proves that [node.addRoute]
    keeps it as long as no counter wraps around: a call raises every
    priority by at most one.  At [2^32 - 1] the increment wraps to [0] and
    the order is lost ([incrementChildPrio_wraps]).  The invariant needs
    nothing of [TreeInv]: it holds of any tree, aligned or not. *)

From stdpp Require Import sorting.
From S2P Require Import Prelude Tree TreeInv TreeInsert.

(** ** Descending lists *)

Definition descending (zs : list Z) : Prop :=
  StronglySorted (fun a b => (b <= a)%Z) zs.

#[global] Instance descending_dec zs : Decision (descending zs).
Proof. unfold descending. apply _. Defined.

(** ** Sample nodes *)

(** A node whose first child has the largest priority a [uint32] holds. *)
Definition sample_full : node nat :=
  {| path := bytes "/"; indices := bytes "ab"; priority := 7;
     children :=
       [ {| path := bytes "a"; indices := []; priority := 4294967295; children := [];
            handlers := Some [1]; fullPath := bytes "/a" |};
         {| path := bytes "b"; indices := []; priority := 5; children := [];
            handlers := Some [2]; fullPath := bytes "/b" |} ];
     handlers := None; fullPath := bytes "/a" |}.

Section prio.
Context {HandlerFunc : Type}.
Implicit Types (n c ch : node HandlerFunc) (cs : list (node HandlerFunc)).
Implicit Types (p fp : gostring) (hs : HandlersChain HandlerFunc) (B : Z).

(** The children of [n] are in descending order of priority. *)
Definition sorted_children n : Prop := descending (priority <$> children n).

(** The invariant, as a boolean: in the whole tree the priorities lie in
    [0..B] and the children of every node are in descending order. *)
Fixpoint prio_okb B n : bool :=
  bool_decide (0 <= priority n <= B)%Z && bool_decide (sorted_children n) &&
  forallb (prio_okb B) (children n).

Definition prio_ok B n : Prop := prio_okb B n = true.

(** The part of the invariant that speaks of the children. *)
Definition kids_ok B n : Prop :=
  sorted_children n /\ Forall (prio_ok B) (children n).

(** What an iteration of the walk that goes round again leaves behind:
    the updated node [n2] has the priority of [n], the child [ch] entered
    has been counted, and whatever the walk makes of [ch] without touching
    its priority fits at position [j]. *)
Definition prio_descends B n n2 (j : nat) ch : Prop :=
  priority n2 = priority n /\ kids_ok B ch /\ (1 <= priority ch <= B + 1)%Z /\
  forall ch', priority ch' = priority ch -> prio_ok (B + 1) ch' ->
              kids_ok (B + 1) (set_child n2 j ch').

(** ** Descending lists *)

Lemma descending_last zs y x : descending zs -> last zs = Some y -> x ∈ zs -> (y <= x)%Z.
Proof.
  intros Hs Hl Hx. apply last_Some in Hl as [zs' ->].
  apply elem_of_app in Hx as [Hx|Hx%list_elem_of_singleton]; [|lia].
  apply (StronglySorted_app_1_elem_of _ _ _ _ _ Hs Hx). by apply list_elem_of_singleton.
Qed.

(** The list after the reordering loop: the counted element, now [z + 1],
    has moved in front of the elements it passed, which were below it. *)
Lemma descending_bubble (l1a l1b l3 : list Z) z :
  descending (l1a ++ l1b ++ z :: l3) ->
  Forall (fun y => (y < z + 1)%Z) l1b ->
  (forall y, last l1a = Some y -> (z + 1 <= y)%Z) ->
  descending (l1a ++ (z + 1)%Z :: l1b ++ l3).
Proof.
  unfold descending. rewrite !StronglySorted_app, !StronglySorted_cons, !StronglySorted_app.
  rewrite !Forall_forall. setoid_rewrite elem_of_app. setoid_rewrite elem_of_cons.
  intros (H12 & Ha & H23 & Hb & Hz3 & H3) Hlow Hhigh.
  assert (forall x, x ∈ l1a -> (z + 1 <= x)%Z) as Hall.
  { intros x Hx. destruct (last l1a) as [y|] eqn:Hl.
    - pose proof (descending_last l1a y x Ha Hl Hx). specialize (Hhigh y eq_refl). lia.
    - apply last_None in Hl. subst. by apply elem_of_nil in Hx. }
  split_and!; try done.
  - intros x1 x2 Hx1. rewrite elem_of_app.
    intros [->|[Hx2|Hx2]]; [by apply Hall| |]; apply H12; auto.
  - intros x [Hx|Hx].
    + specialize (Hlow x Hx). lia.
    + specialize (Hz3 x Hx). lia.
  - intros x1 x2 Hx1 Hx2. apply H23; auto.
Qed.

(** ** Unfolding the invariant *)

Lemma prio_ok_unfold B n :
  prio_ok B n <-> (0 <= priority n <= B)%Z /\ kids_ok B n.
Proof.
  unfold prio_ok, kids_ok. destruct n as [pa idx pr cs h fp]. simpl.
  rewrite !andb_true_iff, !bool_decide_eq_true, forallb_forall, Forall_forall.
  setoid_rewrite <- list_elem_of_In. tauto.
Qed.

Lemma prio_ok_mono B B' n : (B <= B')%Z -> prio_ok B n -> prio_ok B' n.
Proof.
  intros HB. induction n as [n IH] using node_ind'.
  rewrite !prio_ok_unfold. unfold kids_ok. intros (Hr & Hs & Hcs).
  split; [lia|split; [done|]]. rewrite Forall_forall in *. auto.
Qed.

Lemma kids_ok_mono B B' n : (B <= B')%Z -> kids_ok B n -> kids_ok B' n.
Proof.
  intros HB [Hs Hcs]. split; [done|].
  eapply Forall_impl; [done|]. intros c. by apply prio_ok_mono.
Qed.

(** A child that keeps its priority keeps the order of its siblings. *)
Lemma sorted_children_set_child n j c ch' :
  children n !! j = Some c -> priority ch' = priority c ->
  sorted_children n -> sorted_children (set_child n j ch').
Proof.
  unfold sorted_children. simpl. intros Hc Hp Hs.
  rewrite list_fmap_insert, list_insert_id; [done|].
  by rewrite list_lookup_fmap, Hc, Hp.
Qed.

Lemma incPriority_count B c :
  (B + 1 < 2 ^ 32)%Z -> (0 <= priority c <= B)%Z ->
  priority (incPriority c) = (priority c + 1)%Z.
Proof. intros. simpl. apply uint32_wrap_small. lia. Qed.

Lemma kids_ok_incPriority B c : kids_ok B (incPriority c) <-> kids_ok B c.
Proof. done. Qed.

Lemma prio_ok_range B c cs :
  Forall (prio_ok B) cs -> c ∈ cs -> (0 <= priority c <= B)%Z /\ kids_ok B c.
Proof. rewrite Forall_forall. intros Hcs Hc. by apply prio_ok_unfold, Hcs. Qed.

(** ** [incrementChildPrio] keeps the order *)

(** The reordering loop on a descending slice whose element at
    [length l1] has just been counted. *)
Lemma bubble_sorted B (l1 : list (node HandlerFunc)) c l3 :
  (B + 1 < 2 ^ 32)%Z -> (0 <= priority c <= B)%Z ->
  descending (priority <$> l1 ++ c :: l3) ->
  exists l1a l1b,
    l1 = l1a ++ l1b /\
    bubble (l1 ++ incPriority c :: l3) (length l1) (priority (incPriority c)) =
      (l1a ++ incPriority c :: l1b ++ l3, length l1a) /\
    descending (priority <$> l1a ++ incPriority c :: l1b ++ l3).
Proof.
  intros HB Hc Hs.
  destruct (bubble_app l1 (incPriority c) l3 (priority (incPriority c)))
    as (l1a & l1b & -> & Hb & Hlow & Hhigh).
  exists l1a, l1b. split_and!; [done..|].
  rewrite <- (assoc_L (++)) in Hs. rewrite !fmap_app, !fmap_cons, ?fmap_app in *.
  rewrite (incPriority_count B) in * by done.
  apply descending_bubble; [done|by apply Forall_fmap|].
  intros y. rewrite fmap_last. destruct (last l1a) as [y'|] eqn:Hl; [|done].
  intros [= <-]. by apply Hhigh.
Qed.

Lemma incrementChildPrio_sorted B n pos n' j :
  (B + 1 < 2 ^ 32)%Z -> kids_ok B n -> incrementChildPrio n pos = Ok (n', j) ->
  exists c, c ∈ children n /\ children n' !! j = Some (incPriority c) /\
    priority n' = priority n /\ kids_ok (B + 1) n'.
Proof.
  intros HB [Hs Hcs] Hinc. unfold incrementChildPrio in Hinc.
  destruct (children n !! pos) as [c|] eqn:Hc; [|done]. exists c.
  pose proof (list_elem_of_lookup_2 _ _ _ Hc) as Hin.
  destruct (prio_ok_range B c _ Hcs Hin) as [Hr Hk].
  pose proof (lookup_lt_Some _ _ _ Hc) as Hlt.
  rewrite insert_take_drop in Hinc by done.
  unfold sorted_children in Hs. rewrite <- (take_drop_middle _ _ _ Hc) in Hs, Hcs.
  destruct (bubble_sorted B _ c _ HB Hr Hs) as (l1a & l1b & Hl1 & Hb & Hs').
  rewrite length_take_le in Hb by lia. rewrite Hb in Hinc.
  assert (children n' = l1a ++ incPriority c :: l1b ++ drop (S pos) (children n) /\
          j = length l1a /\ priority n' = priority n) as (Hc' & -> & Hp).
  { repeat case_decide; by simplify_eq/=. }
  split_and!; [done|by rewrite Hc', list_lookup_middle|done|].
  split; [unfold sorted_children; by rewrite Hc'|]. rewrite Hc'.
  rewrite Hl1, <- (assoc_L (++)) in Hcs.
  rewrite !Forall_app, !Forall_cons, ?Forall_app in *.
  destruct Hcs as (Ha & Hb' & _ & H3).
  split_and!; try (eapply Forall_impl; [done|]; intros ?; apply prio_ok_mono; lia).
  apply prio_ok_unfold. rewrite (incPriority_count B) by done.
  split; [lia|]. by apply (kids_ok_mono B); [lia|].
Qed.

(** ** One iteration of the walk *)

Lemma walk_split_prio B n p :
  (B + 1 < 2 ^ 32)%Z -> kids_ok B n -> (1 <= priority n <= B + 1)%Z ->
  kids_ok B (walk_split n p) /\ priority (walk_split n p) = priority n.
Proof.
  intros HB Hk Hr. unfold walk_split. case_decide; [|done].
  split; [|done]. split; [by repeat constructor|]. apply Forall_singleton.
  apply prio_ok_unfold. simpl. rewrite uint32_wrap_small by lia. split; [lia|done].
Qed.

Lemma walk_finish_prio n fp hs n' :
  walk_finish n fp hs = Ok n' -> children n' = children n /\ priority n' = priority n.
Proof. unfold walk_finish. destruct (handlers n); [done|]. by intros [= <-]. Qed.

(** The node with a fresh leaf appended, before the leaf is counted. *)
Lemma appended_kids_ok B n b p fp hs :
  (0 <= B)%Z -> kids_ok B n ->
  kids_ok B
    (addChild
       {| path := path n; indices := indices n ++ [b]; priority := priority n;
          children := children n; handlers := handlers n; fullPath := fullPath n |}
       (insertChild
          {| path := []; indices := []; priority := 0; children := [];
             handlers := None; fullPath := fp |} p fp hs)).
Proof.
  intros HB [Hs Hcs]. split; simpl.
  - unfold sorted_children. simpl. rewrite fmap_app. apply StronglySorted_app_2; [|done|].
    + intros x1 x2 (c & -> & Hc)%list_elem_of_fmap ->%list_elem_of_singleton.
      destruct (prio_ok_range B c _ Hcs Hc) as [? _]. simpl. lia.
    + by repeat constructor.
  - apply Forall_app. split; [done|]. apply Forall_singleton, prio_ok_unfold.
    simpl. split; [lia|]. by split; [constructor|].
Qed.

Lemma walk_child_prio B n p fp hs :
  (B + 1 < 2 ^ 32)%Z -> (0 <= B)%Z -> kids_ok B n ->
  match walk_child n p fp hs with
  | StepDone r => forall n', r = Ok n' -> kids_ok (B + 1) n' /\ priority n' = priority n
  | StepDescend n2 j ch p' => prio_descends B n n2 j ch
  end.
Proof.
  intros HB HB0 Hk. unfold walk_child. destruct p as [|b p]; [done|].
  destruct (decide _) as [[_ Hone]|_].
  - destruct (children n) as [|ch0 [|]] eqn:Hc; simplify_eq/=.
    destruct Hk as [_ Hcs]. rewrite Hc in Hcs.
    destruct (prio_ok_range B ch0 _ Hcs) as [Hr Hk0]; [by left|].
    split_and!; [done|done|rewrite (incPriority_count B) by done; lia..|].
    intros ch' _ Hch'. unfold kids_ok, sorted_children. simpl. rewrite Hc. simpl.
    split; [by repeat constructor|by apply Forall_singleton].
  - destruct (indexByte b (indices n)) as [i|].
    + destruct (incrementChildPrio n i) as [[n2 j]|v|] eqn:Hinc; [|done..].
      destruct (incrementChildPrio_sorted B _ _ _ _ HB Hk Hinc)
        as (c & Hin & Hj & Hp & Hs2 & Hcs2).
      destruct Hk as [_ Hcs]. destruct (prio_ok_range B c _ Hcs Hin) as [Hr Hk0].
      rewrite Hj. split_and!; [done|done|rewrite (incPriority_count B) by done; lia..|].
      intros ch' Hpr Hch'. split.
      * by apply (sorted_children_set_child _ _ (incPriority c)).
      * by apply Forall_insert.
    + intros n' Hres. apply result_bind_Ok in Hres as ([n2 j] & Hinc & [= ->]).
      destruct (incrementChildPrio_sorted B _ _ _ _ HB
                  (appended_kids_ok B n b (b :: p) fp hs HB0 Hk) Hinc)
        as (_ & _ & _ & Hp & Hk'). done.
Qed.

Lemma walk_step_prio B n p fp hs :
  (B + 1 < 2 ^ 32)%Z -> kids_ok B n -> (1 <= priority n <= B + 1)%Z ->
  match walk_step n p fp hs with
  | StepDone r => forall n', r = Ok n' -> kids_ok (B + 1) n' /\ priority n' = priority n
  | StepDescend n2 j ch p' => prio_descends B n n2 j ch
  end.
Proof.
  intros HB Hk Hr. destruct (walk_split_prio B n p HB Hk Hr) as [Hk1 Hp1].
  unfold walk_step. case_decide.
  - pose proof (walk_child_prio B (walk_split n p) (drop (longestCommonPrefix p (path n)) p)
                  fp hs HB ltac:(lia) Hk1) as H1.
    destruct (walk_child _ _ _ _); unfold prio_descends in *; by rewrite <- Hp1.
  - intros n' [Hc Hp]%walk_finish_prio. split; [|congruence].
    apply (kids_ok_mono B); [lia|]. unfold kids_ok, sorted_children in *. by rewrite Hc.
Qed.

(** ** The walk *)

Lemma walk_prio B fuel n p fp hs n' :
  (B + 1 < 2 ^ 32)%Z -> kids_ok B n -> (1 <= priority n <= B + 1)%Z ->
  addRoute_walk fuel n p fp hs = Ok n' ->
  kids_ok (B + 1) n' /\ priority n' = priority n.
Proof.
  intros HB. revert n p n'. induction fuel as [|fuel IH]; intros n p n' Hk Hr; [done|].
  rewrite addRoute_walk_unfold. pose proof (walk_step_prio B n p fp hs HB Hk Hr) as Hstep.
  destruct (walk_step n p fp hs) as [r|n2 j ch p']; [by auto|].
  destruct Hstep as (Hp2 & Hkc & Hrc & Hfit).
  intros (ch' & Hwalk & [= <-])%result_bind_Ok.
  destruct (IH _ _ _ Hkc Hrc Hwalk) as [Hk' Hp'].
  split; [|done]. apply Hfit; [done|]. apply prio_ok_unfold. split; [lia|done].
Qed.

(** [C9] The order of the children is an invariant: on a tree whose
    priorities lie in [0..B] and whose children are everywhere in
    descending order of priority, a call of [addRoute] that returns
    leaves the children everywhere in descending order and the
    priorities in [0..B+1], as long as [B + 1] fits in a [uint32]. *)
Theorem addRoute_sorted B fuel n p hs n' :
  (B + 1 < 2 ^ 32)%Z -> prio_ok B n -> addRoute fuel n p hs = Ok n' ->
  prio_ok (B + 1) n'.
Proof.
  intros HB [Hr Hk]%prio_ok_unfold. unfold addRoute.
  pose proof (incPriority_count B n HB Hr) as Hp.
  destruct (decide _) as [_|_].
  - intros [= <-]. apply prio_ok_unfold. simpl in *. split; [lia|].
    by apply (kids_ok_mono B); [lia|].
  - intros Hwalk. apply walk_prio with (B := B) in Hwalk as [Hk' Hp']; [|done|done|lia].
    apply prio_ok_unfold. split; [lia|done].
Qed.

End prio.

(** The counter is a [uint32]: at [2^32 - 1] the increment of
    [incrementChildPrio] wraps around to [0], the child stays where it
    is, and its siblings are no longer in descending order. *)
Theorem incrementChildPrio_wraps :
  prio_ok (2 ^ 32 - 1) sample_full /\
  exists n', incrementChildPrio sample_full 0 = Ok (n', 0) /\
             priority <$> children n' = [0; 5]%Z /\ ~ sorted_children n'.
Proof.
  split; [reflexivity|]. eexists. split; [reflexivity|]. split; [reflexivity|].
  by apply (bool_decide_eq_false_1 (sorted_children _)).
Qed.

(** ** Witnesses *)

Lemma addRoute_sorted_witness : prio_ok 3 sample_tree_co.
Proof.
  apply (addRoute_sorted 2 9 sample_tree (bytes "/co") (Some [3]));
    [reflexivity|reflexivity|reflexivity].
Defined.
