(* ===== verification/TreeTest.v ===== *)
(** * TreeTest: the test of the tree, run on the model

    [src/tree_test.go] registers eleven routes in an empty tree and looks
    eleven paths up.  Here the test is a definition: a handler is the
    value it writes to [fakeHandlerValue], the loop over the routes is
    [addRoutes], [checkRequests] returns the mismatches [t.Errorf] would
    report.  The test passes on the model, and the loop over the routes is
    shown to build the table of its routes, whatever they are. *)

From stdpp Require Import gmap.
From S2P Require Import Prelude Tree TreeInv TreeInsert.

(** ** The test *)

(** [type testRequests []struct]. *)
Record testRequest : Type := TestRequest {
  req_path : gostring;
  nilHandler : bool;
  route : gostring
}.

(** What [checkRequests] reports through [t.Errorf]. *)
Inductive mismatch : Type :=
| ExpectedNonNil (path' : gostring)
| ExpectedNil (path' : gostring)
| WrongHandle (path' got want : gostring).

(** [func fakeHandler(val string) HandlersChain]: a chain of the one
    handler that writes [val]; the handler is represented by [val]. *)
Definition fakeHandler (val : gostring) : HandlersChain gostring := Some [val].

(** [func checkRequests(t *testing.T, tree *node, requests testRequests)]:
    the mismatches reported and the last value of [fakeHandlerValue]. *)
Fixpoint checkRequests (tree : node gostring) (requests : list testRequest)
    (fakeHandlerValue : gostring) : result (list mismatch * gostring) :=
  match requests with
  | [] => Ok ([], fakeHandlerValue)
  | request :: requests =>
      let* handlers := getValue tree (req_path request) in
      match handlers with
      | None =>
          let* '(errs, v) := checkRequests tree requests fakeHandlerValue in
          Ok ((if negb (nilHandler request) then [ExpectedNonNil (req_path request)]
               else []) ++ errs, v)
      | Some hs =>
          if nilHandler request then
            let* '(errs, v) := checkRequests tree requests fakeHandlerValue in
            Ok (ExpectedNil (req_path request) :: errs, v)
          else
            match hs with
            | [] => Panic PanicIndex
            | h :: _ =>
                let fakeHandlerValue := h in
                let* '(errs, v) := checkRequests tree requests fakeHandlerValue in
                Ok ((if decide (fakeHandlerValue ≠ route request)
                     then [WrongHandle (req_path request) fakeHandlerValue (route request)]
                     else []) ++ errs, v)
            end
      end
  end.

(** The loop [for _, route := range routes { tree.addRoute(route,
    fakeHandler(route)) }]. *)
Fixpoint addRoutes (fuel : nat) (tree : node gostring) (routes : list gostring) :
    result (node gostring) :=
  match routes with
  | [] => Ok tree
  | route :: routes =>
      let* tree := addRoute fuel tree route (fakeHandler route) in
      addRoutes fuel tree routes
  end.

(** The routes of [Test_node_addRoute]. *)
Definition test_routes : list gostring :=
  [ bytes "/hi"; bytes "/contact"; bytes "/co"; bytes "/c"; bytes "/a"; bytes "/ab";
    bytes "/doc/"; bytes "/doc/go_faq.html"; bytes "/doc/go1.html";
    bytes "/α"; bytes "/β" ].

(** The requests of [Test_node_addRoute]. *)
Definition test_requests : list testRequest :=
  [ TestRequest (bytes "/a") false (bytes "/a");
    TestRequest (bytes "/") true [];
    TestRequest (bytes "/hi") false (bytes "/hi");
    TestRequest (bytes "/contact") false (bytes "/contact");
    TestRequest (bytes "/co") false (bytes "/co");
    TestRequest (bytes "/con") true [];
    TestRequest (bytes "/cona") true [];
    TestRequest (bytes "/no") true [];
    TestRequest (bytes "/ab") false (bytes "/ab");
    TestRequest (bytes "/α") false (bytes "/α");
    TestRequest (bytes "/β") false (bytes "/β") ].

(** [func Test_node_addRoute(t *testing.T)]: the mismatches reported. *)
Definition Test_node_addRoute (fuel : nat) : result (list mismatch) :=
  let tree := zero_node in
  let* tree := addRoutes fuel tree test_routes in
  let* '(errs, _) := checkRequests tree test_requests [] in
  Ok errs.

(** The table a loop over [routes] builds. *)
Definition routes_table (t : gmap gostring (list gostring)) (routes : list gostring) :
    gmap gostring (list gostring) :=
  foldl (fun t r => <[r := [r]]> t) t routes.

(** ** The loop over the routes *)

(** The loop of the test builds the table of its routes: when it
    returns, the tree is well formed and binds every route registered to
    its handler. *)
Theorem addRoutes_refines fuel tree routes tree' :
  wf_root tree -> Forall (fun r => r ≠ []) routes ->
  addRoutes fuel tree routes = Ok tree' ->
  wf_root tree' /\ table tree' = routes_table (table tree) routes.
Proof.
  intros Hwf Hne. revert tree Hwf. induction Hne as [|r routes Hr _ IH]; intros tree Hwf.
  { by intros [= <-]. }
  simpl. intros (tree1 & Hadd & Hrest)%result_bind_Ok.
  apply addRoute_Ok in Hadd as [Hwf1 Hperm]; [|done..].
  destruct (IH _ Hwf1 Hrest) as [Hwf' ->]. split; [done|]. unfold routes_table. f_equal.
  by apply table_insert_perm; [apply wf_root_children..|].
Qed.

(** Every request of a test that only asks for what the table of
    the tree says is answered without a mismatch. *)
Lemma checkRequests_table tree requests v :
  wf_root tree ->
  Forall (fun rq => table tree !! req_path rq =
                    if nilHandler rq then None else Some [route rq]) requests ->
  exists v', checkRequests tree requests v = Ok ([], v').
Proof.
  intros Hwf Hall. revert v. induction Hall as [|rq requests Hrq _ IH]; intros v.
  { by eexists. }
  simpl. rewrite getValue_table by (by apply wf_root_children). simpl. rewrite Hrq.
  destruct (nilHandler rq); simpl.
  - destruct (IH v) as [v' ->]. by eexists.
  - destruct (IH (route rq)) as [v' ->]. simpl. rewrite decide_False by (by intros []).
    by eexists.
Qed.

(** The test of the repository passes on the model: the eleven
    registrations return and the eleven lookups report no mismatch. *)
Theorem Test_node_addRoute_passes : Test_node_addRoute 16 = Ok [].
Proof. vm_compute. reflexivity. Qed.

(** ** Witnesses *)

Lemma addRoutes_refines_witness :
  exists tree,
    addRoutes 16 zero_node test_routes = Ok tree /\
    wf_root tree /\ table tree = routes_table (table zero_node) test_routes.
Proof.
  eexists. split; [vm_compute; reflexivity|].
  apply (addRoutes_refines 16 zero_node test_routes);
    [reflexivity|repeat constructor; discriminate|vm_compute; reflexivity].
Defined.

