(* ===== verification/Router.v ===== *)
(** * Router: the method table and the engine

    [methodTree], [methodTrees.get] ([src/unnamed/part_003]) and the
    engine of [src/unnamed/part_000]: [New], [Engine.addRoute] and the
    search for the handlers of a request in [handleHTTPRequest].  The
    engine reaches a root through a pointer and [addRoute] mutates it in
    place; here [set_root] puts the new root back into the table.  The
    trace output of [debugPrintRoute] is not part of the state:
    [Engine_addRoute] is the method without it, and [Engine_addRoute_out]
    the method with what it prints. *)

From stdpp Require Import gmap.
From S2P Require Import Prelude Utils Tree Mode TreeInv TreeInsert TreeFuel.

Section router.
Context {HandlerFunc : Type}.

(** ** Data *)

(** [type methodTree struct]. *)
Record methodTree : Type := MethodTree {
  method : gostring;
  root : node HandlerFunc
}.

(** [type methodTrees []methodTree]. *)
Definition methodTrees : Type := list methodTree.

(** [type RouterGroup struct], without the pointer back to the engine. *)
Record RouterGroup : Type := mkRouterGroup {
  Handlers : list HandlerFunc;
  basePath : gostring;
  is_root : bool
}.

(** [type Engine struct]: the embedded group, the trees and the flag.
    The context pool holds no routing state. *)
Record Engine : Type := mkEngine {
  group : RouterGroup;
  trees : methodTrees;
  UseH2C : bool
}.

(** ** Operations *)

(** [func (trees methodTrees) get(method string) *node]: the root of the
    first tree of the method, [nil] when there is none. *)
Fixpoint methodTrees_get (ts : methodTrees) (m : gostring) : option (node HandlerFunc) :=
  match ts with
  | [] => None
  | tree :: ts' => if decide (method tree = m) then Some (root tree) else methodTrees_get ts' m
  end.

(** The table after a write through the pointer that [get] returned: the
    first tree of the method has the new root. *)
Fixpoint set_root (ts : methodTrees) (m : gostring) (r : node HandlerFunc) : methodTrees :=
  match ts with
  | [] => []
  | tree :: ts' =>
      if decide (method tree = m) then {| method := m; root := r |} :: ts'
      else tree :: set_root ts' m r
  end.

(** [func New() *Engine]. *)
Definition New : Engine :=
  {| group := {| Handlers := []; basePath := bytes "/"; is_root := false |};
     trees := [];
     UseH2C := true |}.

(** [func Default() *Engine]. *)
Definition Default : Engine := New.

(** [func (engine *Engine) addRoute(method, path string, handlers HandlersChain)].
    [path[0]] panics on the empty path before the first assertion is
    reached. *)
Definition Engine_addRoute (fuel : nat) (engine : Engine) (m path' : gostring)
    (handlers' : HandlersChain HandlerFunc) : result Engine :=
  match path' with
  | [] => Panic PanicIndex
  | c :: _ =>
      let* _ := assert1 (bool_decide (c = "/"%char)) (bytes "path must begin with '/'") in
      let* _ := assert1 (bool_decide (m ≠ [])) (bytes "HTTP method can not be empty") in
      let* _ := assert1 (bool_decide (0 < slice_len handlers'))
                  (bytes "there must be at least one handler") in
      let '(root0, ts) :=
        match methodTrees_get (trees engine) m with
        | Some r => (r, trees engine)
        | None =>
            let r := {| path := []; indices := []; priority := 0; children := [];
                        handlers := None; fullPath := bytes "/" |} in
            (r, trees engine ++ [{| method := m; root := r |}])
        end in
      let* root' := addRoute fuel root0 path' handlers' in
      Ok {| group := group engine; trees := set_root ts m root';
            UseH2C := UseH2C engine |}
  end.

(** [Engine.addRoute] with its output: [debugPrintRoute] is called
    when the three assertions have passed, before the route is
    inserted.  [name] is the name that the run time gives a function,
    and [DebugPrintRouteFunc] the variable of this name. *)
Definition Engine_addRoute_out (name : HandlerFunc -> gostring) (st : mode_state)
    (DebugPrintRouteFunc : option (gostring -> gostring -> gostring -> Z -> list output))
    (fuel : nat) (engine : Engine) (m path' : gostring)
    (handlers' : HandlersChain HandlerFunc) : logged Engine :=
  match path' with
  | [] => log_lift (Panic PanicIndex)
  | c :: _ =>
      let+ _ := log_lift (assert1 (bool_decide (c = "/"%char))
                            (bytes "path must begin with '/'")) in
      let+ _ := log_lift (assert1 (bool_decide (m ≠ []))
                            (bytes "HTTP method can not be empty")) in
      let+ _ := log_lift (assert1 (bool_decide (0 < slice_len handlers'))
                            (bytes "there must be at least one handler")) in
      let+ _ := log_print (debugPrintRoute name st DebugPrintRouteFunc m path' handlers') in
      let '(root0, ts) :=
        match methodTrees_get (trees engine) m with
        | Some r => (r, trees engine)
        | None =>
            let r := {| path := []; indices := []; priority := 0; children := [];
                        handlers := None; fullPath := bytes "/" |} in
            (r, trees engine ++ [{| method := m; root := r |}])
        end in
      log_lift (let* root' := addRoute fuel root0 path' handlers' in
                Ok {| group := group engine; trees := set_root ts m root';
                      UseH2C := UseH2C engine |})
  end.

(** The search of [handleHTTPRequest]: the handlers of the first tree of
    the request's method for the request's path, or [nil], in which case
    the request is answered with 404. *)
Fixpoint find_handlers (ts : methodTrees) (httpMethod rPath : gostring) :
    result (HandlersChain HandlerFunc) :=
  match ts with
  | [] => Ok None
  | tree :: ts' =>
      if decide (method tree ≠ httpMethod) then find_handlers ts' httpMethod rPath
      else getValue (root tree) rPath
  end.

(** The root a new method starts with: [new(node)] with [fullPath] set. *)
Definition fresh_root : node HandlerFunc :=
  {| path := []; indices := []; priority := 0; children := [];
     handlers := None; fullPath := bytes "/" |}.

(** The root [Engine.addRoute] inserts into. *)
Definition root_of (ts : methodTrees) (m : gostring) : node HandlerFunc :=
  default fresh_root (methodTrees_get ts m).

(** The invariant of the engine: every tree is well formed. *)
Definition wf_engine (e : Engine) : Prop :=
  Forall (fun t => wf_root (root t)) (trees e).

(** The routes of the engine: the table of the method's tree. *)
Definition engine_table (e : Engine) (m : gostring) : gmap gostring (list HandlerFunc) :=
  table (root_of (trees e) m).

End router.

Arguments methodTree : clear implicits.
Arguments methodTrees : clear implicits.
Arguments RouterGroup : clear implicits.
Arguments Engine : clear implicits.

(** ** Sample engines, for the witnesses *)

(** [GET]. *)
Definition sample_GET : gostring := bytes "GET".

(** The engine after the first registration, of [GET /hi]. *)
Definition sample_engine : Engine nat :=
  Eval vm_compute in
    match Engine_addRoute 0 New sample_GET (bytes "/hi") (Some [1]) with
    | Ok e => e
    | _ => New
    end.

(** The engine after [GET /a] and [GET /ab]. *)
Definition sample_engine_a_ab : Engine nat :=
  Eval vm_compute in
    match
      (let* e := Engine_addRoute 9 New sample_GET (bytes "/a") (Some [1]) in
       Engine_addRoute 9 e sample_GET (bytes "/ab") (Some [2]))
    with
    | Ok e => e
    | _ => New
    end.

Section router_lemmas.
Context {HandlerFunc : Type}.
Implicit Types (ts : methodTrees HandlerFunc) (m p q : gostring) (r : node HandlerFunc).
Implicit Types (e : Engine HandlerFunc) (hs : HandlersChain HandlerFunc).

(** ** The method table *)

Lemma find_handlers_get ts m p :
  find_handlers ts m p =
  match methodTrees_get ts m with
  | Some r => getValue r p
  | None => Ok None
  end.
Proof.
  induction ts as [|t ts IH]; simpl; [done|].
  repeat case_decide; done.
Qed.

Lemma get_set_root_same ts m r :
  is_Some (methodTrees_get ts m) -> methodTrees_get (set_root ts m r) m = Some r.
Proof.
  induction ts as [|t ts IH]; simpl; [by intros [? ?]|].
  destruct (decide (method t = m)); simpl; intros ?.
  - by rewrite decide_True.
  - rewrite decide_False by done. auto.
Qed.

Lemma get_set_root_other ts m m' r :
  m' ≠ m -> methodTrees_get (set_root ts m r) m' = methodTrees_get ts m'.
Proof.
  intros Hne. induction ts as [|t ts IH]; simpl; [done|].
  destruct (decide (method t = m)) as [->|]; simpl.
  - by rewrite !decide_False by done.
  - by rewrite IH.
Qed.

Lemma get_app ts ts' m :
  methodTrees_get (ts ++ ts') m =
  match methodTrees_get ts m with
  | Some r => Some r
  | None => methodTrees_get ts' m
  end.
Proof. induction ts as [|t ts IH]; simpl; [done|]. by case_decide. Qed.

Lemma get_wf ts m r :
  Forall (fun t => wf_root (root t)) ts -> methodTrees_get ts m = Some r -> wf_root r.
Proof.
  induction 1 as [|t ts Ht _ IH]; simpl; [done|].
  case_decide; [by intros [= <-]|done].
Qed.

Lemma set_root_wf ts m r :
  Forall (fun t => wf_root (root t)) ts -> wf_root r ->
  Forall (fun t => wf_root (root t)) (set_root ts m r).
Proof.
  intros Hts Hr. induction Hts as [|t ts Ht Hts IH]; simpl; [done|].
  case_decide; by constructor.
Qed.

Lemma fresh_root_wf : wf_root (@fresh_root HandlerFunc).
Proof. done. Qed.

(** The engine of [New] has no tree. *)
Lemma New_wf : wf_engine (@New HandlerFunc).
Proof. constructor. Qed.

Lemma root_of_wf e m : wf_engine e -> wf_root (root_of (trees e) m).
Proof.
  intros Hwf. unfold root_of. destruct (methodTrees_get _ _) eqn:E; simpl.
  - by eapply get_wf.
  - apply fresh_root_wf.
Qed.

(** ** [Engine.addRoute] *)


(** What a call that returns has checked and done. *)
Lemma Engine_addRoute_Ok fuel e m p hs e' :
  Engine_addRoute fuel e m p hs = Ok e' ->
  head p = Some "/"%char /\ m ≠ [] /\ 0 < slice_len hs /\
  exists root',
    addRoute fuel (root_of (trees e) m) p hs = Ok root' /\
    methodTrees_get (trees e') m = Some root' /\
    (forall m', m' ≠ m -> methodTrees_get (trees e') m' = methodTrees_get (trees e) m') /\
    (wf_engine e -> wf_root root' -> wf_engine e').
Proof.
  unfold Engine_addRoute, assert1, root_of. destruct p as [|c p]; [done|].
  repeat (case_bool_decide; simpl; [|done]). subst c.
  destruct (methodTrees_get (trees e) m) as [r|] eqn:Hget; cbn -[addRoute].
  all: destruct (addRoute fuel _ _ hs) as [root'| |] eqn:Hadd; cbn -[addRoute]; [|done..].
  all: intros [= <-]; split_and!; [done..|]; exists root'; cbn -[addRoute].
  - split_and!; [done|by apply get_set_root_same|by intros; apply get_set_root_other|].
    intros ??. by apply set_root_wf.
  - split_and!; [done| | |].
    + apply get_set_root_same. rewrite get_app, Hget. simpl. by rewrite decide_True.
    + intros m' Hne. rewrite get_set_root_other, get_app by done.
      destruct (methodTrees_get (trees e) m'); [done|]. simpl. by rewrite decide_False.
    + intros Hwf ?. apply set_root_wf; [|done]. apply Forall_app. split; [done|].
      by repeat constructor.
Qed.

(** The search of a request through the root [addRoute] would use. *)
Lemma find_handlers_root_of ts m q :
  find_handlers ts m q = getValue (root_of ts m) q.
Proof.
  rewrite find_handlers_get. unfold root_of.
  destruct (methodTrees_get ts m); [done|].
  rewrite getValue_unfold. destruct q; [done|].
  by rewrite decide_True by (simpl; split; [lia|done]).
Qed.

Lemma root_of_get ts m r : methodTrees_get ts m = Some r -> root_of ts m = r.
Proof. unfold root_of. by intros ->. Qed.

(** A call that returns was given a chain: [Some h]. *)
Lemma slice_len_pos hs : 0 < slice_len hs -> exists h, hs = Some h.
Proof. destruct hs; simpl; [eauto|lia]. Qed.

(** What a call that returns leaves in the tree of its method. *)
Lemma Engine_addRoute_routes fuel e m p hs e' :
  wf_engine e -> Engine_addRoute fuel e m p hs = Ok e' ->
  exists h, hs = Some h /\ p ≠ [] /\ wf_engine e' /\
    wf_root (root_of (trees e') m) /\
    routes (root_of (trees e') m) ≡ₚ (p, h) :: routes (root_of (trees e) m).
Proof.
  intros Hwf (Hp & Hm & [h ->]%slice_len_pos & root' & Hadd & Hget & _ & Hwf')%Engine_addRoute_Ok.
  assert (p ≠ []) as Hne by (by destruct p).
  apply addRoute_Ok in Hadd as [Hwfr Hr]; [|by apply root_of_wf|done].
  exists h. rewrite (root_of_get _ _ _ Hget). split_and!; auto.
Qed.

(** A call that passes the assertions is the call of [addRoute] at the
    root of the method, and fails as that call fails. *)
Lemma Engine_addRoute_root fuel e m p hs :
  head p = Some "/"%char -> m ≠ [] -> 0 < slice_len hs ->
  exists k, Engine_addRoute fuel e m p hs =
            let* root' := addRoute fuel (root_of (trees e) m) p hs in Ok (k root').
Proof.
  intros Hp Hm Hhs. unfold Engine_addRoute, assert1, root_of.
  destruct p as [|c p]; simplify_eq/=.
  rewrite !bool_decide_eq_true_2 by done.
  destruct (methodTrees_get (trees e) m); cbn -[addRoute];
    by eexists (fun root' => _).
Qed.

(** What has been registered is found. *)
Lemma Engine_addRoute_found fuel e m p hs e' :
  wf_engine e -> Engine_addRoute fuel e m p hs = Ok e' ->
  find_handlers (trees e') m p = Ok hs.
Proof.
  intros Hwf (h & -> & _ & _ & Hwfr & Hr)%Engine_addRoute_routes; [|done].
  rewrite find_handlers_root_of.
  apply getValue_complete; [by apply wf_root_children|]. rewrite Hr. by left.
Qed.

(** What was found is found: a registration that returns takes no
    chain away, under its own method or under another. *)
Lemma Engine_addRoute_keeps fuel e m p hs e' m' q h0 :
  wf_engine e -> Engine_addRoute fuel e m p hs = Ok e' ->
  find_handlers (trees e) m' q = Ok (Some h0) ->
  find_handlers (trees e') m' q = Ok (Some h0).
Proof.
  intros Hwf Hadd Hfind. destruct (decide (m' = m)) as [->|Hne].
  - destruct (Engine_addRoute_routes _ _ _ _ _ _ Hwf Hadd) as (h & _ & _ & _ & Hwfr & Hr).
    rewrite find_handlers_root_of in Hfind |- *. apply getValue_sound in Hfind.
    apply getValue_complete; [by apply wf_root_children|]. rewrite Hr. by right.
  - apply Engine_addRoute_Ok in Hadd as (_ & _ & _ & root' & _ & _ & Hother & _).
    rewrite find_handlers_get in Hfind |- *. by rewrite Hother.
Qed.

(** ** The contract of the engine *)

(** Round trip through the engine: after [Engine.addRoute] has
    registered a chain for a method and a path, the search of
    [handleHTTPRequest] for that method and path finds that chain. *)
Theorem Engine_find_addRoute fuel e m p hs e' :
  wf_engine e -> Engine_addRoute fuel e m p hs = Ok e' ->
  find_handlers (trees e') m p = Ok hs.
Proof. apply Engine_addRoute_found. Qed.

(** Method isolation: registering a route under one method changes
    no answer of the search under any other method. *)
Theorem Engine_method_isolation fuel e m p hs e' m' q :
  Engine_addRoute fuel e m p hs = Ok e' -> m' ≠ m ->
  find_handlers (trees e') m' q = find_handlers (trees e) m' q.
Proof.
  intros (_ & _ & _ & root' & _ & _ & Hother & _)%Engine_addRoute_Ok Hne.
  by rewrite !find_handlers_get, Hother.
Qed.

(** [C10] Refinement at the engine: [Engine.addRoute] keeps every tree
    well formed, binds the path to the chain in the table of its method
    and leaves the tables of the other methods as they were. *)
Theorem Engine_addRoute_refines fuel e m p h e' :
  wf_engine e -> Engine_addRoute fuel e m p (Some h) = Ok e' ->
  wf_engine e' /\
  engine_table e' m = <[p := h]> (engine_table e m) /\
  forall m', m' ≠ m -> engine_table e' m' = engine_table e m'.
Proof.
  intros Hwf Hadd.
  pose proof (Engine_addRoute_Ok _ _ _ _ _ _ Hadd) as (_ & _ & _ & _ & _ & _ & Hother & _).
  destruct (Engine_addRoute_routes _ _ _ _ _ _ Hwf Hadd) as (? & [= <-] & _ & Hwf' & Hwfr & Hr).
  split_and!; [done| |].
  - apply table_insert_perm; [apply wf_root_children..|done]; [|done].
    by apply root_of_wf.
  - intros m' Hne. unfold engine_table, root_of. by rewrite Hother.
Qed.

(** The first assertion: a path that does not begin with a slash is
    refused with the panic "path must begin with '/'", whatever the
    method and the chain. *)
Theorem Engine_addRoute_bad_path fuel e m c p hs :
  c ≠ "/"%char ->
  Engine_addRoute fuel e m (c :: p) hs = Panic (PanicMsg (bytes "path must begin with '/'")).
Proof. intros Hc. unfold Engine_addRoute. by rewrite bool_decide_eq_false_2. Qed.

(** The third assertion: a well-formed request to register a [nil]
    or empty chain is refused with the panic "there must be at least one
    handler", and the trees are not consulted. *)
Theorem Engine_addRoute_no_handler fuel e m p hs :
  m ≠ [] -> slice_len hs = 0 ->
  Engine_addRoute fuel e m ("/"%char :: p) hs =
  Panic (PanicMsg (bytes "there must be at least one handler")).
Proof.
  intros Hm Hhs. unfold Engine_addRoute. simpl.
  rewrite bool_decide_eq_true_2 by done. simpl.
  by rewrite bool_decide_eq_false_2 by lia.
Qed.

(** The first route of a method needs no walk: for a method that
    has no tree yet, [Engine.addRoute] returns on every request that
    passes the assertions, with no fuel at all. *)
Lemma Engine_addRoute_new_method e m p hs :
  methodTrees_get (trees e) m = None -> m ≠ [] -> 0 < slice_len hs ->
  exists e', Engine_addRoute 0 e m ("/"%char :: p) hs = Ok e'.
Proof.
  intros Hget Hm Hhs. unfold Engine_addRoute. simpl.
  rewrite !bool_decide_eq_true_2 by done. simpl. rewrite Hget. simpl. eauto.
Qed.

(** Duplicate rejection at the engine: registering again a path that
    the search finds under the method panics with the message of
    [node.addRoute]. *)
Theorem Engine_addRoute_duplicate fuel e m p h hs :
  wf_engine e -> find_handlers (trees e) m p = Ok (Some h) ->
  head p = Some "/"%char -> m ≠ [] -> 0 < slice_len hs -> length p < fuel ->
  Engine_addRoute fuel e m p hs = Panic (PanicMsg (duplicate_msg p)).
Proof.
  intros Hwf Hfind Hp Hm Hhs Hf.
  destruct (Engine_addRoute_root fuel e m p hs Hp Hm Hhs) as [k ->].
  rewrite find_handlers_root_of in Hfind. apply getValue_sound in Hfind.
  by rewrite (addRoute_registered fuel _ p h) by (done || by apply root_of_wf).
Qed.

(** *** The output of [Engine.addRoute] *)

(** What [Engine.addRoute] returns does not depend on what it prints. *)
Lemma Engine_addRoute_out_result name st f fuel e m p hs :
  (Engine_addRoute_out name st f fuel e m p hs).2 = Engine_addRoute fuel e m p hs.
Proof.
  unfold Engine_addRoute_out, Engine_addRoute, assert1. destruct p as [|c p]; [done|].
  repeat (case_bool_decide; simpl; [|done]). by destruct (methodTrees_get _ _).
Qed.

(** It prints the route when the assertions have passed, and nothing
    when one of them has failed. *)
Lemma Engine_addRoute_out_printed name st f fuel e m p hs :
  (Engine_addRoute_out name st f fuel e m p hs).1 =
  if bool_decide (head p = Some "/"%char) && bool_decide (m ≠ []) &&
     bool_decide (0 < slice_len hs)
  then debugPrintRoute name st f m p hs else [].
Proof.
  unfold Engine_addRoute_out, assert1. destruct p as [|c p]; [done|]. simpl.
  rewrite (bool_decide_ext (Some c = Some "/"%char) (c = "/"%char)) by naive_solver.
  repeat (case_bool_decide; simpl; [|done]).
  destruct (methodTrees_get _ _); simpl; by rewrite app_nil_r.
Qed.

(** A route that is registered twice is printed twice: in debug mode
    the second call of [Engine.addRoute] prints the route as the first
    has, and then panics. *)
Theorem Engine_addRoute_out_duplicate name st fuel e m p h hs :
  wf_engine e -> find_handlers (trees e) m p = Ok (Some h) ->
  head p = Some "/"%char -> m ≠ [] -> 0 < slice_len hs -> length p < fuel ->
  IsDebugging st = true ->
  Engine_addRoute_out name st None fuel e m p hs =
  ([Fprintf (bytes "[hapi-debug] %-6s %-25s --> %s (%d handlers)" ++ newline)
      [VString m; VString p; VString (nameOfFunction name (Last hs));
       VInt (Z.of_nat (slice_len hs))]],
   Panic (PanicMsg (duplicate_msg p))).
Proof.
  intros Hwf Hfind Hp Hm Hhs Hf Hdebug. apply injective_projections.
  - rewrite Engine_addRoute_out_printed, !bool_decide_eq_true_2 by done. simpl.
    unfold debugPrintRoute, debugPrint, HasSuffix. rewrite Hdebug.
    by rewrite (bool_decide_eq_true_2 (_ `suffix_of` _)) by (by eexists).
  - rewrite Engine_addRoute_out_result. by apply (Engine_addRoute_duplicate fuel e m p h).
Qed.

(** The loop of the slash shortcut, from the engine: when the root
    of the method has a segment and an only child that does not start
    with a slash, [Engine.addRoute] of a path that goes on with a slash
    after the segment passes the assertions and never returns. *)
Theorem Engine_addRoute_diverges fuel e m n ch p hs :
  methodTrees_get (trees e) m = Some n ->
  head (path n) = Some "/"%char -> children n = [ch] ->
  path ch ≠ [] -> head (path ch) ≠ Some "/"%char ->
  m ≠ [] -> 0 < slice_len hs ->
  Engine_addRoute fuel e m (path n ++ "/"%char :: p) hs = OutOfFuel.
Proof.
  intros Hget Hn Hc Hch Hhd Hm Hhs.
  assert (path n ≠ []) by (by destruct (path n)).
  destruct (Engine_addRoute_root fuel e m (path n ++ "/"%char :: p) hs) as [k ->];
    [by destruct (path n)|done..|].
  by rewrite (root_of_get _ _ _ Hget), (addRoute_loops fuel n ch).
Qed.

End router_lemmas.

(** ** Witnesses *)

Lemma sample_wf_New : wf_engine (@New nat).
Proof. constructor. Defined.

Lemma Engine_find_addRoute_witness :
  find_handlers (trees sample_engine) sample_GET (bytes "/hi") = Ok (Some [1]).
Proof.
  apply (Engine_find_addRoute 0 New sample_GET (bytes "/hi") (Some [1]) sample_engine);
    [exact sample_wf_New|reflexivity].
Defined.

Lemma Engine_method_isolation_witness :
  find_handlers (trees sample_engine) (bytes "POST") (bytes "/hi") =
  find_handlers (trees (@New nat)) (bytes "POST") (bytes "/hi").
Proof.
  apply (Engine_method_isolation 0 New sample_GET (bytes "/hi") (Some [1]) sample_engine);
    [reflexivity|discriminate].
Defined.

Lemma Engine_addRoute_refines_witness :
  wf_engine sample_engine /\
  engine_table sample_engine sample_GET = <[bytes "/hi" := [1]]> (engine_table New sample_GET) /\
  forall m', m' ≠ sample_GET -> engine_table sample_engine m' = engine_table New m'.
Proof.
  apply (Engine_addRoute_refines 0 New sample_GET (bytes "/hi") [1] sample_engine);
    [exact sample_wf_New|reflexivity].
Defined.

Lemma Engine_addRoute_bad_path_witness :
  Engine_addRoute 0 (@New nat) sample_GET (bytes "hi") (Some [1]) =
  Panic (PanicMsg (bytes "path must begin with '/'")).
Proof.
  apply (Engine_addRoute_bad_path 0 New sample_GET "h"%char (bytes "i") (Some [1])).
  discriminate.
Defined.

Lemma Engine_addRoute_no_handler_witness :
  Engine_addRoute 0 (@New nat) sample_GET (bytes "/hi") (Some []) =
  Panic (PanicMsg (bytes "there must be at least one handler")).
Proof.
  apply (Engine_addRoute_no_handler 0 New sample_GET (bytes "hi") (Some []));
    [discriminate|reflexivity].
Defined.

Lemma Engine_addRoute_duplicate_witness :
  Engine_addRoute 4 sample_engine sample_GET (bytes "/hi") (Some [2]) =
  Panic (PanicMsg (duplicate_msg (bytes "/hi"))).
Proof.
  apply (Engine_addRoute_duplicate 4 sample_engine sample_GET (bytes "/hi") [1] (Some [2]));
    [by repeat constructor|reflexivity|reflexivity|discriminate|simpl; lia|simpl; lia].
Defined.

Lemma Engine_addRoute_diverges_witness :
  Engine_addRoute 1000 sample_engine_a_ab sample_GET (bytes "/a/c") (Some [3]) = OutOfFuel.
Proof.
  apply (Engine_addRoute_diverges 1000 sample_engine_a_ab sample_GET
           sample_a_ab sample_leaf (bytes "c") (Some [3]));
    [reflexivity|reflexivity|reflexivity|discriminate|discriminate|discriminate|simpl; lia].
Defined.
