(* ===== verification/Group.v ===== *)
(** * Group: the route groups

    [type RouterGroup struct] of [src/unnamed/part_001] and its methods:
    [handle] and the seven verbs, [Use], [Group], [combineHandlers],
    [calculateAbsolutePath] and [returnObj], and [Engine.Use] of
    [src/unnamed/part_000].

    - A group reaches its engine through a pointer: the operations that
      register a route take the engine and return it updated.  The group
      embedded in the engine is the field [group] of [Router.Engine].
    - A [HandlerFunc] is a Go function value, which may be [nil]: here the
      handlers are [option F], and [combineHandlers] fills the slots of the
      slice it makes as the two calls of [copy] do.
    - [convertHandler] ([src/convert.go]) turns what the user registers
      into a [HandlerFunc] or panics: it is a parameter of the section.
    - [path.Join] is an instance of [Utils.PathLib].
    - [handle_out] and [GET_out] are [handle] and [GET] with the line
      that [Engine.addRoute] prints.
    - [type Group interface] is the record [Group_methods] of its
      methods; [RouterGroup_methods] and [Engine_methods] are the two
      types that implement it, and [on_returned] is a call on what a
      method has returned.  [made_group] are the groups that a program
      can make: the group of [New], and what [Use] and [Group] return.
    - [register_all] is a program that calls [handle] once per
      [registration], one after the other on the same engine, and
      [registered] is what the router answers for one of them. *)

From S2P Require Import Prelude Utils Tree Mode TreeInv TreeInsert Router.

(** ** The built-ins and constants of Go that the groups use *)

(** [copy(dst, src)]: the first [min(len(dst), len(src))] elements of
    [dst] are overwritten. *)
Definition go_copy {A} (dst src : list A) : list A :=
  take (length dst) src ++ drop (length src) dst.

(** [http.MethodPost] and the like. *)
Definition MethodPost : gostring := bytes "POST".
Definition MethodGet : gostring := bytes "GET".
Definition MethodDelete : gostring := bytes "DELETE".
Definition MethodPatch : gostring := bytes "PATCH".
Definition MethodPut : gostring := bytes "PUT".
Definition MethodOptions : gostring := bytes "OPTIONS".
Definition MethodHead : gostring := bytes "HEAD".

(** The [Group] a method returns: the engine or the group itself. *)
Inductive returned : Type := ReturnsEngine | ReturnsGroup.

Section group.
Context {Handler F : Type} `{PathLib}.

(** A function value of type [HandlerFunc]: [nil] or a function. *)
Abbreviation HandlerFunc := (option F).

Variable convertHandler : Handler -> gostring -> result HandlerFunc.

Implicit Types (group : RouterGroup HandlerFunc) (engine : Engine HandlerFunc).

(** ** Operations *)

(** [func (group *RouterGroup) BasePath() string]. *)
Definition BasePath group : gostring := basePath group.

(** [func (group *RouterGroup) combineHandlers(handlers ...HandlerFunc)
    HandlersChain]: a slice of [finalSize] [nil]s, then the two copies. *)
Definition combineHandlers group (handlers : list HandlerFunc) : HandlersChain HandlerFunc :=
  let finalSize := length (Handlers group) + length handlers in
  let mergedHandlers := replicate finalSize None in
  let mergedHandlers := go_copy mergedHandlers (Handlers group) in
  let mergedHandlers :=
    take (length (Handlers group)) mergedHandlers ++
    go_copy (drop (length (Handlers group)) mergedHandlers) handlers in
  Some mergedHandlers.

(** [func (group *RouterGroup) calculateAbsolutePath(relativePath string)
    string]. *)
Definition calculateAbsolutePath group (relativePath : gostring) : result gostring :=
  joinPaths (basePath group) relativePath.

(** [func (group *RouterGroup) returnObj() Group]. *)
Definition returnObj group : returned :=
  if is_root group then ReturnsEngine else ReturnsGroup.

(** [func (group *RouterGroup) handle(httpMethod, relativePath string,
    handler interface{}) Group]: the engine after the call and the
    [Group] returned. *)
Definition handle (fuel : nat) group engine (httpMethod relativePath : gostring)
    (handler : Handler) : result (Engine HandlerFunc * returned) :=
  let* absolutePath := calculateAbsolutePath group relativePath in
  let* h := convertHandler handler relativePath in
  let handlers := combineHandlers group [h] in
  let* engine := Engine_addRoute fuel engine httpMethod absolutePath handlers in
  Ok (engine, returnObj group).

(** [handle] with its output: what [Engine.addRoute] prints of the
    route, with [name] the name that the run time gives a function. *)
Definition handle_out (name : HandlerFunc -> gostring) (st : mode_state)
    (DebugPrintRouteFunc : option (gostring -> gostring -> gostring -> Z -> list output))
    (fuel : nat) group engine (httpMethod relativePath : gostring) (handler : Handler) :
    logged (Engine HandlerFunc * returned) :=
  let+ absolutePath := log_lift (calculateAbsolutePath group relativePath) in
  let+ h := log_lift (convertHandler handler relativePath) in
  let handlers := combineHandlers group [h] in
  let+ engine :=
    Engine_addRoute_out name st DebugPrintRouteFunc fuel engine httpMethod absolutePath
      handlers in
  log_lift (Ok (engine, returnObj group)).

(** [GET] with its output; the other verbs print in the same way. *)
Definition GET_out name st DebugPrintRouteFunc fuel group engine relativePath handler :=
  handle_out name st DebugPrintRouteFunc fuel group engine MethodGet relativePath handler.

(** [func (group *RouterGroup) Use(middleware ...HandlerFunc) Group]: the
    group after the call. *)
Definition Use group (middleware : list HandlerFunc) : RouterGroup HandlerFunc * returned :=
  let group' :=
    foldl (fun g handler =>
             {| Handlers := Handlers g ++ [handler]; basePath := basePath g;
                is_root := is_root g |}) group middleware in
  (group', returnObj group').

(** The verbs: [POST], [GET], [DELETE], [PATCH], [PUT], [OPTIONS], [HEAD]. *)
Definition POST fuel group engine relativePath handler :=
  handle fuel group engine MethodPost relativePath handler.
Definition GET fuel group engine relativePath handler :=
  handle fuel group engine MethodGet relativePath handler.
Definition DELETE fuel group engine relativePath handler :=
  handle fuel group engine MethodDelete relativePath handler.
Definition PATCH fuel group engine relativePath handler :=
  handle fuel group engine MethodPatch relativePath handler.
Definition PUT fuel group engine relativePath handler :=
  handle fuel group engine MethodPut relativePath handler.
Definition OPTIONS fuel group engine relativePath handler :=
  handle fuel group engine MethodOptions relativePath handler.
Definition HEAD fuel group engine relativePath handler :=
  handle fuel group engine MethodHead relativePath handler.

(** [func (group *RouterGroup) Group(relativePath string, handlers
    ...HandlerFunc) *RouterGroup]. *)
Definition Group group (relativePath : gostring) (handlers : list HandlerFunc) :
    result (RouterGroup HandlerFunc) :=
  let Handlers' := combineHandlers group handlers in
  let* basePath' := calculateAbsolutePath group relativePath in
  Ok {| Handlers := default [] Handlers'; basePath := basePath'; is_root := false |}.

(** [func (engine *Engine) Use(middleware ...HandlerFunc) Group] adds the
    middleware to the embedded group and returns the engine. *)
Definition Engine_Use engine (middleware : list HandlerFunc) : Engine HandlerFunc * returned :=
  ({| group := fst (Use (group engine) middleware); trees := trees engine;
      UseH2C := UseH2C engine |}, ReturnsEngine).

(** ** The interface *)

(** [type Group interface]: the methods of a value of the dynamic type
    [T], with the engine that a registration changes. *)
Record Group_methods (T : Type) : Type := mkGroup_methods {
  m_Group : T -> Engine HandlerFunc -> gostring -> list HandlerFunc ->
            result (RouterGroup HandlerFunc);
  m_GET : nat -> T -> Engine HandlerFunc -> gostring -> Handler ->
          result (Engine HandlerFunc * returned);
  m_POST : nat -> T -> Engine HandlerFunc -> gostring -> Handler ->
           result (Engine HandlerFunc * returned);
  m_DELETE : nat -> T -> Engine HandlerFunc -> gostring -> Handler ->
             result (Engine HandlerFunc * returned);
  m_PATCH : nat -> T -> Engine HandlerFunc -> gostring -> Handler ->
            result (Engine HandlerFunc * returned);
  m_PUT : nat -> T -> Engine HandlerFunc -> gostring -> Handler ->
          result (Engine HandlerFunc * returned);
  m_OPTIONS : nat -> T -> Engine HandlerFunc -> gostring -> Handler ->
              result (Engine HandlerFunc * returned);
  m_HEAD : nat -> T -> Engine HandlerFunc -> gostring -> Handler ->
           result (Engine HandlerFunc * returned)
}.

(** A pointer to a [RouterGroup] is a [Group]. *)
Definition RouterGroup_methods : Group_methods (RouterGroup HandlerFunc) :=
  {| m_Group g _ := Group g; m_GET := GET; m_POST := POST; m_DELETE := DELETE;
     m_PATCH := PATCH; m_PUT := PUT; m_OPTIONS := OPTIONS; m_HEAD := HEAD |}.

(** [var _ Group = &Engine{}]: a pointer to the engine is a [Group],
    with the methods of the group that the engine embeds.  There is one
    engine, and the pointer to it is [tt]. *)
Definition Engine_methods : Group_methods unit :=
  {| m_Group _ e := Group (group e);
     m_GET fuel _ e := GET fuel (group e) e;
     m_POST fuel _ e := POST fuel (group e) e;
     m_DELETE fuel _ e := DELETE fuel (group e) e;
     m_PATCH fuel _ e := PATCH fuel (group e) e;
     m_PUT fuel _ e := PUT fuel (group e) e;
     m_OPTIONS fuel _ e := OPTIONS fuel (group e) e;
     m_HEAD fuel _ e := HEAD fuel (group e) e |}.

(** The call of a method on the [Group] that a method of [group] has
    returned: the method [sel] of the engine, or of the group. *)
Definition on_returned {A} (sel : forall T, Group_methods T -> T -> A)
    (ret : returned) group : A :=
  match ret with
  | ReturnsEngine => sel unit Engine_methods tt
  | ReturnsGroup => sel _ RouterGroup_methods group
  end.

(** ** The invariant of a group *)

(** The base path of a group is rooted. *)
Definition group_ok group : Prop := head (basePath group) = Some "/"%char.

(** The groups of a program: the group of the engine of [New], and the
    groups that [Use] and [Group] make of them. *)
Inductive made_group : RouterGroup HandlerFunc -> Prop :=
| made_New : made_group (Router.group New)
| made_Use group middleware : made_group group -> made_group (Use group middleware).1
| made_Group group relativePath handlers group' :
    made_group group -> Group group relativePath handlers = Ok group' -> made_group group'.

(** ** The registrations of a program *)

(** A call [group.handle(httpMethod, relativePath, handler)], which
    the calls of the verbs are. *)
Record registration : Type := mkRegistration {
  rg_group : RouterGroup HandlerFunc;
  rg_method : gostring;
  rg_path : gostring;
  rg_handler : Handler
}.

(** The calls of a program, one after another on the one engine: a
    panic of one of them ends the program. *)
Fixpoint register_all (fuel : nat) engine (rs : list registration) :
    result (Engine HandlerFunc) :=
  match rs with
  | [] => Ok engine
  | r :: rs =>
      let* '(engine, _) :=
        handle fuel (rg_group r) engine (rg_method r) (rg_path r) (rg_handler r) in
      register_all fuel engine rs
  end.

(** The route of a registration is found with the middleware of its
    group before its handler. *)
Definition registered (r : registration) engine : Prop :=
  exists abs h,
    joinPaths (basePath (rg_group r)) (rg_path r) = Ok abs /\
    convertHandler (rg_handler r) (rg_path r) = Ok h /\
    find_handlers (trees engine) (rg_method r) abs = Ok (Some (Handlers (rg_group r) ++ [h])).

End group.

Arguments registration : clear implicits.
Arguments mkRegistration {Handler F}.

(** ** Sample groups, for the witnesses *)

(** The conversion that takes every handler as it is. *)
Definition sample_convert (h : nat) (relativePath : gostring) : result (option nat) :=
  Ok (Some h).

(** The group [/api] with one middleware. *)
Definition sample_group : RouterGroup (option nat) :=
  {| Handlers := [Some 7]; basePath := bytes "/api"; is_root := false |}.

(** The engine after [GET v1] has been registered in the group [/api]. *)
Definition sample_group_engine : Engine (option nat) :=
  Eval vm_compute in
    match handle (H := reference_PathLib) sample_convert 0 sample_group New
            MethodGet (bytes "v1") 1 with
    | Ok (e, _) => e
    | _ => New
    end.

(** Three registrations: two paths of the group [/api], the first of
    them under two methods, and the engine after them. *)
Definition sample_registrations : list (registration nat nat) :=
  [mkRegistration sample_group MethodGet (bytes "v1") 1;
   mkRegistration sample_group MethodPost (bytes "v1") 2;
   mkRegistration sample_group MethodGet (bytes "v2") 3].

Definition sample_registered : Engine (option nat) :=
  match register_all (H := reference_PathLib) sample_convert 10 New sample_registrations with
  | Ok e => e
  | _ => New
  end.

Section group_lemmas.
Context {Handler F : Type} `{PathLib}.
Variable convertHandler : Handler -> gostring -> result (option F).
Implicit Types (group : RouterGroup (option F)) (engine : Engine (option F)).
Implicit Types (hs mw : list (option F)).

(** ** [copy] *)

Lemma go_copy_replicate {A} (l : list A) (x : A) m :
  go_copy (replicate (length l + m) x) l = l ++ replicate m x.
Proof.
  unfold go_copy. rewrite length_replicate, take_ge, drop_replicate by lia.
  by rewrite Nat.add_comm, Nat.add_sub.
Qed.

Lemma combineHandlers_app group hs :
  combineHandlers group hs = Some (Handlers group ++ hs).
Proof.
  unfold combineHandlers. rewrite go_copy_replicate.
  rewrite take_app_length, drop_app_length.
  by rewrite <- (Nat.add_0_r (length hs)), go_copy_replicate, app_nil_r.
Qed.

(** ** The groups *)

Lemma Use_app group mw :
  fst (Use group mw) =
  {| Handlers := Handlers group ++ mw; basePath := basePath group;
     is_root := is_root group |}.
Proof.
  unfold Use. simpl. revert group. induction mw as [|h mw IH]; intros group; simpl.
  - rewrite app_nil_r. by destruct group.
  - rewrite IH. simpl. by rewrite <- (assoc_L (++)).
Qed.

(** What a call of [handle] that returns has done. *)
Lemma handle_Ok fuel group engine m rel handler engine' ret :
  handle convertHandler fuel group engine m rel handler = Ok (engine', ret) ->
  exists abs h,
    joinPaths (basePath group) rel = Ok abs /\ convertHandler handler rel = Ok h /\
    Engine_addRoute fuel engine m abs (Some (Handlers group ++ [h])) = Ok engine'.
Proof.
  unfold handle, calculateAbsolutePath.
  intros (abs & Habs & (h & Hh & (e & He & [= <- _])%result_bind_Ok)%result_bind_Ok)%result_bind_Ok.
  rewrite combineHandlers_app in He. by exists abs, h.
Qed.

(** ** The contract of the groups *)

(** [combineHandlers] returns the handlers of the group followed by
    the handlers given: the two copies fill every slot of the slice it
    makes, and none is left [nil]. *)
Theorem combineHandlers_spec group hs :
  combineHandlers group hs = Some (Handlers group ++ hs).
Proof. apply combineHandlers_app. Qed.

(** A route registered through a group is found under the joined
    path, with the chain of the group's middleware followed by the
    handler. *)
Theorem handle_registers fuel group engine m rel handler engine' ret :
  wf_engine engine ->
  handle convertHandler fuel group engine m rel handler = Ok (engine', ret) ->
  exists abs h,
    joinPaths (basePath group) rel = Ok abs /\ convertHandler handler rel = Ok h /\
    find_handlers (trees engine') m abs = Ok (Some (Handlers group ++ [h])) /\
    wf_engine engine'.
Proof.
  intros Hwf (abs & h & Habs & Hh & Hadd)%handle_Ok. exists abs, h.
  split_and!; [done..|by eapply Engine_addRoute_found|].
  by destruct (Engine_addRoute_routes _ _ _ _ _ _ Hwf Hadd) as (_ & _ & _ & ? & _).
Qed.

(** Middleware comes first: after [Use], a route registered through
    the group carries the old middleware, the new middleware and then its
    handler, in this order. *)
Theorem Use_then_handle fuel group engine mw m rel handler engine' ret :
  wf_engine engine ->
  handle convertHandler fuel (fst (Use group mw)) engine m rel handler = Ok (engine', ret) ->
  exists abs h,
    joinPaths (basePath group) rel = Ok abs /\ convertHandler handler rel = Ok h /\
    find_handlers (trees engine') m abs = Ok (Some (Handlers group ++ mw ++ [h])).
Proof.
  intros Hwf (abs & h & Habs & Hh & Hadd)%handle_Ok. exists abs, h.
  rewrite Use_app in *. simpl in *. rewrite <- (assoc_L (++)) in Hadd.
  split_and!; [done..|by eapply Engine_addRoute_found].
Qed.

(** A group made by [Group] from a group with a rooted base path has
    a rooted base path, the middleware of its parent followed by its own,
    and is not the root; and [Group] returns whenever [path.Join] does. *)
Theorem Group_spec group rel hs :
  group_ok group ->
  exists group',
    Group group rel hs = Ok group' /\ group_ok group' /\
    Handlers group' = Handlers group ++ hs /\ is_root group' = false.
Proof.
  intros Hok. unfold Group, calculateAbsolutePath.
  destruct (joinPaths_Ok (basePath group) rel) as (p & Hp & _).
  rewrite Hp, combineHandlers_app. simpl.
  eexists. split; [done|]. split_and!; [|done..]. by apply (joinPaths_rooted _ _ _ Hok Hp).
Qed.

(** A group with a rooted base path never fails the first
    assertion of [Engine.addRoute]: the path it registers begins with a
    slash. *)
Lemma handle_rooted fuel group engine m rel handler engine' ret :
  group_ok group ->
  handle convertHandler fuel group engine m rel handler = Ok (engine', ret) ->
  exists abs, calculateAbsolutePath group rel = Ok abs /\ head abs = Some "/"%char.
Proof.
  intros Hok (abs & h & Habs & _)%handle_Ok. exists abs. split; [done|].
  by apply (joinPaths_rooted _ _ _ Hok Habs).
Qed.

(** ** What a registration prints *)

Lemma Last_snoc {A} (l : list A) (x : A) : Last (Some (l ++ [x])) = Some x.
Proof.
  unfold Last. rewrite length_app, decide_True by (simpl; lia).
  replace (length l + length [x] - 1) with (length l) by (simpl; lia).
  by rewrite list_lookup_middle.
Qed.

(** What [handle] returns does not depend on what it prints. *)
Lemma handle_out_result name st f fuel group engine m rel handler :
  (handle_out convertHandler name st f fuel group engine m rel handler).2 =
  handle convertHandler fuel group engine m rel handler.
Proof.
  unfold handle_out, handle. rewrite log_bind_result. simpl.
  destruct (calculateAbsolutePath _ _) as [abs| |]; simpl; [|done..].
  rewrite log_bind_result. simpl. destruct (convertHandler _ _) as [h| |]; simpl; [|done..].
  rewrite log_bind_result, Engine_addRoute_out_result.
  by destruct (Engine_addRoute _ _ _ _ _).
Qed.

(** A registration that returns prints, in debug mode, one line: the
    method, the joined path, the name of the handler that was made of
    the function, and the length of the chain with the middleware. *)
Theorem handle_out_line name st fuel group engine m rel handler engine' ret :
  handle convertHandler fuel group engine m rel handler = Ok (engine', ret) ->
  IsDebugging st = true ->
  exists abs h,
    joinPaths (basePath group) rel = Ok abs /\ convertHandler handler rel = Ok h /\
    handle_out convertHandler name st None fuel group engine m rel handler =
    ([Fprintf (bytes "[hapi-debug] %-6s %-25s --> %s (%d handlers)" ++ newline)
        [VString m; VString abs; VString (name h);
         VInt (Z.of_nat (S (length (Handlers group))))]],
     Ok (engine', ret)).
Proof.
  intros Hh Hdebug. destruct (handle_Ok _ _ _ _ _ _ _ _ Hh) as (abs & h & Habs & Hcv & Hadd).
  exists abs, h. split_and!; [done..|]. apply injective_projections; simpl;
    [|by rewrite handle_out_result].
  unfold handle_out, calculateAbsolutePath. rewrite Habs, Hcv, !log_lift_bind.
  rewrite log_bind_output, Engine_addRoute_out_printed, Engine_addRoute_out_result.
  rewrite combineHandlers_app, Hadd. simpl. rewrite app_nil_r.
  apply Engine_addRoute_Ok in Hadd as (Hp & Hm & Hhs & _).
  rewrite !bool_decide_eq_true_2 by done. simpl.
  unfold debugPrintRoute, debugPrint, HasSuffix. rewrite Hdebug, Last_snoc.
  rewrite (bool_decide_eq_true_2 (_ `suffix_of` _)) by (by eexists). simpl.
  by rewrite length_app, Nat.add_1_r.
Qed.

(** ** The groups of a program, and the interface *)

(** Every group of a program has a rooted base path, and none is the
    root: [New] makes the group of the engine with [root: false]. *)
Lemma made_group_ok group : made_group group -> group_ok group /\ is_root group = false.
Proof.
  induction 1 as [|g mw _ [Hok Hroot]|g rel hs g' _ [Hok Hroot] HG]; [done| |].
  - by rewrite Use_app.
  - destruct (Group_spec g rel hs Hok) as (g2 & HG2 & Hok2 & _ & Hroot2).
    rewrite HG in HG2. by injection HG2 as <-.
Qed.

(** The methods of a group of a program return the group, never the
    engine. *)
Lemma handle_returns_group fuel group engine m rel handler engine' ret :
  made_group group ->
  handle convertHandler fuel group engine m rel handler = Ok (engine', ret) ->
  ret = ReturnsGroup.
Proof.
  intros [_ Hroot]%made_group_ok. unfold handle, returnObj. rewrite Hroot.
  intros (? & _ & (? & _ & (? & _ & [= _ <-])%result_bind_Ok)%result_bind_Ok)%result_bind_Ok.
  done.
Qed.

(** A chained call is a call on the same group: the [Group] that a
    method of a group has returned has the methods of that group, also
    when it is the engine, whose group is then the group. *)
Lemma on_returned_same {A} (sel : forall T, Group_methods T -> T -> Engine (option F) -> A)
    group engine :
  (forall e, sel unit (Engine_methods convertHandler) tt e =
             sel _ (RouterGroup_methods convertHandler) (Router.group e) e) ->
  (is_root group = true -> Router.group engine = group) ->
  on_returned convertHandler sel (returnObj group) group engine =
  sel _ (RouterGroup_methods convertHandler) group engine.
Proof.
  intros Hsel Hroot. unfold on_returned, returnObj.
  destruct (is_root group); [|done]. by rewrite Hsel, Hroot.
Qed.

(** Two registrations chained, [group.GET(p1, h1).POST(p2, h2)], are
    the two registrations on the group. *)
Theorem chained_registrations fuel group engine p1 h1 p2 h2 engine1 ret :
  (is_root group = true -> Router.group engine1 = group) ->
  GET convertHandler fuel group engine p1 h1 = Ok (engine1, ret) ->
  on_returned convertHandler (fun T M => m_POST T M fuel) ret group engine1 p2 h2 =
  POST convertHandler fuel group engine1 p2 h2.
Proof.
  intros Hroot (? & _ & (? & _ & (? & _ & [= _ <-])%result_bind_Ok)%result_bind_Ok)%result_bind_Ok.
  by rewrite (on_returned_same (fun T M => m_POST T M fuel)).
Qed.

(** ** The registrations of a program *)

(** Later registrations take no chain away. *)
Lemma register_all_keeps fuel engine rs engine' m q h0 :
  wf_engine engine -> register_all convertHandler fuel engine rs = Ok engine' ->
  find_handlers (trees engine) m q = Ok (Some h0) ->
  wf_engine engine' /\ find_handlers (trees engine') m q = Ok (Some h0).
Proof.
  revert engine. induction rs as [|r rs IH]; intros engine Hwf Hall Hfind.
  - by injection Hall as <-.
  - apply result_bind_Ok in Hall as ([e1 ret] & Hr & Hall).
    pose proof (handle_Ok _ _ _ _ _ _ _ _ Hr) as (abs & h & _ & _ & Hadd).
    apply handle_registers in Hr as (_ & _ & _ & _ & _ & Hwf1); [|done].
    apply (IH e1); [done..|].
    apply (Engine_addRoute_keeps _ _ _ _ _ _ _ _ _ Hwf Hadd Hfind).
Qed.

(** [C11] The routes of a program.  When the registrations of a program
    have returned, one after another from a well-formed engine, every
    one of them is found: under its method and the path joined to the
    base path of its group, the search of [handleHTTPRequest] finds the
    middleware of the group followed by the converted handler; and the
    engine is well formed.  No registration has displaced another. *)
Theorem register_all_finds fuel engine rs engine' :
  wf_engine engine -> register_all convertHandler fuel engine rs = Ok engine' ->
  wf_engine engine' /\ Forall (fun r => registered convertHandler r engine') rs.
Proof.
  revert engine. induction rs as [|r rs IH]; intros engine Hwf Hall.
  - by injection Hall as <-.
  - apply result_bind_Ok in Hall as ([e1 ret] & Hr & Hall).
    apply handle_registers in Hr as (abs & h & Habs & Hh & Hfind & Hwf1); [|done].
    destruct (IH e1 Hwf1 Hall) as [Hwf' Hrs]. split; [done|]. constructor; [|done].
    exists abs, h. split_and!; [done..|].
    by apply (register_all_keeps fuel e1 rs engine' _ _ _ Hwf1 Hall).
Qed.

End group_lemmas.

(** ** Witnesses *)

Lemma sample_wf_New' : wf_engine (@New (option nat)).
Proof. constructor. Defined.

Lemma handle_registers_witness :
  exists abs h,
    joinPaths (H := reference_PathLib) (bytes "/api") (bytes "v1") = Ok abs /\
    sample_convert 1 (bytes "v1") = Ok h /\
    find_handlers (trees sample_group_engine) MethodGet abs = Ok (Some ([Some 7] ++ [h])) /\
    wf_engine sample_group_engine.
Proof.
  apply (handle_registers (H := reference_PathLib) sample_convert 0 sample_group New
           MethodGet (bytes "v1") 1 sample_group_engine ReturnsGroup);
    [exact sample_wf_New'|reflexivity].
Defined.

Lemma Use_then_handle_witness :
  exists abs h,
    joinPaths (H := reference_PathLib) (bytes "/") (bytes "v1") = Ok abs /\
    sample_convert 1 (bytes "v1") = Ok h /\
    find_handlers
      (trees (match handle (H := reference_PathLib) sample_convert 0
                      (fst (Use (group New) [Some 7])) New MethodGet (bytes "v1") 1 with
              | Ok (e, _) => e
              | _ => New
              end)) MethodGet abs = Ok (Some ([] ++ [Some 7] ++ [h])).
Proof.
  eapply (Use_then_handle (H := reference_PathLib) sample_convert 0 (group New) New
            [Some 7] MethodGet (bytes "v1") 1 _ ReturnsGroup);
    [exact sample_wf_New'|reflexivity].
Defined.

Lemma register_all_finds_witness :
  wf_engine sample_registered /\
  Forall (fun r => registered (H := reference_PathLib) sample_convert r sample_registered)
    sample_registrations.
Proof.
  apply (register_all_finds (H := reference_PathLib) sample_convert 10 New
           sample_registrations sample_registered);
    [exact sample_wf_New'|vm_compute; reflexivity].
Defined.

Lemma Group_spec_witness :
  exists group',
    Group (H := reference_PathLib) sample_group (bytes "v2/") [Some 8] = Ok group' /\
    group_ok group' /\ Handlers group' = [Some 7] ++ [Some 8] /\ is_root group' = false.
Proof.
  apply (Group_spec (H := reference_PathLib) sample_group (bytes "v2/") [Some 8]).
  reflexivity.
Defined.

