(* ===== verification/Context.v ===== *)
(** * Context: the request context

    [type Context struct] of [src/unnamed/part_001] and its methods that
    hold state: [reset], [Copy], the flow control ([Next], [IsAborted],
    [Abort]) and the metadata ([Set], [Get], [MustGet] and the typed
    getters).

    - [index] is an [int8]: it is a [Z] kept in range by [int8_wrap], and
      [int8(len(c.handlers))] wraps in the same way.
    - A handler is a Go closure over the context.  Here the handlers are
      the elements of a type [HandlerFunc] with a semantics [run]: what
      the handler does to the context, given the function it reaches
      through [c.Next()].  [Next] calls handlers that may call [Next]; it
      takes fuel, one unit per nested call and per iteration.
    - [Keys] and [data] are maps that may be [nil]: an [option] of a
      [gmap].  The values are [any]: the dynamic types the typed getters
      ask for, and [AnyOther] for the rest.
    - The response writer and the request come from outside the
      repository: they are values of types the section takes as
      parameters, and [detach] stands for [cp.writermem.ResponseWriter =
      nil]. *)

From stdpp Require Import gmap.
From S2P Require Import Prelude Tree.

(** [const abortIndex int8 = math.MaxInt8 >> 1]. *)
Definition MaxInt8 : Z := 127.
Definition abortIndex : Z := Z.shiftr MaxInt8 1.

Section context.
Context {HandlerFunc float64 Time other responseWriter Request : Type}.

(** ** Data *)

(** The values of [Keys]: an interface value is [nil] or a value of a
    dynamic type.  A slice or a map inside it may itself be [nil]. *)
Inductive any : Type :=
| AnyNil
| AnyString (s : gostring)
| AnyBool (b : bool)
| AnyInt (i : Z)
| AnyInt64 (i : Z)
| AnyUint (u : Z)
| AnyUint64 (u : Z)
| AnyFloat64 (f : float64)
| AnyTime (t : Time)
| AnyDuration (d : Z)
| AnyStringSlice (ss : slice gostring)
| AnyBytes (b : slice ascii)
| AnyStringMap (sm : option (gmap gostring other))
| AnyStringMapString (sms : option (gmap gostring gostring))
| AnyStringMapStringSlice (smss : option (gmap gostring (slice gostring)))
| AnyOther (v : other).

(** [type Context struct].  [Writer] always points to [writermem], and
    [engine] is the one engine: neither is a field here. *)
Record ctx : Type := Ctx {
  c_writermem : responseWriter;
  c_Request : Request;
  c_handlers : HandlersChain HandlerFunc;
  c_index : Z;
  c_Keys : option (gmap gostring any);
  c_fullPath : gostring;
  c_data : option (gmap gostring any)
}.

(** What a handler does: [run h next c] is the context after [h(c)],
    where [next] is what [c.Next()] does inside [h]. *)
Variable run : HandlerFunc -> (ctx -> result ctx) -> ctx -> result ctx.

(** [cp.writermem.ResponseWriter = nil]. *)
Variable detach : responseWriter -> responseWriter.

(** The zero values of the types that come from outside. *)
Variable zero_float64 : float64.
Variable zero_Time : Time.

(** ** Creation *)

(** [func (c *Context) reset()]. *)
Definition reset (c : ctx) : ctx :=
  {| c_writermem := c_writermem c; c_Request := c_Request c;
     c_handlers := None; c_index := -1; c_Keys := c_Keys c;
     c_fullPath := []; c_data := None |}.

(** [func (c *Context) Copy() *Context]: the loop copies every key into
    a new map, which is never [nil]. *)
Definition Copy (c : ctx) : ctx :=
  {| c_writermem := detach (c_writermem c); c_Request := c_Request c;
     c_handlers := None; c_index := abortIndex;
     c_Keys := Some (default ∅ (c_Keys c));
     c_fullPath := c_fullPath c; c_data := None |}.

(** ** Flow control *)

Definition set_index (c : ctx) (i : Z) : ctx :=
  {| c_writermem := c_writermem c; c_Request := c_Request c;
     c_handlers := c_handlers c; c_index := i; c_Keys := c_Keys c;
     c_fullPath := c_fullPath c; c_data := c_data c |}.

(** [c.index++] on an [int8]. *)
Definition inc_index (c : ctx) : ctx := set_index c (int8_wrap (c_index c + 1)).

(** [c.handlers[c.index]]: a negative index and an index past the end
    panic. *)
Definition handler_at (c : ctx) : result HandlerFunc :=
  if (c_index c <? 0)%Z then Panic PanicIndex
  else
    match default [] (c_handlers c) !! Z.to_nat (c_index c) with
    | Some h => Ok h
    | None => Panic PanicIndex
    end.

(** The loop of [Next]:
    [for c.index < int8(len(c.handlers)) { c.handlers[c.index](c); c.index++ }],
    where [call] runs a handler. *)
Fixpoint Next_loop (call : HandlerFunc -> ctx -> result ctx) (fuel : nat) (c : ctx) :
    result ctx :=
  match fuel with
  | 0 => OutOfFuel
  | S fuel =>
      if (c_index c <? int8_wrap (Z.of_nat (slice_len (c_handlers c))))%Z then
        let* h := handler_at c in
        let* c := call h c in
        Next_loop call fuel (inc_index c)
      else Ok c
  end.

(** [func (c *Context) Next()]. *)
Fixpoint Next (fuel : nat) (c : ctx) : result ctx :=
  match fuel with
  | 0 => OutOfFuel
  | S fuel => Next_loop (fun h => run h (Next fuel)) (S fuel) (inc_index c)
  end.

(** [func (c *Context) IsAborted() bool]. *)
Definition IsAborted (c : ctx) : bool := (abortIndex <=? c_index c)%Z.

(** [func (c *Context) Abort()]. *)
Definition Abort (c : ctx) : ctx := set_index c abortIndex.

(** ** Metadata *)

(** [func (c *Context) Set(key string, value any)]. *)
Definition Context_Set (c : ctx) (key : gostring) (value : any) : ctx :=
  let keys := match c_Keys c with Some m => m | None => ∅ end in
  {| c_writermem := c_writermem c; c_Request := c_Request c;
     c_handlers := c_handlers c; c_index := c_index c;
     c_Keys := Some (<[key := value]> keys);
     c_fullPath := c_fullPath c; c_data := c_data c |}.

(** [func (c *Context) Get(key string) (value any, exists bool)]: reading
    a [nil] map finds nothing. *)
Definition Context_Get (c : ctx) (key : gostring) : any * bool :=
  match c_Keys c ≫= (.!! key) with
  | Some value => (value, true)
  | None => (AnyNil, false)
  end.

Definition MustGet_msg (key : gostring) : gostring :=
  bytes "Key " ++ ["034"%char] ++ key ++ ["034"%char] ++ bytes " does not exist".

(** [func (c *Context) MustGet(key string) any]. *)
Definition MustGet (c : ctx) (key : gostring) : result any :=
  let '(value, exists_) := Context_Get c key in
  if exists_ then Ok value else Panic (PanicMsg (MustGet_msg key)).

(** The typed getters: [if val, ok := c.Get(key); ok && val != nil
    { x, _ = val.(T) }], the zero value of [T] otherwise. *)
Definition get_typed {T} (zero : T) (assert_type : any -> option T) (c : ctx)
    (key : gostring) : T :=
  let '(val, ok) := Context_Get c key in
  if ok && negb (if val is AnyNil then true else false)
  then default zero (assert_type val)
  else zero.

Definition GetString : ctx -> gostring -> gostring :=
  get_typed [] (fun v => if v is AnyString s then Some s else None).
Definition GetBool : ctx -> gostring -> bool :=
  get_typed false (fun v => if v is AnyBool b then Some b else None).
Definition GetInt : ctx -> gostring -> Z :=
  get_typed 0%Z (fun v => if v is AnyInt i then Some i else None).
Definition GetInt64 : ctx -> gostring -> Z :=
  get_typed 0%Z (fun v => if v is AnyInt64 i then Some i else None).
Definition GetUint : ctx -> gostring -> Z :=
  get_typed 0%Z (fun v => if v is AnyUint u then Some u else None).
Definition GetUint64 : ctx -> gostring -> Z :=
  get_typed 0%Z (fun v => if v is AnyUint64 u then Some u else None).
Definition GetFloat64 : ctx -> gostring -> float64 :=
  get_typed zero_float64 (fun v => if v is AnyFloat64 f then Some f else None).
Definition GetTime : ctx -> gostring -> Time :=
  get_typed zero_Time (fun v => if v is AnyTime t then Some t else None).
Definition GetDuration : ctx -> gostring -> Z :=
  get_typed 0%Z (fun v => if v is AnyDuration d then Some d else None).
Definition GetStringSlice : ctx -> gostring -> slice gostring :=
  get_typed None (fun v => if v is AnyStringSlice ss then Some ss else None).
Definition GetStringMap : ctx -> gostring -> option (gmap gostring other) :=
  get_typed None (fun v => if v is AnyStringMap sm then Some sm else None).
Definition GetStringMapString : ctx -> gostring -> option (gmap gostring gostring) :=
  get_typed None (fun v => if v is AnyStringMapString sms then Some sms else None).
Definition GetStringMapStringSlice :
    ctx -> gostring -> option (gmap gostring (slice gostring)) :=
  get_typed None (fun v => if v is AnyStringMapStringSlice smss then Some smss else None).

(** ** Handlers that leave the chain alone *)

(** [h] does [f] to the context through [call], and [f] leaves [handlers]
    and [index] as they are. *)
Definition does (call : HandlerFunc -> ctx -> result ctx) (h : HandlerFunc)
    (f : ctx -> ctx) : Prop :=
  forall c, call h c = Ok (f c) /\ c_index (f c) = c_index c /\
            c_handlers (f c) = c_handlers c.

(** [h] is a handler that never calls [c.Next()] and does [f]. *)
Definition plain (h : HandlerFunc) (f : ctx -> ctx) : Prop :=
  forall next, does (fun h => run h next) h f.

(** [h] is a handler that does [f], calls [c.Abort()], and never calls
    [c.Next()]. *)
Definition aborts (h : HandlerFunc) (f : ctx -> ctx) : Prop :=
  forall next c, run h next c = Ok (Abort (f c)) /\ c_handlers (f c) = c_handlers c.

(** [h] is a middleware: it does [pre], calls [c.Next()], and does [post]
    to what comes back. *)
Definition wraps (h : HandlerFunc) (pre post : ctx -> ctx) : Prop :=
  (forall next c, run h next c = let* c1 := next (pre c) in Ok (post c1)) /\
  forall c, c_index (pre c) = c_index c /\ c_handlers (pre c) = c_handlers c /\
            c_index (post c) = c_index c /\ c_handlers (post c) = c_handlers c.

(** The context after the loop of [Next] has run handlers that do [fs]. *)
Definition run_all (fs : list (ctx -> ctx)) (c : ctx) : ctx :=
  foldl (fun c f => inc_index (f c)) c fs.

End context.

Arguments any : clear implicits.
Arguments ctx : clear implicits.

(** ** Sample handlers, for the witnesses *)

(** A handler that sets a key, one that aborts, one that calls [Next]
    between two writes. *)
Inductive sample_handler : Type :=
| HSet (key : gostring) (b : bool)
| HAbort
| HAround (key : gostring).

Definition sample_ctx : Type := ctx sample_handler unit unit unit unit unit.

Definition sample_run (h : sample_handler) (next : sample_ctx -> result sample_ctx)
    (c : sample_ctx) : result sample_ctx :=
  match h with
  | HSet key b => Ok (Context_Set c key (AnyBool b))
  | HAbort => Ok (Abort c)
  | HAround key =>
      let* c := next (Context_Set c key (AnyBool false)) in
      Ok (Context_Set c key (AnyBool true))
  end.

(** A context fresh from [reset] with the chain [hs]. *)
Definition sample_start (hs : list sample_handler) : sample_ctx :=
  {| c_writermem := tt; c_Request := tt; c_handlers := Some hs; c_index := -1;
     c_Keys := None; c_fullPath := []; c_data := None |}.

(** The chain that aborts at once and has a handler at position 64. *)
Definition sample_long_chain : list sample_handler :=
  HAbort :: replicate 63 (HSet (bytes "skipped") true) ++ [HSet (bytes "late") true].

Section context_lemmas.
Context {HandlerFunc float64 Time other responseWriter Request : Type}.
Abbreviation ctx' := (ctx HandlerFunc float64 Time other responseWriter Request).
Abbreviation any' := (any float64 Time other).
Variable run : HandlerFunc -> (ctx' -> result ctx') -> ctx' -> result ctx'.
Implicit Types (c : ctx') (h : HandlerFunc) (hs : list HandlerFunc).
Implicit Types (f : ctx' -> ctx') (key : gostring) (value : any').

(** ** Metadata *)

Lemma Get_Set c key value : Context_Get (Context_Set c key value) key = (value, true).
Proof. unfold Context_Get, Context_Set. simpl. by rewrite lookup_insert_eq. Qed.

Lemma Get_Set_ne c key key' value :
  key' ≠ key -> Context_Get (Context_Set c key value) key' = Context_Get c key'.
Proof.
  intros Hne. unfold Context_Get, Context_Set. simpl.
  rewrite lookup_insert_ne by done. by destruct (c_Keys c).
Qed.

Lemma get_typed_Set {T} (zero : T) (assert_type : any' -> option T) c key value :
  get_typed zero assert_type (Context_Set c key value) key =
  match value with
  | AnyNil => zero
  | _ => default zero (assert_type value)
  end.
Proof. unfold get_typed. rewrite Get_Set. by destruct value. Qed.

(** ** The loop of [Next] *)

Lemma inc_index_small c (k : nat) :
  c_index c = Z.of_nat k -> k < 127 -> c_index (inc_index c) = Z.of_nat (S k).
Proof. intros Hi Hk. simpl. rewrite Hi, int8_wrap_small; lia. Qed.

(** The loop over a stretch [hs2] of the chain whose handlers leave the
    chain alone: they run in order, once each. *)
Lemma Next_loop_does call fuel hs1 hs2 hs3 fs c :
  Forall2 (does call) hs2 fs ->
  c_handlers c = Some (hs1 ++ hs2 ++ hs3) -> c_index c = Z.of_nat (length hs1) ->
  length (hs1 ++ hs2 ++ hs3) <= 127 ->
  Next_loop call (length hs2 + fuel) c = Next_loop call fuel (run_all fs c) /\
  c_handlers (run_all fs c) = Some (hs1 ++ hs2 ++ hs3) /\
  c_index (run_all fs c) = Z.of_nat (length hs1 + length hs2).
Proof.
  intros Hd. revert hs1 c. induction Hd as [|h f hs2 fs Hhf _ IH]; intros hs1 c Hh Hi Hlen.
  { simpl. by rewrite Nat.add_0_r. }
  assert (length (hs1 ++ (h :: hs2) ++ hs3) = length hs1 + S (length hs2 + length hs3))
    as Hl by (rewrite !length_app; simpl; lia).
  cbn [length Nat.add Next_loop run_all foldl]. rewrite Hh. cbn [slice_len].
  rewrite Hl in *. rewrite int8_wrap_small by lia.
  destruct (Z.ltb_spec (c_index c) (Z.of_nat (length hs1 + S (length hs2 + length hs3))))
    as [_|Hge]; [|lia].
  unfold handler_at. destruct (Z.ltb_spec (c_index c) 0) as [|_]; [lia|].
  rewrite Hh, Hi, Nat2Z.id. simpl. rewrite list_lookup_middle by done. simpl.
  destruct (Hhf c) as (-> & Hidx & Hhs). simpl.
  destruct (IH (hs1 ++ [h]) (inc_index (f c))) as (-> & Hh' & Hi').
  - simpl. by rewrite Hhs, Hh, <- (assoc_L (++)).
  - rewrite length_app. simpl. rewrite Nat.add_1_r. apply inc_index_small; [congruence|lia].
  - rewrite !length_app. simpl. lia.
  - rewrite <- (assoc_L (++)) in Hh'. rewrite length_app in Hi'. simpl in Hh', Hi'.
    change (foldl _ (inc_index (f c)) fs) with (run_all fs (inc_index (f c))).
    split_and!; [done..|]. rewrite Hi'. f_equal. lia.
Qed.

(** The loop stops where the chain ends. *)
Lemma Next_loop_end call fuel c :
  (int8_wrap (Z.of_nat (slice_len (c_handlers c))) <= c_index c)%Z ->
  Next_loop call (S fuel) c = Ok c.
Proof.
  intros Hle. simpl.
  by destruct (Z.ltb_spec (c_index c) (int8_wrap (Z.of_nat (slice_len (c_handlers c)))));
    [lia|].
Qed.

Lemma Next_unfold fuel c :
  Next run (S fuel) c = Next_loop (fun h => run h (Next run fuel)) (S fuel) (inc_index c).
Proof. done. Qed.

(** One iteration of the loop. *)
Lemma Next_loop_step call fuel c h :
  handler_at c = Ok h ->
  (c_index c < int8_wrap (Z.of_nat (slice_len (c_handlers c))))%Z ->
  Next_loop call (S fuel) c = let* c' := call h c in Next_loop call fuel (inc_index c').
Proof.
  intros Hat Hlt. cbn [Next_loop]. rewrite Hat.
  by destruct (Z.ltb_spec (c_index c) (int8_wrap (Z.of_nat (slice_len (c_handlers c)))));
    [|lia].
Qed.

Lemma plain_does fuel h f : plain run h f -> does (fun h => run h (Next run fuel)) h f.
Proof. intros Hp. apply Hp. Qed.

(** ** The contract of [Next] *)

Lemma Next_runs fuel c hs fs :
  c_handlers c = Some hs -> c_index c = (-1)%Z -> Forall2 (plain run) hs fs ->
  length hs <= 127 -> length hs <= fuel ->
  Next run (S fuel) c = Ok (run_all fs (inc_index c)) /\
  c_index (run_all fs (inc_index c)) = Z.of_nat (length hs).
Proof.
  intros Hh Hi Hp Hlen Hf. cbn [Next].
  replace (S fuel) with (length hs + S (fuel - length hs)) by lia.
  destruct (Next_loop_does (fun h => run h (Next run fuel)) (S (fuel - length hs))
              [] hs [] fs (inc_index c)) as (-> & Hh' & Hi').
  - eapply Forall2_impl; [done|]. intros h f. apply plain_does.
  - simpl. by rewrite app_nil_r.
  - simpl. by rewrite Hi.
  - simpl. by rewrite app_nil_r.
  - split; [|done]. apply Next_loop_end. rewrite Hh', Hi'. simpl.
    rewrite app_nil_r, int8_wrap_small; lia.
Qed.

(** [C36] A chain of at most 127 handlers that never call [Next] runs
    whole: [Next], called on a context fresh from [reset], runs every
    handler once, in order, and leaves [index] at the length of the
    chain. *)
Theorem Next_plain fuel c hs fs :
  c_handlers c = Some hs -> c_index c = (-1)%Z -> Forall2 (plain run) hs fs ->
  length hs <= 127 -> length hs <= fuel ->
  Next run (S fuel) c = Ok (run_all fs (inc_index c)) /\
  c_index (run_all fs (inc_index c)) = Z.of_nat (length hs).
Proof. apply Next_runs. Qed.

(** [Abort] stops a chain of at most 64 handlers: when the handler
    after the stretch [hs1] aborts, the handlers after it are not called,
    and [Next] returns an aborted context. *)
Theorem Next_abort fuel c hs1 h hs2 fs1 f :
  c_handlers c = Some (hs1 ++ h :: hs2) -> c_index c = (-1)%Z ->
  Forall2 (plain run) hs1 fs1 -> aborts run h f ->
  length (hs1 ++ h :: hs2) <= 64 -> length hs1 < fuel ->
  let c' := inc_index (Abort (f (run_all fs1 (inc_index c)))) in
  Next run (S fuel) c = Ok c' /\ IsAborted c' = true.
Proof.
  intros Hh Hi Hp Ha Hlen Hf. cbn [Next].
  replace (S fuel) with (length hs1 + S (S (fuel - S (length hs1)))) by lia.
  destruct (Next_loop_does (fun h => run h (Next run fuel)) (S (S (fuel - S (length hs1))))
              [] hs1 (h :: hs2) fs1 (inc_index c)) as (-> & Hh' & Hi').
  - eapply Forall2_impl; [done|]. intros h' f'. apply plain_does.
  - done.
  - simpl. by rewrite Hi.
  - simpl. lia.
  - set (c1 := run_all fs1 (inc_index c)) in *. simpl in Hh', Hi'.
    rewrite length_app in Hlen. simpl in Hlen.
    cbn [Next_loop]. unfold handler_at. rewrite Hh', Hi'. simpl slice_len.
    rewrite int8_wrap_small by (rewrite length_app; simpl; lia).
    destruct (Z.ltb_spec (Z.of_nat (length hs1)) (Z.of_nat (length (hs1 ++ h :: hs2))));
      [|rewrite length_app in *; simpl in *; lia].
    destruct (Z.ltb_spec (Z.of_nat (length hs1)) 0); [lia|].
    rewrite Nat2Z.id. simpl. rewrite list_lookup_middle by done. simpl.
    destruct (Ha (Next run fuel) c1) as [-> Hhs]. simpl.
    rewrite Hhs, Hh'. simpl. rewrite length_app. simpl.
    rewrite (int8_wrap_small (Z.of_nat _)) by lia.
    change (int8_wrap (abortIndex + 1)) with 64%Z.
    by destruct (Z.ltb_spec 64 (Z.of_nat (length hs1 + S (length hs2)))); [lia|].
Qed.

(** The iteration of the loop that calls a handler that aborts: the
    loop goes on with [index] at 64, whatever the position of the
    handler. *)
Lemma Next_loop_aborts call fuel c hs1 h hs2 f :
  (forall c, call h c = Ok (Abort (f c)) /\ c_handlers (f c) = c_handlers c) ->
  c_handlers c = Some (hs1 ++ h :: hs2) -> c_index c = Z.of_nat (length hs1) ->
  length (hs1 ++ h :: hs2) <= 127 ->
  let c' := inc_index (Abort (f c)) in
  Next_loop call (S fuel) c = Next_loop call fuel c' /\
  c_handlers c' = Some (hs1 ++ h :: hs2) /\ c_index c' = 64%Z.
Proof.
  intros Ha Hh Hi Hlen c'. subst c'. destruct (Ha c) as [Hcall Hhs].
  rewrite (Next_loop_step call fuel c h), Hcall; [by simpl; rewrite Hhs| |].
  - unfold handler_at. rewrite Hh, Hi, Nat2Z.id. simpl.
    destruct (Z.ltb_spec (Z.of_nat (length hs1)) 0); [lia|]. by rewrite list_lookup_middle.
  - rewrite Hh, Hi. simpl. rewrite int8_wrap_small; rewrite length_app in *; simpl in *; lia.
Qed.

(** [C38] [Abort] does not stop a chain of more than 64 handlers.  When
    a handler of the first 64 aborts, after a stretch [hs1] of handlers
    that never call [Next], the handlers [hs2] up to position 63 are not
    called; but [index] is 64 when the loop looks at it again, and every
    handler [hs3] from position 64 on runs, in order, on a context that
    is aborted.  [Next] returns with [index] at the length of the
    chain. *)
Theorem Next_abort_overrun fuel c hs1 h hs2 hs3 fs1 f fs3 :
  c_handlers c = Some (hs1 ++ h :: hs2 ++ hs3) -> c_index c = (-1)%Z ->
  Forall2 (plain run) hs1 fs1 -> aborts run h f -> Forall2 (plain run) hs3 fs3 ->
  length (hs1 ++ h :: hs2) = 64 -> length (hs1 ++ h :: hs2 ++ hs3) <= 127 ->
  length hs1 + length hs3 < fuel ->
  let c1 := inc_index (Abort (f (run_all fs1 (inc_index c)))) in
  IsAborted c1 = true /\
  Next run (S fuel) c = Ok (run_all fs3 c1) /\
  c_index (run_all fs3 c1) = Z.of_nat (length (hs1 ++ h :: hs2 ++ hs3)).
Proof.
  intros Hh Hi Hp1 Ha Hp3 H64 Hlen Hf. cbn [Next].
  set (call := fun h => run h (Next run fuel)).
  set (rest := fuel - S (length hs1 + length hs3)).
  replace (S fuel) with (length hs1 + S (length hs3 + S rest)) by lia.
  destruct (Next_loop_does call (S (length hs3 + S rest)) [] hs1 (h :: hs2 ++ hs3) fs1
              (inc_index c)) as (-> & Hh1 & Hi1);
    [by eapply Forall2_impl; [done|]; intros ??; apply plain_does|done
    |by simpl; rewrite Hi|done|].
  destruct (Next_loop_aborts call (length hs3 + S rest) (run_all fs1 (inc_index c))
              hs1 h (hs2 ++ hs3) f) as (-> & Hh2 & Hi2); [by intros c0; apply Ha|done..|].
  set (c1 := inc_index (Abort (f (run_all fs1 (inc_index c))))) in *.
  destruct (Next_loop_does call (S rest) (hs1 ++ h :: hs2) hs3 [] fs3 c1)
    as (-> & Hh3 & Hi3).
  - by eapply Forall2_impl; [done|]; intros ??; apply plain_does.
  - by rewrite Hh2, app_nil_r, <- (assoc_L (++)).
  - by rewrite Hi2, H64.
  - by rewrite app_nil_r, <- (assoc_L (++)).
  - rewrite app_nil_r, <- (assoc_L (++)) in Hh3. simpl in Hh3.
    assert (length (hs1 ++ h :: hs2 ++ hs3) = length (hs1 ++ h :: hs2) + length hs3) as Hl
      by (rewrite !length_app; simpl; rewrite length_app; lia).
    split_and!; [by unfold IsAborted; rewrite Hi2| |by rewrite Hi3, Hl].
    apply Next_loop_end. rewrite Hh3, Hi3. simpl. rewrite Hl, int8_wrap_small; lia.
Qed.

(** [C39] A chain of 128 to 256 handlers never runs: [int8(len(c.handlers))]
    is not positive, and [Next] returns at once with no handler called. *)
Theorem Next_too_many fuel c :
  128 <= slice_len (c_handlers c) <= 256 -> c_index c = (-1)%Z ->
  Next run (S fuel) c = Ok (inc_index c).
Proof.
  intros Hlen Hi. cbn [Next]. apply Next_loop_end. simpl. rewrite Hi.
  unfold int8_wrap at 1.
  replace (Z.of_nat (slice_len (c_handlers c)) + 128)%Z
    with ((Z.of_nat (slice_len (c_handlers c)) - 128) + 1 * 256)%Z by lia.
  rewrite Z_mod_plus_full, Z.mod_small by lia. vm_compute (int8_wrap _). lia.
Qed.

(** The call of [Next] inside the first handler of the chain [h :: hs2]:
    it runs the rest of the chain. *)
Lemma Next_inner fuel c h hs2 fs2 :
  c_handlers c = Some (h :: hs2) -> c_index c = 0%Z -> Forall2 (plain run) hs2 fs2 ->
  length (h :: hs2) <= 127 -> length hs2 <= fuel ->
  Next run (S fuel) c = Ok (run_all fs2 (inc_index c)) /\
  c_handlers (run_all fs2 (inc_index c)) = Some (h :: hs2) /\
  c_index (run_all fs2 (inc_index c)) = Z.of_nat (length (h :: hs2)).
Proof.
  intros Hh Hi Hp Hlen Hf. cbn [Next].
  replace (S fuel) with (length hs2 + S (fuel - length hs2)) by lia.
  destruct (Next_loop_does (fun h => run h (Next run fuel)) (S (fuel - length hs2))
              [h] hs2 [] fs2 (inc_index c)) as (-> & Hh' & Hi').
  - eapply Forall2_impl; [done|]. intros h' f'. apply plain_does.
  - simpl. by rewrite app_nil_r.
  - simpl. by rewrite Hi.
  - simpl. by rewrite app_nil_r.
  - simpl in Hh', Hi'. rewrite app_nil_r in Hh'. split_and!; [|done..].
    apply Next_loop_end. rewrite Hh', Hi'. rewrite int8_wrap_small; simpl in *; lia.
Qed.

(** [C37] A middleware in front of a chain of handlers that never call
    [Next]: the rest of the chain runs inside the middleware's call of
    [c.Next()], between what the middleware does before and after, and no
    handler runs a second time when the middleware returns. *)
Theorem Next_around fuel c h pre post hs2 fs2 :
  c_handlers c = Some (h :: hs2) -> c_index c = (-1)%Z ->
  wraps run h pre post -> Forall2 (plain run) hs2 fs2 ->
  length (h :: hs2) <= 126 -> S (length hs2) <= fuel ->
  Next run (S fuel) c =
    Ok (inc_index (post (run_all fs2 (inc_index (pre (inc_index c)))))).
Proof.
  intros Hh Hi [Hrun Hkeep] Hp Hlen Hf. destruct fuel as [|fuel]; [lia|].
  set (c0 := inc_index c). destruct (Hkeep c0) as (Hi0 & Hh0 & _).
  destruct (Next_inner fuel (pre c0) h hs2 fs2) as (Hin & Hh2 & Hi2);
    [by rewrite Hh0|by rewrite Hi0; simpl; rewrite Hi|done|simpl in *; lia..|].
  set (c2 := run_all fs2 (inc_index (pre c0))) in *.
  destruct (Hkeep c2) as (_ & _ & Hi3 & Hh3).
  assert (c_handlers c0 = Some (h :: hs2) /\ c_index c0 = 0%Z) as [Hhc Hic].
  { subst c0. simpl. by rewrite Hi. }
  rewrite Next_unfold. fold c0. rewrite (Next_loop_step _ _ c0 h).
  - rewrite Hrun, Hin. cbn [result_bind]. apply Next_loop_end.
    simpl. rewrite Hh3, Hh2, Hi3, Hi2. simpl in *. rewrite !int8_wrap_small; lia.
  - unfold handler_at. by rewrite Hhc, Hic.
  - rewrite Hhc, Hic. simpl in *. rewrite int8_wrap_small; lia.
Qed.

(** A chain that ends with any handler [h], after a stretch [hs] of
    handlers that never call [Next]: [Next] calls [h] on what they have
    left, and goes on with the loop on what [h] returns. *)
Lemma Next_last fuel c hs h fs :
  c_handlers c = Some (hs ++ [h]) -> c_index c = (-1)%Z -> Forall2 (plain run) hs fs ->
  length hs < 127 -> length hs < fuel ->
  let c0 := run_all fs (inc_index c) in
  c_handlers c0 = Some (hs ++ [h]) /\ c_index c0 = Z.of_nat (length hs) /\
  Next run (S fuel) c =
    let* c1 := run h (Next run fuel) c0 in
    Next_loop (fun h => run h (Next run fuel)) (S (fuel - S (length hs))) (inc_index c1).
Proof.
  intros Hh Hi Hp Hlen Hf. cbn [Next].
  replace (S fuel) with (length hs + S (S (fuel - S (length hs)))) by lia.
  destruct (Next_loop_does (fun h => run h (Next run fuel)) (S (S (fuel - S (length hs))))
              [] hs [h] fs (inc_index c)) as (-> & Hh' & Hi').
  - eapply Forall2_impl; [done|]. intros h' f'. apply plain_does.
  - done.
  - simpl. by rewrite Hi.
  - simpl. rewrite length_app. simpl. lia.
  - simpl in Hh', Hi'. split_and!; [done..|].
    apply (Next_loop_step (fun h => run h (Next run fuel))).
    + unfold handler_at. rewrite Hh', Hi', Nat2Z.id. simpl.
      destruct (Z.ltb_spec (Z.of_nat (length hs)) 0); [lia|].
      by rewrite list_lookup_middle.
    + rewrite Hh', Hi'. simpl. rewrite length_app, int8_wrap_small; simpl; lia.
Qed.

(** When the last handler leaves the chain alone, [Next] returns what
    it returns, with [index] past the end of the chain. *)
Lemma Next_last_returns fuel c hs h fs c1 :
  c_handlers c = Some (hs ++ [h]) -> c_index c = (-1)%Z -> Forall2 (plain run) hs fs ->
  length hs < 127 -> length hs < fuel ->
  run h (Next run fuel) (run_all fs (inc_index c)) = Ok c1 ->
  c_index c1 = c_index (run_all fs (inc_index c)) ->
  c_handlers c1 = c_handlers (run_all fs (inc_index c)) ->
  Next run (S fuel) c = Ok (inc_index c1).
Proof.
  intros Hh Hi Hp Hlen Hf Hrun Hi1 Hh1.
  destruct (Next_last fuel c hs h fs) as (Hh0 & Hi0 & ->); [done..|].
  rewrite Hrun. cbn [result_bind]. apply Next_loop_end.
  simpl. rewrite Hh1, Hh0, Hi1, Hi0. simpl.
  rewrite length_app, !int8_wrap_small; simpl; lia.
Qed.

(** [Get] after [Set]: the key just set is found with its value, and
    the other keys are as before. *)
Theorem Keys_roundtrip c key value :
  Context_Get (Context_Set c key value) key = (value, true) /\
  forall key', key' ≠ key ->
    Context_Get (Context_Set c key value) key' = Context_Get c key'.
Proof. split; [apply Get_Set|]. intros key'. apply Get_Set_ne. Qed.

(** [MustGet] panics with the message of the source on a key that
    is not set, and returns the value of a key that is. *)
Lemma MustGet_spec c key :
  MustGet c key =
  match c_Keys c ≫= (.!! key) with
  | Some value => Ok value
  | None => Panic (PanicMsg (MustGet_msg key))
  end.
Proof. unfold MustGet, Context_Get. by destruct (c_Keys c ≫= _). Qed.

(** A typed getter returns the value set when it has the type asked
    for, and the zero value of that type otherwise. *)
Lemma GetString_Set c key value :
  GetString (Context_Set c key value) key =
  match value with
  | AnyString s => s
  | _ => []
  end.
Proof. unfold GetString. rewrite get_typed_Set. by destruct value. Qed.

(** [reset] keeps [Keys]: what a request has set is found by the
    next request that is served with the same context. *)
Theorem reset_keeps_Keys c key value :
  Context_Get (reset (Context_Set c key value)) key = (value, true).
Proof. unfold reset, Context_Get. simpl. by rewrite lookup_insert_eq. Qed.

(** A copy is aborted, has no handlers, and finds under every key
    what the original finds. *)
Theorem Copy_spec detach c key :
  IsAborted (Copy detach c) = true /\ c_handlers (Copy detach c) = None /\
  Context_Get (Copy detach c) key = Context_Get c key.
Proof. unfold Copy, Context_Get. simpl. split_and!; [done..|]. by destruct (c_Keys c). Qed.

End context_lemmas.

(** The chain of 65 handlers whose first handler aborts: the handlers
    at the positions 1 to 63 have set nothing, and the handler at
    position 64 has set its key. *)
Theorem sample_long_chain_overrun :
  exists c',
    Next sample_run 70 (sample_start sample_long_chain) = Ok c' /\
    IsAborted c' = true /\
    Context_Get c' (bytes "skipped") = (AnyNil, false) /\
    Context_Get c' (bytes "late") = (AnyBool true, true).
Proof. eexists. split; [vm_compute; reflexivity|]. by vm_compute. Qed.

(** ** Witnesses *)

Lemma sample_plain key b : plain sample_run (HSet key b) (fun c => Context_Set c key (AnyBool b)).
Proof. by intros next c. Qed.

Lemma Next_plain_witness :
  Next sample_run 3 (sample_start [HSet (bytes "a") true; HSet (bytes "b") false]) =
    Ok (run_all [fun c => Context_Set c (bytes "a") (AnyBool true);
                 fun c => Context_Set c (bytes "b") (AnyBool false)]
          (inc_index (sample_start [HSet (bytes "a") true; HSet (bytes "b") false]))) /\
  c_index (run_all [fun c => Context_Set c (bytes "a") (AnyBool true);
                    fun c => Context_Set c (bytes "b") (AnyBool false)]
             (inc_index (sample_start [HSet (bytes "a") true; HSet (bytes "b") false]))) = 2%Z.
Proof.
  apply (Next_plain sample_run 2 (sample_start [HSet (bytes "a") true; HSet (bytes "b") false])
           [HSet (bytes "a") true; HSet (bytes "b") false]);
    [reflexivity|reflexivity|repeat constructor; apply sample_plain|simpl; lia..].
Defined.

Lemma Next_abort_witness :
  let c := sample_start [HAbort; HSet (bytes "b") false] in
  Next sample_run 2 c = Ok (inc_index (Abort (inc_index c))) /\
  IsAborted (inc_index (Abort (inc_index c))) = true.
Proof.
  apply (Next_abort sample_run 1 (sample_start [HAbort; HSet (bytes "b") false])
           [] HAbort [HSet (bytes "b") false] [] (fun c => c));
    [reflexivity|reflexivity|constructor|by intros next c|simpl; lia..].
Defined.

Lemma Next_abort_overrun_witness :
  let c1 := inc_index (Abort (inc_index (sample_start sample_long_chain))) in
  IsAborted c1 = true /\
  Next sample_run 3 (sample_start sample_long_chain) =
    Ok (run_all [fun c => Context_Set c (bytes "late") (AnyBool true)] c1) /\
  c_index (run_all [fun c => Context_Set c (bytes "late") (AnyBool true)] c1) = 65%Z.
Proof.
  apply (Next_abort_overrun sample_run 2 (sample_start sample_long_chain)
           [] HAbort (replicate 63 (HSet (bytes "skipped") true)) [HSet (bytes "late") true]
           [] (fun c => c) [fun c => Context_Set c (bytes "late") (AnyBool true)]);
    [reflexivity|reflexivity|constructor|by intros next c
    |repeat constructor; apply sample_plain|reflexivity|vm_compute; lia|simpl; lia].
Defined.

Lemma Next_too_many_witness :
  Next sample_run 1 (sample_start (replicate 128 HAbort)) =
    Ok (inc_index (sample_start (replicate 128 HAbort))).
Proof.
  apply (Next_too_many sample_run 0 (sample_start (replicate 128 HAbort)));
    [simpl; lia|reflexivity].
Defined.

Lemma Next_around_witness :
  let c := sample_start [HAround (bytes "a"); HSet (bytes "b") true] in
  Next sample_run 3 c =
    Ok (inc_index (Context_Set
          (run_all [fun c => Context_Set c (bytes "b") (AnyBool true)]
             (inc_index (Context_Set (inc_index c) (bytes "a") (AnyBool false))))
          (bytes "a") (AnyBool true))).
Proof.
  apply (Next_around sample_run 2
           (sample_start [HAround (bytes "a"); HSet (bytes "b") true])
           (HAround (bytes "a")) (fun c => Context_Set c (bytes "a") (AnyBool false))
           (fun c => Context_Set c (bytes "a") (AnyBool true)) [HSet (bytes "b") true]);
    [reflexivity|reflexivity|by split|repeat constructor; apply sample_plain|simpl; lia..].
Defined.
