(* ===== verification/Keys.v ===== *)
(** * Keys: the keys of a context under its mutex

    [Context.Set] and [Context.Get] of [src/unnamed/part_001] take the
    mutex [mu] of the context: [Set] locks it, makes the map [Keys]
    when it is [nil], stores the value and unlocks; [Get] takes the read
    lock, loads the value and releases it.  [Context.Context_Set] and
    [Context_Get] are the two methods as functions of the context, for
    the handlers of one goroutine.  Here goroutines that share a context
    call the two methods at the same time, each call statement by
    statement, in any order.

    - [sync.RWMutex] is a writer flag and a count of readers.  [Lock]
      and [RLock] are partial: a goroutine that cannot take the mutex
      waits, and a step of it leaves the system as it is.  A reader is
      let in while a writer waits; [sync.RWMutex] lets in fewer.
    - [Unlock] of a mutex that is not locked and a store into a map that
      is [nil] are fatal errors of the run time; here they are panics,
      which no call reaches ([run_calls_returns]).
    - A call is linear: it takes effect in one of its steps, the step
      that makes the store certain for [Set] and the load for [Get], and
      the calls of every schedule do what the two functions of [Context]
      do, one call after another, in the order of these steps
      ([linearizable]).
    - While the mutex is free or held by readers some call that has not
      returned can take a step, and the holder of the mutex always can
      ([calls_progress]). *)

From stdpp Require Import gmap.
From S2P Require Import Prelude Tree Context.

(** ** [sync.RWMutex] *)

(** The mutex: whether a writer holds it, and how many readers do. *)
Record RWMutex : Type := mkRWMutex {
  mu_writer : bool;
  mu_readers : nat
}.

(** [rw.Lock()] and [rw.RLock()], when the goroutine need not wait. *)
Definition Lock (mu : RWMutex) : option RWMutex :=
  if mu_writer mu then None
  else if mu_readers mu is 0 then Some (mkRWMutex true 0) else None.

Definition RLock (mu : RWMutex) : option RWMutex :=
  if mu_writer mu then None else Some (mkRWMutex false (S (mu_readers mu))).

(** [rw.Unlock()] and [rw.RUnlock()]. *)
Definition Unlock (mu : RWMutex) : result RWMutex :=
  if mu_writer mu then Ok (mkRWMutex false (mu_readers mu))
  else Panic (PanicMsg (bytes "sync: Unlock of unlocked RWMutex")).

Definition RUnlock (mu : RWMutex) : result RWMutex :=
  match mu_readers mu with
  | S n => Ok (mkRWMutex (mu_writer mu) n)
  | 0 => Panic (PanicMsg (bytes "sync: RUnlock of unlocked RWMutex"))
  end.

(** How many elements of a list are in a set. *)
Definition count {A} (f : A -> bool) (l : list A) : nat := length (List.filter f l).

Section keys.
Context {HandlerFunc float64 Time other responseWriter Request : Type}.

Abbreviation any := (any float64 Time other).
Abbreviation ctx := (ctx HandlerFunc float64 Time other responseWriter Request).

(** ** The calls *)

(** A context that goroutines share: its mutex and its other fields. *)
Record guarded : Type := mkGuarded {
  gd_mu : RWMutex;
  gd_ctx : ctx
}.

(** [c.Keys = keys]. *)
Definition with_Keys (c : ctx) (keys : option (gmap gostring any)) : ctx :=
  {| c_writermem := c_writermem c; c_Request := c_Request c; c_handlers := c_handlers c;
     c_index := c_index c; c_Keys := keys; c_fullPath := c_fullPath c; c_data := c_data c |}.

(** A call of [c.Set(key, value)] or of [c.Get(key)]. *)
Inductive access : Type :=
| SetKey (key : gostring) (value : any)
| GetKey (key : gostring).

(** Where a call is.  In [Set]: before [c.mu.Lock()], before the test
    [c.Keys == nil], before [c.Keys = make(map[string]any)], before
    [c.Keys[key] = value] and before [c.mu.Unlock()].  In [Get]: before
    [c.mu.RLock()], before [value, exists = c.Keys[key]] and before
    [c.mu.RUnlock()], with what was loaded.  And after the call, with
    what [Get] returns. *)
Inductive position : Type :=
| AtLock
| AtCheck
| AtMake
| AtStore
| AtUnlock
| AtRLock
| AtLoad
| AtRUnlock (r : any * bool)
| Finished (r : option (any * bool)).

(** The call of a goroutine. *)
Record caller : Type := mkCaller {
  ca_access : access;
  ca_at : position
}.

Definition move (th : caller) (p : position) : caller := mkCaller (ca_access th) p.

(** A call that begins. *)
Definition calling (a : access) : caller :=
  mkCaller a (match a with SetKey _ _ => AtLock | GetKey _ => AtRLock end).

(** One step of [Set] or of [Get]: [Ok None] when the goroutine waits
    for the mutex, and when the call has returned. *)
Definition access_step (g : guarded) (th : caller) : result (option (guarded * caller)) :=
  match ca_at th, ca_access th with
  | AtLock, SetKey _ _ =>
      Ok ((fun mu => (mkGuarded mu (gd_ctx g), move th AtCheck)) <$> Lock (gd_mu g))
  | AtCheck, SetKey _ _ =>
      Ok (Some (g, move th (if c_Keys (gd_ctx g) is None then AtMake else AtStore)))
  | AtMake, SetKey _ _ =>
      Ok (Some (mkGuarded (gd_mu g) (with_Keys (gd_ctx g) (Some ∅)), move th AtStore))
  | AtStore, SetKey key value =>
      match c_Keys (gd_ctx g) with
      | Some keys =>
          Ok (Some (mkGuarded (gd_mu g) (with_Keys (gd_ctx g) (Some (<[key := value]> keys))),
                    move th AtUnlock))
      | None => Panic (PanicMsg (bytes "assignment to entry in nil map"))
      end
  | AtUnlock, SetKey _ _ =>
      let* mu := Unlock (gd_mu g) in
      Ok (Some (mkGuarded mu (gd_ctx g), move th (Finished None)))
  | AtRLock, GetKey _ =>
      Ok ((fun mu => (mkGuarded mu (gd_ctx g), move th AtLoad)) <$> RLock (gd_mu g))
  | AtLoad, GetKey key => Ok (Some (g, move th (AtRUnlock (Context_Get (gd_ctx g) key))))
  | AtRUnlock r, GetKey _ =>
      let* mu := RUnlock (gd_mu g) in
      Ok (Some (mkGuarded mu (gd_ctx g), move th (Finished (Some r))))
  | _, _ => Ok None
  end.

(** ** The goroutines *)

(** The context and the calls of the goroutines. *)
Record calls : Type := mkCalls {
  cl_shared : guarded;
  cl_callers : list caller
}.

(** A step of the goroutine [i]. *)
Definition calls_step (s : calls) (i : nat) : result calls :=
  match cl_callers s !! i with
  | Some th =>
      let* next := access_step (cl_shared s) th in
      match next with
      | Some (g, th) => Ok (mkCalls g (<[i := th]> (cl_callers s)))
      | None => Ok s
      end
  | None => Ok s
  end.

(** The steps of a schedule. *)
Fixpoint run_calls (schedule : list nat) (s : calls) : result calls :=
  match schedule with
  | [] => Ok s
  | i :: schedule => let* s := calls_step s i in run_calls schedule s
  end.

(** ** The calls, one at a time *)

(** What a call does and returns when no other call is under way:
    [Context_Set], and [Context_Get]. *)
Definition apply_access (a : access) (c : ctx) : ctx * option (any * bool) :=
  match a with
  | SetKey key value => (Context_Set c key value, None)
  | GetKey key => (c, Some (Context_Get c key))
  end.

(** The context, and the calls with what those that were made have
    returned. *)
Record atomic : Type := mkAtomic {
  at_ctx : ctx;
  at_calls : list (access * option (option (any * bool)))
}.

(** The whole call of the goroutine [i], in one step. *)
Definition atomic_step (s : atomic) (i : nat) : atomic :=
  match at_calls s !! i with
  | Some (a, None) =>
      let '(c, r) := apply_access a (at_ctx s) in
      mkAtomic c (<[i := (a, Some r)]> (at_calls s))
  | _ => s
  end.

Definition run_atomic (order : list nat) (s : atomic) : atomic := foldl atomic_step s order.

(** ** The calls under way, and the calls that are made *)

(** The positions in which a call holds the mutex, for writing and for
    reading. *)
Definition writing (th : caller) : bool :=
  match ca_at th with
  | AtCheck | AtMake | AtStore | AtUnlock => true
  | _ => false
  end.

Definition reading (th : caller) : bool :=
  match ca_at th with
  | AtLoad | AtRUnlock _ => true
  | _ => false
  end.

(** Whether the next step of a call is the step in which it takes
    effect: for [Set] the step after which the store is certain, the
    test that finds a map or the making of the map, and for [Get] the
    load. *)
Definition takes_effect (g : guarded) (th : caller) : bool :=
  match ca_at th, ca_access th with
  | AtCheck, SetKey _ _ => if c_Keys (gd_ctx g) is None then false else true
  | AtMake, SetKey _ _ => true
  | AtLoad, GetKey _ => true
  | _, _ => false
  end.

(** What a call has returned, when it has taken effect. *)
Definition returned (th : caller) : option (option (any * bool)) :=
  match ca_at th with
  | AtStore | AtUnlock => Some None
  | AtRUnlock r => Some (Some r)
  | Finished r => Some r
  | _ => None
  end.

(** The store that a call of [Set] has still to make. *)
Definition pending_store (th : caller) (c : ctx) : ctx :=
  match ca_at th, ca_access th with
  | AtStore, SetKey key value => Context_Set c key value
  | _, _ => c
  end.

(** The calls one at a time that a system of calls under way stands
    for. *)
Definition outcome (th : caller) : access * option (option (any * bool)) :=
  (ca_access th, returned th).

Definition abstraction (s : calls) : atomic :=
  mkAtomic (foldr pending_store (gd_ctx (cl_shared s)) (cl_callers s))
    (outcome <$> cl_callers s).

(** The goroutines whose calls take effect along a schedule, in the
    order in which they do. *)
Fixpoint linearization (schedule : list nat) (s : calls) : list nat :=
  match schedule with
  | [] => []
  | i :: schedule =>
      (if (takes_effect (cl_shared s) <$> cl_callers s !! i) is Some true then [i] else []) ++
      match calls_step s i with
      | Ok s' => linearization schedule s'
      | _ => []
      end
  end.

(** ** The invariant *)

(** A call is where its method can be, and the map is as the call has
    found or made it. *)
Definition caller_ok (c : ctx) (th : caller) : bool :=
  match ca_at th, ca_access th with
  | AtLock, SetKey _ _ | AtCheck, SetKey _ _ | AtUnlock, SetKey _ _ => true
  | AtMake, SetKey _ _ => if c_Keys c is None then true else false
  | AtStore, SetKey _ _ => if c_Keys c is None then false else true
  | AtRLock, GetKey _ | AtLoad, GetKey _ | AtRUnlock _, GetKey _ => true
  | Finished None, SetKey _ _ | Finished (Some _), GetKey _ => true
  | _, _ => false
  end.

(** The mutex counts the calls that hold it: the readers, and one
    writer with no reader. *)
Definition mutex_ok (mu : RWMutex) (writers readers : nat) : Prop :=
  mu_readers mu = readers /\
  if mu_writer mu then writers = 1 /\ readers = 0 else writers = 0.

Definition calls_ok (s : calls) : Prop :=
  Forall (fun th => caller_ok (gd_ctx (cl_shared s)) th = true) (cl_callers s) /\
  mutex_ok (gd_mu (cl_shared s)) (count writing (cl_callers s)) (count reading (cl_callers s)).

(** The steps that a call has before it. *)
Definition steps_left (th : caller) : nat :=
  match ca_at th with
  | AtLock => 5
  | AtCheck => 4
  | AtMake => 3
  | AtStore => 2
  | AtUnlock => 1
  | AtRLock => 3
  | AtLoad => 2
  | AtRUnlock _ => 1
  | Finished _ => 0
  end.

Definition steps_to_go (s : calls) : nat := sum_list_with steps_left (cl_callers s).

(** The calls of goroutines that begin, on a context whose mutex is
    free. *)
Definition begin (c : ctx) (accesses : list access) : calls :=
  mkCalls (mkGuarded (mkRWMutex false 0) c) (calling <$> accesses).

End keys.

Arguments guarded : clear implicits.
Arguments access : clear implicits.
Arguments position : clear implicits.
Arguments caller : clear implicits.
Arguments calls : clear implicits.
Arguments atomic : clear implicits.

(** ** Three calls on one context *)

(** Two calls of [Set] and a call of [Get] on a context whose [Keys]
    are [nil], and a schedule in which they meet: the second call waits
    for the mutex while the first holds it. *)
Definition sample_accesses : list (access unit unit unit) :=
  [SetKey (bytes "a") (AnyBool true); SetKey (bytes "b") (AnyBool false); GetKey (bytes "a")].

Definition sample_calls : calls sample_handler unit unit unit unit unit :=
  begin (sample_start []) sample_accesses.

Definition sample_meeting : list nat :=
  [0; 1; 0; 2; 0; 1; 0; 0; 2; 1; 2; 2; 1; 1; 1; 1].

(** A schedule in which the call of [Get] loads before the calls of
    [Set] store. *)
Definition sample_reader_first : list nat :=
  [2; 2; 0; 1; 2; 0; 0; 0; 0; 0; 1; 1; 1; 1; 1].

(** The system at the end of a schedule. *)
Definition calls_of (r : result (calls sample_handler unit unit unit unit unit)) :=
  match r with
  | Ok s => s
  | _ => sample_calls
  end.

(** ** Counting *)

Section count_lemmas.
Context {A : Type} (f : A -> bool).

Lemma count_cons x l : count f (x :: l) = (if f x then 1 else 0) + count f l.
Proof. unfold count. simpl. by destruct (f x). Qed.

Lemma count_app l1 l2 : count f (l1 ++ l2) = count f l1 + count f l2.
Proof. unfold count. by rewrite List.filter_app, length_app. Qed.

Lemma count_middle l1 x l2 :
  count f (l1 ++ x :: l2) = (if f x then 1 else 0) + count f (l1 ++ l2).
Proof. rewrite !count_app, count_cons. lia. Qed.

Lemma count_none l : count f l = 0 -> Forall (fun x => f x = false) l.
Proof.
  induction l as [|x l IH]; [constructor|]. rewrite count_cons.
  destruct (f x) eqn:Hx; [done|]. intros Hl. constructor; [done|by apply IH].
Qed.

Lemma count_some l : 0 < count f l -> exists l1 x l2, l = l1 ++ x :: l2 /\ f x = true.
Proof.
  induction l as [|x l IH]; [by inversion 1|]. rewrite count_cons.
  destruct (f x) eqn:Hx; [by exists [], x, l|].
  intros (l1 & y & l2 & -> & Hy)%IH. by exists (x :: l1), y, l2.
Qed.

End count_lemmas.

(** ** The steps of one call among the others *)

Section keys_lemmas.
Context {HandlerFunc float64 Time other responseWriter Request : Type}.

Abbreviation ctx' := (Context.ctx HandlerFunc float64 Time other responseWriter Request).
Abbreviation guarded' := (guarded HandlerFunc float64 Time other responseWriter Request).
Abbreviation caller' := (caller float64 Time other).
Abbreviation calls' := (calls HandlerFunc float64 Time other responseWriter Request).
Abbreviation holding th := (if writing th then 1 else 0).
Abbreviation sharing th := (if reading th then 1 else 0).

Implicit Types (g : guarded') (th : caller') (s : calls') (c : ctx').
Implicit Types (l : list caller') (i W R : nat).

(** The tactic of the case analyses: every position of a call, with
    the mutex and the map as they can be there. *)
Ltac by_position g th :=
  destruct th as [[] []];
  unfold access_step, takes_effect, mutex_ok, caller_ok, pending_store, returned, Lock, RLock,
    Unlock, RUnlock, writing, reading, steps_left, move in *;
  simpl in *; try done;
  destruct g as [[[] []] [? ? ? ? [] ? ?]]; simpl in *; try done;
  intros; simplify_eq; simpl in *.

(** A step of a call that is where it can be, beside [W] calls that
    hold the mutex for writing and [R] that hold it for reading: there
    is no other writer, the call is where it can be after the step, the
    mutex counts the calls, and the call comes nearer to its end. *)
Lemma access_step_focus g th g' th' W R :
  caller_ok (gd_ctx g) th = true ->
  mutex_ok (gd_mu g) (holding th + W) (sharing th + R) ->
  access_step g th = Ok (Some (g', th')) ->
  W = 0 /\ caller_ok (gd_ctx g') th' = true /\
  mutex_ok (gd_mu g') (holding th' + W) (sharing th' + R) /\
  steps_left th' < steps_left th /\ ca_access th' = ca_access th.
Proof. revert g' th'. by_position g th; repeat split; (done || lia). Qed.

(** No step is a fatal error. *)
Lemma access_step_no_fatal g th W R v :
  caller_ok (gd_ctx g) th = true ->
  mutex_ok (gd_mu g) (holding th + W) (sharing th + R) ->
  access_step g th ≠ Panic v.
Proof. by_position g th; (done || lia). Qed.

(** The step in which a call takes effect does to the context what the
    call does in one step, and the call has then returned what that
    step returns; another step changes neither. *)
Lemma access_step_effect g th g' th' :
  caller_ok (gd_ctx g) th = true ->
  access_step g th = Ok (Some (g', th')) ->
  if takes_effect g th then
    returned th = None /\
    exists r,
      apply_access (ca_access th) (pending_store th (gd_ctx g)) =
        (pending_store th' (gd_ctx g'), r) /\
      returned th' = Some r
  else pending_store th' (gd_ctx g') = pending_store th (gd_ctx g) /\ returned th' = returned th.
Proof. revert g' th'. by_position g th; (done || (split; [done|by eexists])). Qed.

Lemma takes_effect_steps g th :
  caller_ok (gd_ctx g) th = true -> takes_effect g th = true -> access_step g th ≠ Ok None.
Proof. by_position g th; done. Qed.

(** The calls that do not hold the mutex for writing have no store to
    make, and are where they can be whatever the map. *)
Lemma pending_store_others c l :
  Forall (fun th => writing th = false) l -> foldr pending_store c l = c.
Proof.
  induction 1 as [|th l Hth _ IH]; [done|]. simpl. rewrite IH.
  by destruct th as [[] []].
Qed.

Lemma caller_ok_others c c' l :
  Forall (fun th => writing th = false) l ->
  Forall (fun th => caller_ok c th = true) l -> Forall (fun th => caller_ok c' th = true) l.
Proof.
  intros Hw Hok. induction Hw as [|th l Hth _ IH]; [done|].
  apply Forall_cons in Hok as [Hok1 Hok]. constructor; [|by apply IH].
  by destruct th as [[] []].
Qed.

(** The system around one call. *)
Lemma calls_ok_focus g l1 th l2 :
  calls_ok (mkCalls g (l1 ++ th :: l2)) <->
  caller_ok (gd_ctx g) th = true /\
  Forall (fun th => caller_ok (gd_ctx g) th = true) (l1 ++ l2) /\
  mutex_ok (gd_mu g) (holding th + count writing (l1 ++ l2))
    (sharing th + count reading (l1 ++ l2)).
Proof.
  unfold calls_ok. simpl. rewrite !count_middle, !Forall_app, Forall_cons. naive_solver.
Qed.

Lemma calls_step_focus g l1 th l2 :
  calls_step (mkCalls g (l1 ++ th :: l2)) (length l1) =
  let* next := access_step g th in
  Ok (if next is Some (g', th') then mkCalls g' (l1 ++ th' :: l2)
      else mkCalls g (l1 ++ th :: l2)).
Proof.
  unfold calls_step. simpl. rewrite list_lookup_middle by done.
  destruct (access_step g th) as [[[g' th']|]| |]; simpl; try done.
  by rewrite insert_app_r_alt, Nat.sub_diag.
Qed.

Lemma abstraction_focus g l1 th l2 :
  count writing (l1 ++ l2) = 0 ->
  abstraction (mkCalls g (l1 ++ th :: l2)) =
  mkAtomic (pending_store th (gd_ctx g)) ((outcome <$> l1) ++ outcome th :: (outcome <$> l2)).
Proof.
  intros [Hl1 Hl2]%count_none%Forall_app. unfold abstraction. simpl.
  by rewrite foldr_app, fmap_app, fmap_cons; simpl; rewrite !pending_store_others.
Qed.

(** A system is a list of calls around one of them, or the goroutine
    has no call. *)
Lemma calls_cases s i :
  (exists g l1 th l2, s = mkCalls g (l1 ++ th :: l2) /\ i = length l1) \/
  cl_callers s !! i = None.
Proof.
  destruct (cl_callers s !! i) as [th|] eqn:Hi; [left|by right].
  apply list_elem_of_split_length in Hi as (l1 & l2 & Hl & ->).
  destruct s as [g l]. simpl in Hl. subst l. by exists g, l1, th, l2.
Qed.

Lemma calls_step_absent s i : cl_callers s !! i = None -> calls_step s i = Ok s.
Proof. unfold calls_step. by intros ->. Qed.

(** ** The invariant *)

Lemma calls_step_ok s i s' : calls_ok s -> calls_step s i = Ok s' -> calls_ok s'.
Proof.
  intros Hok Hs. destruct (calls_cases s i) as [(g & l1 & th & l2 & -> & ->)|Hi].
  2: { rewrite calls_step_absent in Hs by done. by injection Hs as <-. }
  rewrite calls_step_focus in Hs.
  destruct (access_step g th) as [[[g' th']|]| |] eqn:Hstep; simplify_eq/=; [|done].
  apply calls_ok_focus in Hok as (Hth & Hall & Hmu).
  destruct (access_step_focus _ _ _ _ _ _ Hth Hmu Hstep) as (HW & Hth' & Hmu' & _).
  apply calls_ok_focus. split_and!; [done| |done].
  eapply caller_ok_others; [|done]. by apply count_none.
Qed.

Lemma calls_step_returns s i : calls_ok s -> exists s', calls_step s i = Ok s'.
Proof.
  intros Hok. destruct (calls_cases s i) as [(g & l1 & th & l2 & -> & ->)|Hi].
  2: { exists s. by apply calls_step_absent. }
  rewrite calls_step_focus. apply calls_ok_focus in Hok as (Hth & _ & Hmu).
  pose proof (fun v => access_step_no_fatal g th _ _ v Hth Hmu) as Hfatal.
  destruct (access_step g th) as [next|v|] eqn:Hstep; [by eexists|by destruct (Hfatal v)|].
  clear Hfatal. revert Hstep. by_position g th.
Qed.

(** ** The calls take effect one at a time *)

Lemma calls_step_abstraction s i s' :
  calls_ok s -> calls_step s i = Ok s' ->
  abstraction s' =
  if (takes_effect (cl_shared s) <$> cl_callers s !! i) is Some true
  then atomic_step (abstraction s) i else abstraction s.
Proof.
  intros Hok Hs. destruct (calls_cases s i) as [(g & l1 & th & l2 & -> & ->)|Hi].
  2: { rewrite calls_step_absent in Hs by done. injection Hs as <-. by rewrite Hi. }
  rewrite calls_step_focus in Hs. apply calls_ok_focus in Hok as (Hth & Hall & Hmu).
  simpl. rewrite list_lookup_middle by done. simpl.
  pose proof (takes_effect_steps g th Hth) as Hsteps.
  destruct (access_step g th) as [[[g' th']|]| |] eqn:Hstep; simplify_eq/=.
  2: { by destruct (takes_effect g th); [destruct Hsteps|]. }
  destruct (access_step_focus _ _ _ _ _ _ Hth Hmu Hstep) as (HW & _ & _ & _ & Hacc).
  pose proof (access_step_effect g th g' th' Hth Hstep) as Heff.
  rewrite !abstraction_focus by done. unfold atomic_step. simpl.
  rewrite list_lookup_middle by (by rewrite length_fmap). unfold outcome at 2. simpl.
  rewrite Hacc. destruct (takes_effect g th).
  - destruct Heff as (-> & r & -> & ->).
    by rewrite insert_app_r_alt, length_fmap, Nat.sub_diag by (by rewrite length_fmap).
  - by destruct Heff as [-> ->].
Qed.

Lemma run_calls_ok schedule s s' : calls_ok s -> run_calls schedule s = Ok s' -> calls_ok s'.
Proof.
  revert s. induction schedule as [|i schedule IH]; intros s Hok Hrun; simpl in *.
  - by injection Hrun as <-.
  - destruct (calls_step s i) as [s1| |] eqn:Hs; [|done..]. apply (IH s1); [|done].
    by apply (calls_step_ok s i).
Qed.

(** The calls that have taken effect along a schedule are the steps of
    the calls one at a time. *)
Lemma run_calls_abstraction schedule s s' :
  calls_ok s -> run_calls schedule s = Ok s' ->
  run_atomic (linearization schedule s) (abstraction s) = abstraction s'.
Proof.
  revert s. induction schedule as [|i schedule IH]; intros s Hok Hrun; simpl in *.
  - by injection Hrun as <-.
  - destruct (calls_step s i) as [s1| |] eqn:Hs; [|done..]. simpl in Hrun.
    pose proof (calls_step_abstraction s i s1 Hok Hs) as Habs.
    apply (calls_step_ok s i s1) in Hok; [|done].
    unfold run_atomic in *. rewrite foldl_app, <- (IH s1 Hok Hrun), Habs.
    by destruct (takes_effect _ <$> _) as [[]|].
Qed.

(** Calls that begin, and calls that have returned. *)
Lemma calls_ok_begin c accesses : calls_ok (begin c accesses).
Proof.
  unfold calls_ok, begin, mutex_ok. simpl.
  induction accesses as [|a accesses (IH & IHr & IHw)]; [by split_and!|].
  rewrite fmap_cons, !count_cons. split_and!; [constructor|..]; by destruct a.
Qed.

Lemma abstraction_begin c accesses :
  abstraction (begin c accesses) = mkAtomic c ((fun a => (a, None)) <$> accesses).
Proof.
  unfold abstraction, begin. simpl. rewrite <- list_fmap_compose. f_equal.
  - apply pending_store_others, Forall_fmap, Forall_forall. by intros [].
  - apply list_fmap_ext. by intros ? [].
Qed.

Lemma abstraction_finished s :
  Forall (fun th => steps_left th = 0) (cl_callers s) ->
  at_ctx (abstraction s) = gd_ctx (cl_shared s).
Proof.
  intros Hl. apply pending_store_others. eapply Forall_impl; [done|].
  by intros [a []].
Qed.

(** [C12] The calls are linear.  Goroutines that share a context begin
    their calls of [Set] and [Get] while the mutex is free, and take
    their steps in any order.  When the calls have returned, the
    context is, and the calls of [Get] have returned, what
    [Context_Set] and [Context_Get] do and return when the goroutines
    make their calls one after another, in the order in which the calls
    take effect along the schedule. *)
Theorem linearizable schedule c accesses s' :
  run_calls schedule (begin c accesses) = Ok s' ->
  Forall (fun th => steps_left th = 0) (cl_callers s') ->
  run_atomic (linearization schedule (begin c accesses))
    (mkAtomic c ((fun a => (a, None)) <$> accesses)) =
  mkAtomic (gd_ctx (cl_shared s')) (outcome <$> cl_callers s').
Proof.
  intros Hrun Hend. rewrite <- abstraction_begin.
  rewrite (run_calls_abstraction schedule _ s') by (done || apply calls_ok_begin).
  unfold abstraction at 1. f_equal. by apply abstraction_finished.
Qed.

(** No call is a fatal error.  From a system in which the mutex
    counts the calls that hold it, every schedule returns: no goroutine
    unlocks a mutex that is not locked, and none stores into a map that
    is [nil]. *)
Theorem run_calls_returns schedule s :
  calls_ok s -> exists s', run_calls schedule s = Ok s' /\ calls_ok s'.
Proof.
  revert s. induction schedule as [|i schedule IH]; intros s Hok; [by exists s|].
  destruct (calls_step_returns s i Hok) as [s1 Hs]. simpl. rewrite Hs. simpl.
  apply IH. by apply (calls_step_ok s i).
Qed.

(** ** The mutex excludes *)

(** Beside a call that holds the mutex for writing no other call holds
    it. *)
Lemma calls_ok_writer g l1 th l2 :
  calls_ok (mkCalls g (l1 ++ th :: l2)) -> writing th = true ->
  reading th = false /\
  Forall (fun th => writing th = false /\ reading th = false) (l1 ++ l2).
Proof.
  intros (Hth & _ & Hr & Hw)%calls_ok_focus Hwr. rewrite Hwr in Hw.
  assert (count writing (l1 ++ l2) = 0 /\ count reading (l1 ++ l2) = 0) as [HW HR]
    by (destruct (mu_writer (gd_mu g)); lia).
  split; [by destruct th as [[] []]|].
  apply Forall_and. split; by apply count_none.
Qed.

(** [C19] The mutex excludes.  In every system that the goroutines reach
    from one in which the mutex counts the calls that hold it, a call
    that is between [c.mu.Lock()] and [c.mu.Unlock()] is the only one
    there, and no call is between [c.mu.RLock()] and [c.mu.RUnlock()]:
    no goroutine reads or writes the map while another writes it. *)
Theorem mutual_exclusion schedule s s' i j thi thj :
  calls_ok s -> run_calls schedule s = Ok s' ->
  cl_callers s' !! i = Some thi -> cl_callers s' !! j = Some thj ->
  writing thi = true ->
  reading thj = false /\ (writing thj = true -> i = j).
Proof.
  intros Hok Hrun Hi Hj Hw. apply (run_calls_ok schedule s s') in Hok; [|done].
  destruct (calls_cases s' i) as [(g & l1 & th & l2 & -> & ->)|Hn]; [|by rewrite Hn in Hi].
  simpl in *. rewrite list_lookup_middle in Hi by done. injection Hi as ->.
  destruct (calls_ok_writer _ _ _ _ Hok Hw) as [Hr Hall].
  destruct (decide (j = length l1)) as [->|Hne].
  { rewrite list_lookup_middle in Hj by done. by injection Hj as <-. }
  assert (thj ∈ l1 ++ l2) as Hin.
  { apply elem_of_app. destruct (decide (j < length l1)).
    - left. rewrite lookup_app_l in Hj by done. by eapply list_elem_of_lookup_2.
    - right. rewrite lookup_app_r in Hj by lia.
      destruct (j - length l1) as [|k] eqn:Hk; [lia|]. by eapply list_elem_of_lookup_2. }
  apply (proj1 (Forall_forall _ _) Hall) in Hin as [Hwj Hrj]. split; [done|].
  by rewrite Hwj.
Qed.

(** ** Every call returns *)

(** A call can take a step when it holds the mutex, and when it has
    not returned and no call holds the mutex. *)
Lemma access_step_enabled g th W R :
  caller_ok (gd_ctx g) th = true ->
  mutex_ok (gd_mu g) (holding th + W) (sharing th + R) ->
  writing th = true \/ reading th = true \/ (W = 0 /\ R = 0 /\ steps_left th ≠ 0) ->
  exists g' th', access_step g th = Ok (Some (g', th')).
Proof. by_position g th; (by eexists _, _) || (exfalso; intuition lia). Qed.

(** A call that can take a step, in a system with a call that has not
    returned: the writer, a reader, or the call itself. *)
Lemma calls_enabled g l :
  calls_ok (mkCalls g l) -> Exists (fun th => steps_left th ≠ 0) l ->
  exists l1 th l2 g' th',
    l = l1 ++ th :: l2 /\ access_step g th = Ok (Some (g', th')).
Proof.
  intros Hok Hex.
  assert (exists l1 th l2, l = l1 ++ th :: l2 /\
            (writing th = true \/ reading th = true \/
             (count writing (l1 ++ l2) = 0 /\ count reading (l1 ++ l2) = 0 /\
              steps_left th ≠ 0))) as (l1 & th & l2 & -> & Hth).
  { destruct (decide (0 < count writing l)) as [(l1 & th & l2 & -> & ?)%count_some|Hw];
      [by eauto 8|].
    destruct (decide (0 < count reading l)) as [(l1 & th & l2 & -> & ?)%count_some|Hr];
      [by eauto 8|].
    apply Exists_exists in Hex as (th & (l1 & l2 & ->)%list_elem_of_split & Hth).
    exists l1, th, l2. rewrite !count_middle in Hw, Hr. split; [done|].
    right; right. split_and!; [lia..|done]. }
  apply calls_ok_focus in Hok as (Hok & _ & Hmu).
  destruct (access_step_enabled g th _ _ Hok Hmu Hth) as (g' & th' & Hstep).
  by exists l1, th, l2, g', th'.
Qed.

(** While a call has not returned, some goroutine can take a step that
    brings the calls nearer to their end. *)
Lemma calls_progress s :
  calls_ok s -> Exists (fun th => steps_left th ≠ 0) (cl_callers s) ->
  exists i s', calls_step s i = Ok s' /\ steps_to_go s' < steps_to_go s.
Proof.
  destruct s as [g l]. intros Hok Hex.
  destruct (calls_enabled g l Hok Hex) as (l1 & th & l2 & g' & th' & -> & Hstep).
  exists (length l1), (mkCalls g' (l1 ++ th' :: l2)).
  rewrite calls_step_focus, Hstep. split; [done|].
  apply calls_ok_focus in Hok as (Hth & _ & Hmu).
  destruct (access_step_focus _ _ _ _ _ _ Hth Hmu Hstep) as (_ & _ & _ & Hlt & _).
  unfold steps_to_go. simpl. rewrite !sum_list_with_app. simpl. lia.
Qed.

(** [C29] The calls do not block each other for ever.  From every
    system in which the mutex counts the calls that hold it there is a
    schedule at whose end every call has returned: whoever holds the
    mutex can go on and release it, and a free mutex can be taken. *)
Theorem calls_return s :
  calls_ok s ->
  exists schedule s',
    run_calls schedule s = Ok s' /\
    Forall (fun th => steps_left th = 0) (cl_callers s').
Proof.
  remember (steps_to_go s) as n eqn:Hn. revert s Hn.
  induction n as [n IH] using lt_wf_ind. intros s -> Hok.
  destruct (Forall_Exists_dec (fun th => steps_left th = 0) (fun th => steps_left th ≠ 0)
              (fun th => decide (steps_left th = 0) : {_} + {_}) (cl_callers s))
    as [Hall|Hex]; [by exists [], s|].
  destruct (calls_progress s Hok Hex) as (i & s1 & Hs & Hlt).
  destruct (IH _ Hlt s1 eq_refl) as (schedule & s' & Hrun & Hend);
    [by apply (calls_step_ok s i)|].
  exists (i :: schedule), s'. simpl. by rewrite Hs.
Qed.

(** ** One call alone *)

(** The steps of a call of [Set], and of a call of [Get], on a context
    that no other goroutine uses are [Context_Set] and [Context_Get]. *)
Lemma Set_alone c key value :
  run_calls (replicate 5 0) (begin c [SetKey key value]) =
  Ok (mkCalls (mkGuarded (mkRWMutex false 0) (Context_Set c key value))
        [mkCaller (SetKey key value) (Finished None)]).
Proof. by destruct c as [? ? ? ? [] ? ?]. Qed.

Lemma Get_alone c key :
  run_calls (replicate 3 0) (begin c [GetKey key]) =
  Ok (mkCalls (mkGuarded (mkRWMutex false 0) c)
        [mkCaller (GetKey key) (Finished (Some (Context_Get c key)))]).
Proof. done. Qed.

End keys_lemmas.

(** ** The three calls *)

(** The three calls on one context.  In the schedule in which they
    meet, the second call of [Set] and the call of [Get] wait while the
    first call holds the mutex; at the end the mutex is free, the two
    keys are in the map, the calls have taken effect in the order 0, 2,
    1 and [Get] has found the first key.  When the call of [Get] loads
    first, it finds nothing. *)
Theorem sample_calls_meet :
  ca_at <$> cl_callers (calls_of (run_calls [0; 1; 0; 2; 0; 1] sample_calls)) =
    [AtStore; AtLock; AtRLock] /\
  gd_mu (cl_shared (calls_of (run_calls sample_meeting sample_calls))) = mkRWMutex false 0 /\
  c_Keys (gd_ctx (cl_shared (calls_of (run_calls sample_meeting sample_calls)))) =
    Some (<[bytes "b" := AnyBool false]> (<[bytes "a" := AnyBool true]> ∅)) /\
  ca_at <$> cl_callers (calls_of (run_calls sample_meeting sample_calls)) =
    [Finished None; Finished None; Finished (Some (AnyBool true, true))] /\
  linearization sample_meeting sample_calls = [0; 2; 1] /\
  ca_at <$> cl_callers (calls_of (run_calls sample_reader_first sample_calls)) =
    [Finished None; Finished None; Finished (Some (AnyNil, false))] /\
  linearization sample_reader_first sample_calls = [2; 0; 1].
Proof. repeat split; vm_compute; reflexivity. Qed.

(** ** Witnesses *)

Lemma linearizable_witness :
  run_atomic (linearization sample_meeting (begin (sample_start []) sample_accesses))
    (mkAtomic (sample_start []) ((fun a => (a, None)) <$> sample_accesses)) =
  mkAtomic (gd_ctx (cl_shared (calls_of (run_calls sample_meeting sample_calls))))
    (outcome <$> cl_callers (calls_of (run_calls sample_meeting sample_calls))).
Proof.
  apply (linearizable sample_meeting (sample_start []) sample_accesses
           (calls_of (run_calls sample_meeting sample_calls))).
  - vm_compute. reflexivity.
  - vm_compute. repeat constructor.
Defined.

Lemma run_calls_returns_witness :
  exists s', run_calls sample_meeting sample_calls = Ok s' /\ calls_ok s'.
Proof. apply (run_calls_returns sample_meeting sample_calls), calls_ok_begin. Defined.

Lemma mutual_exclusion_witness :
  reading (mkCaller (SetKey (bytes "b") (AnyBool false)) AtLock : caller unit unit unit) =
    false /\
  (writing (mkCaller (SetKey (bytes "b") (AnyBool false)) AtLock : caller unit unit unit) =
     true -> 0 = 1).
Proof.
  apply (mutual_exclusion [0; 1; 0; 2; 0; 1] sample_calls
           (calls_of (run_calls [0; 1; 0; 2; 0; 1] sample_calls)) 0 1
           (mkCaller (SetKey (bytes "a") (AnyBool true)) AtStore)
           (mkCaller (SetKey (bytes "b") (AnyBool false)) AtLock));
    [apply calls_ok_begin|vm_compute; reflexivity|reflexivity..].
Defined.

Lemma calls_return_witness :
  exists schedule s',
    run_calls schedule sample_calls = Ok s' /\
    Forall (fun th => steps_left th = 0) (cl_callers s').
Proof. apply (calls_return sample_calls), calls_ok_begin. Defined.
