(* ===== verification/Strconv.v ===== *)
(** * Strconv: the parsers of Go's [strconv] that the setters call

    [src/utils.go] parses the strings of a request with
    [strconv.ParseBool], [strconv.ParseInt(s, 10, bits)] and
    [strconv.ParseUint(s, 10, bits)].  They are defined here after Go's
    library, for base 10, on unbounded integers with the range test
    written out; [FormatInt] and [FormatUint] are the decimal printers, the
    reference the parsers are checked against.  [strconv.ParseFloat] is
    not defined: it is a parameter of the files that use it. *)

From S2P Require Import Prelude.

(** ** Errors *)

(** The errors the setters return: [*strconv.NumError] with [ErrSyntax]
    or [ErrRange], an error of [encoding/json], or an error that
    [fmt.Errorf] made of a prefix and the text of another. *)
Inductive error : Type :=
| ErrSyntax (func num : gostring)
| ErrRange (func num : gostring)
| ErrJSON (msg : gostring)
| Errorf (prefix : gostring) (err : error).

#[global] Instance error_eq_dec : EqDecision error.
Proof. solve_decision. Defined.

(** ** Parsers *)

(** [strconv.ParseBool]. *)
Definition ParseBool (str : gostring) : bool + error :=
  if bool_decide (str ∈ [bytes "1"; bytes "t"; bytes "T"; bytes "TRUE"; bytes "true";
                         bytes "True"]) then inl true
  else if bool_decide (str ∈ [bytes "0"; bytes "f"; bytes "F"; bytes "FALSE"; bytes "false";
                              bytes "False"]) then inl false
  else inr (ErrSyntax (bytes "ParseBool") str).

(** The value of a decimal digit. *)
Definition digit (c : ascii) : option Z :=
  let n := Z.of_nat (nat_of_ascii c) in
  if bool_decide (48 <= n <= 57)%Z then Some (n - 48)%Z else None.

(** The value of a string of decimal digits after the value [acc] of the
    digits before it. *)
Fixpoint digits_acc (s : gostring) (acc : Z) : option Z :=
  match s with
  | [] => Some acc
  | c :: s =>
      match digit c with
      | Some d => digits_acc s (10 * acc + d)
      | None => None
      end
  end.

(** The value of a non-empty string of decimal digits. *)
Definition digits (s : gostring) : option Z :=
  if decide (s = []) then None else digits_acc s 0.

(** [bitSize == 0] stands for the size of [int], 64 bits. *)
Definition bit_size (bitSize : Z) : Z := if decide (bitSize = 0%Z) then 64%Z else bitSize.

(** [strconv.ParseUint(s, 10, bitSize)]. *)
Definition ParseUint (s : gostring) (bitSize : Z) : Z + error :=
  match digits s with
  | None => inr (ErrSyntax (bytes "ParseUint") s)
  | Some un =>
      if (un <? 2 ^ bit_size bitSize)%Z then inl un
      else inr (ErrRange (bytes "ParseUint") s)
  end.

(** [strconv.ParseInt(s, 10, bitSize)]. *)
Definition ParseInt (s0 : gostring) (bitSize : Z) : Z + error :=
  match s0 with
  | [] => inr (ErrSyntax (bytes "ParseInt") s0)
  | c :: rest =>
      let '(neg, s) :=
        if decide (c = "+"%char) then (false, rest)
        else if decide (c = "-"%char) then (true, rest)
        else (false, s0) in
      match digits s with
      | None => inr (ErrSyntax (bytes "ParseInt") s0)
      | Some un =>
          let cutoff := (2 ^ (bit_size bitSize - 1))%Z in
          if negb neg && (cutoff <=? un)%Z then inr (ErrRange (bytes "ParseInt") s0)
          else if neg && (cutoff <? un)%Z then inr (ErrRange (bytes "ParseInt") s0)
          else inl (if neg then - un else un)%Z
      end
  end.

(** ** Printers *)

(** The character of a decimal digit. *)
Definition digit_char (d : Z) : ascii := ascii_of_nat (Z.to_nat (48 + d)).

(** The decimal digits of [n] before [rest]; [fuel] bounds the number of
    digits. *)
Fixpoint format_digits (fuel : nat) (n : Z) (rest : gostring) : gostring :=
  let rest := digit_char (n mod 10) :: rest in
  match fuel with
  | 0 => rest
  | S fuel => if (n <? 10)%Z then rest else format_digits fuel (n / 10) rest
  end.

(** [strconv.FormatUint(n, 10)]: a number has no more decimal digits than
    binary ones. *)
Definition FormatUint (n : Z) : gostring := format_digits (Z.to_nat (Z.log2 n)) n [].

(** [strconv.FormatInt(i, 10)]. *)
Definition FormatInt (i : Z) : gostring :=
  if (i <? 0)%Z then "-"%char :: FormatUint (- i) else FormatUint i.

(** ** What the parsers return *)

Lemma digit_range c d : digit c = Some d -> (0 <= d <= 9)%Z.
Proof. unfold digit. case_bool_decide; intros [= <-]; lia. Qed.

Lemma digit_digit_char d : (0 <= d <= 9)%Z -> digit (digit_char d) = Some d.
Proof.
  intros Hd. unfold digit, digit_char.
  rewrite nat_ascii_embedding by lia. rewrite bool_decide_eq_true_2 by lia. f_equal. lia.
Qed.

Lemma digit_char_not_sign d : (0 <= d <= 9)%Z -> digit_char d ≠ "+"%char /\ digit_char d ≠ "-"%char.
Proof.
  intros Hd. pose proof (digit_digit_char d Hd) as Hdd.
  split; intros Heq; by rewrite Heq in Hdd.
Qed.

Lemma digits_acc_nonneg s acc n : (0 <= acc)%Z -> digits_acc s acc = Some n -> (0 <= n)%Z.
Proof.
  revert acc. induction s as [|c s IH]; simpl; intros acc Hacc; [by intros [= <-]|].
  destruct (digit c) as [d|] eqn:Hd; [|done]. apply digit_range in Hd. apply IH. lia.
Qed.

Lemma digits_nonneg s n : digits s = Some n -> (0 <= n)%Z.
Proof. unfold digits. case_decide; [done|]. by apply digits_acc_nonneg. Qed.

(** What [ParseInt] returns fits in [bitSize] bits. *)
Lemma ParseInt_range s bitSize i :
  (1 <= bit_size bitSize)%Z -> ParseInt s bitSize = inl i ->
  (- 2 ^ (bit_size bitSize - 1) <= i < 2 ^ (bit_size bitSize - 1))%Z.
Proof.
  intros Hb. unfold ParseInt. destruct s as [|c rest]; [done|].
  set (cutoff := (2 ^ (bit_size bitSize - 1))%Z).
  assert (0 < cutoff)%Z by (apply Z.pow_pos_nonneg; lia).
  repeat case_decide; simpl.
  all: destruct (digits _) as [un|] eqn:Hun; [|done]; apply digits_nonneg in Hun.
  all: destruct (Z.leb_spec cutoff un), (Z.ltb_spec cutoff un); simpl; try done;
    intros [= <-]; lia.
Qed.

(** What [ParseUint] returns fits in [bitSize] bits. *)
Lemma ParseUint_range s bitSize u :
  ParseUint s bitSize = inl u -> (0 <= u < 2 ^ bit_size bitSize)%Z.
Proof.
  unfold ParseUint. destruct (digits s) as [un|] eqn:Hun; [|done].
  apply digits_nonneg in Hun. destruct (Z.ltb_spec un (2 ^ bit_size bitSize)); [|done].
  intros [= <-]. lia.
Qed.

(** ** The parsers read what the printers write *)

(** The digits printed before [rest] are read as the number printed. *)
Lemma digits_acc_format fuel n rest :
  (0 <= n < 2 ^ Z.of_nat (S fuel))%Z ->
  exists k, format_digits fuel n rest = k ++ rest /\ k ≠ [] /\
    head k ≠ Some "+"%char /\ head k ≠ Some "-"%char /\
    forall acc, digits_acc (k ++ rest) acc = digits_acc rest (acc * 10 ^ Z.of_nat (length k) + n).
Proof.
  revert n rest. induction fuel as [|fuel IH]; intros n rest Hn.
  - exists [digit_char n]. change (2 ^ Z.of_nat 1)%Z with 2%Z in Hn. simpl.
    rewrite Z.mod_small by lia. destruct (digit_char_not_sign n) as [? ?]; [lia|].
    split_and!; try done; try congruence.
    intros acc. rewrite digit_digit_char by lia. f_equal. lia.
  - cbn [format_digits]. pose proof (Z.mod_pos_bound n 10) as Hm.
    destruct (digit_char_not_sign (n mod 10)) as [? ?]; [lia|].
    destruct (Z.ltb_spec n 10) as [Hlt|Hge].
    + exists [digit_char (n mod 10)]. rewrite Z.mod_small by lia. simpl.
      rewrite Z.mod_small in * by lia.
      split_and!; try done; try congruence.
      intros acc. rewrite digit_digit_char by lia. f_equal. lia.
    + destruct (IH (n / 10)%Z (digit_char (n mod 10) :: rest)) as (k & -> & Hk & Hp & Hm' & Hd).
      { rewrite Nat2Z.inj_succ, Z.pow_succ_r in Hn by lia.
        split; [apply Z.div_pos; lia|apply Z.div_lt_upper_bound; lia]. }
      exists (k ++ [digit_char (n mod 10)]). rewrite <- app_assoc.
      split_and!; try done; [by destruct k|by destruct k|by destruct k|].
      intros acc. simpl. rewrite Hd. simpl. rewrite digit_digit_char by lia.
      f_equal. rewrite length_app, Nat2Z.inj_add, Z.pow_add_r by lia.
      change (10 ^ Z.of_nat (length [digit_char (n mod 10)]))%Z with 10%Z.
      pose proof (Z.div_mod n 10). lia.
Qed.

(** The decimal form of a natural number: not empty, no sign, read back
    as the number. *)
Lemma digits_FormatUint n :
  (0 <= n)%Z ->
  digits (FormatUint n) = Some n /\
  head (FormatUint n) ≠ Some "+"%char /\ head (FormatUint n) ≠ Some "-"%char /\
  FormatUint n ≠ [].
Proof.
  intros Hn. unfold FormatUint, digits.
  destruct (digits_acc_format (Z.to_nat (Z.log2 n)) n []) as (k & -> & Hk & Hp & Hm & Hd).
  { split; [done|]. rewrite Nat2Z.inj_succ, Z2Nat.id by apply Z.log2_nonneg.
    destruct (decide (n = 0%Z)) as [->|]; [done|]. apply Z.log2_spec. lia. }
  rewrite app_nil_r in *. rewrite decide_False by done.
  by split_and!.
Qed.

(** [ParseUint] reads the decimal form of every number below
    [2 ^ bitSize]. *)
Lemma ParseUint_FormatUint n bitSize :
  (0 <= n < 2 ^ bit_size bitSize)%Z -> ParseUint (FormatUint n) bitSize = inl n.
Proof.
  intros Hn. unfold ParseUint. destruct (digits_FormatUint n) as (-> & _); [lia|].
  by destruct (Z.ltb_spec n (2 ^ bit_size bitSize)); [|lia].
Qed.

(** [ParseInt] reads the decimal form of every integer of [bitSize]
    bits. *)
Lemma ParseInt_FormatInt i bitSize :
  (- 2 ^ (bit_size bitSize - 1) <= i < 2 ^ (bit_size bitSize - 1))%Z ->
  ParseInt (FormatInt i) bitSize = inl i.
Proof.
  intros Hi. unfold FormatInt, ParseInt. destruct (Z.ltb_spec i 0) as [Hneg|Hpos].
  - rewrite decide_False, decide_True by done.
    destruct (digits_FormatUint (- i)) as (-> & _); [lia|]. simpl.
    destruct (Z.ltb_spec (2 ^ (bit_size bitSize - 1)) (- i)); [lia|]. f_equal. lia.
  - destruct (digits_FormatUint i Hpos) as (Hd & Hp & Hm & Hne).
    destruct (FormatUint i) as [|c rest] eqn:Hf; [done|].
    rewrite !decide_False by (intros ->; by (apply Hp || apply Hm)).
    rewrite Hd. simpl.
    by destruct (Z.leb_spec (2 ^ (bit_size bitSize - 1)) i); [lia|].
Qed.
