(* ===== verification/Reflect.v ===== *)
(** * Reflect: Go's [reflect] as far as the package uses it

    [src/utils.go], [src/convert.go] and [src/unnamed/part_002] reach the
    values of the user's handlers through [reflect.Type] and
    [reflect.Value].  This file is the model of that library which the
    files [Setters], [Traverse] and [Binding] share:

    - [Kind] is [reflect.Kind]; [rtype] is a [reflect.Type] with the
      structure the package looks at (pointers, slices, arrays, structs
      with their fields, functions with their parameters); [StructField]
      is [reflect.StructField].
    - [rvalue] is what a [reflect.Value] holds; a pointer, a slice and an
      interface may be [nil].  A [reflect.Value] is a type, a value and a
      [flag]: whether it is addressable and whether it was reached through
      an unexported field, which decide what [Set] may write.
    - a panic of the library is a [Panic] with the text of the library.

    Field names are taken to be ASCII: a name is exported when its first
    byte is an upper-case letter. *)

From S2P Require Import Prelude Strconv.

(** ** Kinds and types *)

(** [reflect.Kind]. *)
Inductive Kind : Type :=
| KInvalid | KBool
| KInt | KInt8 | KInt16 | KInt32 | KInt64
| KUint | KUint8 | KUint16 | KUint32 | KUint64 | KUintptr
| KFloat32 | KFloat64 | KComplex64 | KComplex128
| KArray | KChan | KFunc | KInterface | KMap | KPtr | KSlice | KString | KStruct
| KUnsafePointer.

#[global] Instance Kind_eq_dec : EqDecision Kind.
Proof. solve_decision. Defined.

(** [reflect.StructField], over the type of types. *)
Record StructField (T : Type) : Type := mkField {
  Name : gostring;
  Type_ : T;
  Tag : gostring;
  Anonymous : bool
}.

Arguments mkField {T} Name Type_ Tag Anonymous.
Arguments Name {T} _.
Arguments Type_ {T} _.
Arguments Tag {T} _.
Arguments Anonymous {T} _.

(** [reflect.Type]: a type of a basic kind, a pointer, a slice, an array,
    a struct with its name (empty for an unnamed one) and fields, a
    function with the types of its parameters and results, or a type of
    another kind (interface, map, channel) with its name. *)
#[warnings="-register-all"]
Inductive rtype : Type :=
| TBasic (k : Kind)
| TPtr (elem : rtype)
| TSlice (elem : rtype)
| TArray (len : nat) (elem : rtype)
| TStruct (name : gostring) (fields : list (StructField rtype))
| TFunc (ins outs : list rtype)
| TOther (k : Kind) (name : gostring).

Abbreviation field := (StructField rtype).

(** [Type.Kind()]. *)
Definition kind_of (t : rtype) : Kind :=
  match t with
  | TBasic k => k
  | TPtr _ => KPtr
  | TSlice _ => KSlice
  | TArray _ _ => KArray
  | TStruct _ _ => KStruct
  | TFunc _ _ => KFunc
  | TOther k _ => k
  end.

(** The kinds of [TBasic]. *)
Definition basic_kind (k : Kind) : bool :=
  match k with
  | KBool | KInt | KInt8 | KInt16 | KInt32 | KInt64
  | KUint | KUint8 | KUint16 | KUint32 | KUint64 | KUintptr
  | KFloat32 | KFloat64 | KComplex64 | KComplex128 | KString | KUnsafePointer => true
  | _ => false
  end.

(** The kinds of [TOther]. *)
Definition other_kind (k : Kind) : bool :=
  match k with
  | KChan | KInterface | KMap => true
  | _ => false
  end.

(** A type the constructors of [rtype] stand for: the kind of a [TBasic]
    is basic, that of a [TOther] is a channel, an interface or a map, and
    a field has a name. *)
Fixpoint wf_type (t : rtype) : bool :=
  match t with
  | TBasic k => basic_kind k
  | TPtr elem | TSlice elem | TArray _ elem => wf_type elem
  | TStruct _ fields =>
      (fix all (fs : list field) : bool :=
         match fs with
         | [] => true
         | f :: fs => bool_decide (Name f ≠ []) && wf_type (Type_ f) && all fs
         end) fields
  | TFunc ins outs =>
      (fix all (ts : list rtype) : bool :=
         match ts with
         | [] => true
         | t :: ts => wf_type t && all ts
         end) ins &&
      (fix all (ts : list rtype) : bool :=
         match ts with
         | [] => true
         | t :: ts => wf_type t && all ts
         end) outs
  | TOther k _ => other_kind k
  end.

(** [Kind.String()]. *)
Definition Kind_String (k : Kind) : gostring :=
  bytes match k with
  | KInvalid => "invalid" | KBool => "bool"
  | KInt => "int" | KInt8 => "int8" | KInt16 => "int16" | KInt32 => "int32" | KInt64 => "int64"
  | KUint => "uint" | KUint8 => "uint8" | KUint16 => "uint16" | KUint32 => "uint32"
  | KUint64 => "uint64" | KUintptr => "uintptr"
  | KFloat32 => "float32" | KFloat64 => "float64"
  | KComplex64 => "complex64" | KComplex128 => "complex128"
  | KArray => "array" | KChan => "chan" | KFunc => "func" | KInterface => "interface"
  | KMap => "map" | KPtr => "ptr" | KSlice => "slice" | KString => "string"
  | KStruct => "struct" | KUnsafePointer => "unsafe.Pointer"
  end.

(** [Type.Elem()]: panics on a type without elements. *)
Definition Elem (t : rtype) : result rtype :=
  match t with
  | TPtr elem | TSlice elem | TArray _ elem => Ok elem
  | _ => Panic (PanicMsg (bytes "reflect: Elem of invalid type"))
  end.

(** [Type.NumField()]: panics on a type that is not a struct. *)
Definition NumField (t : rtype) : result nat :=
  match t with
  | TStruct _ fields => Ok (length fields)
  | _ => Panic (PanicMsg (bytes "reflect: NumField of non-struct type"))
  end.

(** A name is exported: its first byte is an upper-case letter. *)
Definition IsExported (name : gostring) : bool :=
  match name with
  | c :: _ => bool_decide (65 <= nat_of_ascii c <= 90)
  | [] => false
  end.

(** ** Flags *)

(** The bits of [reflect.flag] that decide what may be written:
    [flagAddr], the value is addressable; [flagStickyRO] and
    [flagEmbedRO], it was reached through an unexported field that is not
    embedded, or one that is. *)
Record flag : Type := mkFlag {
  flagAddr : bool;
  flagStickyRO : bool;
  flagEmbedRO : bool
}.

(** [flagRO]: one of the two read-only bits is set. *)
Definition flagRO (fl : flag) : bool := flagStickyRO fl || flagEmbedRO fl.

(** [Value.CanSet()]. *)
Definition CanSet (fl : flag) : bool := flagAddr fl && negb (flagRO fl).

(** The value is addressable and was not reached through an unexported
    field that is not embedded: its exported fields can be set. *)
Definition flag_base (fl : flag) : bool := flagAddr fl && negb (flagStickyRO fl).

(** The flag of what [reflect.ValueOf] and [reflect.New] return. *)
Definition flag_New : flag := mkFlag false false false.

(** The flag of [v.Elem()] for a pointer [v]: addressable, read-only as
    [v] is. *)
Definition flag_Elem (fl : flag) : flag :=
  mkFlag true (flagStickyRO fl) (flagEmbedRO fl).

(** The flag of [v.Field(i)]: the bit of an embedded field is not
    inherited; an unexported field sets one of the two bits. *)
Definition flag_Field (fl : flag) (f : field) : flag :=
  mkFlag (flagAddr fl)
         (flagStickyRO fl || (negb (IsExported (Name f)) && negb (Anonymous f)))
         (negb (IsExported (Name f)) && Anonymous f).

(** The flag of [v.Index(i)]: an element of a slice is addressable, one
    of an array is when the array is. *)
Definition flag_Index (k : Kind) (fl : flag) : flag :=
  mkFlag (bool_decide (k = KSlice) || flagAddr fl) (flagRO fl) false.

(** [flag.mustBeAssignable()], for the method [method]. *)
Definition mustBeAssignable (method : gostring) (fl : flag) : result unit :=
  if flagRO fl then
    Panic (PanicMsg (bytes "reflect: " ++ method ++
                     bytes " using value obtained using unexported field"))
  else if negb (flagAddr fl) then
    Panic (PanicMsg (bytes "reflect: " ++ method ++ bytes " using unaddressable value"))
  else Ok tt.

(** The panic of a method called on a value of the wrong kind. *)
Definition ValueError {A} (method : gostring) (k : Kind) : result A :=
  Panic (PanicMsg (bytes "reflect: call of " ++ method ++ bytes " on " ++
                   (if decide (k = KInvalid) then bytes "zero" else Kind_String k) ++
                   bytes " Value")).

(** [Value.Addr()] followed by [Value.Interface()]: the value must be
    addressable and not read-only. *)
Definition Addr_Interface (fl : flag) : result unit :=
  if negb (flagAddr fl) then
    Panic (PanicMsg (bytes "reflect.Value.Addr of unaddressable value"))
  else if flagRO fl then
    Panic (PanicMsg (bytes "reflect.Value.Interface: cannot return value obtained from " ++
                     bytes "unexported field or method"))
  else Ok tt.

Section values.
Context {float : Type} {opaque : Type}.

(** ** Values *)

(** What a [reflect.Value] holds.  A pointer and a slice may be [nil];
    an interface is [nil] or holds a value with its type; [ROther] holds
    the maps, channels and functions. *)
#[warnings="-register-all"]
Inductive rvalue : Type :=
| RBool (b : bool)
| RInt (i : Z)
| RUint (u : Z)
| RFloat (f : float)
| RString (s : gostring)
| RPtr (p : option rvalue)
| RSlice (vs : slice rvalue)
| RArray (vs : list rvalue)
| RStruct (vs : list rvalue)
| RIface (x : option (rtype * rvalue))
| ROther (o : opaque).

(** The zero values of the types that come from outside. *)
Variable zero_float : float.
Variable zero_opaque : rtype -> opaque.

(** The zero value of a type: what [reflect.New] points to and what
    [reflect.MakeSlice] fills a slice with. *)
Fixpoint zero (t : rtype) : rvalue :=
  match t with
  | TBasic KBool => RBool false
  | TBasic (KInt | KInt8 | KInt16 | KInt32 | KInt64) => RInt 0
  | TBasic (KUint | KUint8 | KUint16 | KUint32 | KUint64 | KUintptr) => RUint 0
  | TBasic (KFloat32 | KFloat64) => RFloat zero_float
  | TBasic KString => RString []
  | TBasic _ => ROther (zero_opaque t)
  | TPtr _ => RPtr None
  | TSlice _ => RSlice None
  | TArray n elem => RArray (replicate n (zero elem))
  | TStruct _ fields =>
      RStruct ((fix zeros (fs : list field) : list rvalue :=
                  match fs with
                  | [] => []
                  | f :: fs => zero (Type_ f) :: zeros fs
                  end) fields)
  | TFunc _ _ => ROther (zero_opaque t)
  | TOther KInterface _ => RIface None
  | TOther _ _ => ROther (zero_opaque t)
  end.

(** [v.Elem()] for a pointer: the value pointed to, [None] (the zero
    [Value]) for [nil]. *)
Definition Value_Elem (v : rvalue) : option rvalue :=
  match v with
  | RPtr p => p
  | _ => None
  end.

(** [v.IsNil()] for a pointer. *)
Definition IsNil (v : rvalue) : bool :=
  match v with
  | RPtr (Some _) => false
  | _ => true
  end.

(** [v.String()]: the string of a value of kind string, and the text
    [<T Value>] for the others, which the model leaves empty of [T]. *)
Definition Value_String (v : rvalue) : gostring :=
  match v with
  | RString s => s
  | _ => bytes "<Value>"
  end.

(** [v.Interface()] for a value of the static type [t]: the content of
    an interface, and the value with its type otherwise, which is not
    [nil] even when the value is a [nil] pointer.  It panics on a value
    that was reached through an unexported field. *)
Definition Value_Interface (fl : flag) (t : rtype) (v : rvalue) :
    result (option (rtype * rvalue)) :=
  if flagRO fl then
    Panic (PanicMsg (bytes "reflect.Value.Interface: cannot return value obtained from " ++
                     bytes "unexported field or method"))
  else
    match kind_of t with
    | KInterface => Ok (match v with RIface x => x | _ => None end)
    | _ => Ok (Some (t, v))
    end.

(** [if v.IsNil() { v.Set(reflect.New(v.Type().Elem())) }; v = v.Elem()]
    for a pointer [v]: the target of the pointer, a new zero value when
    it was [nil], and then the pointer must be one that can be set. *)
Definition deref (fl : flag) (elem : rtype) (v : rvalue) : result rvalue :=
  if IsNil v then
    let* _ := mustBeAssignable (bytes "reflect.Value.Set") fl in
    Ok (zero elem)
  else Ok (default (zero elem) (Value_Elem v)).

(** ** Well-typed values *)

(** [v] is a value of type [t]. *)
Fixpoint has_type (t : rtype) (v : rvalue) {struct t} : Prop :=
  match t, v with
  | TBasic KBool, RBool _ => True
  | TBasic (KInt | KInt8 | KInt16 | KInt32 | KInt64), RInt _ => True
  | TBasic (KUint | KUint8 | KUint16 | KUint32 | KUint64 | KUintptr), RUint _ => True
  | TBasic (KFloat32 | KFloat64), RFloat _ => True
  | TBasic KString, RString _ => True
  | TBasic (KComplex64 | KComplex128 | KUnsafePointer), ROther _ => True
  | TPtr elem, RPtr p => from_option (has_type elem) True p
  | TSlice elem, RSlice vs => Forall (has_type elem) (default [] vs)
  | TArray n elem, RArray vs => length vs = n /\ Forall (has_type elem) vs
  | TStruct _ fields, RStruct vs =>
      (fix all (fs : list field) (vs : list rvalue) : Prop :=
         match fs, vs with
         | [], [] => True
         | f :: fs, v :: vs => has_type (Type_ f) v /\ all fs vs
         | _, _ => False
         end) fields vs
  | TFunc _ _, ROther _ => True
  | TOther KInterface _, RIface _ => True
  | TOther (KChan | KMap) _, ROther _ => True
  | _, _ => False
  end.

End values.

Arguments rvalue : clear implicits.

(** The range of the integers of a kind. *)
Definition int_range (k : Kind) (i : Z) : Prop :=
  match k with
  | KInt8 => -2 ^ 7 <= i < 2 ^ 7
  | KInt16 => -2 ^ 15 <= i < 2 ^ 15
  | KInt32 => -2 ^ 31 <= i < 2 ^ 31
  | KInt | KInt64 => -2 ^ 63 <= i < 2 ^ 63
  | KUint8 => 0 <= i < 2 ^ 8
  | KUint16 => 0 <= i < 2 ^ 16
  | KUint32 => 0 <= i < 2 ^ 32
  | KUint | KUint64 => 0 <= i < 2 ^ 64
  | _ => True
  end%Z.

(** ** Induction on types *)

(** The induction principle of [rtype] with the hypothesis on every
    field of a struct and every parameter of a function. *)
Lemma rtype_ind' (P : rtype -> Prop) :
  (forall k, P (TBasic k)) ->
  (forall elem, P elem -> P (TPtr elem)) ->
  (forall elem, P elem -> P (TSlice elem)) ->
  (forall n elem, P elem -> P (TArray n elem)) ->
  (forall name fields, Forall (fun f => P (Type_ f)) fields -> P (TStruct name fields)) ->
  (forall ins outs, Forall P ins -> Forall P outs -> P (TFunc ins outs)) ->
  (forall k name, P (TOther k name)) ->
  forall t, P t.
Proof.
  intros Hb Hp Hs Ha Hst Hf Ho. fix IH 1. intros [k|elem|elem|n elem|name fields|ins outs|k name].
  - apply Hb.
  - apply Hp, IH.
  - apply Hs, IH.
  - apply Ha, IH.
  - apply Hst. induction fields as [|[n t tag a] fields IHf]; constructor; [apply IH|apply IHf].
  - apply Hf; [induction ins as [|t ins IHi]|induction outs as [|t outs IHo]];
      constructor; try apply IH; done.
  - apply Ho.
Qed.

(** Induction on the struct types: the hypothesis holds of the structs
    that the fields are, or point to. *)
Lemma struct_ind (P : gostring -> list field -> Prop) :
  (forall name fields,
     Forall (fun f => forall n fs,
               Type_ f = TStruct n fs \/ Type_ f = TPtr (TStruct n fs) -> P n fs) fields ->
     P name fields) ->
  forall name fields, P name fields.
Proof.
  intros HP.
  assert (forall t n fs, t = TStruct n fs \/ t = TPtr (TStruct n fs) -> P n fs) as H.
  { induction t as [| elem IH| | |name fields IH| |] using rtype_ind';
      intros n0 fs0 [Heq|Heq]; try done.
    - injection Heq as ->. apply IH. by left.
    - injection Heq as -> ->. by apply HP. }
  intros name fields. apply (H (TStruct name fields)). by left.
Qed.

(** ** Well-formed types *)

Lemma wf_type_struct name fields :
  wf_type (TStruct name fields) = true <->
  Forall (fun f => Name f ≠ [] /\ wf_type (Type_ f) = true) fields.
Proof.
  simpl. induction fields as [|f fields IH]; [done|].
  rewrite Forall_cons, !andb_true_iff, bool_decide_eq_true, IH. tauto.
Qed.

(** A well-formed type of kind struct is a struct. *)
Lemma kind_struct_inv t :
  wf_type t = true -> kind_of t = KStruct -> exists name fields, t = TStruct name fields.
Proof. destruct t as [k| | | | | |k ?]; try done; [by destruct k|by eexists _, _|by destruct k]. Qed.

Lemma kind_ptr_inv t : wf_type t = true -> kind_of t = KPtr -> exists elem, t = TPtr elem.
Proof. destruct t as [k| | | | | |k ?]; try done; [by destruct k|by eexists|by destruct k]. Qed.

Section values_lemmas.
Context {float : Type} {opaque : Type}.
Variable zero_float : float.
Variable zero_opaque : rtype -> opaque.

Implicit Types (t elem : rtype) (v : rvalue float opaque) (fl : flag) (f : field).

(** ** Values of struct types *)

Lemma has_type_struct name fields v :
  has_type (TStruct name fields) v <->
  exists vs, v = RStruct vs /\ Forall2 (fun f v => has_type (Type_ f) v) fields vs.
Proof.
  destruct v as [| | | | | | | |vs| |]; simpl;
    try (split; [done|by intros (? & ? & ?)]).
  transitivity (Forall2 (fun f v => has_type (Type_ f) v) fields vs);
    [|split; [intros ?; by exists vs|by intros (? & [= ->] & ?)]].
  revert vs. induction fields as [|f fields IH]; intros [|v vs];
    try (split; [done|by inversion 1]).
  rewrite IH. split; [intros []; by constructor|by inversion 1].
Qed.

(** ** Flags *)

Lemma flag_base_CanSet fl : CanSet fl = true -> flag_base fl = true.
Proof. by destruct fl as [[] [] []]. Qed.

Lemma flag_base_Elem fl : flag_base (flag_Elem fl) = negb (flagStickyRO fl).
Proof. by destruct fl as [[] [] []]. Qed.

(** An embedded field keeps the base, whether it is exported or not. *)
Lemma flag_base_Field fl f :
  flag_base fl = true -> Anonymous f = true -> flag_base (flag_Field fl f) = true.
Proof.
  intros Hb Ha. destruct fl as [[] [] []]; try done; unfold flag_base; simpl;
    by rewrite Ha, andb_false_r.
Qed.

(** An exported field of a value with the base can be set. *)
Lemma CanSet_Field_base fl f :
  flag_base fl = true -> IsExported (Name f) = true -> CanSet (flag_Field fl f) = true.
Proof.
  intros Hb He. destruct fl as [[] [] []]; try done; unfold CanSet, flagRO; simpl;
    by rewrite He.
Qed.

Lemma CanSet_Elem fl : CanSet fl = true -> CanSet (flag_Elem fl) = true.
Proof. destruct fl as [[] [] []]; done. Qed.

(** What a pointer that is not read-only points to can be set, whether
    the pointer is addressable or not. *)
Lemma CanSet_Elem_RO fl : CanSet (flag_Elem fl) = negb (flagRO fl).
Proof. by destruct fl as [[] [] []]. Qed.

(** An exported field of a value that can be set can be set. *)
Lemma CanSet_Field fl f :
  CanSet fl = true -> IsExported (Name f) = true -> CanSet (flag_Field fl f) = true.
Proof. intros Hc He. destruct fl as [[] [] []]; try done. unfold CanSet, flagRO. simpl. by rewrite He. Qed.

(** So can an exported field reached through an embedded one, exported
    or not. *)
Lemma CanSet_Field_embedded fl f g :
  CanSet fl = true -> Anonymous f = true -> IsExported (Name g) = true ->
  CanSet (flag_Field (flag_Field fl f) g) = true.
Proof.
  intros Hc Hf Hg. destruct fl as [[] [] []]; try done. unfold CanSet, flagRO. simpl.
  by rewrite Hf, Hg, andb_false_r.
Qed.

Lemma CanSet_Index k fl : CanSet fl = true -> CanSet (flag_Index k fl) = true.
Proof. destruct fl as [[] [] []]; unfold CanSet, flagRO; simpl; try done. by rewrite orb_true_r. Qed.

Lemma mustBeAssignable_CanSet method fl : CanSet fl = true -> mustBeAssignable method fl = Ok tt.
Proof. by destruct fl as [[] [] []]. Qed.

Lemma mustBeAssignable_Ok method fl : mustBeAssignable method fl = Ok tt <-> CanSet fl = true.
Proof. by destruct fl as [[] [] []]. Qed.

Lemma Addr_Interface_CanSet fl : CanSet fl = true -> Addr_Interface fl = Ok tt.
Proof. by destruct fl as [[] [] []]. Qed.

(** ** Zero values *)

Lemma zero_has_type t : wf_type t = true -> has_type t (zero zero_float zero_opaque t).
Proof.
  induction t as [k|elem IH|elem IH|n elem IH|name fields IH|ins outs _ _|k name]
    using rtype_ind'; simpl; try done.
  - by destruct k.
  - intros Hwf. split; [by rewrite length_replicate|]. by apply Forall_replicate, IH.
  - induction IH as [|f fields Hf _ IHf]; [done|].
    intros [[_ ?]%andb_prop ?]%andb_prop. split; [by apply Hf|by apply IHf].
  - by destruct k.
Qed.

(** ** Pointers *)

Lemma deref_CanSet fl elem v :
  CanSet fl = true -> exists p, deref zero_float zero_opaque fl elem v = Ok p.
Proof.
  intros Hc. unfold deref. rewrite mustBeAssignable_CanSet by done.
  destruct (IsNil v); by eexists.
Qed.

Lemma deref_not_nil fl elem p : deref zero_float zero_opaque fl elem (RPtr (Some p)) = Ok p.
Proof. done. Qed.

(** A [nil] pointer that cannot be set makes [deref] panic. *)
Lemma deref_nil fl elem :
  is_ok (deref zero_float zero_opaque fl elem (RPtr None)) = CanSet fl.
Proof. by destruct fl as [[] [] []]. Qed.

Lemma deref_typed fl elem v p :
  wf_type elem = true -> has_type (TPtr elem) v ->
  deref zero_float zero_opaque fl elem v = Ok p -> has_type elem p.
Proof.
  intros Hwf Hv. unfold deref. destruct v as [| | | | |[p'|]| | | | |]; try done; simpl.
  { intros ?. by simplify_eq. }
  intros ([] & _ & ?)%result_bind_Ok. simplify_eq. by apply zero_has_type.
Qed.

(** ** Interfaces *)

Lemma CanSet_not_RO fl : CanSet fl = true -> flagRO fl = false.
Proof. by destruct fl as [[] [] []]. Qed.

(** [v.Interface()] returns on a value that can be set. *)
Lemma Value_Interface_CanSet fl t (v : rvalue float opaque) :
  CanSet fl = true -> exists x, Value_Interface fl t v = Ok x.
Proof.
  intros Hc. unfold Value_Interface. rewrite CanSet_not_RO by done.
  destruct (kind_of t); by eexists.
Qed.

(** A value of a struct type is not a [nil] pointer. *)
Lemma has_type_struct_not_nil t (v : rvalue float opaque) :
  kind_of t = KStruct -> has_type t v -> v ≠ RPtr None.
Proof. destruct t as [[]| | | | | |[] ?]; try done. by destruct v. Qed.

End values_lemmas.

#[export] Hint Resolve CanSet_Elem CanSet_Field CanSet_Index : go.
