(* ===== verification/Setters.v ===== *)
(** * Setters: the setters of [src/utils.go]

    [Set], [SetArray], [SetInt], [SetUint] and [SetFloat] write a string,
    or a list of strings, into a Go value that they reach through
    [reflect.Value].  A [reflect.Value] is here its flag, its type and the
    value stored ([Reflect]); a setter returns the value after the call
    and the [error] it returns in Go, or the panic of [reflect] when it
    writes to a value that cannot be set.

    [Set] is [SetValue] here ([Set] is a word of the language).  The loop
    [for v.Kind() == reflect.Ptr] follows the type: the setters are
    recursive on the type.  [strconv.ParseFloat] and [json.Unmarshal] are
    parameters of the section.  [int] and [uint] are 64 bits wide, as
    on the platforms where [strconv.IntSize] is 64: the bit size 0 that
    [SetInt] and [SetUint] pass for them is [Strconv.bit_size 0]. *)

From S2P Require Import Prelude Strconv Reflect.

Section setters.
Context {float : Type} {opaque : Type}.

(** [strconv.ParseFloat]. *)
Variable ParseFloat : gostring -> Z -> float + error.

(** [json.Unmarshal] into a value of a type (through [UnmarshalJSON] when
    the type has it): the value after the call and the error. *)
Variable Unmarshal : rtype -> gostring -> rvalue float opaque ->
                     rvalue float opaque * option error.

Variable zero_float : float.
Variable zero_opaque : rtype -> opaque.

Abbreviation rvalue := (rvalue float opaque).
Abbreviation zero := (zero zero_float zero_opaque).
Abbreviation deref := (deref zero_float zero_opaque).

(** ** The setters *)

(** [func SetInt(v reflect.Value, s string) error]. *)
Definition SetInt (fl : flag) (k : Kind) (v : rvalue) (s : gostring) :
    result (rvalue * option error) :=
  let bits :=
    match k with
    | KInt => 0 | KInt8 => 8 | KInt16 => 16 | KInt32 => 32 | KInt64 => 64
    | _ => 0
    end%Z in
  match ParseInt s bits with
  | inr err => Ok (v, Some err)
  | inl i =>
      let* _ := mustBeAssignable (bytes "reflect.Value.SetInt") fl in
      match k with
      | KInt | KInt8 | KInt16 | KInt32 | KInt64 => Ok (RInt i, None)
      | _ => ValueError (bytes "reflect.Value.SetInt") k
      end
  end.

(** [func SetUint(v reflect.Value, s string) error]. *)
Definition SetUint (fl : flag) (k : Kind) (v : rvalue) (s : gostring) :
    result (rvalue * option error) :=
  let bits :=
    match k with
    | KUint => 0 | KUint8 => 8 | KUint16 => 16 | KUint32 => 32 | KUint64 => 64
    | _ => 0
    end%Z in
  match ParseUint s bits with
  | inr err => Ok (v, Some err)
  | inl u =>
      let* _ := mustBeAssignable (bytes "reflect.Value.SetUint") fl in
      match k with
      | KUint | KUint8 | KUint16 | KUint32 | KUint64 | KUintptr => Ok (RUint u, None)
      | _ => ValueError (bytes "reflect.Value.SetUint") k
      end
  end.

(** [func SetFloat(v reflect.Value, s string) error]. *)
Definition SetFloat (fl : flag) (k : Kind) (v : rvalue) (s : gostring) :
    result (rvalue * option error) :=
  let bits :=
    match k with
    | KFloat32 => 32 | KFloat64 => 64
    | _ => 0
    end%Z in
  match ParseFloat s bits with
  | inr err => Ok (v, Some err)
  | inl f =>
      let* _ := mustBeAssignable (bytes "reflect.Value.SetFloat") fl in
      match k with
      | KFloat32 | KFloat64 => Ok (RFloat f, None)
      | _ => ValueError (bytes "reflect.Value.SetFloat") k
      end
  end.

(** [func Set(v reflect.Value, s string) error]. *)
Fixpoint SetValue (fl : flag) (t : rtype) (v : rvalue) (s : gostring) {struct t} :
    result (rvalue * option error) :=
  match t with
  | TPtr elem =>
      let* p := deref fl elem v in
      let* '(p, err) := SetValue (flag_Elem fl) elem p s in
      Ok (RPtr (Some p), err)
  | _ =>
      match kind_of t with
      | KString =>
          let* _ := mustBeAssignable (bytes "reflect.Value.SetString") fl in
          Ok (RString s, None)
      | KBool =>
          match ParseBool s with
          | inr err => Ok (v, Some err)
          | inl b =>
              let* _ := mustBeAssignable (bytes "reflect.Value.SetBool") fl in
              Ok (RBool b, None)
          end
      | KInt | KInt8 | KInt16 | KInt32 | KInt64 => SetInt fl (kind_of t) v s
      | KUint | KUint8 | KUint16 | KUint32 | KUint64 => SetUint fl (kind_of t) v s
      | KFloat32 | KFloat64 => SetFloat fl (kind_of t) v s
      | _ =>
          let* _ := Addr_Interface fl in
          Ok (Unmarshal t s v)
      end
  end.

(** The loop [for i := 0; i < length; i++] of [SetArray] over the
    elements [vs] that are left: it stops at the first error. *)
Fixpoint set_elems (fl : flag) (elem : rtype) (vs : list rvalue) (array : list gostring) :
    result (list rvalue * option error) :=
  match vs, array with
  | v :: vs, s :: array =>
      let* '(v, err) := SetValue fl elem v s in
      match err with
      | Some err => Ok (v :: vs, Some err)
      | None =>
          let* '(vs, err) := set_elems fl elem vs array in
          Ok (v :: vs, err)
      end
  | _, _ => Ok (vs, None)
  end.

(** [func SetArray(v reflect.Value, array []string) error]. *)
Fixpoint SetArray (fl : flag) (t : rtype) (v : rvalue) (array : list gostring) {struct t} :
    result (rvalue * option error) :=
  match t with
  | TPtr elem =>
      let* p := deref fl elem v in
      let* '(p, err) := SetArray (flag_Elem fl) elem p array in
      Ok (RPtr (Some p), err)
  | TSlice elem =>
      let length := length array in
      let* _ := mustBeAssignable (bytes "reflect.Value.Set") fl in
      let* '(vs, err) :=
        set_elems (flag_Index KSlice fl) elem (replicate length (zero elem)) array in
      Ok (RSlice (Some vs), err)
  | TArray _ elem =>
      let vs := match v with RArray vs => vs | _ => [] end in
      let* '(vs, err) := set_elems (flag_Index KArray fl) elem vs array in
      Ok (RArray vs, err)
  | _ =>
      match array with
      | s :: _ => if decide (s ≠ []) then SetValue fl t v s else Ok (v, None)
      | [] => Ok (v, None)
      end
  end.

End setters.

(** ** Sample values, for the witnesses *)

(** A [json.Unmarshal] that fails on everything. *)
Definition sample_Unmarshal (t : rtype) (s : gostring) (v : Reflect.rvalue unit unit) :
    Reflect.rvalue unit unit * option error :=
  (v, Some (ErrJSON s)).

(** A [strconv.ParseFloat] that fails on everything. *)
Definition sample_ParseFloat (s : gostring) (bits : Z) : unit + error :=
  inr (ErrSyntax (bytes "ParseFloat") s).

(** The flag of a variable: addressable, not read-only. *)
Definition sample_flag : flag := flag_Elem flag_New.

(** The kinds of the signed and of the unsigned integers. *)
Definition int_kinds : list Kind := [KInt; KInt8; KInt16; KInt32; KInt64].
Definition uint_kinds : list Kind := [KUint; KUint8; KUint16; KUint32; KUint64].

Section setters_lemmas.
Context {float : Type} {opaque : Type}.
Variable ParseFloat : gostring -> Z -> float + error.
Variable Unmarshal : rtype -> gostring -> rvalue float opaque ->
                     rvalue float opaque * option error.
Variable zero_float : float.
Variable zero_opaque : rtype -> opaque.

(** [json.Unmarshal] leaves a value of the type it was given. *)
Hypothesis Unmarshal_has_type :
  forall t s v, has_type t v -> has_type t (Unmarshal t s v).1.

Implicit Types (t elem : rtype) (v p : rvalue float opaque) (s : gostring) (k : Kind).
Implicit Types (fl : flag) (array : list gostring) (vs : list (rvalue float opaque)).
Abbreviation SetValue' := (SetValue ParseFloat Unmarshal zero_float zero_opaque).
Abbreviation SetArray' := (SetArray ParseFloat Unmarshal zero_float zero_opaque).
Abbreviation set_elems' := (set_elems ParseFloat Unmarshal zero_float zero_opaque).
Abbreviation deref' := (deref zero_float zero_opaque).
Abbreviation zero' := (zero zero_float zero_opaque).

(** ** A value that can be set is set without a panic *)

Lemma SetValue_CanSet fl t v s : CanSet fl = true -> exists r, SetValue' fl t v s = Ok r.
Proof.
  revert fl v. induction t as [k|elem IH| | | | |k name]; intros fl v Hc; cbn [SetValue kind_of];
    unfold SetInt, SetUint, SetFloat;
    rewrite ?(mustBeAssignable_CanSet _ fl), ?(Addr_Interface_CanSet fl) by done;
    try (by eexists).
  - destruct k; rewrite ?(mustBeAssignable_CanSet _ fl), ?(Addr_Interface_CanSet fl) by done;
      repeat case_match; by eexists.
  - destruct (deref_CanSet zero_float zero_opaque fl elem v Hc) as [p ->]. simpl.
    destruct (IH (flag_Elem fl) p) as [[p' err] ->]; [by apply CanSet_Elem|]. by eexists.
  - destruct k; rewrite ?(mustBeAssignable_CanSet _ fl), ?(Addr_Interface_CanSet fl) by done;
      repeat case_match; by eexists.
Qed.

Lemma set_elems_CanSet fl elem vs array :
  CanSet fl = true -> exists r, set_elems' fl elem vs array = Ok r.
Proof.
  intros Hc. revert array. induction vs as [|v vs IH]; intros [|s array]; try by eexists.
  cbn [set_elems]. destruct (SetValue_CanSet fl elem v s Hc) as [[v' [err|]] ->]; simpl;
    [by eexists|]. destruct (IH array) as [[vs' err] ->]. by eexists.
Qed.

Lemma SetArray_CanSet fl t v array : CanSet fl = true -> exists r, SetArray' fl t v array = Ok r.
Proof.
  revert fl v. induction t as [k|elem IH|elem _|n elem _| | |k name]; intros fl v Hc;
    cbn [SetArray].
  1,5,6,7: destruct array as [|s array]; [by eexists|]; case_decide; [|by eexists];
    by apply SetValue_CanSet.
  - destruct (deref_CanSet zero_float zero_opaque fl elem v Hc) as [p ->]. simpl.
    destruct (IH (flag_Elem fl) p) as [[p' err] ->]; [by apply CanSet_Elem|]. by eexists.
  - rewrite mustBeAssignable_CanSet by done. simpl.
    edestruct set_elems_CanSet as [[vs err] ->]; [by apply CanSet_Index|]. by eexists.
  - edestruct set_elems_CanSet as [[vs err] ->]; [by apply CanSet_Index|]. by eexists.
Qed.

(** ** The setters keep the type *)

Lemma Unmarshal_typed t s v v' err :
  has_type t v -> Unmarshal t s v = (v', err) -> has_type t v'.
Proof. intros Hv Hu. apply (Unmarshal_has_type t s) in Hv. by rewrite Hu in Hv. Qed.

Lemma SetValue_typed fl t v s v' err :
  wf_type t = true -> has_type t v -> SetValue' fl t v s = Ok (v', err) -> has_type t v'.
Proof.
  revert fl v v' err.
  induction t as [k|elem IH| | | | |k name]; intros fl v v' err Hwf Hv; cbn [SetValue kind_of].
  - destruct k; try done; unfold SetInt, SetUint, SetFloat; repeat case_match;
      intros Hr; try apply result_bind_Ok in Hr as ([] & _ & Hr);
      first [by simplify_eq|injection Hr as Hu; by eapply Unmarshal_typed].
  - intros (p & Hp & ([p' e] & Hs & [= <- <-])%result_bind_Ok)%result_bind_Ok.
    eapply IH; [done| |done]. by eapply deref_typed.
  - intros ([] & _ & [= Hu])%result_bind_Ok. by eapply Unmarshal_typed.
  - intros ([] & _ & [= Hu])%result_bind_Ok. by eapply Unmarshal_typed.
  - intros ([] & _ & [= Hu])%result_bind_Ok. by eapply Unmarshal_typed.
  - intros ([] & _ & [= Hu])%result_bind_Ok. by eapply Unmarshal_typed.
  - destruct k; try done; intros ([] & _ & [= Hu])%result_bind_Ok; by eapply Unmarshal_typed.
Qed.

Lemma set_elems_typed fl elem vs array vs' err :
  wf_type elem = true -> Forall (has_type elem) vs ->
  set_elems' fl elem vs array = Ok (vs', err) ->
  length vs' = length vs /\ Forall (has_type elem) vs'.
Proof.
  intros Hwf Hvs. revert array vs' err.
  induction Hvs as [|v vs Hv Hvs IH]; intros array vs' err; [by intros [= <- <-]|].
  destruct array as [|s array]; cbn [set_elems]; [intros [= <- <-]; by split; [|constructor]|].
  intros ([v' [e|]] & Hs & Hr)%result_bind_Ok;
    pose proof (SetValue_typed _ _ _ _ _ _ Hwf Hv Hs) as Hv'.
  - injection Hr as <- <-. by split; [|constructor].
  - apply result_bind_Ok in Hr as ([vs'' e] & Hr & [= <- <-]).
    destruct (IH _ _ _ Hr) as [Hl Hf]. split; [simpl; by rewrite Hl|by constructor].
Qed.

Lemma SetArray_typed fl t v array v' err :
  wf_type t = true -> has_type t v -> SetArray' fl t v array = Ok (v', err) -> has_type t v'.
Proof.
  revert fl v v' err.
  induction t as [k|elem IH|elem _|n elem _|name fields|ins outs|k name];
    intros fl v v' err Hwf Hv; cbn [SetArray].
  1,5,6,7: destruct array as [|s array]; [by intros [= <- <-]|];
    case_decide; [by apply SetValue_typed|by intros [= <- <-]].
  - intros (p & Hp & ([p' e] & Hs & [= <- <-])%result_bind_Ok)%result_bind_Ok.
    eapply IH; [done| |done]. by eapply deref_typed.
  - intros ([] & _ & ([vs e] & Hs & [= <- <-])%result_bind_Ok)%result_bind_Ok.
    eapply set_elems_typed in Hs as [_ Hf]; [done|done|].
    by apply Forall_replicate, zero_has_type.
  - destruct v; try done. destruct Hv as [Hl Hf].
    intros ([vs' e] & Hs & [= <- <-])%result_bind_Ok.
    eapply set_elems_typed in Hs as [Hl' Hf']; [|done|done]. split; [congruence|done].
Qed.

(** ** The loop over the elements *)

(** [set_elems] sets the elements one after the other and stops at the
    first error: the elements after it are as they were. *)
Lemma set_elems_stops fl elem vs array vs' e :
  set_elems' fl elem vs array = Ok (vs', Some e) ->
  exists i v s v', vs !! i = Some v /\ array !! i = Some s /\
    SetValue' fl elem v s = Ok (v', Some e) /\
    vs' !! i = Some v' /\ drop (S i) vs' = drop (S i) vs.
Proof.
  revert array vs'. induction vs as [|v vs IH]; intros [|s array] vs'; try done.
  cbn [set_elems]. intros ([v' [e'|]] & Hs & Hr)%result_bind_Ok.
  - injection Hr as <- <-. by exists 0, v, s, v'.
  - apply result_bind_Ok in Hr as ([vs'' e''] & Hr & [= <- ->]).
    destruct (IH _ _ Hr) as (i & w & s' & w' & ? & ? & ? & ? & ?).
    by exists (S i), w, s', w'.
Qed.

(** ** The contract of the setters *)

(** [C25] On a value that can be set no setter panics, and [Set] and
    [SetArray] keep the type: they leave a value of the type they were
    given, whether they return an error or not. *)
Theorem Set_has_type fl t v s array :
  CanSet fl = true -> wf_type t = true -> has_type t v ->
  (exists v' err, SetValue' fl t v s = Ok (v', err) /\ has_type t v') /\
  (exists v' err, SetArray' fl t v array = Ok (v', err) /\ has_type t v').
Proof.
  intros Hc Hwf Hv. split.
  - destruct (SetValue_CanSet fl t v s Hc) as [[v' err] Hs].
    exists v', err. split; [done|]. by eapply SetValue_typed.
  - destruct (SetArray_CanSet fl t v array Hc) as [[v' err] Hs].
    exists v', err. split; [done|]. by eapply SetArray_typed.
Qed.

(** [C40] An integer that [Set] stores fits its kind: when [Set] returns
    no error on a value of a signed or unsigned integer kind, the integer
    stored lies in the range of that kind. *)
Theorem Set_int_range fl k v s v' :
  k ∈ int_kinds ++ uint_kinds ->
  SetValue' fl (TBasic k) v s = Ok (v', None) ->
  exists i, (v' = RInt i \/ v' = RUint i) /\ int_range k i.
Proof.
  intros Hk. cbn [SetValue kind_of]. unfold SetInt, SetUint.
  repeat (apply elem_of_cons in Hk as [->|Hk]); [..|by apply elem_of_nil in Hk].
  1-5: destruct (ParseInt s _) as [i|] eqn:Hi; [|done];
    intros ([] & _ & [= <-])%result_bind_Ok; exists i;
    (split; [by left|]); by apply ParseInt_range in Hi.
  all: destruct (ParseUint s _) as [u|] eqn:Hu; [|done];
    intros ([] & _ & [= <-])%result_bind_Ok; exists u;
    (split; [by right|]); by apply ParseUint_range in Hu.
Qed.

(** [Set] reads what [strconv.FormatInt] writes: on a value of a
    signed integer kind that can be set, the decimal form of an integer in
    the range of the kind is stored as that integer, with no error. *)
Theorem Set_FormatInt fl k v i :
  CanSet fl = true -> k ∈ int_kinds -> int_range k i ->
  SetValue' fl (TBasic k) v (FormatInt i) = Ok (RInt i, None).
Proof.
  intros Hc Hk Hi. cbn [SetValue kind_of]. unfold SetInt.
  repeat (apply elem_of_cons in Hk as [->|Hk]); [..|by apply elem_of_nil in Hk].
  all: rewrite ParseInt_FormatInt by done; by rewrite mustBeAssignable_CanSet.
Qed.

(** A setter that would write to a value that cannot be set
    panics, and only then: [Set] on a string panics exactly when [CanSet]
    is false; with a string that does not parse it returns the error of
    the parser and leaves the value, whatever the flag. *)
Theorem Set_not_settable fl v s :
  (is_ok (SetValue' fl (TBasic KString) v s) = CanSet fl) /\
  (forall k e, k ∈ int_kinds -> ParseInt s (match k with
                                            | KInt8 => 8 | KInt16 => 16 | KInt32 => 32
                                            | KInt64 => 64 | _ => 0 end) = inr e ->
     SetValue' fl (TBasic k) v s = Ok (v, Some e)).
Proof.
  split.
  - cbn [SetValue kind_of]. by destruct fl as [[] [] []].
  - intros k e Hk He. cbn [SetValue kind_of]. unfold SetInt.
    repeat (apply elem_of_cons in Hk as [->|Hk]); [..|by apply elem_of_nil in Hk].
    all: by rewrite He.
Qed.

(** [SetArray] on a slice makes a slice of the length of the array,
    never [nil], also when an element fails to parse. *)
Theorem SetArray_slice fl elem v array v' err :
  SetArray' fl (TSlice elem) v array = Ok (v', err) ->
  exists vs, v' = RSlice (Some vs) /\ length vs = length array.
Proof.
  cbn [SetArray]. intros ([] & _ & ([vs e] & Hs & [= <- <-])%result_bind_Ok)%result_bind_Ok.
  exists vs. split; [done|]. revert Hs. generalize (flag_Index KSlice fl).
  generalize (zero' elem). intros z fl'. revert vs e.
  induction array as [|s array IH]; intros vs e; simpl; [by intros [= <- <-]|].
  intros ([w [e'|]] & Hw & Hr)%result_bind_Ok.
  - injection Hr as <- <-. simpl. by rewrite length_replicate.
  - apply result_bind_Ok in Hr as ([vs' e''] & Hr & [= <- <-]). simpl. f_equal. by eapply IH.
Qed.

(** [SetArray] on a value that is neither a slice nor an array sets it
    from the first string, and leaves it when there is none or it is
    empty. *)
Lemma SetArray_scalar fl k v array :
  SetArray' fl (TBasic k) v array =
  match array with
  | s :: _ => if decide (s = []) then Ok (v, None) else SetValue' fl (TBasic k) v s
  | [] => Ok (v, None)
  end.
Proof. cbn [SetArray]. destruct array as [|s array]; [done|]. by repeat case_decide. Qed.

End setters_lemmas.

(** ** Witnesses *)

Lemma sample_Unmarshal_typed t s v : has_type t v -> has_type t (sample_Unmarshal t s v).1.
Proof. done. Qed.

Lemma Set_has_type_witness :
  (exists v' err, SetValue sample_ParseFloat sample_Unmarshal tt (fun _ => tt) sample_flag
                    (TPtr (TBasic KInt8)) (RPtr None) (bytes "-128") = Ok (v', err) /\
                  has_type (TPtr (TBasic KInt8)) v') /\
  (exists v' err, SetArray sample_ParseFloat sample_Unmarshal tt (fun _ => tt) sample_flag
                    (TPtr (TBasic KInt8)) (RPtr None) [bytes "7"] = Ok (v', err) /\
                  has_type (TPtr (TBasic KInt8)) v').
Proof.
  apply (Set_has_type sample_ParseFloat sample_Unmarshal tt (fun _ => tt)
           sample_Unmarshal_typed sample_flag (TPtr (TBasic KInt8)) (RPtr None));
    [reflexivity|reflexivity|exact I].
Defined.

Lemma Set_int_range_witness :
  exists i, (@RInt unit unit (-128) = RInt i \/ @RInt unit unit (-128) = RUint i) /\
            int_range KInt8 i.
Proof.
  apply (Set_int_range sample_ParseFloat sample_Unmarshal tt (fun _ => tt)
           sample_flag KInt8 (RInt 0) (bytes "-128"));
    [repeat constructor|reflexivity].
Defined.

Lemma Set_FormatInt_witness :
  SetValue sample_ParseFloat sample_Unmarshal tt (fun _ => tt) sample_flag
    (TBasic KInt16) (RInt 0) (FormatInt (-32768)) = Ok (RInt (-32768), None).
Proof.
  apply (Set_FormatInt sample_ParseFloat sample_Unmarshal tt (fun _ => tt)
           sample_flag KInt16 (RInt 0) (-32768));
    [reflexivity|repeat constructor|simpl; lia].
Defined.
