(* ===== verification/Traverse.v ===== *)
(** * Traverse: the traversals of [src/unnamed/part_002]

    [TraverseType] calls a function on every exported field of a struct
    type, and [Traverse] on every exported field of a struct value; both
    go into the embedded structs and the embedded pointers to structs
    instead of calling the function on them.  [Traverse] stops when the
    function returns [false], and makes the embedded pointers that are
    [nil] point to new structs.

    The callbacks of the source are closures that write to variables of
    their callers: here a callback takes and returns a state of type [S],
    and the callback of [Traverse], which may write to the field it is
    given, returns the value of the field as well.  The recursion follows
    the type: the loop over the fields is a function of its own
    ([type_fields], [visit_fields]) that takes the traversal of the
    embedded types as an argument.  [flat_fields] is the reference: the
    list of the fields a traversal reaches, in the order it reaches
    them. *)

From S2P Require Import Prelude Strconv Reflect.

(** [field.Name[0] >= 'A' && field.Name[0] <= 'Z']: the index panics on
    an empty name. *)
Definition upper_first (name : gostring) : result bool :=
  match name !! 0 with
  | Some c => Ok (bool_decide (65 <= nat_of_ascii c <= 90))
  | None => Panic PanicIndex
  end.

(** [if typ.Kind() == reflect.Ptr { typ = typ.Elem() }]. *)
Definition strip_ptr (t : rtype) : rtype :=
  match t with
  | TPtr elem => elem
  | _ => t
  end.

(** [typ.Kind() == reflect.Struct]. *)
Definition is_struct (t : rtype) : bool := bool_decide (kind_of t = KStruct).

(** [fieldTyp.Kind() == reflect.Struct] for an embedded field, after one
    pointer is taken off its type. *)
Definition embedded_struct (f : field) : bool :=
  Anonymous f && is_struct (strip_ptr (Type_ f)).

(** A function that may panic, folded over a list from the left. *)
Fixpoint result_fold {A S} (fn : A -> S -> result S) (l : list A) (st : S) : result S :=
  match l with
  | [] => Ok st
  | a :: l => let* st := fn a st in result_fold fn l st
  end.

(** The fields a traversal of the type reaches, in order: the exported
    fields, with the fields of an embedded struct, or of an embedded
    pointer to a struct, in the place of the embedded field. *)
Fixpoint flat_fields (typ : rtype) : list field :=
  match strip_ptr typ with
  | TStruct _ fields =>
      fields ≫= fun f =>
        if embedded_struct f then flat_fields (strip_ptr (Type_ f))
        else if IsExported (Name f) then [f] else []
  | _ => []
  end.

(** No embedded pointer to a struct has an unexported name, in the type
    and in the structs embedded in it: [Traverse] can set them all. *)
Fixpoint embedded_exported (typ : rtype) : bool :=
  match strip_ptr typ with
  | TStruct _ fields =>
      forallb (fun f =>
        if embedded_struct f then
          (is_struct (Type_ f) || IsExported (Name f)) &&
          embedded_exported (strip_ptr (Type_ f))
        else true) fields
  | _ => true
  end.

Section traverse_type.
Context {S : Type}.

(** The loop of [TraverseType] over the fields, given the traversal of
    the embedded types. *)
Fixpoint type_fields (rec : rtype -> S -> result S) (fn : field -> S -> result S)
    (fs : list field) (st : S) : result S :=
  match fs with
  | [] => Ok st
  | field :: fs =>
      let* st :=
        if embedded_struct field then rec (strip_ptr (Type_ field)) st
        else
          let* exported := upper_first (Name field) in
          if exported then fn field st else Ok st in
      type_fields rec fn fs st
  end.

(** [func TraverseType(typ reflect.Type, fn func(field
    reflect.StructField))]. *)
Fixpoint TraverseType (typ : rtype) (fn : field -> S -> result S) (st : S) {struct typ} :
    result S :=
  match strip_ptr typ with
  | TStruct _ fields => type_fields (fun t st => TraverseType t fn st) fn fields st
  | t => let* _ := NumField t in Ok st
  end.

End traverse_type.

Section traverse.
Context {float : Type} {opaque : Type} {S : Type}.
Variable zero_float : float.
Variable zero_opaque : rtype -> opaque.

Abbreviation rvalue := (rvalue float opaque).
Abbreviation zero := (zero zero_float zero_opaque).
Abbreviation deref := (deref zero_float zero_opaque).

(** [fn func(val reflect.Value, field reflect.StructField) bool], given
    the flag and the value of the field and the state: the value of the
    field and the state after the call, and what it returns. *)
Definition callback : Type := flag -> rvalue -> field -> S -> result (rvalue * S * bool).

(** The call of [fn] on a field, when its name is exported. *)
Definition call (fn : callback) (fl : flag) (f : field) (fieldVal : rvalue) (st : S) :
    result (rvalue * S * bool) :=
  let* exported := upper_first (Name f) in
  if exported then fn (flag_Field fl f) fieldVal f st else Ok (fieldVal, st, true).

(** The body of the loop of [Traverse] up to the test of the result:
    what it does with one field, given what [Traverse] does with the
    types of the embedded fields. *)
Definition visit (rec : flag -> rtype -> rvalue -> S -> result (rvalue * S * bool))
    (fn : callback) (fl : flag) (f : field) (fieldVal : rvalue) (st : S) :
    result (rvalue * S * bool) :=
  let ffl := flag_Field fl f in
  if Anonymous f then
    match Type_ f with
    | TPtr elem =>
        match elem with
        | TStruct _ _ =>
            let* target := deref ffl elem fieldVal in
            let* '(target, st, go) := rec (flag_Elem ffl) elem target st in
            Ok (RPtr (Some target), st, go)
        | _ => call fn fl f fieldVal st
        end
    | TStruct _ _ => rec ffl (Type_ f) fieldVal st
    | _ => call fn fl f fieldVal st
    end
  else call fn fl f fieldVal st.

(** The loop of [Traverse] over the fields and their values. *)
Fixpoint visit_fields (rec : flag -> rtype -> rvalue -> S -> result (rvalue * S * bool))
    (fn : callback) (fl : flag) (fs : list field) (vs : list rvalue) (st : S) :
    result (list rvalue * S * bool) :=
  match fs, vs with
  | [], _ => Ok (vs, st, true)
  | _ :: _, [] => Panic (PanicMsg (bytes "reflect: Field index out of range"))
  | f :: fs, fieldVal :: vs =>
      let* '(fieldVal, st, go) := visit rec fn fl f fieldVal st in
      if go then
        let* '(vs, st, go) := visit_fields rec fn fl fs vs st in
        Ok (fieldVal :: vs, st, go)
      else Ok (fieldVal :: vs, st, false)
  end.

(** The body of [Traverse], given what it does with the types below. *)
Definition traverse_body (rec : flag -> rtype -> rvalue -> S -> result (rvalue * S * bool))
    (fn : callback) (fl : flag) (typ : rtype) (val : rvalue) (st : S) :
    result (rvalue * S * bool) :=
  let fl' := match typ with TPtr _ => flag_Elem fl | _ => fl end in
  let oval := match typ with TPtr _ => Value_Elem val | _ => Some val end in
  match strip_ptr typ with
  | TStruct _ fields =>
      match fields, oval with
      | [], _ => Ok (val, st, true)
      | _, Some (RStruct vs) =>
          let* '(vs, st, go) := visit_fields rec fn fl' fields vs st in
          Ok (match typ with TPtr _ => RPtr (Some (RStruct vs)) | _ => RStruct vs end, st, go)
      | _, _ => ValueError (bytes "reflect.Value.Field") KInvalid
      end
  | t => let* _ := NumField t in Ok (val, st, true)
  end.

(** [func Traverse(val reflect.Value, fn func(val reflect.Value, field
    reflect.StructField) bool) bool]: the value and the state after the
    call, and what it returns. *)
Fixpoint Traverse (fl : flag) (typ : rtype) (val : rvalue) (fn : callback) (st : S)
    {struct typ} : result (rvalue * S * bool) :=
  traverse_body (fun fl t v st => Traverse fl t v fn st) fn fl typ val st.

End traverse.

Arguments callback : clear implicits.

(** The callback returns on the fields of [l] that can be set, in the
    states that [P] holds of, and leaves them values of their types, in
    such a state. *)
Definition total_on {float opaque S} (P : S -> Prop) (fn : callback float opaque S)
    (l : list field) : Prop :=
  forall fl v f st, CanSet fl = true -> f ∈ l -> has_type (Type_ f) v -> P st ->
    exists v' st' go, fn fl v f st = Ok (v', st', go) /\ has_type (Type_ f) v' /\ P st'.

(** A callback that checks the field with [g], leaves the value as it
    is and goes on. *)
Definition checking {float opaque S} (g : field -> S -> result S) : callback float opaque S :=
  fun _ v f st => let* st := g f st in Ok (v, st, true).

(** A traversal that ends as the check [r] does: with the state of
    [r], a value of which [Q] holds and [true], or with the panic of
    [r]. *)
Definition checked {X S} (Q : X -> Prop) (r : result S) (r' : result (X * S * bool)) : Prop :=
  match r with
  | Ok st => exists x, r' = Ok (x, st, true) /\ Q x
  | Panic v => r' = Panic v
  | OutOfFuel => r' = OutOfFuel
  end.

(** ** Sample types, for the witnesses *)

(** [type Inner struct { Id int64; name string }]. *)
Definition sample_Inner : rtype :=
  TStruct (bytes "Inner")
    [mkField (bytes "Id") (TBasic KInt64) [] false;
     mkField (bytes "name") (TBasic KString) [] false].

(** [type Outer struct { *Inner; Page int; hidden bool }]. *)
Definition sample_Outer : rtype :=
  TStruct (bytes "Outer")
    [mkField (bytes "Inner") (TPtr sample_Inner) [] true;
     mkField (bytes "Page") (TBasic KInt) [] false;
     mkField (bytes "hidden") (TBasic KBool) [] false].

(** [type inner struct { Id int64 }] and [type Bad struct { *inner }]:
    the embedded pointer has an unexported name. *)
Definition sample_inner : rtype :=
  TStruct (bytes "inner") [mkField (bytes "Id") (TBasic KInt64) [] false].
Definition sample_Bad : rtype :=
  TStruct (bytes "Bad") [mkField (bytes "inner") (TPtr sample_inner) [] true].

(** A callback that counts the fields and goes on. *)
Definition sample_count {float opaque} : callback float opaque nat :=
  fun _ v _ n => Ok (v, Datatypes.S n, true).

(** ** The traversal of a type *)

Section traverse_type_lemmas.
Context {S : Type}.
Implicit Types (t typ : rtype) (f : field) (fs : list field) (st : S).
Implicit Types (fn : field -> S -> result S).

Lemma upper_first_wf name : name ≠ [] -> upper_first name = Ok (IsExported name).
Proof. by destruct name. Qed.

Lemma result_fold_app {A} (g : A -> S -> result S) l1 l2 st :
  result_fold g (l1 ++ l2) st = let* st := result_fold g l1 st in result_fold g l2 st.
Proof.
  revert st. induction l1 as [|a l1 IH]; intros st; [done|]. simpl.
  destruct (g a st); simpl; [apply IH|done..].
Qed.

Lemma wf_strip_ptr t : wf_type t = true -> wf_type (strip_ptr t) = true.
Proof. by destruct t. Qed.

(** A well-formed type that is a struct once a pointer is taken off is
    a struct or a pointer to a struct. *)
Lemma struct_cases t :
  wf_type t = true -> is_struct (strip_ptr t) = true ->
  exists n fs, strip_ptr t = TStruct n fs /\ wf_type (TStruct n fs) = true /\
               (t = TStruct n fs \/ t = TPtr (TStruct n fs)).
Proof.
  intros Hwf Hs%bool_decide_eq_true.
  destruct (kind_struct_inv (strip_ptr t)) as (n & fs & Heq); [by apply wf_strip_ptr|done|].
  exists n, fs. split; [done|]. split; [rewrite <- Heq; by apply wf_strip_ptr|].
  destruct t; simpl in *; subst; try by left. by right.
Qed.

Lemma embedded_struct_inv f :
  wf_type (Type_ f) = true -> embedded_struct f = true ->
  Anonymous f = true /\
  exists n fs, strip_ptr (Type_ f) = TStruct n fs /\ wf_type (TStruct n fs) = true /\
               (Type_ f = TStruct n fs \/ Type_ f = TPtr (TStruct n fs)).
Proof. intros Hwf [Ha Hs]%andb_prop. split; [done|]. by apply struct_cases. Qed.

Lemma TraverseType_struct n fs fn st :
  TraverseType (TStruct n fs) fn st = type_fields (fun t st => TraverseType t fn st) fn fs st.
Proof. done. Qed.

Lemma flat_fields_cons n f fs :
  flat_fields (TStruct n (f :: fs)) =
  (if embedded_struct f then flat_fields (strip_ptr (Type_ f))
   else if IsExported (Name f) then [f] else []) ++ flat_fields (TStruct n fs).
Proof. done. Qed.

Lemma type_fields_flat fn name fields :
  wf_type (TStruct name fields) = true ->
  forall st, TraverseType (TStruct name fields) fn st =
             result_fold fn (flat_fields (TStruct name fields)) st.
Proof.
  revert name fields. apply (struct_ind (fun name fields => _ -> forall st, _ = _)).
  intros name fields IH Hwf%wf_type_struct. setoid_rewrite TraverseType_struct.
  induction fields as [|f fields IHf]; intros st; [done|].
  apply Forall_cons in IH as [IH1 IH]. apply Forall_cons in Hwf as [[Hn Hwf1] Hwf].
  rewrite flat_fields_cons, result_fold_app. cbn [type_fields].
  destruct (embedded_struct f) eqn:He.
  - destruct (embedded_struct_inv f) as (_ & n & fs & -> & Hwf' & Hor); [done..|].
    rewrite (IH1 n fs Hor Hwf').
    destruct (result_fold _ _ _); simpl; [by apply IHf|done..].
  - rewrite upper_first_wf by done. simpl. destruct (IsExported (Name f)); simpl;
      [destruct (fn f st); simpl|]; try done; by apply IHf.
Qed.

Lemma TraverseType_fold typ fn st :
  wf_type typ = true -> is_struct (strip_ptr typ) = true ->
  TraverseType typ fn st = result_fold fn (flat_fields typ) st.
Proof.
  intros Hwf Hs. destruct (struct_cases typ Hwf Hs) as (n & fs & _ & Hwf' & [-> | ->]);
    exact (type_fields_flat fn n fs Hwf' st).
Qed.

(** [C23] [TraverseType] calls the function on the fields of
    [flat_fields], in that order, and on nothing else: on a well-formed
    struct type, or pointer to one, it is the fold of the function over
    that list, the panics of the function included. *)
Theorem TraverseType_flat typ fn st :
  wf_type typ = true -> is_struct (strip_ptr typ) = true ->
  TraverseType typ fn st = result_fold fn (flat_fields typ) st.
Proof. apply TraverseType_fold. Qed.

(** The fields that a traversal reaches are exported and have
    well-formed types. *)
Lemma flat_fields_struct_wf name fields :
  wf_type (TStruct name fields) = true ->
  Forall (fun f => IsExported (Name f) = true /\ wf_type (Type_ f) = true)
         (flat_fields (TStruct name fields)).
Proof.
  revert name fields. apply (struct_ind (fun name fields => _ -> Forall _ _)).
  intros name fields IH Hwf%wf_type_struct.
  induction fields as [|f fields IHf]; [constructor|].
  apply Forall_cons in IH as [IH1 IH]. apply Forall_cons in Hwf as [[Hn Hwf1] Hwf].
  rewrite flat_fields_cons. apply Forall_app. split; [|by apply IHf].
  destruct (embedded_struct f) eqn:He.
  - destruct (embedded_struct_inv f) as (_ & n & fs & -> & Hwf' & Hor); [done..|].
    by apply (IH1 n fs).
  - destruct (IsExported (Name f)) eqn:Hex; by repeat constructor.
Qed.

Lemma flat_fields_not_struct typ : is_struct (strip_ptr typ) = false -> flat_fields typ = [].
Proof. destruct typ as [| [] | | | | |]; by try done. Qed.

Lemma flat_fields_wf typ f :
  wf_type typ = true -> f ∈ flat_fields typ ->
  IsExported (Name f) = true /\ wf_type (Type_ f) = true.
Proof.
  intros Hwf Hin. destruct (is_struct (strip_ptr typ)) eqn:Hs.
  - destruct (struct_cases typ Hwf Hs) as (n & fs & _ & Hwf' & [-> | ->]);
      by apply (proj1 (Forall_forall _ _) (flat_fields_struct_wf n fs Hwf')).
  - rewrite flat_fields_not_struct in Hin by done. by apply elem_of_nil in Hin.
Qed.

(** [TraverseType] panics on a type that is neither a struct nor a
    pointer to one, without calling the function. *)
Lemma TraverseType_not_struct typ fn st :
  is_struct (strip_ptr typ) = false ->
  TraverseType typ fn st = Panic (PanicMsg (bytes "reflect: NumField of non-struct type")).
Proof. destruct typ as [| [] | | | | |]; try done. Qed.

End traverse_type_lemmas.

(** ** The traversal of a value *)

Section traverse_lemmas.
Context {float : Type} {opaque : Type} {S : Type}.
Variable zero_float : float.
Variable zero_opaque : rtype -> opaque.

Implicit Types (t typ elem : rtype) (v val : rvalue float opaque) (fl : flag) (f : field).
Implicit Types (fs : list field) (vs : list (rvalue float opaque)) (st : S).
Implicit Types (fn : callback float opaque S).
Abbreviation Traverse' := (Traverse zero_float zero_opaque).
Abbreviation visit' fn := (visit zero_float zero_opaque (fun fl t v st => Traverse' fl t v fn st) fn).
Abbreviation visit_fields' fn :=
  (visit_fields zero_float zero_opaque (fun fl t v st => Traverse' fl t v fn st) fn).
Abbreviation typed := (fun f v => has_type (Type_ f) v).

(** *** [Traverse], step by step *)

Lemma Traverse_struct fl n fs vs fn st :
  Traverse' fl (TStruct n fs) (RStruct vs) fn st =
  let* '(vs, st, go) := visit_fields' fn fl fs vs st in Ok (RStruct vs, st, go).
Proof. by destruct fs. Qed.

Lemma Traverse_ptr fl n fs vs fn st :
  Traverse' fl (TPtr (TStruct n fs)) (RPtr (Some (RStruct vs))) fn st =
  let* '(vs, st, go) := visit_fields' fn (flag_Elem fl) fs vs st in
  Ok (RPtr (Some (RStruct vs)), st, go).
Proof. by destruct fs. Qed.

(** A [nil] pointer to a struct with fields makes [Traverse] panic. *)
Lemma Traverse_nil fl n f fs fn st :
  Traverse' fl (TPtr (TStruct n (f :: fs))) (RPtr None) fn st =
  ValueError (bytes "reflect.Value.Field") KInvalid.
Proof. done. Qed.

Lemma visit_call fn fl f v st :
  embedded_struct f = false -> visit' fn fl f v st = call fn fl f v st.
Proof.
  unfold visit, embedded_struct. destruct (Anonymous f); [|done]. simpl.
  by destruct (Type_ f) as [| [] | | | | |].
Qed.

Lemma visit_struct fn fl f n fs v st :
  Anonymous f = true -> Type_ f = TStruct n fs ->
  visit' fn fl f v st = Traverse' (flag_Field fl f) (TStruct n fs) v fn st.
Proof. unfold visit. by intros -> ->. Qed.

Lemma visit_ptr fn fl f n fs v st :
  Anonymous f = true -> Type_ f = TPtr (TStruct n fs) ->
  visit' fn fl f v st =
  let* target := deref zero_float zero_opaque (flag_Field fl f) (TStruct n fs) v in
  let* '(target, st, go) := Traverse' (flag_Elem (flag_Field fl f)) (TStruct n fs) target fn st in
  Ok (RPtr (Some target), st, go).
Proof. unfold visit. by intros -> ->. Qed.

(** The flag below an embedded pointer has the base when the flag above
    has. *)
Lemma flag_base_Elem_Field fl f :
  flag_base fl = true -> Anonymous f = true ->
  flag_base (flag_Elem (flag_Field fl f)) = true.
Proof.
  intros Hb Ha. rewrite flag_base_Elem. destruct fl as [[] [] []]; try done; simpl;
    by rewrite Ha, andb_false_r.
Qed.

(** *** [Traverse] returns, and keeps the types *)

Lemma total_on_app P fn l1 l2 :
  total_on P fn (l1 ++ l2) -> total_on P fn l1 /\ total_on P fn l2.
Proof.
  intros H. split; intros fl v f st Hc Hin; apply H; try done; apply elem_of_app; auto.
Qed.

Lemma call_total P fn fl f v st :
  total_on P fn (if IsExported (Name f) then [f] else []) ->
  flag_base fl = true -> Name f ≠ [] -> has_type (Type_ f) v -> P st ->
  exists v' st' go, call fn fl f v st = Ok (v', st', go) /\ has_type (Type_ f) v' /\ P st'.
Proof.
  intros Hfn Hb Hn Hv HP. unfold call. rewrite upper_first_wf by done. simpl.
  destruct (IsExported (Name f)) eqn:He; [|by eexists _, _, _].
  apply Hfn; [by apply CanSet_Field_base|constructor|done..].
Qed.

(** What [Traverse] does with an embedded struct, or with an embedded
    pointer to a struct, given that it returns on the struct. *)
Lemma visit_embedded_total (P : S -> Prop) fn fl f v st n fs :
  (forall fl vs st, flag_base fl = true -> Forall2 typed fs vs -> P st ->
     exists vs' st' go, visit_fields' fn fl fs vs st = Ok (vs', st', go) /\
                        Forall2 typed fs vs' /\ P st') ->
  flag_base fl = true -> Anonymous f = true -> wf_type (TStruct n fs) = true ->
  Type_ f = TStruct n fs \/ Type_ f = TPtr (TStruct n fs) ->
  is_struct (Type_ f) || IsExported (Name f) = true ->
  has_type (Type_ f) v -> P st ->
  exists v' st' go, visit' fn fl f v st = Ok (v', st', go) /\ has_type (Type_ f) v' /\ P st'.
Proof.
  intros Hrec Hb Ha Hwf' [Heq|Heq] Hex Hv HP; rewrite Heq in Hv, Hex |- *.
  - apply has_type_struct in Hv as (ws & -> & Hws).
    rewrite (visit_struct _ _ _ n fs), Traverse_struct by done.
    destruct (Hrec (flag_Field fl f) ws st) as (ws' & st' & go & -> & Hws' & HP');
      [by apply flag_base_Field|done..|].
    eexists _, _, _. split_and!; [done| |done]. apply has_type_struct. by eexists.
  - rewrite (visit_ptr _ _ _ n fs) by done.
    destruct (deref_CanSet zero_float zero_opaque (flag_Field fl f) (TStruct n fs) v)
      as [target Ht]; [by apply CanSet_Field_base|].
    rewrite Ht. cbn [result_bind]. apply deref_typed in Ht; [|done..].
    apply has_type_struct in Ht as (ws & -> & Hws). rewrite Traverse_struct.
    destruct (Hrec (flag_Elem (flag_Field fl f)) ws st) as (ws' & st' & go & -> & Hws' & HP');
      [by apply flag_base_Elem_Field|done..|].
    eexists _, _, _. split_and!; [done| |done].
    change (has_type (TStruct n fs) (RStruct ws')). apply has_type_struct. by eexists.
Qed.

Lemma visit_fields_total P fn name fields :
  wf_type (TStruct name fields) = true -> embedded_exported (TStruct name fields) = true ->
  total_on P fn (flat_fields (TStruct name fields)) ->
  forall fl vs st, flag_base fl = true -> Forall2 typed fields vs -> P st ->
  exists vs' st' go, visit_fields' fn fl fields vs st = Ok (vs', st', go) /\
                     Forall2 typed fields vs' /\ P st'.
Proof.
  revert name fields.
  apply (struct_ind (fun name fields => _ -> _ -> _ -> forall fl vs st, _ -> _ -> _ -> _)).
  intros name fields IH Hwf%wf_type_struct Hee Hfn fl vs st Hb Hvs.
  cbn [embedded_exported strip_ptr] in Hee.
  revert st. induction Hvs as [|f v fields vs Hv Hvs IHf]; intros st HP; [by eexists _, _, _|].
  apply Forall_cons in IH as [IH1 IH]. apply Forall_cons in Hwf as [[Hn Hwf1] Hwf].
  apply andb_prop in Hee as [Hee1 Hee].
  rewrite flat_fields_cons in Hfn. apply total_on_app in Hfn as [Hfn1 Hfn].
  assert (exists v' st' go, visit' fn fl f v st = Ok (v', st', go) /\ has_type (Type_ f) v' /\
                            P st') as (v' & st' & go & Hvisit & Hv' & HP').
  { destruct (embedded_struct f) eqn:He.
    2: { rewrite visit_call by done. by apply call_total. }
    destruct (embedded_struct_inv f) as (Ha & n & fs & Hs & Hwf' & Hor); [done..|].
    rewrite Hs in Hee1, Hfn1. apply andb_prop in Hee1 as [Hex Hee1].
    apply (visit_embedded_total P fn fl f v st n fs); try done.
    by apply (IH1 n fs Hor). }
  cbn [visit_fields]. rewrite Hvisit. simpl. destruct go.
  - destruct (IHf IH Hwf Hee Hfn st' HP') as (vs' & st'' & go & -> & Hvs' & HP''). simpl.
    eexists _, _, _. split_and!; [done| |done]. by constructor.
  - eexists _, _, _. split_and!; [done| |done]. by constructor.
Qed.

Lemma Traverse_returns P fn fl typ val st :
  total_on P fn (flat_fields typ) ->
  wf_type typ = true -> is_struct (strip_ptr typ) = true -> embedded_exported typ = true ->
  CanSet fl = true -> has_type typ val -> val ≠ RPtr None -> P st ->
  exists val' st' go, Traverse' fl typ val fn st = Ok (val', st', go) /\ has_type typ val' /\
                      P st'.
Proof.
  intros Hfn Hwf Hs Hee Hc Hv Hnil HP.
  destruct (struct_cases typ Hwf Hs) as (n & fs & _ & Hwf' & [-> | ->]).
  - apply has_type_struct in Hv as (vs & -> & Hvs). rewrite Traverse_struct.
    destruct (visit_fields_total P fn n fs Hwf' Hee Hfn fl vs st)
      as (vs' & st' & go & -> & Hvs' & HP'); [by apply flag_base_CanSet|done..|].
    eexists _, _, _. split_and!; [done| |done]. apply has_type_struct. by eexists.
  - destruct val as [| | | | |[p|]| | | | |]; try done.
    change (has_type (TStruct n fs) p) in Hv.
    apply has_type_struct in Hv as (vs & -> & Hvs). rewrite Traverse_ptr.
    destruct (visit_fields_total P fn n fs Hwf' Hee Hfn (flag_Elem fl) vs st)
      as (vs' & st' & go & -> & Hvs' & HP');
      [by apply flag_base_CanSet, CanSet_Elem|done..|].
    eexists _, _, _. split_and!; [done| |done].
    change (has_type (TStruct n fs) (RStruct vs')). apply has_type_struct. by eexists.
Qed.

(** [C22] [Traverse] returns and keeps the type: on a value of a
    well-formed struct type, or a pointer to one that is not [nil], that
    can be set and has no embedded pointer with an unexported name, with a
    callback that returns on the fields of [flat_fields] that can be set
    and leaves them their types, [Traverse] does not panic and leaves a
    value of the type; what the callback keeps true of its state is true
    at the end. *)
Theorem Traverse_total P fn fl typ val st :
  total_on P fn (flat_fields typ) ->
  wf_type typ = true -> is_struct (strip_ptr typ) = true -> embedded_exported typ = true ->
  CanSet fl = true -> has_type typ val -> val ≠ RPtr None -> P st ->
  exists val' st' go, Traverse' fl typ val fn st = Ok (val', st', go) /\ has_type typ val' /\
                      P st'.
Proof. apply Traverse_returns. Qed.

(** *** The callback is called on the fields of [flat_fields] only, and
    only on values that can be set *)

Lemma visit_fields_ext fn fn' name fields :
  wf_type (TStruct name fields) = true ->
  (forall fl v f st, CanSet fl = true -> f ∈ flat_fields (TStruct name fields) ->
     fn fl v f st = fn' fl v f st) ->
  forall fl vs st, flag_base fl = true ->
  visit_fields' fn fl fields vs st = visit_fields' fn' fl fields vs st.
Proof.
  revert name fields.
  apply (struct_ind (fun name fields => _ -> _ -> forall fl vs st, _ -> _ = _)).
  intros name fields IH Hwf%wf_type_struct Hfn fl vs st Hb.
  revert vs st. induction fields as [|f fields IHf]; intros [|v vs] st; try done.
  apply Forall_cons in IH as [IH1 IH]. apply Forall_cons in Hwf as [[Hn Hwf1] Hwf].
  rewrite flat_fields_cons in Hfn.
  assert (visit' fn fl f v st = visit' fn' fl f v st) as Hvisit.
  { destruct (embedded_struct f) eqn:He.
    - destruct (embedded_struct_inv f) as (Ha & n & fs & Hs & Hwf' & Hor); [done..|].
      rewrite Hs in Hfn.
      assert (forall fl vs st, flag_base fl = true ->
                visit_fields' fn fl fs vs st = visit_fields' fn' fl fs vs st) as Hrec.
      { apply (IH1 n fs Hor Hwf'). intros ???? Hc Hin. apply Hfn; [done|].
        apply elem_of_app. by left. }
      destruct Hor as [Heq|Heq].
      + rewrite !(visit_struct _ _ _ n fs) by done. destruct v; try done.
        by rewrite !Traverse_struct, Hrec by (by apply flag_base_Field).
      + rewrite !(visit_ptr _ _ _ n fs) by done.
        destruct (deref _ _ _ _ _) as [[]| |]; try done. cbn [result_bind].
        by rewrite !Traverse_struct, Hrec by (by apply flag_base_Elem_Field).
    - rewrite !visit_call by done. unfold call. rewrite upper_first_wf by done. simpl.
      destruct (IsExported (Name f)) eqn:Hex; [|done].
      apply Hfn; [by apply CanSet_Field_base|]. apply elem_of_app. left. constructor. }
  cbn [visit_fields]. rewrite Hvisit.
  destruct (visit' fn' fl f v st) as [[[v' st'] [|]]| |]; try done. simpl.
  rewrite IHf; [done..|]. intros ???? Hc Hin. apply Hfn; [done|]. apply elem_of_app. by right.
Qed.

(** [Traverse] calls the callback only on fields of [flat_fields],
    the fields that [TraverseType] reaches, and only on values that can
    be set: two callbacks that agree on those give the same result, on
    every value of a well-formed struct type, or pointer to one, that can
    be set. *)
Theorem Traverse_ext fn fn' fl typ val st :
  wf_type typ = true -> is_struct (strip_ptr typ) = true -> CanSet fl = true ->
  (forall fl v f st, CanSet fl = true -> f ∈ flat_fields typ -> fn fl v f st = fn' fl v f st) ->
  Traverse' fl typ val fn st = Traverse' fl typ val fn' st.
Proof.
  intros Hwf Hs Hc Hfn.
  destruct (struct_cases typ Hwf Hs) as (n & fs & _ & Hwf' & [-> | ->]).
  - destruct val; try by destruct fs.
    by rewrite !Traverse_struct, (visit_fields_ext fn fn' n fs) by (by try apply flag_base_CanSet).
  - destruct val as [| | | | |[[]|]| | | | |]; try by destruct fs.
    by rewrite !Traverse_ptr, (visit_fields_ext fn fn' n fs)
      by (by try apply flag_base_CanSet, CanSet_Elem).
Qed.

(** *** [Traverse] with a callback that checks is [TraverseType] *)

Lemma checked_map {X Y} (Q : X -> Prop) (Q' : Y -> Prop) (h : X -> Y) (r : result S) r' :
  checked Q r r' -> (forall x, Q x -> Q' (h x)) ->
  checked Q' r (let* '(x, st, go) := r' in Ok (h x, st, go)).
Proof.
  unfold checked. destruct r as [st| |]; [|by intros ->..].
  intros (x & -> & Hx) HQ. exists (h x). split; [done|by apply HQ].
Qed.

Lemma call_checking (g : field -> S -> result S) fl f v st :
  Name f ≠ [] -> has_type (Type_ f) v ->
  checked (has_type (Type_ f)) (result_fold g (if IsExported (Name f) then [f] else []) st)
    (call (checking g) fl f v st).
Proof.
  intros Hn Hv. unfold call, checking. rewrite upper_first_wf by done. simpl.
  destruct (IsExported (Name f)); simpl; [|by exists v].
  destruct (g f st); simpl; [by exists v|done..].
Qed.

(** An embedded struct, or an embedded pointer to a struct, given what
    the traversal does with the fields of the struct. *)
Lemma visit_embedded_checking (g : field -> S -> result S) fl f v st n fs :
  (forall fl vs st, flag_base fl = true -> Forall2 typed fs vs ->
     checked (Forall2 typed fs) (result_fold g (flat_fields (TStruct n fs)) st)
       (visit_fields' (checking g) fl fs vs st)) ->
  flag_base fl = true -> Anonymous f = true -> wf_type (TStruct n fs) = true ->
  Type_ f = TStruct n fs \/ Type_ f = TPtr (TStruct n fs) ->
  is_struct (Type_ f) || IsExported (Name f) = true -> has_type (Type_ f) v ->
  checked (has_type (Type_ f)) (result_fold g (flat_fields (TStruct n fs)) st)
    (visit' (checking g) fl f v st).
Proof.
  intros Hrec Hb Ha Hwf' [Heq|Heq] Hex Hv; rewrite Heq in Hv, Hex |- *.
  - apply has_type_struct in Hv as (ws & -> & Hws).
    rewrite (visit_struct _ _ _ n fs), Traverse_struct by done.
    apply (checked_map (Forall2 typed fs)); [apply Hrec; [by apply flag_base_Field|done]|].
    intros ws' Hws'. apply has_type_struct. by eexists.
  - rewrite (visit_ptr _ _ _ n fs) by done.
    destruct (deref_CanSet zero_float zero_opaque (flag_Field fl f) (TStruct n fs) v)
      as [target Ht]; [by apply CanSet_Field_base|].
    rewrite Ht. cbn [result_bind]. apply deref_typed in Ht; [|done..].
    apply has_type_struct in Ht as (ws & -> & Hws). rewrite Traverse_struct.
    specialize (Hrec (flag_Elem (flag_Field fl f)) ws st (flag_base_Elem_Field _ _ Hb Ha) Hws).
    unfold checked in *. destruct (result_fold g _ st) as [st'| |]; [|by rewrite Hrec..].
    destruct Hrec as (ws' & -> & Hws'). eexists. split; [done|].
    change (has_type (TStruct n fs) (RStruct ws')). apply has_type_struct. by eexists.
Qed.

Lemma visit_fields_checking (g : field -> S -> result S) name fields :
  wf_type (TStruct name fields) = true -> embedded_exported (TStruct name fields) = true ->
  forall fl vs st, flag_base fl = true -> Forall2 typed fields vs ->
  checked (Forall2 typed fields) (result_fold g (flat_fields (TStruct name fields)) st)
    (visit_fields' (checking g) fl fields vs st).
Proof.
  revert name fields.
  apply (struct_ind (fun name fields => _ -> _ -> forall fl vs st, _ -> _ -> _)).
  intros name fields IH Hwf%wf_type_struct Hee fl vs st Hb Hvs.
  cbn [embedded_exported strip_ptr] in Hee.
  revert st. induction Hvs as [|f v fields vs Hv Hvs IHf]; intros st; [by exists []|].
  apply Forall_cons in IH as [IH1 IH]. apply Forall_cons in Hwf as [[Hn Hwf1] Hwf].
  apply andb_prop in Hee as [Hee1 Hee]. rewrite flat_fields_cons, result_fold_app.
  assert (checked (has_type (Type_ f))
            (result_fold g (if embedded_struct f then flat_fields (strip_ptr (Type_ f))
                            else if IsExported (Name f) then [f] else []) st)
            (visit' (checking g) fl f v st)) as Hvisit.
  { destruct (embedded_struct f) eqn:He.
    2: { rewrite visit_call by done. by apply call_checking. }
    destruct (embedded_struct_inv f) as (Ha & n & fs & Hs & Hwf' & Hor); [done..|].
    rewrite Hs in Hee1 |- *. apply andb_prop in Hee1 as [Hex Hee1].
    apply (visit_embedded_checking g fl f v st n fs); try done. by apply (IH1 n fs Hor). }
  cbn [visit_fields]. unfold checked in Hvisit.
  destruct (result_fold g _ st) as [st1| |]; cbn [result_bind]; [|by rewrite Hvisit..].
  destruct Hvisit as (v' & -> & Hv'). cbn [result_bind].
  specialize (IHf IH Hwf Hee st1). unfold checked in IHf |- *.
  destruct (result_fold g _ st1) as [st2| |]; [|by rewrite IHf..].
  destruct IHf as (vs' & -> & Hvs'). exists (v' :: vs'). split; [done|by constructor].
Qed.

(** On a struct that can be set, the checks of [Traverse] are the fold
    of the check over the fields of the type. *)
Lemma Traverse_struct_checking (g : field -> S -> result S) fl n fs val st :
  wf_type (TStruct n fs) = true -> embedded_exported (TStruct n fs) = true ->
  flag_base fl = true -> has_type (TStruct n fs) val ->
  checked (has_type (TStruct n fs)) (result_fold g (flat_fields (TStruct n fs)) st)
    (Traverse' fl (TStruct n fs) val (checking g) st).
Proof.
  intros Hwf Hee Hb (vs & -> & Hvs)%has_type_struct. rewrite Traverse_struct.
  apply (checked_map (Forall2 typed fs)); [by apply (visit_fields_checking g n fs)|].
  intros vs' Hvs'. apply has_type_struct. by eexists.
Qed.

(** [C24] The two traversals agree.  [Traverse] with a callback that checks
    the fields ends as [TraverseType] with the check does: on a value
    that can be set of a well-formed struct type, or of a pointer to
    one that is not [nil], without an embedded pointer of an unexported
    name, it calls the check on the same fields in the same order, with
    the same state or the same panic at the end, and leaves a value of
    the type. *)
Theorem Traverse_checking (g : field -> S -> result S) fl typ val st :
  wf_type typ = true -> is_struct (strip_ptr typ) = true -> embedded_exported typ = true ->
  CanSet fl = true -> has_type typ val -> val ≠ RPtr None ->
  checked (has_type typ) (TraverseType typ g st) (Traverse' fl typ val (checking g) st).
Proof.
  intros Hwf Hs Hee Hc Hv Hnil. rewrite TraverseType_fold by done.
  destruct (struct_cases typ Hwf Hs) as (n & fs & _ & Hwf' & [-> | ->]).
  - by apply Traverse_struct_checking; [..|apply flag_base_CanSet|].
  - destruct val as [| | | | |[p|]| | | | |]; try done.
    change (has_type (TStruct n fs) p) in Hv.
    apply has_type_struct in Hv as (vs & -> & Hvs). rewrite Traverse_ptr.
    apply (checked_map (Forall2 typed fs) _ (fun vs => RPtr (Some (RStruct vs))));
      [by apply (visit_fields_checking g n fs); [..|apply flag_base_CanSet, CanSet_Elem|]|].
    intros vs' Hvs'. change (has_type (TStruct n fs) (RStruct vs')).
    apply has_type_struct. by eexists.
Qed.

(** *** [Traverse] stops *)

Lemma Traverse_first_false fn fl n f fs v vs st v' st' :
  Anonymous f = false -> IsExported (Name f) = true ->
  fn (flag_Field fl f) v f st = Ok (v', st', false) ->
  Traverse' fl (TStruct n (f :: fs)) (RStruct (v :: vs)) fn st =
  Ok (RStruct (v' :: vs), st', false).
Proof.
  intros Ha He Hfn. rewrite Traverse_struct. cbn [visit_fields].
  rewrite visit_call by (unfold embedded_struct; by rewrite Ha).
  unfold call, upper_first. destruct (Name f) as [|c name]; [done|]. simpl in *.
  by rewrite He, Hfn.
Qed.

(** [Traverse] stops at the first field on which the callback
    returns [false]: on a struct whose first field is exported and not
    embedded, with a callback that returns [false] on it, the callback is
    called on that field only, the other fields are as they were, and
    [Traverse] returns [false]. *)
Theorem Traverse_stops fn fl n f fs v vs st v' st' :
  Anonymous f = false -> IsExported (Name f) = true ->
  fn (flag_Field fl f) v f st = Ok (v', st', false) ->
  Traverse' fl (TStruct n (f :: fs)) (RStruct (v :: vs)) fn st =
  Ok (RStruct (v' :: vs), st', false).
Proof. apply Traverse_first_false. Qed.

(** *** An embedded pointer with an unexported name *)

(** [C35] [Traverse] panics on a [nil] embedded pointer to a struct whose
    name is not exported, since it cannot set it, whatever the callback
    and however the struct was reached; [TraverseType] goes through the
    same field into the struct. *)
Theorem Traverse_unexported_pointer fn fl n f fs m gs vs st :
  Anonymous f = true -> Type_ f = TPtr (TStruct m gs) -> IsExported (Name f) = false ->
  Traverse' fl (TStruct n (f :: fs)) (RStruct (RPtr None :: vs)) fn st =
    Panic (PanicMsg (bytes "reflect: reflect.Value.Set using value obtained using unexported field")) /\
  flat_fields (TStruct n (f :: fs)) = flat_fields (TStruct m gs) ++ flat_fields (TStruct n fs).
Proof.
  intros Ha Ht He. split.
  - rewrite Traverse_struct. cbn [visit_fields]. rewrite (visit_ptr _ _ _ m gs) by done.
    unfold deref, mustBeAssignable, flagRO. simpl. by rewrite Ha, He, orb_true_r.
  - rewrite flat_fields_cons. unfold embedded_struct. by rewrite Ha, Ht.
Qed.

End traverse_lemmas.

(** ** Witnesses *)

Lemma sample_count_total l : total_on (fun _ => True) (@sample_count unit unit) l.
Proof. intros fl v f st _ _ Hv _. by eexists _, _, _. Qed.

Lemma TraverseType_flat_witness :
  TraverseType sample_Outer (fun f n => Ok (length (Name f) + n)) 0 =
  result_fold (fun f n => Ok (length (Name f) + n)) (flat_fields sample_Outer) 0.
Proof. apply (TraverseType_flat sample_Outer); reflexivity. Defined.

Lemma Traverse_total_witness :
  exists val' st' go,
    Traverse tt (fun _ => tt) (flag_Elem flag_New) sample_Outer
      (zero tt (fun _ => tt) sample_Outer) sample_count 0 = Ok (val', st', go) /\
    has_type sample_Outer val' /\ True.
Proof.
  apply (Traverse_total tt (fun _ => tt) (fun _ => True) sample_count (flag_Elem flag_New)
           sample_Outer (zero tt (fun _ => tt) sample_Outer) 0 (sample_count_total _));
    try reflexivity; [by apply zero_has_type|done].
Defined.

Lemma Traverse_checking_witness :
  checked (has_type sample_Outer)
    (TraverseType sample_Outer (fun f n => Ok (length (Name f) + n)) 0)
    (Traverse tt (fun _ => tt) (flag_Elem flag_New) sample_Outer
       (zero tt (fun _ => tt) sample_Outer) (checking (fun f n => Ok (length (Name f) + n))) 0).
Proof.
  apply (Traverse_checking tt (fun _ => tt) (fun f n => Ok (length (Name f) + n))
           (flag_Elem flag_New) sample_Outer (zero tt (fun _ => tt) sample_Outer) 0);
    try reflexivity; [by apply zero_has_type|done].
Defined.

Lemma Traverse_ext_witness :
  Traverse tt (fun _ => tt) (flag_Elem flag_New) sample_Outer
    (zero tt (fun _ => tt) sample_Outer) sample_count 0 =
  Traverse tt (fun _ => tt) (flag_Elem flag_New) sample_Outer
    (zero tt (fun _ => tt) sample_Outer)
    (fun fl v f n => if CanSet fl then sample_count fl v f n else Panic PanicIndex) 0.
Proof.
  apply (Traverse_ext tt (fun _ => tt)); try reflexivity.
  intros fl v f st Hc _. by rewrite Hc.
Defined.

Lemma Traverse_stops_witness :
  Traverse tt (fun _ => tt) (flag_Elem flag_New) sample_Inner
    (RStruct [RInt 0; RString []]) (fun _ v _ n => Ok (v, Datatypes.S n, false)) 0 =
  Ok (RStruct [RInt 0; RString []], 1, false).
Proof. by apply (Traverse_stops tt (fun _ => tt)). Defined.

Lemma Traverse_unexported_pointer_witness :
  Traverse tt (fun _ => tt) (flag_Elem flag_New) sample_Bad (RStruct [RPtr None])
    (@sample_count unit unit) 0 =
    Panic (PanicMsg (bytes "reflect: reflect.Value.Set using value obtained using unexported field")) /\
  flat_fields sample_Bad = flat_fields sample_inner ++ flat_fields (TStruct (bytes "Bad") []).
Proof. by apply (Traverse_unexported_pointer tt (fun _ => tt)). Defined.
