(* ===== verification/Binding.v ===== *)
(** * Binding: the request side of [src/convert.go]

    A handler of the user is a function of a request struct and a
    response struct.  When the route is registered, [newReqConvertFunc]
    checks the type of the request struct ([validateReqFields]: only the
    fields [Query], [Header], [Body] and [Ctx]); for every request, the
    function it returns ([reqConvertFunc] here, with the record
    [reqConvert] for the variables it has captured) makes a new struct and
    fills it: [Query] from the parameters of the URL, [Header] from the
    headers, [Body] from the JSON body, [Ctx] with the context.

    - A map of Go with string keys and [[]string] values ([url.Values],
      [http.Header]) is a list of pairs without two equal keys
      ([values_map]); the order of the list is the order in which a
      [range] loop of this run meets the keys.
    - [strings.ToLower] is the one of ASCII.
    - The context is a type [C] of the section, with what the package
      reads of it: the parameters and the headers of the request,
      [RequestBody], and the value [reflect.ValueOf(ctx)].
    - [reflect.StructTag.Get], [struct_tag.Lookup], [json.Unmarshal] and
      [strconv.ParseFloat] are parameters; [reference_Tag_Get] is an
      instance of the first, for tags without escapes. *)

From S2P Require Import Prelude Strconv Reflect Setters Traverse.

(** ** Maps of strings *)

(** [map[string][]string]. *)
Definition values_map : Type := list (gostring * list gostring).

(** [values, ok := m[key]]. *)
Definition map_get (m : values_map) (key : gostring) : option (list gostring) :=
  (fun kv => kv.2.2) <$> list_find (fun kv => kv.1 = key) m.

(** The lower-case letter of an upper-case letter of ASCII. *)
Definition lower (c : ascii) : ascii :=
  let n := nat_of_ascii c in
  if bool_decide (65 <= n <= 90) then ascii_of_nat (n + 32) else c.

(** [strings.ToLower], on ASCII. *)
Definition ToLower (s : gostring) : gostring := lower <$> s.

(** ** The fields of a request struct *)

(** [type todoReqFields struct]. *)
Record todoReqFields : Type := mkTodo {
  todo_Param : bool;
  todo_Query : bool;
  todo_Header : bool;
  todo_Body : bool;
  todo_Ctx : bool
}.

(** The zero value of [todoReqFields]. *)
Definition todo_zero : todoReqFields := mkTodo false false false false false.

(** [func isEmptyStruct(typ reflect.Type) bool]. *)
Definition isEmptyStruct (typ : rtype) : bool :=
  let typ := strip_ptr typ in
  is_struct typ && match NumField typ with Ok 0 => true | _ => false end.

(** [func isStructOrStructPtr(typ reflect.Type) bool]. *)
Definition isStructOrStructPtr (typ : rtype) : bool :=
  let typ := strip_ptr typ in
  is_struct typ.

(** [func ValidateHeader(typ reflect.Type)]. *)
Definition ValidateHeader (typ : rtype) : result unit :=
  if negb (isStructOrStructPtr typ) then
    Panic (PanicMsg (bytes "req.Header must be struct or pointer to struct."))
  else Ok tt.

(** [func ValidateQuery(typ reflect.Type)]. *)
Definition ValidateQuery (typ : rtype) : result unit :=
  if negb (isStructOrStructPtr typ) then
    Panic (PanicMsg (bytes "req.Query must be struct or pointer to struct."))
  else Ok tt.

(** ** The names of the parameters *)

Section names.

(** [reflect.StructTag.Get]. *)
Variable Tag_Get : gostring -> gostring -> gostring.

(** [func queryParamName(field reflect.StructField) (string, string)]. *)
Definition queryParamName (f : field) : gostring * gostring :=
  let tag := Tag_Get (Tag f) (bytes "json") in
  if decide (tag = bytes "-") then ([], [])
  else
    let name :=
      if decide (tag ≠ []) then
        match indexByte ","%char tag with
        | Some idx => if decide (0 < idx) then take idx tag else Name f
        | None => tag
        end
      else Name f in
    let kind := kind_of (Type_ f) in
    if decide (kind = KSlice \/ kind = KArray) then (name, name ++ bytes "[]")
    else (name, []).

End names.

(** [func queryParamValues(map2strs map[string][]string, paramName,
    arrayParamName string) []string]. *)
Definition queryParamValues (map2strs : values_map) (paramName arrayParamName : gostring) :
    list gostring :=
  match map_get map2strs paramName with
  | Some values => values
  | None =>
      match (if decide (arrayParamName ≠ []) then map_get map2strs arrayParamName
             else None) with
      | Some values => values
      | None =>
          let paramName := ToLower paramName in
          let arrayParamName := ToLower arrayParamName in
          match list_find (fun kv =>
                  let key := ToLower kv.1 in
                  key = paramName \/ (arrayParamName ≠ [] /\ key = arrayParamName))
                  map2strs with
          | Some (_, (_, values)) => values
          | None => []
          end
      end
  end.

(** ** A reference [StructTag.Get] *)

(** The string up to the next quote, and what follows the quote; [None]
    when there is no quote, or an escape before it. *)
Fixpoint quoted (s : gostring) : option (gostring * gostring) :=
  match s with
  | [] => None
  | c :: s =>
      if decide (c = "034"%char) then Some ([], s)
      else if decide (c = "\"%char) then None
      else '(v, rest) ← quoted s; Some (c :: v, rest)
  end.

(** The tag without the spaces it begins with. *)
Fixpoint skip_spaces (s : gostring) : gostring :=
  match s with
  | c :: s' => if decide (c = " "%char) then skip_spaces s' else s
  | [] => []
  end.

(** The name of a pair: the bytes up to the colon, which are neither
    spaces nor quotes nor control characters. *)
Fixpoint tag_name (s : gostring) : gostring :=
  match s with
  | [] => []
  | c :: s =>
      if bool_decide (32 < nat_of_ascii c ∧ c ≠ ":"%char ∧ c ≠ "034"%char ∧
                      nat_of_ascii c ≠ 127)
      then c :: tag_name s else []
  end.

(** [StructTag.Lookup]: the loop over the pairs [name:"value"] of the
    tag; [fuel] bounds the number of pairs. *)
Fixpoint tag_lookup (fuel : nat) (tag key : gostring) : option gostring :=
  match fuel with
  | 0 => None
  | Datatypes.S fuel =>
      let tag := skip_spaces tag in
      let name := tag_name tag in
      match drop (length name) tag with
      | ":"%char :: "034"%char :: rest =>
          if decide (name = []) then None
          else
            '(value, rest) ← quoted rest;
            if decide (key = name) then Some value else tag_lookup fuel rest key
      | _ => None
      end
  end.

(** [StructTag.Get] for tags without escapes: a tag has fewer pairs than
    bytes. *)
Definition reference_Tag_Get (tag key : gostring) : gostring :=
  default [] (tag_lookup (length tag) tag key).

Section binding.
Context {float : Type} {opaque : Type} {C : Type}.

Variable ParseFloat : gostring -> Z -> float + error.
Variable Unmarshal : rtype -> gostring -> rvalue float opaque ->
                     rvalue float opaque * option error.
Variable zero_float : float.
Variable zero_opaque : rtype -> opaque.
Variable Tag_Get : gostring -> gostring -> gostring.

(** [struct_tag.Lookup] of [github.com/lovego/struct_tag]. *)
Variable struct_tag_Lookup : gostring -> gostring -> gostring * bool.

(** [f.Type != typeContextPtr], where [typeContextPtr] is the type
    [*Context]. *)
Variable is_ContextPtr : rtype -> bool.

(** [ctx.Request.URL.Query()] and [ctx.Request.Header]: they panic on a
    context without a request. *)
Variable URL_Query : C -> result values_map.
Variable Request_Header : C -> result values_map.

(** [ctx.RequestBody()]: the context after the call, the body and the
    error. *)
Variable RequestBody : C -> result (C * (slice ascii * option error)).

(** What [reflect.ValueOf(ctx)] holds. *)
Variable ValueOf_ctx : C -> rvalue float opaque.

Abbreviation rvalue := (rvalue float opaque).
Abbreviation zero := (zero zero_float zero_opaque).
Abbreviation SetValue := (SetValue ParseFloat Unmarshal zero_float zero_opaque).
Abbreviation SetArray := (SetArray ParseFloat Unmarshal zero_float zero_opaque).
Abbreviation Traverse := (Traverse zero_float zero_opaque).

(** ** Validation, when the route is registered *)

(** The callback of [validateReqFields]. *)
Definition validate_req_field (f : field) (todo : todoReqFields) : result todoReqFields :=
  let '(mkTodo param query header body ctx) := todo in
  if decide (Name f = bytes "Query") then
    if negb (isEmptyStruct (Type_ f)) then
      let* _ := ValidateQuery (Type_ f) in
      Ok (mkTodo param true header body ctx)
    else Ok todo
  else if decide (Name f = bytes "Header") then
    if negb (isEmptyStruct (Type_ f)) then
      let* _ := ValidateHeader (Type_ f) in
      Ok (mkTodo param query true body ctx)
    else Ok todo
  else if decide (Name f = bytes "Ctx") then
    if negb (is_ContextPtr (Type_ f)) then
      Panic (PanicMsg (bytes "Ctx field of req parameter must be of type '*goa.Context'."))
    else Ok (mkTodo param query header body true)
  else if decide (Name f = bytes "Body") then
    if negb (isEmptyStruct (Type_ f)) then Ok (mkTodo param query header true ctx)
    else Ok todo
  else Panic (PanicMsg (bytes "Unknown field: req." ++ Name f)).

(** [func validateReqFields(typ reflect.Type, path string) (todo
    todoReqFields)]. *)
Definition validateReqFields (typ : rtype) (path : gostring) : result todoReqFields :=
  if negb (is_struct typ) then
    Panic (PanicMsg (bytes "req parameter of handler func must be a struct or struct pointer."))
  else TraverseType typ validate_req_field todo_zero.

(** ** Conversion, for every request *)

(** [func convertNilPtr(v reflect.Value)]. *)
Definition convertNilPtr (fl : flag) (t : rtype) (v : rvalue) : rvalue :=
  if bool_decide (kind_of t = KPtr) && IsNil v && CanSet fl
  then RPtr (Some (zero (strip_ptr t)))
  else v.

(** The error of [fmt.Errorf(prefix + "%s", err.Error())], when there is
    an error. *)
Definition wrap_error (prefix : gostring) (err : option error) : option error :=
  Errorf prefix <$> err.

(** The callback of [Query]; its state is the error. *)
Definition query_field (map2strs : values_map) : callback float opaque (option error) :=
  fun fl v f err =>
    let '(paramName, arrayParamName) := queryParamName Tag_Get f in
    if decide (paramName = []) then Ok (v, err, true)
    else
      let values := queryParamValues map2strs paramName arrayParamName in
      if decide (0 < length values) then
        let* '(v, err) := SetArray fl (Type_ f) v values in
        let err := wrap_error (bytes "req.Query." ++ Name f ++ bytes ": ") err in
        Ok (v, err, bool_decide (err = None))
      else Ok (v, err, true).

(** [func Query(value reflect.Value, map2strs map[string][]string) (err
    error)]. *)
Definition Query (fl : flag) (t : rtype) (value : rvalue) (map2strs : values_map) :
    result (rvalue * option error) :=
  if decide (length map2strs = 0) then Ok (value, None)
  else
    let* '(value, err, _) := Traverse fl t value (query_field map2strs) None in
    Ok (value, err).

(** The callback of [Header]; its state is the error. *)
Definition header_field (map2strs : values_map) : callback float opaque (option error) :=
  fun fl v f err =>
    let key := (struct_tag_Lookup (Tag f) (bytes "header")).1 in
    let key := if decide (key = []) then Name f else key in
    let values := default [] (map_get map2strs key) in
    match values with
    | s :: _ =>
        if decide (s ≠ []) then
          let* '(v, err) := SetValue fl (Type_ f) v s in
          let err := wrap_error (bytes "req.Header." ++ Name f ++ bytes ": ") err in
          Ok (v, err, bool_decide (err = None))
        else Ok (v, err, bool_decide (err = None))
    | [] => Ok (v, err, bool_decide (err = None))
    end.

(** [func Header(value reflect.Value, map2strs map[string][]string) (err
    error)]. *)
Definition Header (fl : flag) (t : rtype) (value : rvalue) (map2strs : values_map) :
    result (rvalue * option error) :=
  let* '(value, err, _) := Traverse fl t value (header_field map2strs) None in
  Ok (value, err).

(** [func convertReqBody(value reflect.Value, ctx *Context) error]. *)
Definition convertReqBody (fl : flag) (t : rtype) (value : rvalue) (ctx : C) :
    result (rvalue * C * option error) :=
  let* '(ctx, (body, err)) := RequestBody ctx in
  match err with
  | Some err => Ok (value, ctx, Some err)
  | None =>
      if decide (slice_len body = 0) then Ok (value, ctx, None)
      else
        let* _ := Addr_Interface fl in
        let '(value, err) := Unmarshal t (default [] body) value in
        Ok (value, ctx, wrap_error (bytes "req.Body: ") err)
  end.

(** What the function that [newReqConvertFunc] returns has captured. *)
Record reqConvert : Type := mkReqConvert {
  rc_isPtr : bool;
  rc_typ : rtype;
  rc_todo : todoReqFields
}.

(** [func newReqConvertFunc(typ reflect.Type, path string)]: what the
    function it returns has captured, and whether the struct has a [Ctx]
    field. *)
Definition newReqConvertFunc (typ : rtype) (path : gostring) : result (reqConvert * bool) :=
  let isPtr := bool_decide (kind_of typ = KPtr) in
  let typ := if isPtr then strip_ptr typ else typ in
  let* todo := validateReqFields typ path in
  Ok (mkReqConvert isPtr typ todo, todo_Ctx todo).

(** The callback of the function that [newReqConvertFunc] returns; its
    state is the error and the context.  [value.Set] panics as well when
    the type of the field is not the type of the context (the message of
    the library goes on with the name of the type). *)
Definition convert_req_field (todo : todoReqFields) :
    callback float opaque (option error * C) :=
  fun fl value f '(err, ctx) =>
    let* '(value, err, ctx) :=
      if decide (Name f = bytes "Query") then
        if todo_Query todo then
          let value := convertNilPtr fl (Type_ f) value in
          let* map2strs := URL_Query ctx in
          let* '(value, err) := Query fl (Type_ f) value map2strs in
          Ok (value, err, ctx)
        else Ok (value, err, ctx)
      else if decide (Name f = bytes "Header") then
        if todo_Header todo then
          let value := convertNilPtr fl (Type_ f) value in
          let* map2strs := Request_Header ctx in
          let* '(value, err) := Header fl (Type_ f) value map2strs in
          Ok (value, err, ctx)
        else Ok (value, err, ctx)
      else if decide (Name f = bytes "Body") then
        if todo_Body todo then
          let* '(value, ctx, err) := convertReqBody fl (Type_ f) value ctx in
          Ok (value, err, ctx)
        else Ok (value, err, ctx)
      else if decide (Name f = bytes "Ctx") then
        if todo_Ctx todo then
          let* _ := mustBeAssignable (bytes "reflect.Value.Set") fl in
          if is_ContextPtr (Type_ f) then Ok (ValueOf_ctx ctx, err, ctx)
          else Panic (PanicMsg (bytes "reflect.Set: value of type *hapi.Context is not assignable"))
        else Ok (value, err, ctx)
      else Ok (value, err, ctx) in
    Ok (value, (err, ctx), bool_decide (err = None)).

(** The function that [newReqConvertFunc] returns, [func(ctx *Context)
    (reflect.Value, error)]: the context after the call, and the request
    struct (or the pointer to it) or the error. *)
Definition reqConvertFunc (r : reqConvert) (ctx : C) : result (C * (rvalue + error)) :=
  let req := zero (rc_typ r) in
  let* '(req, (err, ctx), _) :=
    Traverse (flag_Elem flag_New) (rc_typ r) req (convert_req_field (rc_todo r)) (None, ctx) in
  match err with
  | Some err => Ok (ctx, inr err)
  | None => Ok (ctx, inl (if rc_isPtr r then RPtr (Some req) else req))
  end.

End binding.

(** ** Reference definitions *)

(** A key that the loop of [queryParamValues] takes for the parameter:
    it is the name of the parameter, or its name as an array, but for the
    case of the letters. *)
Definition ci_match (paramName arrayParamName key : gostring) : Prop :=
  ToLower key = ToLower paramName \/
  (ToLower arrayParamName ≠ [] /\ ToLower key = ToLower arrayParamName).

(** A field that [validateReqFields] accepts. *)
Definition req_field_ok (is_ContextPtr : rtype -> bool) (f : field) : bool :=
  if decide (Name f = bytes "Query") then isStructOrStructPtr (Type_ f)
  else if decide (Name f = bytes "Header") then isStructOrStructPtr (Type_ f)
  else if decide (Name f = bytes "Ctx") then is_ContextPtr (Type_ f)
  else bool_decide (Name f = bytes "Body").

(** What a field asks for. *)
Definition field_todo (f : field) : todoReqFields :=
  let full := negb (isEmptyStruct (Type_ f)) in
  mkTodo false
    (bool_decide (Name f = bytes "Query") && full)
    (bool_decide (Name f = bytes "Header") && full)
    (bool_decide (Name f = bytes "Body") && full)
    (bool_decide (Name f = bytes "Ctx")).

(** What two fields ask for. *)
Definition todo_or (t1 t2 : todoReqFields) : todoReqFields :=
  mkTodo (todo_Param t1 || todo_Param t2) (todo_Query t1 || todo_Query t2)
         (todo_Header t1 || todo_Header t2) (todo_Body t1 || todo_Body t2)
         (todo_Ctx t1 || todo_Ctx t2).

(** What the fields of a list ask for. *)
Definition todo_of (l : list field) : todoReqFields :=
  foldl todo_or todo_zero (field_todo <$> l).

(** ** Sample types: the request of the example program *)

(** The quote, for the tags. *)
Definition quote : ascii := "034"%char.

(** The tag [json:"name"]. *)
Definition json_tag (name : gostring) : gostring := bytes "json:" ++ quote :: name ++ [quote].

(** [type IndexReq struct { Id int64 `json:"id"`; Name string
    `json:"name"` }]. *)
Definition IndexReq : rtype :=
  TStruct (bytes "main.IndexReq")
    [mkField (bytes "Id") (TBasic KInt64) (json_tag (bytes "id")) false;
     mkField (bytes "Name") (TBasic KString) (json_tag (bytes "name")) false].

(** [struct { Query IndexReq }], the request of the three handlers. *)
Definition example_req : rtype :=
  TStruct [] [mkField (bytes "Query") IndexReq [] false].

(** The parameters of [?id=3&name=x]. *)
Definition sample_query : values_map :=
  [(bytes "id", [bytes "3"]); (bytes "name", [bytes "x"])].

(** Two keys that differ in the case of a letter only, in the two
    orders. *)
Definition sample_ambiguous : values_map :=
  [(bytes "ID", [bytes "1"]); (bytes "Id", [bytes "2"])].
Definition sample_ambiguous' : values_map :=
  [(bytes "Id", [bytes "2"]); (bytes "ID", [bytes "1"])].

(** ** Maps *)

Section map_lemmas.
Implicit Types (m : values_map) (k key : gostring).

(** The element that a search finds does not depend on the order of
    the list when at most one element can be found. *)
Lemma list_find_perm {A} (P : A -> Prop) `{!forall x, Decision (P x)} (l l' : list A) :
  l ≡ₚ l' -> (forall x y, x ∈ l -> y ∈ l -> P x -> P y -> x = y) ->
  snd <$> list_find P l = snd <$> list_find P l'.
Proof.
  intros Hp Hu.
  destruct (list_find P l) as [[i x]|] eqn:Hl, (list_find P l') as [[j y]|] eqn:Hl'; simpl.
  - apply list_find_Some in Hl as (Hx%list_elem_of_lookup_2 & HPx & _).
    apply list_find_Some in Hl' as (Hy%list_elem_of_lookup_2 & HPy & _).
    f_equal. apply Hu; try done. by rewrite Hp.
  - apply list_find_Some in Hl as (Hx%list_elem_of_lookup_2 & HPx & _).
    apply list_find_None in Hl'. rewrite Hp in Hx. by eapply Forall_forall in Hl'.
  - apply list_find_Some in Hl' as (Hy%list_elem_of_lookup_2 & HPy & _).
    apply list_find_None in Hl. rewrite <- Hp in Hy. by eapply Forall_forall in Hl.
  - done.
Qed.

Lemma NoDup_fst_eq {A B} (l : list (A * B)) x y1 y2 :
  NoDup l.*1 -> (x, y1) ∈ l -> (x, y2) ∈ l -> y1 = y2.
Proof.
  induction l as [|[a b] l IH]; simpl; intros Hnd H1 H2; [by apply elem_of_nil in H1|].
  apply NoDup_cons in Hnd as [Hni Hnd].
  apply elem_of_cons in H1 as [?|H1], H2 as [?|H2]; simplify_eq; try done.
  - destruct Hni. apply list_elem_of_fmap. by exists (a, y2).
  - destruct Hni. apply list_elem_of_fmap. by exists (a, y1).
  - by apply IH.
Qed.

Lemma map_get_fmap m k : map_get m k = snd <$> (snd <$> list_find (fun kv => kv.1 = k) m).
Proof. unfold map_get. by destruct (list_find _ m) as [[? []]|]. Qed.

(** An index does not depend on the order of the map. *)
Lemma map_get_perm m m' k : NoDup m.*1 -> m ≡ₚ m' -> map_get m k = map_get m' k.
Proof.
  intros Hnd Hp. rewrite !map_get_fmap. f_equal. apply list_find_perm; [done|].
  intros [k1 v1] [k2 v2] H1 H2 ? ?. simplify_eq/=. f_equal. by eapply NoDup_fst_eq.
Qed.

Lemma map_get_Some m k vs : NoDup m.*1 -> map_get m k = Some vs <-> (k, vs) ∈ m.
Proof.
  intros Hnd. unfold map_get. split.
  - intros ([i [k' vs']] & (Hi%list_elem_of_lookup_2 & ? & _)%list_find_Some & ?)%fmap_Some.
    by simplify_eq/=.
  - intros Hin. destruct (list_find _ m) as [[i [k' vs']]|] eqn:Hf; simpl.
    + apply list_find_Some in Hf as (Hi%list_elem_of_lookup_2 & ? & _). simplify_eq/=.
      f_equal. by eapply NoDup_fst_eq.
    + apply list_find_None in Hf. rewrite Forall_forall in Hf. by destruct (Hf _ Hin).
Qed.

End map_lemmas.

(** ** The names and the values of the parameters *)

Section names_lemmas.
Variable Tag_Get : gostring -> gostring -> gostring.
Implicit Types (f : field) (m : values_map).

(** The name of a parameter is the name of the field, or the tag up to
    its first comma; a field with the tag [-] has none. *)
Lemma queryParamName_no_tag f :
  Tag_Get (Tag f) (bytes "json") = [] ->
  queryParamName Tag_Get f =
  (Name f, if bool_decide (kind_of (Type_ f) = KSlice \/ kind_of (Type_ f) = KArray)
           then Name f ++ bytes "[]" else []).
Proof.
  intros Ht. unfold queryParamName. rewrite Ht. simpl.
  case_decide; case_bool_decide; done.
Qed.

Lemma queryParamName_tag f name :
  Tag_Get (Tag f) (bytes "json") = name -> name ≠ [] -> name ≠ bytes "-" -> ","%char ∉ name ->
  (queryParamName Tag_Get f).1 = name.
Proof.
  intros Ht Hn Hd Hc. unfold queryParamName. rewrite Ht.
  rewrite (decide_False (P := name = bytes "-")) by done.
  rewrite (decide_True (P := name ≠ [])) by done.
  apply indexByte_None in Hc as ->. by case_decide.
Qed.

(** What follows the first comma of the tag is not part of the name. *)
Lemma queryParamName_tag_opts f name opts :
  Tag_Get (Tag f) (bytes "json") = name ++ ","%char :: opts -> name ≠ [] -> ","%char ∉ name ->
  (queryParamName Tag_Get f).1 = name.
Proof.
  intros Ht Hn Hc. unfold queryParamName. rewrite Ht.
  rewrite (decide_False (P := _ = bytes "-")) by (by destruct name as [|? [|]]).
  rewrite (decide_True (P := _ ≠ [])) by (by destruct name).
  assert (indexByte ","%char (name ++ ","%char :: opts) = Some (length name)) as ->.
  { apply indexByte_Some. split; [by rewrite list_lookup_middle|].
    intros j c Hj Hlt ->. rewrite lookup_app_l in Hj by done.
    by apply list_elem_of_lookup_2 in Hj. }
  rewrite (decide_True (P := 0 < length name)) by (destruct name; [done|simpl; lia]).
  rewrite take_app_length. by case_decide.
Qed.

Lemma queryParamName_dash f :
  Tag_Get (Tag f) (bytes "json") = bytes "-" -> queryParamName Tag_Get f = ([], []).
Proof. intros Ht. unfold queryParamName. by rewrite Ht. Qed.

(** A key that is in the map as it is written wins. *)
Lemma queryParamValues_exact m p a vs :
  map_get m p = Some vs -> queryParamValues m p a = vs.
Proof. unfold queryParamValues. by intros ->. Qed.

Lemma queryParamValues_find m p a :
  queryParamValues m p a =
  default (default (default []
    (snd <$> (snd <$> list_find (fun kv => ci_match p a kv.1) m)))
    (if decide (a ≠ []) then map_get m a else None))
    (map_get m p).
Proof.
  unfold queryParamValues. destruct (map_get m p); [done|]. simpl.
  destruct (if decide (a ≠ []) then _ else _); [done|]. simpl.
  unfold ci_match. by destruct (list_find _ m) as [[? []]|].
Qed.

(** What [queryParamValues] returns does not depend on the order in
    which the loop meets the keys of the map, as long as at most one key
    of the map is the name of the parameter but for the case of the
    letters. *)
Theorem queryParamValues_order m m' p a :
  m ≡ₚ m' -> NoDup m.*1 ->
  (forall k1 k2, k1 ∈ m.*1 -> k2 ∈ m.*1 -> ci_match p a k1 -> ci_match p a k2 -> k1 = k2) ->
  queryParamValues m p a = queryParamValues m' p a.
Proof.
  intros Hp Hnd Hu. rewrite !queryParamValues_find, !(map_get_perm m m') by done.
  do 4 f_equal. apply list_find_perm; [done|].
  intros [k1 v1] [k2 v2] H1 H2 Hm1 Hm2. simpl in *.
  assert (k1 = k2) as <-.
  { apply Hu; try done; apply list_elem_of_fmap; by eexists (_, _). }
  f_equal. by eapply NoDup_fst_eq.
Qed.

(** With two keys that differ in the case of a letter only, what
    [queryParamValues] returns for a name that is neither depends on the
    order in which the loop meets them: the same map gives [1] in one
    order and [2] in the other. *)
Theorem queryParamValues_ambiguous :
  sample_ambiguous ≡ₚ sample_ambiguous' /\
  queryParamValues sample_ambiguous (bytes "id") [] = [bytes "1"] /\
  queryParamValues sample_ambiguous' (bytes "id") [] = [bytes "2"].
Proof. split; [apply perm_swap|done]. Qed.

End names_lemmas.

Lemma queryParamValues_order_witness :
  queryParamValues sample_query (bytes "name") [] =
  queryParamValues (reverse sample_query) (bytes "name") [].
Proof.
  apply (queryParamValues_order sample_query (reverse sample_query)).
  - apply perm_swap.
  - apply (bool_decide_unpack _). vm_compute. exact I.
  - intros k1 k2 H1 H2 M1 M2. simpl in H1, H2.
    repeat (apply elem_of_cons in H1 as [->|H1]); [| |by apply elem_of_nil in H1];
      repeat (apply elem_of_cons in H2 as [->|H2]); try done;
      try (by apply elem_of_nil in H2); by destruct M1 as [|[]], M2 as [|[]].
Defined.
