(* ===== verification/BindingReq.v ===== *)
(** * BindingReq: the request struct, validated and then filled

    What [validateReqFields] accepts and what it asks the conversion to
    do, by the fields that [TraverseType] reaches; that [Query], [Header]
    and the function that [newReqConvertFunc] returns do not panic on the
    types that were accepted, and leave values of those types; and the
    request of the example program, filled from the parameters of a
    URL. *)

From S2P Require Import Prelude Strconv Reflect Setters Traverse Binding.

(** The struct types that the conversion can fill: the type, and the
    types of the fields that a traversal of it reaches, have no embedded
    pointer to a struct with an unexported name. *)
Definition bindable (typ : rtype) : bool :=
  embedded_exported typ && forallb (fun f => embedded_exported (Type_ f)) (flat_fields typ).

(** ** A sample context

    The context of a request without headers and without a body is the
    map of the parameters of its URL; the type of the context is a
    pointer to a struct of which the model keeps the name only. *)

Definition sample_is_ContextPtr (t : rtype) : bool :=
  match t with
  | TPtr (TStruct name []) => bool_decide (name = bytes "hapi.Context")
  | _ => false
  end.

Definition sample_ValueOf_ctx (ctx : values_map) : rvalue unit unit :=
  RPtr (Some (RStruct [])).

Definition sample_RequestBody (ctx : values_map) :
    result (values_map * (slice ascii * option error)) :=
  Ok (ctx, (None, None)).

(** A [struct_tag.Lookup] for tags without escapes. *)
Definition sample_Lookup (tag key : gostring) : gostring * bool :=
  match tag_lookup (length tag) tag key with
  | Some value => (value, true)
  | None => ([], false)
  end.

(** [Query] and the conversion of a request, in the sample context. *)
Definition sample_Query :=
  Query sample_ParseFloat sample_Unmarshal tt (fun _ => tt) reference_Tag_Get.

Definition sample_reqConvertFunc :=
  reqConvertFunc sample_ParseFloat sample_Unmarshal tt (fun _ => tt) reference_Tag_Get
    sample_Lookup sample_is_ContextPtr Ok (fun _ => Ok []) sample_RequestBody
    sample_ValueOf_ctx.

(** What [newReqConvertFunc] returns for the request of the example
    program, a pointer to [example_req]. *)
Definition example_reqConvert : reqConvert :=
  mkReqConvert true example_req (mkTodo false true false false false).

(** The parameters of [?id=x]. *)
Definition sample_bad_query : values_map := [(bytes "id", [bytes "x"])].

(** ** Validation *)

Section validation.
Variable is_ContextPtr : rtype -> bool.
Implicit Types (f : field) (l : list field) (t typ : rtype) (todo : todoReqFields).

Abbreviation validate := (validate_req_field is_ContextPtr).
Abbreviation field_ok := (req_field_ok is_ContextPtr).

Lemma isEmptyStruct_struct t : isEmptyStruct t = true -> isStructOrStructPtr t = true.
Proof. by intros [? _]%andb_prop. Qed.

(** The callback of [validateReqFields] returns on the fields that
    [req_field_ok] accepts, with what the field asks for added. *)
Lemma validate_req_field_ok f todo :
  field_ok f = true -> validate f todo = Ok (todo_or todo (field_todo f)).
Proof.
  destruct f as [name t tag anon], todo as [p q h b c].
  unfold validate_req_field, req_field_ok, field_todo, todo_or,
    ValidateQuery, ValidateHeader; simpl.
  intros Hok. repeat case_decide; subst; simpl;
    destruct (isEmptyStruct t) eqn:He; simpl;
    by rewrite ?Hok, ?orb_false_r, ?orb_true_r.
Qed.

(** On the other fields it panics. *)
Lemma validate_req_field_bad f todo : field_ok f = false -> is_ok (validate f todo) = false.
Proof.
  destruct f as [name t tag anon], todo as [p q h b c].
  unfold validate_req_field, req_field_ok, ValidateQuery, ValidateHeader; simpl.
  intros Hok. repeat case_decide; subst; simpl; try done;
    try (destruct (isEmptyStruct t) eqn:He; simpl;
         [by rewrite (isEmptyStruct_struct t) in Hok|by rewrite Hok]).
  by rewrite Hok.
Qed.

(** A field with another name than the four is reported by its name. *)
Lemma validate_req_field_unknown f todo :
  Name f ∉ [bytes "Query"; bytes "Header"; bytes "Ctx"; bytes "Body"] ->
  validate f todo = Panic (PanicMsg (bytes "Unknown field: req." ++ Name f)).
Proof.
  intros Hn. destruct todo. unfold validate_req_field.
  repeat case_decide; try done; destruct Hn; rewrite !elem_of_cons; auto.
Qed.

Lemma validate_fold l todo todo' :
  result_fold validate l todo = Ok todo' <->
  forallb field_ok l = true /\ todo' = foldl todo_or todo (field_todo <$> l).
Proof.
  revert todo. induction l as [|f l IH]; intros todo; simpl.
  - split; [by intros [= <-]|by intros [_ ->]].
  - destruct (field_ok f) eqn:Hok; simpl.
    + rewrite validate_req_field_ok by done. apply IH.
    + apply (validate_req_field_bad f todo) in Hok.
      destruct (validate f todo); try done; simpl; split; (done || by intros []).
Qed.

(** What a list of fields asks for, field by field. *)
Lemma foldl_todo_or l todo :
  foldl todo_or todo (field_todo <$> l) =
  mkTodo (todo_Param todo)
    (todo_Query todo || existsb (fun f => todo_Query (field_todo f)) l)
    (todo_Header todo || existsb (fun f => todo_Header (field_todo f)) l)
    (todo_Body todo || existsb (fun f => todo_Body (field_todo f)) l)
    (todo_Ctx todo || existsb (fun f => todo_Ctx (field_todo f)) l).
Proof.
  revert todo. induction l as [|f l IH]; intros [p q h b c]; simpl.
  - by rewrite !orb_false_r.
  - rewrite IH. simpl. by rewrite !orb_false_r, !orb_assoc.
Qed.

Lemma is_struct_strip_ptr typ : is_struct typ = true -> strip_ptr typ = typ.
Proof. by destruct typ. Qed.

(** What the validation has checked of a field, by its name. *)
Lemma req_field_ok_Query f :
  Name f = bytes "Query" -> field_ok f = true -> isStructOrStructPtr (Type_ f) = true.
Proof. unfold req_field_ok. intros ->. by repeat case_decide. Qed.

Lemma req_field_ok_Header f :
  Name f = bytes "Header" -> field_ok f = true -> isStructOrStructPtr (Type_ f) = true.
Proof. unfold req_field_ok. intros ->. by repeat case_decide. Qed.

Lemma req_field_ok_Ctx f :
  Name f = bytes "Ctx" -> field_ok f = true -> is_ContextPtr (Type_ f) = true.
Proof. unfold req_field_ok. intros ->. by repeat case_decide. Qed.

Lemma validateReqFields_iff typ path todo :
  wf_type typ = true ->
  validateReqFields is_ContextPtr typ path = Ok todo <->
  is_struct typ = true /\ forallb field_ok (flat_fields typ) = true /\
  todo = todo_of (flat_fields typ).
Proof.
  intros Hwf. unfold validateReqFields. destruct (is_struct typ) eqn:Hs; simpl.
  - rewrite TraverseType_fold, validate_fold by (by rewrite ?is_struct_strip_ptr).
    unfold todo_of. tauto.
  - split; [done|by intros [? _]].
Qed.

(** [C20] [validateReqFields] returns exactly on the struct types all of
    whose fields, the fields of the embedded structs included, are
    [Query] or [Header] of a struct or a pointer to a struct, [Ctx] of the
    type of the context, or [Body]; and what it returns is what those
    fields ask for. *)
Theorem validateReqFields_spec typ path todo :
  wf_type typ = true ->
  validateReqFields is_ContextPtr typ path = Ok todo <->
  is_struct typ = true /\ forallb field_ok (flat_fields typ) = true /\
  todo = todo_of (flat_fields typ).
Proof. apply validateReqFields_iff. Qed.

(** No request type makes [validateReqFields] ask for the
    parameters of the path: [todo.Param] is never set. *)
Theorem validateReqFields_Param typ path todo :
  wf_type typ = true -> validateReqFields is_ContextPtr typ path = Ok todo ->
  todo_Param todo = false.
Proof.
  intros Hwf (_ & _ & ->)%validateReqFields_iff; [|done].
  unfold todo_of. by rewrite foldl_todo_or.
Qed.

End validation.

(** ** Conversion *)

Section conversion.
Context {float : Type} {opaque : Type} {C : Type}.
Variable ParseFloat : gostring -> Z -> float + error.
Variable Unmarshal : rtype -> gostring -> rvalue float opaque ->
                     rvalue float opaque * option error.
Variable zero_float : float.
Variable zero_opaque : rtype -> opaque.
Variable Tag_Get : gostring -> gostring -> gostring.
Variable struct_tag_Lookup : gostring -> gostring -> gostring * bool.
Variable is_ContextPtr : rtype -> bool.
Variable URL_Query : C -> result values_map.
Variable Request_Header : C -> result values_map.
Variable RequestBody : C -> result (C * (slice ascii * option error)).
Variable ValueOf_ctx : C -> rvalue float opaque.

(** [json.Unmarshal] leaves a value of the type it was given, and the
    value of the context has the type of the context. *)
Hypothesis Unmarshal_has_type :
  forall t s v, has_type t v -> has_type t (Unmarshal t s v).1.
Hypothesis ValueOf_ctx_has_type :
  forall t ctx, is_ContextPtr t = true -> has_type t (ValueOf_ctx ctx).

(** The contexts that are served: they have a request, whose
    parameters, headers and body can be read, and reading the body
    leaves such a context. *)
Variable served : C -> Prop.
Hypothesis URL_Query_served : forall ctx, served ctx -> exists m, URL_Query ctx = Ok m.
Hypothesis Request_Header_served : forall ctx, served ctx -> exists m, Request_Header ctx = Ok m.
Hypothesis RequestBody_served : forall ctx, served ctx ->
  exists ctx' body err, RequestBody ctx = Ok (ctx', (body, err)) /\ served ctx'.

(** The state of the callback of the conversion: the context is
    served. *)
Definition served_state (st : option error * C) : Prop := served st.2.

Implicit Types (f : field) (l : list field) (t typ : rtype) (v value : rvalue float opaque).
Implicit Types (fl : flag) (m : values_map) (ctx : C) (todo : todoReqFields).

Abbreviation Query' := (Query ParseFloat Unmarshal zero_float zero_opaque Tag_Get).
Abbreviation Header' := (Header ParseFloat Unmarshal zero_float zero_opaque struct_tag_Lookup).
Abbreviation convertNilPtr' := (convertNilPtr zero_float zero_opaque).
Abbreviation convertReqBody' := (convertReqBody Unmarshal RequestBody).
Abbreviation convert_req_field' :=
  (convert_req_field ParseFloat Unmarshal zero_float zero_opaque Tag_Get struct_tag_Lookup
     is_ContextPtr URL_Query Request_Header RequestBody ValueOf_ctx).
Abbreviation reqConvertFunc' :=
  (reqConvertFunc ParseFloat Unmarshal zero_float zero_opaque Tag_Get struct_tag_Lookup
     is_ContextPtr URL_Query Request_Header RequestBody ValueOf_ctx).

(** *** [Query] and [Header] *)

Lemma query_field_total m l :
  (forall f, f ∈ l -> wf_type (Type_ f) = true) ->
  total_on (fun _ => True)
    (query_field ParseFloat Unmarshal zero_float zero_opaque Tag_Get m) l.
Proof.
  intros Hl fl v f st Hc Hin Hv _. unfold query_field.
  destruct (queryParamName Tag_Get f) as [p a]. case_decide; [by eexists _, _, _|].
  case_decide; [|by eexists _, _, _].
  destruct (SetArray_CanSet ParseFloat Unmarshal zero_float zero_opaque fl (Type_ f) v
              (queryParamValues m p a) Hc) as [[v' err] Heq].
  rewrite Heq. simpl. eexists _, _, _. split_and!; [done| |done].
  eapply SetArray_typed; eauto.
Qed.

Lemma header_field_total m l :
  (forall f, f ∈ l -> wf_type (Type_ f) = true) ->
  total_on (fun _ => True)
    (header_field ParseFloat Unmarshal zero_float zero_opaque struct_tag_Lookup m) l.
Proof.
  intros Hl fl v f st Hc Hin Hv _. unfold header_field.
  destruct (default [] _) as [|s ?]; [by eexists _, _, _|].
  case_decide; [|by eexists _, _, _].
  destruct (SetValue_CanSet ParseFloat Unmarshal zero_float zero_opaque fl (Type_ f) v s Hc)
    as [[v' err] Heq].
  rewrite Heq. simpl. eexists _, _, _. split_and!; [done| |done].
  eapply SetValue_typed; eauto.
Qed.

Lemma Query_returns fl t value m :
  wf_type t = true -> isStructOrStructPtr t = true -> embedded_exported t = true ->
  CanSet fl = true -> has_type t value -> value ≠ RPtr None ->
  exists value' err, Query' fl t value m = Ok (value', err) /\ has_type t value'.
Proof.
  intros Hwf Hs Hee Hc Hv Hnil. unfold Query. case_decide; [by eexists _, _|].
  destruct (Traverse_returns zero_float zero_opaque (fun _ => True)
              (query_field ParseFloat Unmarshal zero_float zero_opaque Tag_Get m)
              fl t value None) as (v' & e & go & -> & Hv' & _); try done.
  { apply query_field_total. intros f Hin. by apply (flat_fields_wf t). }
  by eexists _, _.
Qed.

(** [Query] returns and keeps the type: on a value that can be
    set, of a well-formed struct type or pointer to one that is not [nil],
    without an embedded pointer of an unexported name, it does not panic,
    whatever the parameters of the URL, and leaves a value of the type;
    what cannot be parsed is an error, not a panic. *)
Theorem Query_total fl t value m :
  wf_type t = true -> isStructOrStructPtr t = true -> embedded_exported t = true ->
  CanSet fl = true -> has_type t value -> value ≠ RPtr None ->
  exists value' err, Query' fl t value m = Ok (value', err) /\ has_type t value'.
Proof. apply Query_returns. Qed.

Lemma Header_total fl t value m :
  wf_type t = true -> isStructOrStructPtr t = true -> embedded_exported t = true ->
  CanSet fl = true -> has_type t value -> value ≠ RPtr None ->
  exists value' err, Header' fl t value m = Ok (value', err) /\ has_type t value'.
Proof.
  intros Hwf Hs Hee Hc Hv Hnil. unfold Header.
  destruct (Traverse_returns zero_float zero_opaque (fun _ => True)
              (header_field ParseFloat Unmarshal zero_float zero_opaque struct_tag_Lookup m)
              fl t value None) as (v' & e & go & -> & Hv' & _); try done.
  { apply header_field_total. intros f Hin. by apply (flat_fields_wf t). }
  by eexists _, _.
Qed.

(** *** The fields of the request *)

Lemma convertNilPtr_typed fl t v :
  wf_type t = true -> has_type t v -> has_type t (convertNilPtr' fl t v).
Proof.
  intros Hwf Hv. unfold convertNilPtr.
  destruct (bool_decide (kind_of t = KPtr)) eqn:Hk; [|done].
  apply bool_decide_eq_true in Hk. destruct (kind_ptr_inv t Hwf Hk) as [elem ->].
  destruct (_ && _); [|done]. exact (zero_has_type zero_float zero_opaque elem Hwf).
Qed.

Lemma convertNilPtr_not_nil fl t v :
  CanSet fl = true -> has_type t v -> convertNilPtr' fl t v ≠ RPtr None.
Proof.
  intros Hc Hv. unfold convertNilPtr. rewrite Hc, andb_true_r.
  destruct (bool_decide (kind_of t = KPtr)) eqn:Hk; simpl.
  - by destruct v as [| | | | |[|]| | | | |].
  - intros ->. apply bool_decide_eq_false in Hk. by destruct t as [[]| | | | | |[] ?].
Qed.

Lemma convertReqBody_total fl t v ctx :
  CanSet fl = true -> has_type t v -> served ctx ->
  exists v' ctx' err, convertReqBody' fl t v ctx = Ok (v', ctx', err) /\ has_type t v' /\
                      served ctx'.
Proof.
  intros Hc Hv (ctx' & body & e & Hb & Hs)%RequestBody_served. unfold convertReqBody.
  rewrite Hb. simpl. destruct e; [by eexists _, _, _|].
  case_decide; [by eexists _, _, _|]. rewrite Addr_Interface_CanSet by done. simpl.
  pose proof (Unmarshal_has_type t (default [] body) v Hv).
  destruct (Unmarshal t (default [] body) v) as [v' err]. by eexists _, _, _.
Qed.

(** The callback of the conversion returns on the fields that the
    validation accepts. *)
Lemma convert_req_field_total todo l :
  (forall f, f ∈ l -> wf_type (Type_ f) = true /\ req_field_ok is_ContextPtr f = true /\
                      embedded_exported (Type_ f) = true) ->
  total_on served_state (convert_req_field' todo) l.
Proof.
  intros Hl fl v f [err ctx] Hc Hin Hv Hs. destruct (Hl f Hin) as (Hwf & Hok & Hee).
  unfold convert_req_field. repeat case_decide.
  - destruct (todo_Query todo); [|by eexists _, _, _].
    destruct (URL_Query_served ctx Hs) as [m ->].
    destruct (Query_returns fl (Type_ f) (convertNilPtr' fl (Type_ f) v) m)
      as (v' & e & Hq & Hv'); try done;
      [by apply (req_field_ok_Query is_ContextPtr)|by apply convertNilPtr_typed
      |by apply convertNilPtr_not_nil|]. simpl. rewrite Hq. by eexists _, _, _.
  - destruct (todo_Header todo); [|by eexists _, _, _].
    destruct (Request_Header_served ctx Hs) as [m ->].
    destruct (Header_total fl (Type_ f) (convertNilPtr' fl (Type_ f) v) m)
      as (v' & e & Hq & Hv'); try done;
      [by apply (req_field_ok_Header is_ContextPtr)|by apply convertNilPtr_typed
      |by apply convertNilPtr_not_nil|]. simpl. rewrite Hq. by eexists _, _, _.
  - destruct (todo_Body todo); [|by eexists _, _, _].
    destruct (convertReqBody_total fl (Type_ f) v ctx) as (v' & ctx' & e & -> & Hv' & Hs');
      try done. by eexists _, _, _.
  - destruct (todo_Ctx todo); [|by eexists _, _, _].
    apply req_field_ok_Ctx in Hok; [|done].
    rewrite mustBeAssignable_CanSet by done. simpl. rewrite Hok.
    eexists _, _, _. split_and!; [done| |done]. by apply ValueOf_ctx_has_type.
  - by eexists _, _, _.
Qed.

(** *** The function that [newReqConvertFunc] returns *)

Lemma newReqConvertFunc_inv typ path r hasCtx :
  newReqConvertFunc is_ContextPtr typ path = Ok (r, hasCtx) ->
  exists todo, validateReqFields is_ContextPtr (strip_ptr typ) path = Ok todo /\
    r = mkReqConvert (bool_decide (kind_of typ = KPtr)) (strip_ptr typ) todo /\
    hasCtx = todo_Ctx todo.
Proof.
  unfold newReqConvertFunc.
  replace (if bool_decide (kind_of typ = KPtr) then strip_ptr typ else typ)
    with (strip_ptr typ) by (by destruct typ as [[]| | | | | |[] ?]).
  intros (todo & Hv & [= <- <-])%result_bind_Ok. by exists todo.
Qed.

Lemma zero_struct_not_nil t :
  wf_type t = true -> is_struct t = true -> zero zero_float zero_opaque t ≠ RPtr None.
Proof.
  intros Hwf Hs%bool_decide_eq_true. destruct (kind_struct_inv t Hwf Hs) as (n & fs & ->).
  by destruct (proj1 (has_type_struct n fs _) (zero_has_type zero_float zero_opaque _ Hwf))
    as (vs & -> & _).
Qed.

(** The request that is handed to the handler has the type of its
    parameter. *)
Lemma req_has_type typ (req : rvalue float opaque) :
  wf_type typ = true -> has_type (strip_ptr typ) req ->
  has_type typ (if bool_decide (kind_of typ = KPtr) then RPtr (Some req) else req).
Proof.
  intros Hwf Hreq. case_bool_decide as Hk.
  - by destruct (kind_ptr_inv typ Hwf Hk) as [elem ->].
  - by destruct typ.
Qed.

Lemma reqConvertFunc_returns typ path r hasCtx ctx :
  wf_type typ = true -> newReqConvertFunc is_ContextPtr typ path = Ok (r, hasCtx) ->
  bindable (rc_typ r) = true -> served ctx ->
  exists ctx' res, reqConvertFunc' r ctx = Ok (ctx', res) /\ served ctx' /\
    forall req, res = inl req -> has_type typ req.
Proof.
  intros Hwf (todo & Hval & -> & ->)%newReqConvertFunc_inv [Hee Hff]%andb_prop Hserved.
  apply wf_strip_ptr in Hwf as Hwf'.
  apply validateReqFields_iff in Hval as (Hs & Hok & ->); [|done].
  unfold reqConvertFunc. cbn [rc_typ rc_todo rc_isPtr] in *.
  destruct (Traverse_returns zero_float zero_opaque served_state
              (convert_req_field' (todo_of (flat_fields (strip_ptr typ))))
              (flag_Elem flag_New) (strip_ptr typ) (zero zero_float zero_opaque (strip_ptr typ))
              (None, ctx)) as (req & [err ctx'] & go & -> & Hreq & Hs');
    try done; [|by rewrite is_struct_strip_ptr|by apply zero_has_type
              |by apply zero_struct_not_nil|].
  - apply convert_req_field_total. intros f Hin.
    rewrite forallb_forall in Hok, Hff. apply list_elem_of_In in Hin as Hin'.
    split; [by apply (flat_fields_wf (strip_ptr typ))|auto].
  - simpl. destruct err; eexists _, _; (split_and!; [done..|]); intros ? [= <-].
    by apply req_has_type.
Qed.

(** [C18] The conversion of a request does not panic: when
    [newReqConvertFunc] has accepted the type of the request, and the
    type and the types of its fields have no embedded pointer of an
    unexported name, the function it returns gives, for every context
    with a request, an error or a request of the type of the parameter of
    the handler, and leaves a context with a request. *)
Theorem reqConvertFunc_total typ path r hasCtx ctx :
  wf_type typ = true -> newReqConvertFunc is_ContextPtr typ path = Ok (r, hasCtx) ->
  bindable (rc_typ r) = true -> served ctx ->
  exists ctx' res, reqConvertFunc' r ctx = Ok (ctx', res) /\ served ctx' /\
    forall req, res = inl req -> has_type typ req.
Proof. apply reqConvertFunc_returns. Qed.

End conversion.

(** ** The request of the example program *)

Lemma sample_ValueOf_ctx_typed t ctx :
  sample_is_ContextPtr t = true -> has_type t (sample_ValueOf_ctx ctx).
Proof. by destruct t as [|[| | | |? [|]| |]| | | | |]. Qed.

(** The three routes of the example program take a pointer to
    [struct { Query IndexReq }]: [newReqConvertFunc] accepts it and asks
    for the parameters of the URL only, and the request [?id=3&name=x]
    gives the handler the struct with [Id] 3 and [Name] x, found by the
    names of the [json] tags. *)
Theorem example_request :
  newReqConvertFunc sample_is_ContextPtr (TPtr example_req) (bytes "/") =
    Ok (example_reqConvert, false) /\
  sample_reqConvertFunc example_reqConvert sample_query =
    Ok (sample_query, inl (RPtr (Some (RStruct [RStruct [RInt 3; RString (bytes "x")]])))).
Proof. split; reflexivity. Qed.

(** A parameter that cannot be parsed is an error that names the
    field, and the struct is not handed over: [?id=x] for the request of
    the example program gives the error of [strconv.ParseInt] behind
    [req.Query.Id: ], and the handler that [convertHandler] returns
    panics on it. *)
Theorem example_request_error :
  sample_reqConvertFunc example_reqConvert sample_bad_query =
    Ok (sample_bad_query,
        inr (Errorf (bytes "req.Query.Id: ") (ErrSyntax (bytes "ParseInt") (bytes "x")))).
Proof. reflexivity. Qed.

Lemma validateReqFields_spec_witness :
  validateReqFields sample_is_ContextPtr example_req (bytes "/") =
    Ok (mkTodo false true false false false) <->
  is_struct example_req = true /\
  forallb (req_field_ok sample_is_ContextPtr) (flat_fields example_req) = true /\
  mkTodo false true false false false = todo_of (flat_fields example_req).
Proof. apply (validateReqFields_spec sample_is_ContextPtr example_req). reflexivity. Defined.

Lemma validateReqFields_Param_witness :
  todo_Param (mkTodo false true false false false) = false.
Proof.
  apply (validateReqFields_Param sample_is_ContextPtr example_req (bytes "/")); reflexivity.
Defined.

Lemma Query_total_witness :
  exists value' err,
    sample_Query sample_flag IndexReq (RStruct [RInt 0; RString []]) sample_query =
      Ok (value', err) /\
    has_type IndexReq value'.
Proof.
  apply (Query_total sample_ParseFloat sample_Unmarshal tt (fun _ => tt) reference_Tag_Get
           sample_Unmarshal_typed); try reflexivity; [by repeat split|done].
Defined.

Lemma reqConvertFunc_total_witness :
  exists ctx' res,
    sample_reqConvertFunc example_reqConvert sample_query = Ok (ctx', res) /\ True /\
    forall req, res = inl req -> has_type (TPtr example_req) req.
Proof.
  apply (reqConvertFunc_total sample_ParseFloat sample_Unmarshal tt (fun _ => tt)
           reference_Tag_Get sample_Lookup sample_is_ContextPtr Ok (fun _ => Ok [])
           sample_RequestBody sample_ValueOf_ctx sample_Unmarshal_typed
           sample_ValueOf_ctx_typed (fun _ => True)
           (fun ctx _ => ex_intro _ ctx eq_refl) (fun ctx _ => ex_intro _ [] eq_refl)
           (fun ctx _ => ex_intro _ ctx (ex_intro _ None (ex_intro _ None (conj eq_refl I))))
           (TPtr example_req) (bytes "/") example_reqConvert false);
    reflexivity.
Defined.
