(* ===== verification/Writer.v ===== *)
(** * Writer: the headers and the response writer

    [Context.Writer] is a [ResponseWriter], and [Context.writermem] a
    [responseWriter]: the types are used by [src/unnamed/part_000] and
    [src/unnamed/part_001] and declared nowhere in the repository.  The
    class [ResponseWriter] is what the sources call of them, on a type
    [W] of the states of the writer; [ResponseWriterLaws] is what the
    theorems on the serving of a request need of the calls.

    [mem_writer] is an instance: the [responseWriter] of gin, from which
    the sources are derived, over a writer of [net/http] that keeps the
    status it was sent and the body.  It has the laws.

    The headers are a [values_map]; [Header_Set] is [http.Header.Set],
    with the canonical form of the key of [net/textproto]. *)

From S2P Require Import Prelude Strconv Binding.

(** ** Headers *)

(** [m[key] = values]. *)
Fixpoint map_set (m : values_map) (key : gostring) (values : list gostring) : values_map :=
  match m with
  | [] => [(key, values)]
  | (k, v) :: m =>
      if decide (k = key) then (key, values) :: m else (k, v) :: map_set m key values
  end.

(** The bytes of a header key that [net/textproto] takes for a token. *)
Definition valid_header_byte (c : ascii) : bool :=
  let n := nat_of_ascii c in
  bool_decide (48 <= n <= 57 \/ 65 <= n <= 90 \/ 97 <= n <= 122) ||
  bool_decide (c ∈ bytes "!#$%&'*+-.^_`|~").

(** The upper-case letter of a lower-case letter of ASCII. *)
Definition upper (c : ascii) : ascii :=
  let n := nat_of_ascii c in
  if bool_decide (97 <= n <= 122) then ascii_of_nat (n - 32) else c.

(** The loop of [textproto.CanonicalMIMEHeaderKey]: a letter is made
    upper case at the start and after a dash, and lower case elsewhere. *)
Fixpoint canonical_bytes (up : bool) (s : gostring) : gostring :=
  match s with
  | [] => []
  | c :: s =>
      let c := if up then upper c else lower c in
      c :: canonical_bytes (bool_decide (c = "-"%char)) s
  end.

(** [textproto.CanonicalMIMEHeaderKey]: a key with a byte that is not of
    a token is left as it is. *)
Definition CanonicalMIMEHeaderKey (s : gostring) : gostring :=
  if forallb valid_header_byte s then canonical_bytes true s else s.

(** [http.Header.Set]. *)
Definition Header_Set (h : values_map) (key value : gostring) : values_map :=
  map_set h (CanonicalMIMEHeaderKey key) [value].

(** ** The response writer *)

(** What the sources call of [c.Writer] and of [c.writermem]. *)
Class ResponseWriter (W : Type) : Type := {
  (** [w.Header()], and the writer after a write to that map. *)
  Header_of : W -> values_map;
  set_Header : values_map -> W -> W;
  (** [w.WriteHeader(code)], [w.WriteHeaderNow()], and [w.Write(data)]
      with the error it returns. *)
  WriteHeader : Z -> W -> W;
  WriteHeaderNow : W -> W;
  Write : gostring -> W -> W * option error;
  (** [w.Written()], [w.Status()], and [w.status = code]. *)
  Written : W -> bool;
  Status : W -> Z;
  set_status : Z -> W -> W;
  (** The fields [written] and [wroteHeader] of the struct behind
      [c.Writer], as reflection finds them: [None] when the struct has
      no field of the name. *)
  field_written : W -> option Z;
  field_wroteHeader : W -> option bool
}.

(** What the serving of a request needs of a writer. *)
Class ResponseWriterLaws (W : Type) `{ResponseWriter W} : Prop := {
  Status_set_status code w : Status (set_status code w) = code;
  Written_set_status code w : Written (set_status code w) = Written w;
  Written_set_Header h w : Written (set_Header h w) = Written w;
  Status_set_Header h w : Status (set_Header h w) = Status w;
  Written_Write data w : Written (Write data w).1 = true;
  Written_WriteHeaderNow w : Written (WriteHeaderNow w) = true;
  WriteHeaderNow_Written w : Written w = true -> WriteHeaderNow w = w;
  Status_WriteHeaderNow w : Status (WriteHeaderNow w) = Status w;
  Status_Write data w : Status (Write data w).1 = Status w;
  Header_of_set_Header h w : Header_of (set_Header h w) = h;
  Header_of_set_status code w : Header_of (set_status code w) = Header_of w;
  Header_of_WriteHeader code w : Header_of (WriteHeader code w) = Header_of w;
  Header_of_WriteHeaderNow w : Header_of (WriteHeaderNow w) = Header_of w;
  Header_of_Write data w : Header_of (Write data w).1 = Header_of w;
  Written_WriteHeader code w : Written (WriteHeader code w) = Written w
}.

(** ** An instance: the writer of gin *)

(** [type responseWriter struct { http.ResponseWriter; size int; status
    int }] of gin, over a writer of [net/http] of which [sent] is the
    status it was sent, [sent_header] the headers at that time and
    [body] what was written.  The size is [None] for [noWritten], the -1
    that gin keeps in [size] until the headers are written. *)
Record mem_writer : Type := mkWriter {
  mw_header : values_map;
  mw_size : option nat;
  mw_status : Z;
  mw_sent : option Z;
  mw_sent_header : values_map;
  mw_body : gostring
}.

(** [const defaultStatus = http.StatusOK]. *)
Definition defaultStatus : Z := 200.

(** [func (w *responseWriter) reset(writer http.ResponseWriter)], with a
    writer of [net/http] that has sent nothing. *)
Definition mem_reset : mem_writer := mkWriter [] None defaultStatus None [] [].

Definition mem_Written (w : mem_writer) : bool := bool_decide (mw_size w ≠ None).

Definition mem_set_status (code : Z) (w : mem_writer) : mem_writer :=
  mkWriter (mw_header w) (mw_size w) code (mw_sent w) (mw_sent_header w) (mw_body w).

Definition mem_set_Header (h : values_map) (w : mem_writer) : mem_writer :=
  mkWriter h (mw_size w) (mw_status w) (mw_sent w) (mw_sent_header w) (mw_body w).

(** [func (w *responseWriter) WriteHeader(code int)]: after the headers
    are written it warns and changes nothing. *)
Definition mem_WriteHeader (code : Z) (w : mem_writer) : mem_writer :=
  if (0 <? code)%Z && negb (mw_status w =? code)%Z then
    if mem_Written w then w else mem_set_status code w
  else w.

(** [func (w *responseWriter) WriteHeaderNow()]: the writer of
    [net/http] takes the first status it is sent. *)
Definition mem_WriteHeaderNow (w : mem_writer) : mem_writer :=
  if mem_Written w then w
  else
    match mw_sent w with
    | Some _ =>
        mkWriter (mw_header w) (Some 0) (mw_status w) (mw_sent w) (mw_sent_header w) (mw_body w)
    | None =>
        mkWriter (mw_header w) (Some 0) (mw_status w) (Some (mw_status w)) (mw_header w)
          (mw_body w)
    end.

(** [func (w *responseWriter) Write(data []byte) (n int, err error)]. *)
Definition mem_Write (data : gostring) (w : mem_writer) : mem_writer * option error :=
  let w := mem_WriteHeaderNow w in
  (mkWriter (mw_header w) (Some (default 0 (mw_size w) + length data)) (mw_status w)
     (mw_sent w) (mw_sent_header w) (mw_body w ++ data), None).

#[export] Instance mem_writer_ResponseWriter : ResponseWriter mem_writer := {
  Header_of := mw_header;
  set_Header := mem_set_Header;
  WriteHeader := mem_WriteHeader;
  WriteHeaderNow := mem_WriteHeaderNow;
  Write := mem_Write;
  Written := mem_Written;
  Status := mw_status;
  set_status := mem_set_status;
  field_written := fun _ => None;
  field_wroteHeader := fun _ => None
}.

(** ** Headers: lemmas *)

Section header_lemmas.
Implicit Types (m h : values_map) (k key : gostring) (vs : list gostring).

Lemma map_get_cons m k vs key :
  map_get ((k, vs) :: m) key = if decide (k = key) then Some vs else map_get m key.
Proof.
  unfold map_get. simpl. case_decide; [done|].
  by destruct (list_find _ m) as [[? []]|].
Qed.

(** A key reads what was written to it, and the other keys what they
    read before. *)
Lemma map_get_set m k vs key :
  map_get (map_set m k vs) key = if decide (k = key) then Some vs else map_get m key.
Proof.
  induction m as [|[k' vs'] m IH]; simpl.
  - rewrite map_get_cons. by case_decide.
  - destruct (decide (k' = k)) as [->|Hne]; rewrite !map_get_cons; [by case_decide|].
    rewrite IH. repeat case_decide; congruence.
Qed.

Lemma map_set_keys m k vs :
  (map_set m k vs).*1 = if decide (k ∈ m.*1) then m.*1 else m.*1 ++ [k].
Proof.
  induction m as [|[k' vs'] m IH]; [done|]. cbn [map_set].
  destruct (decide (k' = k)) as [->|Hne]; rewrite !fmap_cons; cbn [fst].
  - by rewrite decide_True by constructor.
  - rewrite IH. destruct (decide (k ∈ m.*1)) as [Hin|Hni].
    + by rewrite decide_True by by constructor.
    + rewrite decide_False; [done|]. by intros [?|?]%elem_of_cons.
Qed.

(** A write keeps the keys of the map distinct. *)
Lemma map_set_NoDup m k vs : NoDup m.*1 -> NoDup (map_set m k vs).*1.
Proof.
  intros Hnd. rewrite map_set_keys. case_decide; [done|].
  apply NoDup_app. split_and!; [done| |apply NoDup_singleton].
  intros x Hx ->%list_elem_of_singleton. done.
Qed.

Lemma canonical_bytes_length up s : length (canonical_bytes up s) = length s.
Proof. revert up. induction s as [|c s IH]; intros up; simpl; [done|]. by rewrite IH. Qed.

(** A header that is set is read under the canonical form of its key. *)
Lemma Header_Set_get h key value :
  map_get (Header_Set h key value) (CanonicalMIMEHeaderKey key) = Some [value].
Proof. unfold Header_Set. rewrite map_get_set. by case_decide. Qed.

End header_lemmas.

(** ** The instance has the laws *)

Lemma mem_writer_laws : ResponseWriterLaws mem_writer.
Proof.
  split; try done; intros; simpl; unfold mem_WriteHeader, mem_WriteHeaderNow;
    repeat (case_match || case_bool_decide); simplify_eq/=; first [done|congruence].
Qed.

#[export] Existing Instance mem_writer_laws.
