(* ===== verification/Response.v ===== *)
(** * Response: the request and the response of a context

    The methods of [Context] in [src/unnamed/part_001] that read the
    request and write the response: [RequestBody], [ResponseBodySize],
    [Data], [Ok], [Json], [StatusJson], [getData], [isNilValue],
    [ClientIP] and [RemoteIP].

    - The context is the record [ctx] of [Context], with a writer of the
      class [ResponseWriter] for [writermem] and an [option] of a
      [request] for [Request], a pointer that may be [nil].
    - [request] has what the sources read of [http.Request].  Its body is
      a reader of a type [Body]; [ioutil.ReadAll] and [ioutil.NopCloser]
      are parameters.
    - An [interface{}] is [None] for [nil] and a type with a value of it
      otherwise ([iface]).  An [error] is a value of a type [E], with the
      methods [Code], [Message] and [Data] that [Data] and [getData] ask
      for by type assertions ([err_CodeMessage], [err_Data]).
    - What the JSON encoder is given is a [json_doc]: one of the two
      structs that [Data] and [Ok] build, or a value.  The encoding is a
      parameter [Marshal]. *)

From stdpp Require Import gmap.
From S2P Require Import Prelude Strconv Reflect Binding Tree Context Writer.

(** [const ContextKey] and [const ReqBodyKey]. *)
Definition ContextKey : gostring := bytes "_hapi/contextkey".
Definition ReqBodyKey : gostring := bytes "_hapi/requestBody".

(** [http.StatusOK], [http.StatusNotFound] and
    [http.StatusInternalServerError]. *)
Definition StatusOK : Z := 200.
Definition StatusNotFound : Z := 404.
Definition StatusInternalServerError : Z := 500.

(** What the sources read of [*http.Request]: [Method], [URL.Path],
    [URL.Query()], [Header], [Body] and [RemoteAddr]. *)
Record request (Body : Type) : Type := mkRequest {
  req_Method : gostring;
  req_Path : gostring;
  req_Query : values_map;
  req_Header : values_map;
  req_Body : option Body;
  req_RemoteAddr : gostring
}.

Arguments mkRequest {Body}.
Arguments req_Method {Body}.
Arguments req_Path {Body}.
Arguments req_Query {Body}.
Arguments req_Header {Body}.
Arguments req_Body {Body}.
Arguments req_RemoteAddr {Body}.

(** A value of type [interface{}]. *)
Definition iface (float opaque : Type) : Type := option (rtype * rvalue float opaque).

(** What [StatusJson] is given to encode: the struct of [Data], with the
    fields [code], [message] and [data,omitempty]; the struct of [Ok],
    with [code] and [message]; or a value of the caller. *)
Inductive json_doc (float opaque : Type) : Type :=
| DataBody (code : Z) (message : gostring) (data : iface float opaque)
| OkBody (code message : gostring)
| AnyDoc (data : iface float opaque).

Arguments DataBody {float opaque}.
Arguments OkBody {float opaque}.
Arguments AnyDoc {float opaque}.

(** The panic of Go on a [nil] pointer. *)
Definition nil_dereference {A} : result A :=
  Panic (PanicMsg (bytes "runtime error: invalid memory address or nil pointer dereference")).

(** A string between quotes. *)
Definition json_string (s : gostring) : gostring := quote :: s ++ [quote].

(** What [StatusJson] writes when the encoding fails: the object with
    the [code] [json-marshal-error] and the [message] [json marshal
    error]. *)
Definition json_marshal_error : gostring :=
  bytes "{" ++ json_string (bytes "code") ++ bytes ":" ++
  json_string (bytes "json-marshal-error") ++ bytes "," ++
  json_string (bytes "message") ++ bytes ":" ++
  json_string (bytes "json marshal error") ++ bytes "}".

Section response.
Context {HandlerFunc float64 Time other W Body float opaque E IP : Type}.
Context `{!ResponseWriter W}.

(** [ioutil.ReadAll]: the reader after the call, and the bytes or the
    error; [ioutil.NopCloser(bytes.NewBuffer(body))]. *)
Variable ReadAll : Body -> Body * (gostring + error).
Variable NopCloser : gostring -> Body.

(** What [json.Encoder.Encode] writes, or its error. *)
Variable Marshal : json_doc float opaque -> gostring + error.

(** [err.(interface { Code() uint; Message() string })], with what the
    methods return, and [err.(interface { Data() interface{} })]. *)
Variable err_CodeMessage : E -> option (Z * gostring).
Variable err_Data : E -> option (iface float opaque).

(** The constant [ServerErr], which the repository uses and does not
    declare. *)
Variable ServerErr : Z.

(** [IsNil] on a map, a channel or a function. *)
Variable opaque_IsNil : opaque -> bool.

(** [strings.TrimSpace], [net.SplitHostPort], [net.ParseIP] and
    [IP.String]. *)
Variable TrimSpace : gostring -> gostring.
Variable SplitHostPort : gostring -> gostring * gostring + error.
Variable ParseIP : gostring -> option IP.
Variable IP_String : IP -> gostring.

Abbreviation ctx := (ctx HandlerFunc float64 Time other W (option (request Body))).
Abbreviation any := (any float64 Time other).
Abbreviation iface := (iface float opaque).

(** ** The fields of the context that the methods write *)

Definition with_writer (c : ctx) (w : W) : ctx :=
  {| c_writermem := w; c_Request := c_Request c; c_handlers := c_handlers c;
     c_index := c_index c; c_Keys := c_Keys c; c_fullPath := c_fullPath c;
     c_data := c_data c |}.

Definition with_Request (c : ctx) (r : option (request Body)) : ctx :=
  {| c_writermem := c_writermem c; c_Request := r; c_handlers := c_handlers c;
     c_index := c_index c; c_Keys := c_Keys c; c_fullPath := c_fullPath c;
     c_data := c_data c |}.

Definition with_data (c : ctx) (data : option (gmap gostring any)) : ctx :=
  {| c_writermem := c_writermem c; c_Request := c_Request c; c_handlers := c_handlers c;
     c_index := c_index c; c_Keys := c_Keys c; c_fullPath := c_fullPath c;
     c_data := data |}.

(** [c.Request.Body = body]. *)
Definition with_Body (r : request Body) (body : option Body) : request Body :=
  mkRequest (req_Method r) (req_Path r) (req_Query r) (req_Header r) body (req_RemoteAddr r).

(** ** The request *)

(** [func (c *Context) RequestBody() ([]byte, error)]: the context after
    the call, the body and the error. *)
Definition RequestBody (c : ctx) : result (ctx * (slice ascii * option error)) :=
  match c_Request c with
  | None => nil_dereference
  | Some r =>
      match req_Body r with
      | None => Ok (c, (None, None))
      | Some body =>
          match default ∅ (c_data c) !! ReqBodyKey with
          | Some data => Ok (c, (match data with AnyBytes b => b | _ => None end, None))
          | None =>
              let '(body, read) := ReadAll body in
              match read with
              | inr err => Ok (with_Request c (Some (with_Body r (Some body))), (None, Some err))
              | inl bytes =>
                  let data := <[ReqBodyKey := AnyBytes (Some bytes)]> (default ∅ (c_data c)) in
                  let r := with_Body r (Some (NopCloser bytes)) in
                  Ok (with_Request (with_data c (Some data)) (Some r), (Some bytes, None))
              end
          end
      end
  end.

(** [func (c *Context) RemoteIP() string]. *)
Definition RemoteIP (c : ctx) : result gostring :=
  match c_Request c with
  | None => nil_dereference
  | Some r =>
      match SplitHostPort (TrimSpace (req_RemoteAddr r)) with
      | inr _ => Ok []
      | inl (ip, _) => Ok ip
      end
  end.

(** [func (c *Context) ClientIP() string]. *)
Definition ClientIP (c : ctx) : result gostring :=
  let* ip := RemoteIP c in
  match ParseIP ip with
  | None => Ok []
  | Some remoteIP => Ok (IP_String remoteIP)
  end.

(** ** The response *)

(** [func (c *Context) ResponseBodySize() int64]. *)
Definition ResponseBodySize (c : ctx) : Z :=
  match field_written (c_writermem c) with
  | Some s => s
  | None => 0
  end.

(** [v.IsNil()] on a pointer, a map, a slice or an interface. *)
Definition Value_IsNil (v : rvalue float opaque) : bool :=
  match v with
  | RPtr None | RSlice None | RIface None => true
  | ROther o => opaque_IsNil o
  | _ => false
  end.

(** [func isNilValue(itfc interface{}) bool]. *)
Definition isNilValue (itfc : iface) : bool :=
  match itfc with
  | None => false
  | Some (t, v) =>
      match kind_of t with
      | KPtr | KMap | KSlice | KInterface => Value_IsNil v
      | _ => false
      end
  end.

(** [func getData(data interface{}, err error, code int) interface{}]. *)
Definition getData (data : iface) (err : option E) (code : Z) : iface :=
  let of_data := if bool_decide (data ≠ None) && negb (isNilValue data) then data else None in
  match err with
  | Some err =>
      if decide (code ≠ StatusInternalServerError) then
        match err_Data err with
        | Some (Some d) => Some d
        | _ => of_data
        end
      else of_data
  | None => of_data
  end.

(** [func (c *Context) StatusJson(status int, data interface{})]. *)
Definition StatusJson (c : ctx) (status : Z) (data : json_doc float opaque) : ctx :=
  let w := c_writermem c in
  let w :=
    set_Header (Header_Set (Header_of w) (bytes "Content-Type")
                  (bytes "application/json; charset=utf-8")) w in
  let w :=
    match field_wroteHeader w with
    | Some true => w
    | _ => WriteHeader status w
    end in
  let w :=
    match Marshal data with
    | inl out =>
        let '(w, err) := Write out w in
        match err with
        | Some _ => (Write json_marshal_error w).1
        | None => w
        end
    | inr _ => (Write json_marshal_error w).1
    end in
  with_writer c w.

(** [func (c *Context) Data(data interface{}, err error)]. *)
Definition Data (c : ctx) (data : iface) (err : option E) : ctx :=
  let '(statusCode, code, message) :=
    match err with
    | None => (StatusOK, 0%Z, bytes "success")
    | Some e =>
        match err_CodeMessage e with
        | Some (code, message) =>
            if decide (code ≠ 0%Z) then (StatusOK, code, message)
            else (StatusInternalServerError, ServerErr, bytes "Server Error.")
        | None => (StatusInternalServerError, ServerErr, bytes "Server Error.")
        end
    end in
  StatusJson c statusCode (DataBody code message (getData data err statusCode)).

(** [func (c *Context) Ok(message string)]. *)
Definition Context_Ok (c : ctx) (message : gostring) : ctx :=
  StatusJson c StatusOK (OkBody (bytes "ok") message).

(** [func (c *Context) Json(data interface{})]. *)
Definition Json (c : ctx) (data : iface) : ctx :=
  StatusJson c StatusOK (AnyDoc data).

(** ** The context of the request

    [Context] is a [context.Context]: [Deadline], [Done], [Err] and
    [Value] ask the context of the request, a value of a type [RC] that
    [c.Request.Context()] returns, or [nil]. *)

Context {RC Chan K V : Type}.
Variable Request_Context : request Body -> option RC.
Variable RC_Deadline : RC -> Time * bool.
Variable RC_Done : RC -> option Chan.
Variable RC_Err : RC -> option error.
Variable zero_Time : Time.

(** A key of [Value], a value of type [any]: an [int], a [string], or a
    value of another type. *)
Inductive value_key : Type :=
| KeyInt (i : Z)
| KeyString (s : gostring)
| KeyOther (k : K).

(** What [Value] returns: the request, a pointer that may be [nil]; the
    context itself; a value of [Keys]; a value of the context of the
    request; or [nil]. *)
Inductive context_value : Type :=
| ValueRequest (r : option (request Body))
| ValueContext (c : ctx)
| ValueAny (v : any)
| ValueOther (v : V)
| ValueNil.

Variable RC_Value : RC -> value_key -> context_value.

(** [c.Request == nil || c.Request.Context() == nil], as the context
    when neither is. *)
Definition request_context (c : ctx) : option RC := c_Request c ≫= Request_Context.

(** [func (c *Context) Deadline() (deadline time.Time, ok bool)]. *)
Definition Deadline (c : ctx) : Time * bool :=
  match request_context c with
  | None => (zero_Time, false)
  | Some rc => RC_Deadline rc
  end.

(** [func (c *Context) Done() <-chan struct{}]. *)
Definition Done (c : ctx) : option Chan :=
  match request_context c with
  | None => None
  | Some rc => RC_Done rc
  end.

(** [func (c *Context) Err() error]. *)
Definition Err (c : ctx) : option error :=
  match request_context c with
  | None => None
  | Some rc => RC_Err rc
  end.

(** [func (c *Context) Value(key any) any]. *)
Definition Context_Value (c : ctx) (key : value_key) : context_value :=
  let of_request :=
    match request_context c with
    | None => ValueNil
    | Some rc => RC_Value rc key
    end in
  match key with
  | KeyInt 0 => ValueRequest (c_Request c)
  | KeyString keyAsString =>
      if decide (keyAsString = ContextKey) then ValueContext c
      else
        let '(val, exists_) := Context_Get c keyAsString in
        if exists_ then ValueAny val else of_request
  | _ => of_request
  end.

(** The errors that [Data] answers with the status 500: the errors
    without the methods [Code] and [Message], and those whose code is
    0. *)
Definition is_server_error (err : option E) : bool :=
  match err with
  | None => false
  | Some e =>
      match err_CodeMessage e with
      | Some (code, _) => bool_decide (code = 0%Z)
      | None => true
      end
  end.

End response.

Arguments value_key : clear implicits.
Arguments context_value : clear implicits.

(** ** Sample values *)

(** A reader that has the bytes it will return. *)
Definition sample_ReadAll (body : gostring) : gostring * (gostring + error) := ([], inl body).

(** A context with the request [POST /] of the body [body], and the
    call of [RequestBody] on it. *)
Definition sample_post (body : gostring) :
    Context.ctx unit unit unit unit unit (option (request gostring)) :=
  {| c_writermem := tt; c_Request := Some (mkRequest (bytes "POST") (bytes "/") [] []
                                             (Some body) []);
     c_handlers := None; c_index := -1; c_Keys := None; c_fullPath := []; c_data := None |}.

(** A context with the writer of gin, which has written nothing. *)
Definition sample_mem_ctx :
    Context.ctx unit unit unit unit mem_writer (option (request gostring)) :=
  {| c_writermem := mem_reset; c_Request := c_Request (sample_post []); c_handlers := None;
     c_index := -1; c_Keys := None; c_fullPath := []; c_data := None |}.

(** [Data] with an encoder that fails, for errors that are a code and
    a message. *)
Definition sample_Data :=
  Data (HandlerFunc := unit) (float64 := unit) (Time := unit) (other := unit)
    (Body := gostring) (float := unit) (opaque := unit) (E := Z * gostring)
    (fun _ => inr (ErrJSON [])) Some (fun _ => None) 500 (fun _ => false).

Definition sample_read_body :=
  RequestBody (HandlerFunc := unit) (float64 := unit) (Time := unit) (other := unit) (W := unit)
    sample_ReadAll id.

(** ** The body of the request *)

Section response_lemmas.
Context {HandlerFunc float64 Time other W Body float opaque E : Type}.
Context `{!ResponseWriter W}.
Variable ReadAll : Body -> Body * (gostring + error).
Variable NopCloser : gostring -> Body.
Variable Marshal : json_doc float opaque -> gostring + error.
Variable err_CodeMessage : E -> option (Z * gostring).
Variable err_Data : E -> option (iface float opaque).
Variable ServerErr : Z.
Variable opaque_IsNil : opaque -> bool.

Abbreviation ctx' := (Context.ctx HandlerFunc float64 Time other W (option (request Body))).
Abbreviation RequestBody' := (RequestBody (HandlerFunc := HandlerFunc) (float64 := float64)
                                (Time := Time) (other := other) (W := W) ReadAll NopCloser).
Abbreviation isNilValue' := (isNilValue opaque_IsNil).
Abbreviation getData' := (getData err_Data opaque_IsNil).

Implicit Types (c : ctx') (data : iface float opaque).

Lemma RequestBody_again c c' body :
  RequestBody' c = Ok (c', (body, None)) -> RequestBody' c' = Ok (c', (body, None)).
Proof.
  unfold RequestBody. destruct (c_Request c) as [r|] eqn:Hr; [|done].
  destruct (req_Body r) as [b|] eqn:Hb.
  - destruct (default ∅ (c_data c) !! ReqBodyKey) eqn:Hd.
    + intros [= <- <-]. by rewrite Hr, Hb, Hd.
    + destruct (ReadAll b) as [b' [bytes|err]]; intros [= <- <-]. simpl.
      by rewrite lookup_insert_eq.
  - intros [= <- <-]. by rewrite Hr, Hb.
Qed.

(** [C32] The body of a request is read once: when [RequestBody] has
    returned the body without an error, it returns the same bytes again
    and leaves the context as it is, without reading. *)
Theorem RequestBody_cached c c' body :
  RequestBody ReadAll NopCloser c = Ok (c', (body, None)) ->
  RequestBody ReadAll NopCloser c' = Ok (c', (body, None)).
Proof. apply RequestBody_again. Qed.

(** A context without a request makes [RequestBody] panic. *)
Lemma RequestBody_no_request c : c_Request c = None -> RequestBody' c = nil_dereference.
Proof. unfold RequestBody. by intros ->. Qed.

(** With a request [RequestBody] returns, and leaves a request. *)
Lemma RequestBody_returns c :
  is_Some (c_Request c) ->
  exists c' body err, RequestBody' c = Ok (c', (body, err)) /\ is_Some (c_Request c').
Proof.
  intros [r Hr]. unfold RequestBody. rewrite Hr.
  destruct (req_Body r) as [b|]; [|by eexists _, _, _; rewrite Hr].
  destruct (default ∅ (c_data c) !! ReqBodyKey); [by eexists _, _, _; rewrite Hr|].
  destruct (ReadAll b) as [b' [bytes|err]]; by eexists _, _, _.
Qed.

(** [RequestBody] changes the body of the request and [c.data], and
    nothing else of the context. *)
Lemma RequestBody_keeps c c' r :
  RequestBody' c = Ok (c', r) ->
  is_Some (c_Request c') /\ c_index c' = c_index c /\ c_handlers c' = c_handlers c /\
  c_writermem c' = c_writermem c /\ c_Keys c' = c_Keys c.
Proof.
  unfold RequestBody. destruct (c_Request c) as [rq|] eqn:Hr; [|done].
  destruct (req_Body rq) as [b|]; [|intros [= <- <-]; by rewrite Hr].
  destruct (default ∅ (c_data c) !! ReqBodyKey); [intros [= <- <-]; by rewrite Hr|].
  destruct (ReadAll b) as [b' [bytes|err]]; intros [= <- <-]; by split_and!.
Qed.

(** ** The data of the response *)

Lemma getData_no_error data code :
  getData' data None code = if isNilValue' data then None else data.
Proof.
  unfold getData. destruct data as [p|]; [|done].
  rewrite bool_decide_eq_true_2 by done. by destruct (isNilValue' (Some p)).
Qed.

(** What [getData] returns when there is no error is not a [nil]
    pointer, slice, map or interface behind an interface that is not
    [nil]: the field [data] is then left out of the JSON. *)
Lemma getData_not_nil data code : isNilValue' (getData' data None code) = false.
Proof. rewrite getData_no_error. by destruct (isNilValue' data) eqn:Hnil. Qed.

(** A response changes the writer of the context and nothing else. *)
Lemma StatusJson_writer c status doc :
  StatusJson Marshal c status doc = with_writer c (c_writermem (StatusJson Marshal c status doc)).
Proof. done. Qed.

Lemma Data_writer c data (err : option E) :
  Data Marshal err_CodeMessage err_Data ServerErr opaque_IsNil c data err =
  with_writer c (c_writermem (Data Marshal err_CodeMessage err_Data ServerErr opaque_IsNil
                                c data err)).
Proof.
  unfold Data. destruct err as [e|]; [destruct (err_CodeMessage e) as [[code msg]|]|];
    try case_decide; apply StatusJson_writer.
Qed.

End response_lemmas.

(** ** [Value] *)

Section value_lemmas.
Context {HandlerFunc float64 Time other W Body RC K V : Type}.
Variable Request_Context : request Body -> option RC.
Variable RC_Value :
  RC -> value_key K -> context_value HandlerFunc float64 Time other W Body V.

Abbreviation Value' := (Context_Value Request_Context RC_Value).
Implicit Types (c : Context.ctx HandlerFunc float64 Time other W (option (request Body))).
Implicit Types (key : gostring) (v : Context.any float64 Time other).

(** The key 0 is the request, and [ContextKey] the context itself. *)
Lemma Value_Request c : Value' c (KeyInt 0) = ValueRequest (c_Request c).
Proof. done. Qed.

Lemma Value_ContextKey c : Value' c (KeyString ContextKey) = ValueContext c.
Proof. done. Qed.

Lemma Context_Get_Set c key v : Context_Get (Context_Set c key v) key = (v, true).
Proof. unfold Context_Get, Context_Set. simpl. by rewrite lookup_insert_eq. Qed.

Lemma Context_Get_Set_ne c key key' v :
  key ≠ key' -> Context_Get (Context_Set c key v) key' = Context_Get c key'.
Proof.
  intros Hne. unfold Context_Get, Context_Set. simpl. rewrite lookup_insert_ne by done.
  by destruct (c_Keys c).
Qed.

(** [Value] finds what [Set] has stored: under a key that is not
    [ContextKey], [Value] returns the value that [Set] was given,
    whatever the context of the request has under the key; the other
    strings, [ContextKey] apart, are read as before. *)
Theorem Value_Set c key v key' :
  key ≠ ContextKey ->
  Value' (Context_Set c key v) (KeyString key) = ValueAny v /\
  (key' ≠ key -> key' ≠ ContextKey ->
   Value' (Context_Set c key v) (KeyString key') = Value' c (KeyString key')).
Proof.
  intros Hkey. unfold Context_Value. split.
  - by rewrite decide_False, Context_Get_Set by done.
  - intros Hne Hne'. rewrite !decide_False by done.
    by rewrite Context_Get_Set_ne by (by apply not_eq_sym).
Qed.

(** A value stored under [ContextKey] is not found by [Value], which
    returns the context. *)
Lemma Value_Set_ContextKey c v :
  Value' (Context_Set c ContextKey v) (KeyString ContextKey) =
  ValueContext (Context_Set c ContextKey v).
Proof. done. Qed.

End value_lemmas.

(** ** The writer of gin *)

Section response_mem.
Context {HandlerFunc float64 Time other Body float opaque E : Type}.
Variable Marshal : json_doc float opaque -> gostring + error.
Variable err_CodeMessage : E -> option (Z * gostring).
Variable err_Data : E -> option (iface float opaque).
Variable ServerErr : Z.
Variable opaque_IsNil : opaque -> bool.

Abbreviation mem_ctx :=
  (Context.ctx HandlerFunc float64 Time other mem_writer (option (request Body))).
Abbreviation StatusJson' := (StatusJson (HandlerFunc := HandlerFunc) (float64 := float64)
                               (Time := Time) (other := other) (Body := Body) Marshal).
Abbreviation Data' := (Data (HandlerFunc := HandlerFunc) (float64 := float64) (Time := Time)
                         (other := other) (Body := Body) Marshal err_CodeMessage err_Data
                         ServerErr opaque_IsNil).
Abbreviation json_type :=
  (fun w : mem_writer => Header_Set (mw_header w) (bytes "Content-Type")
                           (bytes "application/json; charset=utf-8")).
Abbreviation written doc := (match Marshal doc with inl out => out | inr _ => json_marshal_error end).

Implicit Types (c : mem_ctx) (doc : json_doc float opaque).

(** The struct behind [c.Writer] has no field [written]: the size of
    the body is always 0. *)
Lemma ResponseBodySize_mem c : ResponseBodySize c = 0%Z.
Proof. done. Qed.

(** The first response: the status and the headers are sent, and then
    the document, or the text of the error when it cannot be encoded. *)
Lemma StatusJson_first c status doc :
  mw_size (c_writermem c) = None -> mw_sent (c_writermem c) = None -> (0 < status)%Z ->
  c_writermem (StatusJson' c status doc) =
  mkWriter (json_type (c_writermem c)) (Some (length (written doc))) status (Some status)
    (json_type (c_writermem c)) (mw_body (c_writermem c) ++ written doc).
Proof.
  intros Hsize Hsent Hpos. unfold StatusJson. destruct (c_writermem c) as [h sz st sent sh b].
  simpl in *. subst. unfold mem_WriteHeader, mem_Written. simpl.
  rewrite (proj2 (Z.ltb_lt 0 status)) by done. simpl.
  destruct (st =? status)%Z eqn:Heq; [apply Z.eqb_eq in Heq as ->|]; simpl;
    by destruct (Marshal doc).
Qed.

(** A later response: the document is appended to what was written;
    the status and the headers that were sent stay. *)
Lemma StatusJson_later c status doc n :
  mw_size (c_writermem c) = Some n ->
  c_writermem (StatusJson' c status doc) =
  mkWriter (json_type (c_writermem c)) (Some (n + length (written doc)))
    (mw_status (c_writermem c)) (mw_sent (c_writermem c)) (mw_sent_header (c_writermem c))
    (mw_body (c_writermem c) ++ written doc).
Proof.
  intros Hsize. unfold StatusJson. destruct (c_writermem c) as [h sz st sent sh b].
  simpl in *. subst. unfold mem_WriteHeader, mem_Written. simpl.
  destruct ((0 <? status)%Z && negb (st =? status)%Z); simpl; by destruct (Marshal doc).
Qed.

(** The status of [Data]: on a writer that has sent nothing, [Data]
    sends 200 when there is no error and when the error has a code that
    is not 0, and 500 for every other error, whatever the data. *)
Theorem Data_status c data err :
  mw_size (c_writermem c) = None -> mw_sent (c_writermem c) = None ->
  mw_sent (c_writermem (Data' c data err)) =
  Some (if is_server_error err_CodeMessage err then StatusInternalServerError else StatusOK).
Proof.
  intros Hsize Hsent. unfold Data, is_server_error.
  destruct err as [e|]; [destruct (err_CodeMessage e) as [[code msg]|]|];
    try case_decide; rewrite ?bool_decide_eq_false_2, ?bool_decide_eq_true_2 by done;
    by rewrite StatusJson_first.
Qed.

(** A second response does not replace the first: when something
    was written, [StatusJson] appends its document to the body and
    changes neither the status nor the headers that were sent. *)
Theorem StatusJson_twice c status doc n :
  mw_size (c_writermem c) = Some n ->
  let w := c_writermem (StatusJson' c status doc) in
  mw_sent w = mw_sent (c_writermem c) /\ mw_sent_header w = mw_sent_header (c_writermem c) /\
  mw_body w = mw_body (c_writermem c) ++ written doc.
Proof. intros Hsize. by rewrite (StatusJson_later c status doc n). Qed.

End response_mem.

Lemma Data_status_witness :
  mw_sent (c_writermem (sample_Data sample_mem_ctx None (Some (7%Z, bytes "teapot")))) =
  Some (if is_server_error Some (Some (7%Z, bytes "teapot")) then StatusInternalServerError
        else StatusOK).
Proof. apply Data_status; reflexivity. Defined.

Lemma Value_Set_witness :
  Context_Value (K := unit) (V := unit) (RC := unit) (fun _ => None) (fun _ _ => ValueNil)
    (Context_Set (sample_post []) (bytes "user") (AnyString (bytes "ann")))
    (KeyString (bytes "user")) = ValueAny (AnyString (bytes "ann")) /\
  (bytes "role" ≠ bytes "user" -> bytes "role" ≠ ContextKey ->
   Context_Value (K := unit) (V := unit) (RC := unit) (fun _ => None) (fun _ _ => ValueNil)
     (Context_Set (sample_post []) (bytes "user") (AnyString (bytes "ann")))
     (KeyString (bytes "role")) =
   Context_Value (K := unit) (V := unit) (RC := unit) (fun _ => None) (fun _ _ => ValueNil)
     (sample_post []) (KeyString (bytes "role"))).
Proof. by apply (Value_Set (K := unit) (V := unit) (RC := unit)). Defined.

Lemma RequestBody_cached_witness :
  sample_read_body
    (with_Request
       (with_data (sample_post (bytes "{}"))
          (Some {[ReqBodyKey := AnyBytes (Some (bytes "{}"))]}))
       (Some (mkRequest (bytes "POST") (bytes "/") [] [] (Some (bytes "{}")) []))) =
  Ok (with_Request
        (with_data (sample_post (bytes "{}"))
           (Some {[ReqBodyKey := AnyBytes (Some (bytes "{}"))]}))
        (Some (mkRequest (bytes "POST") (bytes "/") [] [] (Some (bytes "{}")) [])),
      (Some (bytes "{}"), None)).
Proof.
  apply (RequestBody_cached sample_ReadAll id (sample_post (bytes "{}"))). reflexivity.
Defined.
