(* ===== verification/Handler.v ===== *)
(** * Handler: the response side of [src/convert.go], and [convertHandler]

    [convertHandler] makes a [HandlerFunc] of a function of a request
    struct and a response struct: it checks the two types when the route
    is registered ([newReqConvertFunc] of [Binding], [newRespWriteFunc]
    here), and the function it returns converts the request, calls the
    function of the user and writes the response struct with
    [Context.Data].

    - The handler that is registered is a [handler]: a function of a
      pointer to a context and nothing else, which is returned as it is,
      another value with its type, or the [nil] interface, on which
      [reflect.ValueOf(h).Type()] panics ([convertHandler_nil]).  The
      function that [convertHandler] returns for the latter is
      [run_converted] on the record [converted] of what it has captured.
    - The call of the function of the user, [val.Call], is the parameter
      [Call]: given the context, the request and the new response struct,
      it returns the context and the response struct, or panics.
    - [Type.Implements(errorType)] and the type assertion [e.(error)] are
      parameters ([Implements_error], [as_error]).
    - The context is served through [Binding]: [Request_Query] and
      [Request_Header] are [ctx.Request.URL.Query()] and
      [ctx.Request.Header], which panic without a request. *)

From stdpp Require Import gmap.
From S2P Require Import Prelude Strconv Reflect Setters Traverse Binding BindingReq Tree Context.
From S2P Require Import Mode Writer Response.

(** The types that [ValidateRespHeader] is sure to accept: a struct, or
    a pointer to one, in which a traversal can set the embedded pointers
    and reaches fields of kind string only. *)
Definition header_type_ok (typ : rtype) : bool :=
  is_struct (strip_ptr typ) && embedded_exported typ &&
  forallb (fun f => bool_decide (kind_of (Type_ f) = KString)) (flat_fields typ).

(** The response structs that can be written whatever the handler has
    left in them: no embedded pointer has an unexported name, and a field
    [Header] is a struct, not a pointer to one. *)
Definition resp_writable (typ : rtype) : bool :=
  embedded_exported typ &&
  forallb (fun f => negb (bool_decide (Name f = bytes "Header")) ||
                    is_struct (Type_ f) && embedded_exported (Type_ f)) (flat_fields typ).

(** The messages of the panics. *)
Definition resp_Error_msg : gostring :=
  bytes "resp.Error must be of " ++ json_string (bytes "error") ++ bytes " type.".
Definition resp_pointer_msg : gostring :=
  bytes "resp parameter of handler func must be a struct pointer.".

(** What the function that [convertHandler] returns has captured: the
    function of the user, the conversion of the request, the type of the
    response and, when the response is written, [hasCtx]. *)
Record converted (U : Type) : Type := mkConverted {
  cv_func : U;
  cv_req : reqConvert;
  cv_respTyp : rtype;
  cv_respWrite : option bool
}.

Arguments mkConverted {U}.
Arguments cv_func {U}.
Arguments cv_req {U}.
Arguments cv_respTyp {U}.
Arguments cv_respWrite {U}.

(** The argument [h interface{}] of [convertHandler]: a value of the
    type of the functions of a pointer to a context, another value with
    its type, or the [nil] interface. *)
Inductive handler (HandlerFunc U : Type) : Type :=
| Handler_func (h : HandlerFunc)
| Handler_value (t : rtype) (u : U)
| Handler_nil.

Arguments Handler_func {HandlerFunc U}.
Arguments Handler_value {HandlerFunc U}.
Arguments Handler_nil {HandlerFunc U}.

Section handler.
Context {HandlerFunc float64 Time other W Body float opaque E U : Type}.
Context `{!ResponseWriter W}.

Variable ParseFloat : gostring -> Z -> float + error.
Variable Unmarshal : rtype -> gostring -> rvalue float opaque ->
                     rvalue float opaque * option error.
Variable zero_float : float.
Variable zero_opaque : rtype -> opaque.
Variable Tag_Get : gostring -> gostring -> gostring.
Variable struct_tag_Lookup : gostring -> gostring -> gostring * bool.
Variable is_ContextPtr : rtype -> bool.
Variable ReadAll : Body -> Body * (gostring + error).
Variable NopCloser : gostring -> Body.
Variable Marshal : json_doc float opaque -> gostring + error.
Variable err_CodeMessage : E -> option (Z * gostring).
Variable err_Data : E -> option (iface float opaque).
Variable ServerErr : Z.
Variable opaque_IsNil : opaque -> bool.

(** [f.Type.Implements(errorType)], and the error that a value of a
    type that implements [error] is. *)
Variable Implements_error : rtype -> bool.
Variable as_error : rtype -> rvalue float opaque -> E.

Abbreviation ctx := (ctx HandlerFunc float64 Time other W (option (request Body))).
Abbreviation rvalue := (rvalue float opaque).
Abbreviation iface := (iface float opaque).
Abbreviation zero := (zero zero_float zero_opaque).
Abbreviation Traverse := (Traverse zero_float zero_opaque).

(** What [reflect.ValueOf(ctx)] holds. *)
Variable ValueOf_ctx : ctx -> rvalue.

(** [val.Call([]reflect.Value{req, resp})]: the context and the struct
    behind [resp] after the call. *)
Variable Call : U -> ctx -> rvalue -> rvalue -> result (ctx * rvalue).

(** ** The request of a context *)

(** [ctx.Request.URL.Query()] and [ctx.Request.Header]. *)
Definition Request_Query (c : ctx) : result values_map :=
  match c_Request c with
  | Some r => Ok (req_Query r)
  | None => nil_dereference
  end.

Definition Request_Header (c : ctx) : result values_map :=
  match c_Request c with
  | Some r => Ok (req_Header r)
  | None => nil_dereference
  end.

(** The function that [newReqConvertFunc] returns, on a context. *)
Definition convert_request (r : reqConvert) (c : ctx) : result (ctx * (rvalue + error)) :=
  reqConvertFunc ParseFloat Unmarshal zero_float zero_opaque Tag_Get struct_tag_Lookup
    is_ContextPtr Request_Query Request_Header (RequestBody ReadAll NopCloser) ValueOf_ctx r c.

(** ** Validation of the response struct *)

(** The callback of [ValidateRespHeader]. *)
Definition validate_resp_header_field : callback float opaque unit :=
  fun _ v f st =>
    if decide (kind_of (Type_ f) ≠ KString) then
      Panic (PanicMsg (bytes "resp.Header." ++ Name f ++ bytes ": type must be string."))
    else Ok (v, st, true).

(** What the callback checks of the field. *)
Definition check_header_field (f : field) (st : unit) : result unit :=
  if decide (kind_of (Type_ f) ≠ KString) then
    Panic (PanicMsg (bytes "resp.Header." ++ Name f ++ bytes ": type must be string."))
  else Ok st.

(** [func ValidateRespHeader(typ reflect.Type)]. *)
Definition ValidateRespHeader (typ : rtype) : result unit :=
  let typ := strip_ptr typ in
  if negb (is_struct typ) then
    Panic (PanicMsg (bytes "resp.Header must be struct or pointer to struct."))
  else
    let* _ := Traverse (flag_Elem flag_New) typ (zero typ) validate_resp_header_field tt in
    Ok tt.

(** The callback of [validateRespFields]; its state is [empty]. *)
Definition validate_resp_field (f : field) (empty : bool) : result bool :=
  let* _ :=
    if decide (Name f = bytes "Data") then Ok tt
    else if decide (Name f = bytes "Error") then
      if negb (Implements_error (Type_ f)) then Panic (PanicMsg resp_Error_msg) else Ok tt
    else if decide (Name f = bytes "Header") then ValidateRespHeader (Type_ f)
    else Panic (PanicMsg (bytes "Unknown field: resp." ++ Name f)) in
  Ok false.

(** [func validateRespFields(typ reflect.Type) bool]. *)
Definition validateRespFields (typ : rtype) : result bool :=
  TraverseType typ validate_resp_field true.

(** The fields that [validateRespFields] accepts: [Data], [Error] of a
    type that implements [error], and [Header] of a type that
    [ValidateRespHeader] accepts. *)
Definition resp_field_ok (f : field) : bool :=
  bool_decide (Name f = bytes "Data") ||
  bool_decide (Name f = bytes "Error") && Implements_error (Type_ f) ||
  bool_decide (Name f = bytes "Header") && is_ok (ValidateRespHeader (Type_ f)).

(** [func newRespWriteFunc(typ reflect.Type, hasCtx bool)]: the type of
    the response struct and, unless the struct is empty, what the
    function that is returned has captured. *)
Definition newRespWriteFunc (typ : rtype) (hasCtx : bool) : result (rtype * option bool) :=
  if negb (bool_decide (kind_of typ = KPtr)) then Panic (PanicMsg resp_pointer_msg)
  else
    let* typ := Elem typ in
    if negb (is_struct typ) then Panic (PanicMsg resp_pointer_msg)
    else
      let* empty := validateRespFields typ in
      if empty then Ok (typ, None) else Ok (typ, Some hasCtx).

(** ** Writing the response struct *)

(** The callback of [WriteRespHeader]; its state is the map of the
    headers. *)
Definition write_resp_header_field : callback float opaque values_map :=
  fun _ v f header =>
    let value := Value_String v in
    let header :=
      if decide (value ≠ []) then
        let key := (struct_tag_Lookup (Tag f) (bytes "header")).1 in
        let key := if decide (key = []) then Name f else key in
        Header_Set header key value
      else header in
    Ok (v, header, false).

(** [func WriteRespHeader(value reflect.Value, header http.Header)]: the
    value and the map after the call. *)
Definition WriteRespHeader (fl : flag) (t : rtype) (value : rvalue) (header : values_map) :
    result (rvalue * values_map) :=
  let* '(value, header, _) := Traverse fl t value write_resp_header_field header in
  Ok (value, header).

(** The callback of the function that [newRespWriteFunc] returns; its
    state is [data], [err] and the context. *)
Definition write_resp_field : callback float opaque (iface * option E * ctx) :=
  fun fl v f '(data, err, c) =>
    if decide (Name f = bytes "Error") then
      let* e := Value_Interface fl (Type_ f) v in
      match e with
      | Some (t, x) => Ok (v, (data, Some (as_error t x), c), true)
      | None => Ok (v, (data, err, c), true)
      end
    else if decide (Name f = bytes "Data") then
      let* d := Value_Interface fl (Type_ f) v in
      Ok (v, (d, err, c), true)
    else if decide (Name f = bytes "Header") then
      let* '(v, header) := WriteRespHeader fl (Type_ f) v (Header_of (c_writermem c)) in
      Ok (v, (data, err, with_writer c (set_Header header (c_writermem c))), true)
    else Ok (v, (data, err, c), true).

(** The function that [newRespWriteFunc] returns, [func(ctx *Context,
    resp reflect.Value)], on the struct [resp] of the type [t]. *)
Definition respWriteFunc (hasCtx : bool) (c : ctx) (t : rtype) (resp : rvalue) : result ctx :=
  if hasCtx && (0 <? ResponseBodySize c)%Z then Ok c
  else
    let* '(_, (data, err, c), _) :=
      Traverse (flag_Elem flag_New) t resp write_resp_field (None, None, c) in
    Ok (Data Marshal err_CodeMessage err_Data ServerErr opaque_IsNil c data err).

(** ** [convertHandler] *)

(** [func convertHandler(h interface{}, path string) HandlerFunc]: the
    handler itself, or what the function that is returned has
    captured.  [reflect.ValueOf(nil)] is the zero [Value], and its
    [Type()] panics. *)
Definition convertHandler (h : handler HandlerFunc U) (path : gostring) :
    result (HandlerFunc + converted U) :=
  match h with
  | Handler_func h => Ok (inl h)
  | Handler_value typ u =>
      match typ with
      | TFunc ins outs =>
          match ins, outs with
          | [req; resp], [] =>
              let* '(reqConvertFunc, hasCtx) := newReqConvertFunc is_ContextPtr req path in
              let* '(respTyp, respWriteFunc) := newRespWriteFunc resp hasCtx in
              Ok (inr (mkConverted u reqConvertFunc respTyp respWriteFunc))
          | [_; _], _ => Panic (PanicMsg (bytes "handler func must have no return values."))
          | _, _ => Panic (PanicMsg (bytes "handler func must have exactly two parameters."))
          end
      | _ => Panic (PanicMsg (bytes "handler must be a func."))
      end
  | Handler_nil => ValueError (bytes "reflect.Value.Type") KInvalid
  end.

(** The function that [convertHandler] returns, [func(ctx *Context)]. *)
Definition run_converted (cv : converted U) (c : ctx) : result ctx :=
  let* '(c, req) := convert_request (cv_req cv) c in
  match req with
  | inr _ => Panic (PanicMsg (bytes "args-err"))
  | inl req =>
      let resp := zero (cv_respTyp cv) in
      let* '(c, resp) := Call (cv_func cv) c req resp in
      match cv_respWrite cv with
      | Some hasCtx => respWriteFunc hasCtx c (cv_respTyp cv) resp
      | None => Ok c
      end
  end.

End handler.

(** ** The handlers of the example program

    [func main] of [src/unnamed/part_001] registers three functions of
    a pointer to [struct { Query IndexReq }] and a pointer to [struct {
    Data *IndexResp; Error error }].  The errors are those of
    [errors.New] and, for the samples, errors with a code and a message;
    the encoder writes structs of integers and strings. *)

(** [type IndexResp struct { Id int64 `json:"id"`; Name string
    `json:"name"` }], the type [error], the type of the values of
    [errors.New], and the response of the three handlers. *)
Definition IndexResp : rtype :=
  TStruct (bytes "main.IndexResp")
    [mkField (bytes "Id") (TBasic KInt64) (json_tag (bytes "id")) false;
     mkField (bytes "Name") (TBasic KString) (json_tag (bytes "name")) false].

Definition error_type : rtype := TOther KInterface (bytes "error").

Definition errorString : rtype :=
  TPtr (TStruct (bytes "errors.errorString") [mkField (bytes "s") (TBasic KString) [] false]).

Definition example_resp : rtype :=
  TStruct [] [mkField (bytes "Data") (TPtr IndexResp) [] false;
              mkField (bytes "Error") error_type [] false].

(** The type of the three functions. *)
Definition example_func_type : rtype := TFunc [TPtr example_req; TPtr example_resp] [].

(** The three functions: [/], [/err] and [/panic]. *)
Inductive example_func : Type := FuncIndex | FuncErr | FuncPanic.

(** The errors of the samples. *)
Inductive sample_error : Type :=
| ErrorString (s : gostring)
| CodeError (code : Z) (message : gostring).

Definition sample_err_CodeMessage (e : sample_error) : option (Z * gostring) :=
  match e with
  | CodeError code message => Some (code, message)
  | ErrorString _ => None
  end.

Definition sample_Implements_error (t : rtype) : bool :=
  match t with
  | TOther KInterface name => bool_decide (name = bytes "error")
  | TPtr (TStruct name _) => bool_decide (name = bytes "errors.errorString")
  | _ => false
  end.

Definition sample_as_error (t : rtype) (v : rvalue unit unit) : sample_error :=
  match v with
  | RPtr (Some (RStruct [RString s])) => ErrorString s
  | _ => ErrorString []
  end.

(** [errors.New(text)], in an interface. *)
Definition errors_New (text : gostring) : rvalue unit unit :=
  RIface (Some (errorString, RPtr (Some (RStruct [RString text])))).

(** The handlers of the example, function values that may be [nil]:
    what [convertHandler] has captured.  The context of the example has
    chains of them. *)
Definition example_HandlerFunc : Type := option (converted example_func).

Definition example_ctx : Type :=
  Context.ctx example_HandlerFunc unit unit unit mem_writer (option (request gostring)).

(** The bodies of the three functions: [resp.Data] becomes the pointer
    to [req.Query], converted to a pointer to [IndexResp]; [resp.Error =
    errors.New("dasda")]; and [panic("panic")]. *)
Definition example_Call (u : example_func) (c : example_ctx) (req resp : rvalue unit unit) :
    result (example_ctx * rvalue unit unit) :=
  match u with
  | FuncIndex =>
      match req, resp with
      | RPtr (Some (RStruct [query])), RStruct [_; e] => Ok (c, RStruct [RPtr (Some query); e])
      | _, _ => nil_dereference
      end
  | FuncErr =>
      match resp with
      | RStruct [d; _] => Ok (c, RStruct [d; errors_New (bytes "dasda")])
      | _ => nil_dereference
      end
  | FuncPanic => Panic (PanicMsg (bytes "panic"))
  end.

(** An encoder for the bodies of [Data]: [json.Marshal] on integers,
    strings without escapes, and structs and pointers to structs of
    them, with the names of the tags. *)
Definition json_basic (v : rvalue unit unit) : gostring :=
  match v with
  | RInt i | RUint i => FormatInt i
  | RString s => json_string s
  | RBool b => if b then bytes "true" else bytes "false"
  | _ => bytes "null"
  end.

Fixpoint json_fields (fs : list field) (vs : list (rvalue unit unit)) :
    list (gostring * gostring) :=
  match fs, vs with
  | f :: fs, v :: vs => (reference_Tag_Get (Tag f) (bytes "json"), json_basic v) :: json_fields fs vs
  | _, _ => []
  end.

(** [strings.Join]. *)
Fixpoint join (l : list gostring) (sep : gostring) : gostring :=
  match l with
  | [] => []
  | [s] => s
  | s :: l => s ++ sep ++ join l sep
  end.

(** The object of the keys and the encoded values of a list. *)
Definition json_object (l : list (gostring * gostring)) : gostring :=
  bytes "{" ++ join ((fun kv => json_string kv.1 ++ bytes ":" ++ kv.2) <$> l) (bytes ",") ++
  bytes "}".

Definition json_value (x : rtype * rvalue unit unit) : gostring :=
  match x with
  | (TPtr (TStruct _ fs), RPtr (Some (RStruct vs))) | (TStruct _ fs, RStruct vs) =>
      json_object (json_fields fs vs)
  | (_, v) => json_basic v
  end.

Definition example_Marshal (doc : json_doc unit unit) : gostring + error :=
  match doc with
  | DataBody code message data =>
      inl (json_object ([(bytes "code", FormatInt code);
                         (bytes "message", json_string message)] ++
                        match data with
                        | Some x => [(bytes "data", json_value x)]
                        | None => []
                        end) ++ newline)
  | OkBody code message =>
      inl (json_object [(bytes "code", json_string code);
                        (bytes "message", json_string message)] ++ newline)
  | AnyDoc (Some x) => inl (json_value x ++ newline)
  | AnyDoc None => inl (bytes "null" ++ newline)
  end.

(** The value that [ServerErr] has in the samples. *)
Definition sample_ServerErr : Z := 500.

(** [convertHandler] and the function it returns, in the example. *)
Definition example_convertHandler :=
  convertHandler (HandlerFunc := example_HandlerFunc) (U := example_func)
    tt (fun _ => tt) sample_is_ContextPtr sample_Implements_error.

Definition example_run_converted :=
  run_converted (HandlerFunc := example_HandlerFunc) (W := mem_writer)
    sample_ParseFloat sample_Unmarshal tt (fun _ => tt) reference_Tag_Get sample_Lookup
    sample_is_ContextPtr sample_ReadAll id example_Marshal sample_err_CodeMessage
    (fun _ => None) sample_ServerErr (fun _ => false) sample_as_error
    (fun _ => RPtr (Some (RStruct []))) example_Call.

(** What [convertHandler] returns for the functions of the example. *)
Definition example_converted (u : example_func) : converted example_func :=
  mkConverted u example_reqConvert example_resp (Some false).

(** A context that serves [GET /] with the parameters [query] of the
    URL, on a writer that has written nothing. *)
Definition example_get (query : values_map) : example_ctx :=
  {| c_writermem := mem_reset;
     c_Request := Some (mkRequest (bytes "GET") (bytes "/") query [] None []);
     c_handlers := None; c_index := -1; c_Keys := None; c_fullPath := []; c_data := None |}.

(** The tag [header:"name"], and a struct of two headers. *)
Definition header_tag (name : gostring) : gostring :=
  bytes "header:" ++ quote :: name ++ [quote].

Definition sample_headers : rtype :=
  TStruct []
    [mkField (bytes "Location") (TBasic KString) (header_tag (bytes "Location")) false;
     mkField (bytes "ETag") (TBasic KString) [] false].

(** A response with a pointer to the headers, and a response whose
    error has the type of a pointer, not the type [error]. *)
Definition sample_resp_headers : rtype :=
  TStruct [] [mkField (bytes "Header") (TPtr sample_headers) [] false].

Definition sample_resp_typed_error : rtype :=
  TStruct [] [mkField (bytes "Error") errorString [] false].

(** The function that [newRespWriteFunc] returns, in the example. *)
Definition example_respWriteFunc :=
  respWriteFunc (HandlerFunc := example_HandlerFunc) (float64 := unit) (Time := unit)
    (other := unit) (W := mem_writer) (Body := gostring) tt (fun _ => tt) sample_Lookup
    example_Marshal sample_err_CodeMessage (fun _ => None) sample_ServerErr (fun _ => false)
    sample_as_error.

(** The status that was sent and the body that was written, or the
    panic. *)
Definition answer (r : result example_ctx) : option Z * gostring + panic_value :=
  match r with
  | Ok c => inl (mw_sent (c_writermem c), mw_body (c_writermem c))
  | Panic v => inr v
  | OutOfFuel => inr (PanicMsg (bytes "out of fuel"))
  end.

(** ** Validation of the response struct *)

Section validation.
Context {float opaque : Type}.
Variable zero_float : float.
Variable zero_opaque : rtype -> opaque.
Variable Implements_error : rtype -> bool.

Implicit Types (f : field) (l : list field) (t typ : rtype) (empty : bool).
Abbreviation ValidateRespHeader' := (ValidateRespHeader zero_float zero_opaque).
Abbreviation validate_resp := (validate_resp_field zero_float zero_opaque Implements_error).
Abbreviation validateRespFields' :=
  (validateRespFields zero_float zero_opaque Implements_error).
Abbreviation resp_ok := (resp_field_ok zero_float zero_opaque Implements_error).

(** [resp_field_ok], by the cases of the switch. *)
Lemma resp_field_ok_cases f :
  resp_ok f =
  if decide (Name f = bytes "Data") then true
  else if decide (Name f = bytes "Error") then Implements_error (Type_ f)
  else if decide (Name f = bytes "Header") then is_ok (ValidateRespHeader' (Type_ f))
  else false.
Proof.
  unfold resp_field_ok.
  destruct (decide (Name f = bytes "Data")) as [HD|HD];
    [by rewrite (bool_decide_eq_true_2 _ HD)|].
  destruct (decide (Name f = bytes "Error")) as [HE|HE].
  { rewrite (bool_decide_eq_false_2 _ HD), (bool_decide_eq_true_2 _ HE),
      bool_decide_eq_false_2 by (by rewrite HE).
    cbn [orb andb]. by rewrite orb_false_r. }
  destruct (decide (Name f = bytes "Header")) as [HH|HH];
    rewrite (bool_decide_eq_false_2 _ HD), (bool_decide_eq_false_2 _ HE).
  - by rewrite (bool_decide_eq_true_2 _ HH).
  - by rewrite (bool_decide_eq_false_2 _ HH).
Qed.

Lemma validate_resp_field_ok f empty : resp_ok f = true -> validate_resp f empty = Ok false.
Proof.
  rewrite resp_field_ok_cases. unfold validate_resp_field. intros Hok.
  repeat case_decide; try done; [by rewrite Hok|].
  by destruct (ValidateRespHeader' (Type_ f)) as [[]| |].
Qed.

Lemma validate_resp_field_bad f empty :
  resp_ok f = false -> is_ok (validate_resp f empty) = false.
Proof.
  rewrite resp_field_ok_cases. unfold validate_resp_field. intros Hok.
  repeat case_decide; try done; [by rewrite Hok|].
  by destruct (ValidateRespHeader' (Type_ f)) as [[]| |].
Qed.

Lemma validate_resp_fold l empty r :
  result_fold validate_resp l empty = Ok r <->
  forallb resp_ok l = true /\ r = empty && bool_decide (l = []).
Proof.
  revert empty. induction l as [|f l IH]; intros empty; simpl.
  - rewrite andb_true_r. split; [by intros [= <-]|by intros [_ ->]].
  - rewrite andb_false_r. destruct (resp_ok f) eqn:Hok; simpl.
    + rewrite validate_resp_field_ok by done. simpl. rewrite IH. simpl. tauto.
    + apply (validate_resp_field_bad f empty) in Hok.
      destruct (validate_resp f empty); try done; simpl; split; (done || by intros []).
Qed.

Lemma validateRespFields_iff typ empty :
  wf_type typ = true -> is_struct (strip_ptr typ) = true ->
  validateRespFields' typ = Ok empty <->
  forallb resp_ok (flat_fields typ) = true /\ empty = bool_decide (flat_fields typ = []).
Proof.
  intros Hwf Hs. unfold validateRespFields. rewrite TraverseType_fold by done.
  apply validate_resp_fold.
Qed.

(** [C21] What [validateRespFields] accepts: on a well-formed struct type
    it returns exactly when every field that a traversal reaches is
    [Data], [Error] of a type that implements [error], or [Header] of a
    type that [ValidateRespHeader] accepts, and it returns [true] exactly
    when there is no such field; on every other struct it panics. *)
Theorem validateRespFields_spec typ empty :
  wf_type typ = true -> is_struct (strip_ptr typ) = true ->
  validateRespFields' typ = Ok empty <->
  forallb resp_ok (flat_fields typ) = true /\ empty = bool_decide (flat_fields typ = []).
Proof. apply validateRespFields_iff. Qed.

(** *** The headers *)

(** The check of the headers, folded over a list of fields, returns
    when they are all strings. *)
Lemma check_header_fold l :
  is_ok (result_fold check_header_field l tt) =
  forallb (fun f => bool_decide (kind_of (Type_ f) = KString)) l.
Proof.
  induction l as [|f l IH]; [done|]. simpl. unfold check_header_field at 1.
  destruct (decide (kind_of (Type_ f) ≠ KString)) as [Hne|Heq%dec_stable]; simpl.
  - by rewrite bool_decide_eq_false_2.
  - by rewrite bool_decide_eq_true_2.
Qed.

(** [ValidateRespHeader] traverses a new value of the type as
    [TraverseType] traverses the type: on a struct, or a pointer to one,
    in which the traversal can set the embedded pointers, it is the fold
    of the check over the fields that [TraverseType] reaches. *)
Lemma ValidateRespHeader_fold typ :
  wf_type typ = true -> is_struct (strip_ptr typ) = true -> embedded_exported typ = true ->
  ValidateRespHeader' typ = result_fold check_header_field (flat_fields typ) tt.
Proof.
  intros Hwf Hs He. unfold ValidateRespHeader. rewrite Hs. simpl.
  destruct (struct_cases typ Hwf Hs) as (n & fs & Heq & Hwf' & Hor). rewrite Heq.
  assert (flat_fields typ = flat_fields (TStruct n fs) /\
          embedded_exported (TStruct n fs) = true) as [-> He'] by (by destruct Hor as [-> | ->]).
  rewrite (Traverse_ext _ _ validate_resp_header_field (checking check_header_field))
    by (try done; intros; unfold validate_resp_header_field, checking, check_header_field;
        by case_decide).
  pose proof (Traverse_struct_checking zero_float zero_opaque check_header_field
                (flag_Elem flag_New) n fs (zero zero_float zero_opaque (TStruct n fs)) tt Hwf'
                He' eq_refl (zero_has_type _ _ _ Hwf')) as Hc.
  unfold checked in Hc.
  destruct (result_fold _ _ _) as [[]| |]; [|by rewrite Hc..].
  by destruct Hc as (v & -> & _).
Qed.

(** What [ValidateRespHeader] accepts: among the types in which a
    traversal can set the embedded pointers, the structs and pointers to
    structs whose fields are all strings, and no other. *)
Theorem ValidateRespHeader_spec typ :
  wf_type typ = true -> embedded_exported typ = true ->
  is_ok (ValidateRespHeader' typ) = header_type_ok typ.
Proof.
  intros Hwf He. unfold header_type_ok. rewrite He, andb_true_r.
  destruct (is_struct (strip_ptr typ)) eqn:Hs.
  - by rewrite ValidateRespHeader_fold, check_header_fold.
  - unfold ValidateRespHeader. by rewrite Hs.
Qed.

(** [ValidateRespHeader] accepts the structs of strings. *)
Lemma ValidateRespHeader_ok typ :
  wf_type typ = true -> header_type_ok typ = true -> ValidateRespHeader' typ = Ok tt.
Proof.
  intros Hwf Hok. apply andb_prop in Hok as Hok'. destruct Hok' as [[_ He]%andb_prop _].
  rewrite <- (ValidateRespHeader_spec typ Hwf He) in Hok.
  by destruct (ValidateRespHeader' typ) as [[]| |].
Qed.

End validation.

(** ** Writing the response struct, and the converted handler *)

Section writing.
Context {HandlerFunc float64 Time other W Body float opaque E U : Type}.
Context `{!ResponseWriter W}.
Variable ParseFloat : gostring -> Z -> float + error.
Variable Unmarshal : rtype -> gostring -> rvalue float opaque ->
                     rvalue float opaque * option error.
Variable zero_float : float.
Variable zero_opaque : rtype -> opaque.
Variable Tag_Get : gostring -> gostring -> gostring.
Variable struct_tag_Lookup : gostring -> gostring -> gostring * bool.
Variable is_ContextPtr : rtype -> bool.
Variable ReadAll : Body -> Body * (gostring + error).
Variable NopCloser : gostring -> Body.
Variable Marshal : json_doc float opaque -> gostring + error.
Variable err_CodeMessage : E -> option (Z * gostring).
Variable err_Data : E -> option (iface float opaque).
Variable ServerErr : Z.
Variable opaque_IsNil : opaque -> bool.
Variable Implements_error : rtype -> bool.
Variable as_error : rtype -> rvalue float opaque -> E.
Variable ValueOf_ctx :
  ctx HandlerFunc float64 Time other W (option (request Body)) -> rvalue float opaque.
Variable Call : U -> ctx HandlerFunc float64 Time other W (option (request Body)) ->
                rvalue float opaque -> rvalue float opaque ->
                result (ctx HandlerFunc float64 Time other W (option (request Body)) *
                        rvalue float opaque).

(** [json.Unmarshal] and [reflect.ValueOf] keep the types. *)
Hypothesis Unmarshal_has_type : forall t s v, has_type t v -> has_type t (Unmarshal t s v).1.
Hypothesis ValueOf_ctx_has_type :
  forall t c, is_ContextPtr t = true -> has_type t (ValueOf_ctx c).

Abbreviation ctx' := (ctx HandlerFunc float64 Time other W (option (request Body))).
Abbreviation served := (fun c : ctx' => is_Some (c_Request c)).
Abbreviation WriteRespHeader' := (WriteRespHeader zero_float zero_opaque struct_tag_Lookup).
Abbreviation write_resp_field' :=
  (write_resp_field (HandlerFunc := HandlerFunc) (float64 := float64) (Time := Time)
     (other := other) (Body := Body) zero_float zero_opaque struct_tag_Lookup as_error).
Abbreviation respWriteFunc' :=
  (respWriteFunc (HandlerFunc := HandlerFunc) (float64 := float64) (Time := Time)
     (other := other) (Body := Body) zero_float zero_opaque struct_tag_Lookup Marshal
     err_CodeMessage err_Data ServerErr opaque_IsNil as_error).
Abbreviation newRespWriteFunc' := (newRespWriteFunc zero_float zero_opaque Implements_error).
Abbreviation convertHandler' :=
  (convertHandler (HandlerFunc := HandlerFunc) (U := U) zero_float zero_opaque is_ContextPtr
     Implements_error).
Abbreviation run_converted' :=
  (run_converted ParseFloat Unmarshal zero_float zero_opaque Tag_Get struct_tag_Lookup
     is_ContextPtr ReadAll NopCloser Marshal err_CodeMessage err_Data ServerErr opaque_IsNil
     as_error ValueOf_ctx Call).
Abbreviation header_key f :=
  (if decide ((struct_tag_Lookup (Tag f) (bytes "header")).1 = []) then Name f
   else (struct_tag_Lookup (Tag f) (bytes "header")).1).

Implicit Types (c : ctx') (f : field) (l : list field) (t typ : rtype) (fl : flag).
Implicit Types (v : rvalue float opaque) (header : values_map).

(** *** The headers *)

Lemma write_resp_header_field_total l :
  total_on (fun _ : values_map => True)
    (write_resp_header_field (float := float) (opaque := opaque) struct_tag_Lookup) l.
Proof. intros fl v f st _ _ Hv _. by eexists _, _, _. Qed.

(** [WriteRespHeader] returns on a struct, and on a pointer to a struct
    that is not [nil]. *)
Lemma WriteRespHeader_returns fl t v header :
  wf_type t = true -> is_struct (strip_ptr t) = true -> embedded_exported t = true ->
  CanSet fl = true -> has_type t v -> v ≠ RPtr None ->
  exists v' header', WriteRespHeader' fl t v header = Ok (v', header') /\ has_type t v'.
Proof.
  intros Hwf Hs He Hc Hv Hnil. unfold WriteRespHeader.
  destruct (Traverse_returns zero_float zero_opaque (fun _ => True)
              (write_resp_header_field struct_tag_Lookup) fl t v header)
    as (v' & header' & go & -> & Hv' & _); try done; [apply write_resp_header_field_total|].
  by eexists _, _.
Qed.

Lemma WriteRespHeader_first_field fl n f fs v vs header :
  Anonymous f = false -> IsExported (Name f) = true ->
  WriteRespHeader' fl (TStruct n (f :: fs)) (RStruct (v :: vs)) header =
  Ok (RStruct (v :: vs),
      if decide (Value_String v ≠ []) then Header_Set header (header_key f) (Value_String v)
      else header).
Proof.
  intros Ha He. unfold WriteRespHeader.
  by rewrite (Traverse_first_false _ _ _ fl n f fs v vs header v
                (if decide (Value_String v ≠ [])
                 then Header_Set header (header_key f) (Value_String v) else header)).
Qed.

(** [C33] [WriteRespHeader] writes one header: the callback returns
    [false], so the traversal stops after the first field.  On a struct
    whose first field is exported and not embedded, the map has the
    string of that field, under the name of its tag [header] or under
    its own name, unless the string is empty; the other fields of the
    struct are not read. *)
Theorem WriteRespHeader_first fl n f fs v vs header :
  Anonymous f = false -> IsExported (Name f) = true ->
  WriteRespHeader' fl (TStruct n (f :: fs)) (RStruct (v :: vs)) header =
  Ok (RStruct (v :: vs),
      if decide (Value_String v ≠ []) then Header_Set header (header_key f) (Value_String v)
      else header).
Proof. apply WriteRespHeader_first_field. Qed.

(** A [nil] pointer to a struct with fields makes [WriteRespHeader]
    panic. *)
Lemma WriteRespHeader_nil fl n f fs header :
  WriteRespHeader' fl (TPtr (TStruct n (f :: fs))) (RPtr None) header =
  ValueError (bytes "reflect.Value.Field") KInvalid.
Proof. done. Qed.

(** *** The response

    What the handler keeps of the context around the function of the
    user: a property [inv] of the contexts with a request that a write
    to the writer and the reading of the body keep. *)

Section invariant.
Variable inv : ctx' -> Prop.
Hypothesis inv_request : forall c, inv c -> served c.
Hypothesis inv_writer : forall c w, inv c -> inv (with_writer c w).
Hypothesis inv_RequestBody :
  forall c c' r, inv c -> RequestBody ReadAll NopCloser c = Ok (c', r) -> inv c'.

Lemma write_resp_field_total l :
  (forall f, f ∈ l -> wf_type (Type_ f) = true /\
                      (Name f = bytes "Header" ->
                       is_struct (Type_ f) = true /\ embedded_exported (Type_ f) = true)) ->
  total_on (fun st => inv st.2) write_resp_field' l.
Proof.
  intros Hl fl v f [[data err] c] Hc Hin Hv HP. unfold write_resp_field.
  destruct (Hl f Hin) as [Hwf Hh].
  destruct (Value_Interface_CanSet fl (Type_ f) v Hc) as [x Hx].
  repeat case_decide; rewrite ?Hx; cbn [result_bind].
  - destruct x as [[t' x]|]; by eexists _, _, _.
  - by eexists _, _, _.
  - destruct (Hh ltac:(done)) as [Hs He].
    destruct (WriteRespHeader_returns fl (Type_ f) v (Header_of (c_writermem c)))
      as (v' & header' & -> & Hv'); try done.
    + by rewrite is_struct_strip_ptr.
    + apply has_type_struct_not_nil with (Type_ f); [by apply (bool_decide_eq_true_1 _)|done].
    + eexists _, _, _. split_and!; [done..|]. by apply inv_writer.
  - by eexists _, _, _.
Qed.

(** The function of [newRespWriteFunc] returns on every struct of a
    writable type. *)
Lemma respWriteFunc_returns hasCtx c t (resp : rvalue float opaque) :
  wf_type t = true -> is_struct t = true -> resp_writable t = true ->
  has_type t resp -> inv c ->
  exists c', respWriteFunc' hasCtx c t resp = Ok c' /\ inv c'.
Proof.
  intros Hwf Hs [He Hw]%andb_prop Hv Hinv. unfold respWriteFunc.
  destruct (hasCtx && _); [by eexists|].
  destruct (Traverse_returns zero_float zero_opaque (fun st => inv st.2) write_resp_field'
              (flag_Elem flag_New) t resp (None, None, c))
    as (v' & [[data err] c'] & go & -> & _ & Hc'); try done.
  - apply write_resp_field_total. intros f Hin.
    split; [by apply (flat_fields_wf t)|]. intros Hname.
    apply list_elem_of_In, (proj1 (forallb_forall _ _) Hw) in Hin.
    rewrite (bool_decide_eq_true_2 _ Hname) in Hin. by apply andb_prop in Hin.
  - by rewrite is_struct_strip_ptr.
  - apply has_type_struct_not_nil with t; [by apply (bool_decide_eq_true_1 _)|done].
  - cbn [result_bind]. eexists. split; [done|]. rewrite Data_writer. by apply inv_writer.
Qed.

Lemma Request_Query_served c : inv c -> exists m, Request_Query c = Ok m.
Proof. intros [r Hr]%inv_request. unfold Request_Query. rewrite Hr. by eexists. Qed.

Lemma Request_Header_served c : inv c -> exists m, Request_Header c = Ok m.
Proof. intros [r Hr]%inv_request. unfold Request_Header. rewrite Hr. by eexists. Qed.

Lemma RequestBody_served c :
  inv c -> exists c' body err, RequestBody ReadAll NopCloser c = Ok (c', (body, err)) /\ inv c'.
Proof.
  intros Hinv.
  destruct (RequestBody_returns ReadAll NopCloser c) as (c' & body & err & Hb & _);
    [by apply inv_request|].
  exists c', body, err. split; [done|]. by apply (inv_RequestBody c c' (body, err)).
Qed.

End invariant.

(** [C34] A [Header] that the function has left [nil] makes the handler
    panic: [validateRespFields] accepts a field [Header] of a pointer to
    a struct, [reflect.New] leaves it [nil], and [WriteRespHeader]
    traverses the fields of what it points to.  Nothing is written. *)
Theorem respWriteFunc_nil_Header hasCtx c n f fs m g gs vs :
  Name f = bytes "Header" -> Anonymous f = false -> Type_ f = TPtr (TStruct m (g :: gs)) ->
  hasCtx && (0 <? ResponseBodySize c)%Z = false ->
  respWriteFunc' hasCtx c (TStruct n (f :: fs)) (RStruct (RPtr None :: vs)) =
  ValueError (bytes "reflect.Value.Field") KInvalid.
Proof.
  intros Hn Ha Ht Hsize. unfold respWriteFunc. rewrite Hsize, Traverse_struct.
  cbn [visit_fields]. rewrite visit_call by (unfold embedded_struct; by rewrite Ha).
  unfold call, write_resp_field. rewrite Hn, Ht. by rewrite WriteRespHeader_nil.
Qed.

(** *** [convertHandler] *)

Lemma newRespWriteFunc_inv typ hasCtx respTyp rw :
  newRespWriteFunc' typ hasCtx = Ok (respTyp, rw) ->
  typ = TPtr respTyp /\ is_struct respTyp = true /\
  exists empty, validateRespFields zero_float zero_opaque Implements_error respTyp = Ok empty /\
                rw = if empty then None else Some hasCtx.
Proof.
  unfold newRespWriteFunc. destruct typ as [[]|elem| | | | |[] ?]; try done. simpl.
  destruct (is_struct elem) eqn:Hs; [|done]. simpl.
  intros (empty & Hv & Hrw)%result_bind_Ok. destruct empty; simplify_eq; by eauto.
Qed.

Lemma convertHandler_inv req resp u path cv :
  convertHandler' (Handler_value (TFunc [req; resp] []) u) path = Ok (inr cv) ->
  exists rc hasCtx respTyp rw,
    newReqConvertFunc is_ContextPtr req path = Ok (rc, hasCtx) /\
    newRespWriteFunc' resp hasCtx = Ok (respTyp, rw) /\
    cv = mkConverted u rc respTyp rw.
Proof.
  unfold convertHandler. intros ([rc hasCtx] & Hreq & H1)%result_bind_Ok.
  apply result_bind_Ok in H1 as ([respTyp rw] & Hresp & [= <-]). by eexists _, _, _, _.
Qed.

(** What [convertHandler] returns for a function of two parameters is
    never the function itself. *)
Lemma convertHandler_value req resp u path r :
  convertHandler' (Handler_value (TFunc [req; resp] []) u) path = Ok r -> exists cv, r = inr cv.
Proof.
  unfold convertHandler. intros ([rc hasCtx] & _ & H1)%result_bind_Ok.
  apply result_bind_Ok in H1 as ([respTyp rw] & _ & [= <-]). by eexists.
Qed.

(** The handlers that [convertHandler] rejects before it looks at the
    parameters: what is not a function, a function that has not two
    parameters, and a function with results. *)
Lemma convertHandler_rejects t (u : U) path :
  convertHandler' (Handler_value t u) path =
  match t with
  | TFunc [req; resp] [] => convertHandler' (Handler_value t u) path
  | TFunc [_; _] _ => Panic (PanicMsg (bytes "handler func must have no return values."))
  | TFunc _ _ => Panic (PanicMsg (bytes "handler func must have exactly two parameters."))
  | _ => Panic (PanicMsg (bytes "handler must be a func."))
  end.
Proof. by destruct t as [| | | | |[|? [|? []]] []|]. Qed.

(** A handler that is the [nil] interface makes [reflect] panic. *)
Lemma convertHandler_nil path :
  convertHandler' Handler_nil path =
  Panic (PanicMsg (bytes "reflect: call of reflect.Value.Type on zero Value")).
Proof. done. Qed.

(** The three ways in which a converted handler ends, with what it
    keeps of the context. *)
Lemma run_converted_returns (inv : ctx' -> Prop) req resp u path cv c :
  (forall c, inv c -> served c) -> (forall c w, inv c -> inv (with_writer c w)) ->
  (forall c c' r, inv c -> RequestBody ReadAll NopCloser c = Ok (c', r) -> inv c') ->
  wf_type req = true -> wf_type resp = true ->
  convertHandler' (Handler_value (TFunc [req; resp] []) u) path = Ok (inr cv) ->
  bindable (strip_ptr req) = true -> resp_writable (strip_ptr resp) = true ->
  (forall c rq rs c' rs', inv c -> has_type req rq -> has_type (strip_ptr resp) rs ->
     Call u c rq rs = Ok (c', rs') -> inv c' /\ has_type (strip_ptr resp) rs') ->
  inv c ->
  (exists c', run_converted' cv c = Ok c' /\ inv c') \/
  run_converted' cv c = Panic (PanicMsg (bytes "args-err")) \/
  exists c1 rq, has_type req rq /\ is_ok (Call u c1 rq (zero zero_float zero_opaque
                                                          (strip_ptr resp))) = false /\
    run_converted' cv c =
    let* _ := Call u c1 rq (zero zero_float zero_opaque (strip_ptr resp)) in OutOfFuel.
Proof.
  intros Hreqinv Hwinv Hbinv Hwf Hwf'
    (rc & hasCtx & respTyp & rw & Hreq & Hresp & ->)%convertHandler_inv Hb Hw Hcall Hinv.
  apply newRespWriteFunc_inv in Hresp as (-> & Hs & empty & _ & ->). simpl in *.
  destruct (reqConvertFunc_returns ParseFloat Unmarshal zero_float zero_opaque Tag_Get
              struct_tag_Lookup is_ContextPtr Request_Query Request_Header
              (RequestBody ReadAll NopCloser) ValueOf_ctx Unmarshal_has_type
              ValueOf_ctx_has_type inv (Request_Query_served inv Hreqinv)
              (Request_Header_served inv Hreqinv) (RequestBody_served inv Hreqinv Hbinv)
              req path rc hasCtx c)
    as (c1 & res & Hrun & Hs1 & Hty); try done.
  { by destruct (newReqConvertFunc_inv _ _ _ _ _ Hreq) as (todo & _ & -> & _). }
  unfold run_converted, convert_request. cbn [cv_req cv_func cv_respTyp cv_respWrite].
  rewrite Hrun. cbn [result_bind]. destruct res as [rq|err]; [|by right; left].
  specialize (Hty rq eq_refl).
  destruct (Call u c1 rq _) as [[c2 rs]|v|] eqn:HC; cbn [result_bind].
  - destruct (Hcall c1 rq _ c2 rs Hs1 Hty (zero_has_type _ _ _ Hwf') HC) as [Hs2 Hrs].
    left. destruct empty; [by eexists|]. by apply respWriteFunc_returns.
  - right; right. exists c1, rq. by rewrite HC.
  - right; right. exists c1, rq. by rewrite HC.
Qed.

(** [C14] A converted handler is safe: when [convertHandler] has accepted
    a function of a request and a response whose types can be bound and
    written, and the function keeps the types of its arguments, the
    handler that is registered serves every context that has a request.
    It returns, with what the function has left in the response written
    by [Data]; or it panics with [args-err], when the request cannot be
    converted; or the function itself does not return, and the handler
    ends as the function does.  Neither the conversion of the request
    nor the writing of the response panics. *)
Theorem run_converted_safe req resp u path cv c :
  wf_type req = true -> wf_type resp = true ->
  convertHandler' (Handler_value (TFunc [req; resp] []) u) path = Ok (inr cv) ->
  bindable (strip_ptr req) = true -> resp_writable (strip_ptr resp) = true ->
  (forall c rq rs c' rs', served c -> has_type req rq -> has_type (strip_ptr resp) rs ->
     Call u c rq rs = Ok (c', rs') -> served c' /\ has_type (strip_ptr resp) rs') ->
  served c ->
  (exists c', run_converted' cv c = Ok c' /\ served c') \/
  run_converted' cv c = Panic (PanicMsg (bytes "args-err")) \/
  exists c1 rq, has_type req rq /\ is_ok (Call u c1 rq (zero zero_float zero_opaque
                                                          (strip_ptr resp))) = false /\
    run_converted' cv c =
    let* _ := Call u c1 rq (zero zero_float zero_opaque (strip_ptr resp)) in OutOfFuel.
Proof.
  apply (run_converted_returns served); [done..|].
  intros c0 c' r _ Hb. by apply (RequestBody_keeps ReadAll NopCloser c0 c' r).
Qed.

End writing.

(** ** The example program *)

Lemma example_ValueOf_typed t (c : example_ctx) :
  sample_is_ContextPtr t = true -> has_type t (@RPtr unit unit (Some (RStruct []))).
Proof. by destruct t as [|[| | | |? [|]| |]| | | | |]. Qed.

(** The functions of the example keep the types of their arguments. *)
Lemma example_Call_typed u (c : example_ctx) rq rs c' rs' :
  is_Some (c_Request c) -> has_type (TPtr example_req) rq -> has_type example_resp rs ->
  example_Call u c rq rs = Ok (c', rs') ->
  is_Some (c_Request c') /\ has_type example_resp rs'.
Proof.
  intros Hs Hrq Hrs. destruct u; simpl; [| |done].
  - destruct rq as [| | | | |[[| | | | | | | |[|query []]| |]|]| | | | |]; try done.
    destruct rs as [| | | | | | | |[|d [|e []]]| |]; try done.
    intros [= <- <-]. split; [done|]. simpl in *. tauto.
  - destruct rs as [| | | | | | | |[|d [|e []]]| |]; try done.
    intros [= <- <-]. split; [done|]. simpl in *. tauto.
Qed.

(** The handlers of the example program: [convertHandler] accepts
    the three functions; [GET /?id=7&name=x] is answered with 200 and
    the parameters as the data; [/err] with 500 and [Server Error.],
    whatever the text of the error; the function of [/panic] panics
    with its own value; and a parameter [id] that is not a number makes
    the handler panic with [args-err], before the function is called. *)
Theorem example_handlers :
  (forall u, example_convertHandler (Handler_value example_func_type u) (bytes "/") =
             Ok (inr (example_converted u))) /\
  answer (example_run_converted (example_converted FuncIndex)
            (example_get [(bytes "id", [bytes "7"]); (bytes "name", [bytes "x"])])) =
    inl (Some 200%Z,
         json_object [(bytes "code", bytes "0"); (bytes "message", json_string (bytes "success"));
                      (bytes "data", json_object [(bytes "id", bytes "7");
                                                  (bytes "name", json_string (bytes "x"))])] ++
         newline) /\
  answer (example_run_converted (example_converted FuncErr) (example_get [])) =
    inl (Some 500%Z,
         json_object [(bytes "code", bytes "500");
                      (bytes "message", json_string (bytes "Server Error."))] ++ newline) /\
  answer (example_run_converted (example_converted FuncPanic) (example_get [])) =
    inr (PanicMsg (bytes "panic")) /\
  answer (example_run_converted (example_converted FuncIndex) (example_get sample_bad_query)) =
    inr (PanicMsg (bytes "args-err")).
Proof. split; [by intros []|]. repeat split; vm_compute; reflexivity. Qed.

(** An error of the type of a pointer is never [nil] for
    [Data]: a response struct whose field [Error] has the type of a
    pointer that implements [error], and not the type [error], is
    accepted by [newRespWriteFunc], and the response that the function
    has not touched is answered with 500 and [Server Error.]. *)
Theorem respWriteFunc_typed_nil :
  newRespWriteFunc tt (fun _ => tt) sample_Implements_error (TPtr sample_resp_typed_error)
    false = Ok (sample_resp_typed_error, Some false) /\
  answer (example_respWriteFunc false (example_get []) sample_resp_typed_error
            (zero tt (fun _ => tt) sample_resp_typed_error)) =
    inl (Some 500%Z,
         json_object [(bytes "code", bytes "500");
                      (bytes "message", json_string (bytes "Server Error."))] ++ newline).
Proof. split; vm_compute; reflexivity. Qed.

Lemma validateRespFields_spec_witness :
  validateRespFields tt (fun _ => tt) sample_Implements_error example_resp = Ok false <->
  forallb (resp_field_ok tt (fun _ => tt) sample_Implements_error) (flat_fields example_resp) =
    true /\
  false = bool_decide (flat_fields example_resp = []).
Proof. apply (validateRespFields_spec tt (fun _ => tt)); reflexivity. Defined.

Lemma WriteRespHeader_first_witness :
  WriteRespHeader tt (fun _ => tt) sample_Lookup sample_flag sample_headers
    (RStruct [RString (bytes "/x"); RString (bytes "abc")]) [] =
  Ok (RStruct [RString (bytes "/x"); RString (bytes "abc")],
      [(bytes "Location", [bytes "/x"])]).
Proof.
  exact (WriteRespHeader_first tt (fun _ => tt) sample_Lookup sample_flag []
           (mkField (bytes "Location") (TBasic KString) (header_tag (bytes "Location")) false)
           [mkField (bytes "ETag") (TBasic KString) [] false]
           (RString (bytes "/x")) [RString (bytes "abc")] [] eq_refl eq_refl).
Defined.

Lemma respWriteFunc_nil_Header_witness :
  newRespWriteFunc tt (fun _ => tt) sample_Implements_error (TPtr sample_resp_headers) false =
    Ok (sample_resp_headers, Some false) /\
  example_respWriteFunc false (example_get []) sample_resp_headers
    (zero tt (fun _ => tt) sample_resp_headers) =
  ValueError (bytes "reflect.Value.Field") KInvalid.
Proof.
  split; [vm_compute; reflexivity|].
  eapply (respWriteFunc_nil_Header (HandlerFunc := example_HandlerFunc)); reflexivity.
Defined.

Lemma run_converted_safe_witness :
  (exists c', example_run_converted (example_converted FuncIndex) (example_get sample_query) =
              Ok c' /\ is_Some (c_Request c')) \/
  example_run_converted (example_converted FuncIndex) (example_get sample_query) =
    Panic (PanicMsg (bytes "args-err")) \/
  exists c1 rq, has_type (TPtr example_req) rq /\
    is_ok (example_Call FuncIndex c1 rq (zero tt (fun _ => tt) example_resp)) = false /\
    example_run_converted (example_converted FuncIndex) (example_get sample_query) =
    let* _ := example_Call FuncIndex c1 rq (zero tt (fun _ => tt) example_resp) in OutOfFuel.
Proof.
  apply (run_converted_safe sample_ParseFloat sample_Unmarshal tt (fun _ => tt)
           reference_Tag_Get sample_Lookup sample_is_ContextPtr sample_ReadAll id
           example_Marshal sample_err_CodeMessage (fun _ => None) sample_ServerErr
           (fun _ => false) sample_Implements_error sample_as_error
           (fun _ => RPtr (Some (RStruct []))) example_Call sample_Unmarshal_typed
           example_ValueOf_typed (TPtr example_req) (TPtr example_resp) FuncIndex (bytes "/"));
    [reflexivity|reflexivity|vm_compute; reflexivity|reflexivity|reflexivity|
     apply example_Call_typed|by eexists].
Defined.
