(* ===== verification/Serve.v ===== *)
(** * Serve: the serving of a request

    [Engine.ServeHTTP], [handleHTTPRequest], [serveError], [Run],
    [Handler] and [allocateContext] of [src/unnamed/part_000].

    - The server is the engine and its pool of contexts, a list:
      [pool.Get] takes the first context or makes one, [pool.Put] adds one
      at the end.  One request is served at a time.  [sync.Pool] may
      also drop a context or return another one than the first; the
      theorems on a pool of at most one context do not depend on the
      choice.
    - The request that [ServeHTTP] is given is the request of
      [net/http], whose [URL] is never [nil]: [c.Request.URL.Path] is
      the field [req_Path] of the request, and only [c.Request] itself
      may be [nil].
    - [ServeHTTP] recovers from the panics of the handlers.  A panic of
      the model carries no state: [at_panic] is what the handlers had
      done to the context when they panicked, and the theorems hold for
      every [at_panic].
    - [fmt.Println(err)] is the panic value that [ServeHTTP] returns
      beside the context, and the error that [serveError] passes to
      [debugPrint] is the error that it returns.
    - [http.ListenAndServe] and the HTTP/2 handler are parameters of
      [Run]. *)

From stdpp Require Import gmap.
From S2P Require Import Prelude Strconv Utils Tree Mode Router Binding Context.
From S2P Require Import Writer Response.

(** [default404Body], [default405Body] and [default500Body]. *)
Definition default404Body : gostring := bytes "404 page not found".
Definition default405Body : gostring := bytes "405 method not allowed".
Definition default500Body : gostring := bytes "500 server err".

(** What [Engine.Handler] returns: the engine, or the engine behind the
    handler of [h2c]. *)
Inductive http_handler : Type :=
| EngineHandler
| H2CHandler.

Section serve.
Context {HandlerFunc float64 Time other W H Body : Type}.
Context `{!ResponseWriter W}.

(** What a handler does, as in [Context]. *)
Variable run : HandlerFunc ->
  (ctx HandlerFunc float64 Time other W (option (request Body)) ->
   result (ctx HandlerFunc float64 Time other W (option (request Body)))) ->
  ctx HandlerFunc float64 Time other W (option (request Body)) ->
  result (ctx HandlerFunc float64 Time other W (option (request Body))).

(** The zero value of [responseWriter] and [c.writermem.reset(w)], for a
    writer [w] of [net/http]. *)
Variable zero_writer : W.
Variable writermem_reset : H -> W -> W.

Abbreviation ctx := (ctx HandlerFunc float64 Time other W (option (request Body))).

(** ** The pool *)

(** The engine with its pool. *)
Record server : Type := mkServer {
  sv_engine : Engine HandlerFunc;
  sv_pool : list ctx
}.

(** [func (engine *Engine) allocateContext() *Context]. *)
Definition allocateContext : ctx :=
  {| c_writermem := zero_writer; c_Request := None; c_handlers := None; c_index := 0;
     c_Keys := None; c_fullPath := []; c_data := None |}.

(** [engine.pool.Get()]: a context of the pool, or a new one. *)
Definition pool_Get (pool : list ctx) : ctx * list ctx :=
  match pool with
  | c :: pool => (c, pool)
  | [] => (allocateContext, [])
  end.

(** ** Errors *)

(** [func serveError(c *Context, code int, defaultMessage []byte)]: the
    context, and the error of the write that [debugPrint] is given. *)
Definition serveError (c : ctx) (code : Z) (defaultMessage : gostring) : ctx * option error :=
  let w := set_status code (c_writermem c) in
  if Written w then (with_writer c w, None)
  else if decide (Status w = code) then
    let w := set_Header (map_set (Header_of w) (bytes "Content-Type")
                           [bytes "application/json"]) w in
    let '(w, err) := Write defaultMessage w in
    (with_writer c w, err)
  else (with_writer c (WriteHeaderNow w), None).

(** ** A request *)

(** [c.handlers = handlers]. *)
Definition with_handlers (c : ctx) (handlers : HandlersChain HandlerFunc) : ctx :=
  {| c_writermem := c_writermem c; c_Request := c_Request c; c_handlers := handlers;
     c_index := c_index c; c_Keys := c_Keys c; c_fullPath := c_fullPath c;
     c_data := c_data c |}.

(** [func (engine *Engine) handleHTTPRequest(c *Context)]. *)
Definition handleHTTPRequest (fuel : nat) (engine : Engine HandlerFunc) (c : ctx) : result ctx :=
  match c_Request c with
  | None => nil_dereference
  | Some r =>
      let* handlers := find_handlers (trees engine) (req_Method r) (req_Path r) in
      match handlers with
      | Some _ =>
          let* c := Next run fuel (with_handlers c handlers) in
          Ok (with_writer c (WriteHeaderNow (c_writermem c)))
      | None => Ok (serveError c StatusNotFound default404Body).1
      end
  end.

(** The first lines of [ServeHTTP]: the context that serves the request,
    and what is left of the pool. *)
Definition acquire (s : server) (w : H) (req : request Body) : ctx * list ctx :=
  let '(c, pool) := pool_Get (sv_pool s) in
  let c := with_writer c (writermem_reset w (c_writermem c)) in
  let c := with_Request c (Some req) in
  (reset c, pool).

(** [func (engine *Engine) ServeHTTP(w http.ResponseWriter, req
    *http.Request)]: the server and the context after the call, and the
    panic that was recovered.  The deferred function runs after
    [engine.pool.Put(c)], on the context that is in the pool. *)
Definition ServeHTTP (fuel : nat) (at_panic : ctx -> ctx) (s : server) (w : H)
    (req : request Body) : result (server * ctx * option panic_value) :=
  let '(c, pool) := acquire s w req in
  match handleHTTPRequest fuel (sv_engine s) c with
  | Ok c =>
      let c := (serveError c StatusInternalServerError default500Body).1 in
      Ok (mkServer (sv_engine s) (pool ++ [c]), c, None)
  | Panic v =>
      let c := (serveError (at_panic c) StatusInternalServerError default500Body).1 in
      Ok (mkServer (sv_engine s) pool, c, Some v)
  | OutOfFuel => OutOfFuel
  end.

(** ** The server *)

(** [func (engine *Engine) Handler() http.Handler]. *)
Definition Handler (engine : Engine HandlerFunc) : http_handler :=
  if negb (UseH2C engine) then EngineHandler else H2CHandler.

(** [func (engine *Engine) Run(addr string) (err error)]: what
    [debugPrint] prints, and the error of [http.ListenAndServe]. *)
Definition Run (ListenAndServe : gostring -> http_handler -> option error)
    (st : mode_state) (engine : Engine HandlerFunc) (addr : gostring) :
    list output * option error :=
  let address := resolveAddress addr in
  (debugPrint st (bytes "Listening and serving HTTP on %s" ++ newline) [VString address],
   ListenAndServe address (Handler engine)).

End serve.

Arguments server : clear implicits.

(** ** A sample server *)

(** Handlers that call [c.Ok(message)], panic, do nothing, call
    [c.Set(key, true)], and call [c.Ok] with [seen] when the key is set
    and with [new] when it is not. *)
Inductive sample_serve_handler : Type :=
| HOk (message : gostring)
| HPanic
| HSilent
| HRemember (key : gostring)
| HRecall (key : gostring).

Definition serve_ctx : Type :=
  ctx sample_serve_handler unit unit unit mem_writer (option (request unit)).

(** An encoder for the struct of [Ok]. *)
Definition sample_Marshal (doc : json_doc unit unit) : gostring + error :=
  match doc with
  | OkBody code message =>
      inl (bytes "{" ++ json_string (bytes "code") ++ bytes ":" ++ json_string code ++
           bytes "," ++ json_string (bytes "message") ++ bytes ":" ++ json_string message ++
           bytes "}" ++ newline)
  | _ => inr (ErrJSON (bytes "unsupported"))
  end.

Definition sample_serve_run (h : sample_serve_handler)
    (next : serve_ctx -> result serve_ctx) (c : serve_ctx) : result serve_ctx :=
  match h with
  | HOk message => Ok (Context_Ok sample_Marshal c message)
  | HPanic => Panic (PanicMsg (bytes "panic"))
  | HSilent => Ok c
  | HRemember key => Ok (Context_Set c key (AnyBool true))
  | HRecall key =>
      Ok (Context_Ok sample_Marshal c
            (if (Context_Get c key).2 then bytes "seen" else bytes "new"))
  end.

(** The zero value of the writer of gin. *)
Definition sample_zero_writer : mem_writer := mkWriter [] (Some 0) 0 None [] [].

Definition sample_ServeHTTP :=
  ServeHTTP sample_serve_run sample_zero_writer (fun (_ : unit) _ => mem_reset) 10 id.

(** The engine of a result, and the engine with five routes. *)
Definition engine_of {HandlerFunc} (r : result (Engine HandlerFunc)) : Engine HandlerFunc :=
  match r with
  | Ok e => e
  | _ => New
  end.

Definition sample_serve_engine : Engine sample_serve_handler :=
  engine_of (
    let* e := Engine_addRoute 10 New (bytes "GET") (bytes "/ok") (Some [HOk (bytes "hi")]) in
    let* e := Engine_addRoute 10 e (bytes "GET") (bytes "/panic") (Some [HPanic]) in
    let* e := Engine_addRoute 10 e (bytes "GET") (bytes "/silent") (Some [HSilent]) in
    let* e := Engine_addRoute 10 e (bytes "GET") (bytes "/remember")
                (Some [HRemember (bytes "user")]) in
    Engine_addRoute 10 e (bytes "GET") (bytes "/recall") (Some [HRecall (bytes "user")])).

Definition sample_server : server sample_serve_handler unit unit unit mem_writer unit :=
  mkServer sample_serve_engine [].

(** The request [GET path]. *)
Definition sample_get (path : gostring) : request unit :=
  mkRequest (bytes "GET") path [] [] None [].

(** The headers of a JSON response and of an error. *)
Definition json_header : values_map :=
  [(bytes "Content-Type", [bytes "application/json; charset=utf-8"])].
Definition error_header : values_map :=
  [(bytes "Content-Type", [bytes "application/json"])].

(** The writer at the end of a request, the length of the pool and the
    panic that was recovered. *)
Definition served_writer
    (r : result (server sample_serve_handler unit unit unit mem_writer unit * serve_ctx *
                 option panic_value)) : option (mem_writer * nat * option panic_value) :=
  match r with
  | Ok (s, c, p) => Some (c_writermem c, length (sv_pool s), p)
  | _ => None
  end.

(** The body that was written, and a request served by the server that
    an earlier request has left. *)
Definition served_body
    (r : result (server sample_serve_handler unit unit unit mem_writer unit * serve_ctx *
                 option panic_value)) : option gostring :=
  match r with
  | Ok (_, c, _) => Some (mw_body (c_writermem c))
  | _ => None
  end.

Definition serve_then
    (r : result (server sample_serve_handler unit unit unit mem_writer unit * serve_ctx *
                 option panic_value)) (req : request unit) :=
  let* '(s, _, _) := r in sample_ServeHTTP s tt req.

(** The server and the context that a request has left. *)
Definition served_server
    (r : result (server sample_serve_handler unit unit unit mem_writer unit * serve_ctx *
                 option panic_value)) :=
  match r with
  | Ok (s, _, _) => s
  | _ => sample_server
  end.

Definition served_ctx
    (r : result (server sample_serve_handler unit unit unit mem_writer unit * serve_ctx *
                 option panic_value)) : serve_ctx :=
  match r with
  | Ok (_, c, _) => c
  | _ => allocateContext sample_zero_writer
  end.

(** ** [serveError] *)

Section serve_lemmas.
Context {HandlerFunc float64 Time other W H Body : Type}.
Context `{!ResponseWriter W, !ResponseWriterLaws W}.

Variable run : HandlerFunc ->
  (ctx HandlerFunc float64 Time other W (option (request Body)) ->
   result (ctx HandlerFunc float64 Time other W (option (request Body)))) ->
  ctx HandlerFunc float64 Time other W (option (request Body)) ->
  result (ctx HandlerFunc float64 Time other W (option (request Body))).
Variable zero_writer : W.
Variable writermem_reset : H -> W -> W.

Abbreviation ctx' := (ctx HandlerFunc float64 Time other W (option (request Body))).
Abbreviation server' := (server HandlerFunc float64 Time other W Body).
Abbreviation ServeHTTP' := (ServeHTTP run zero_writer writermem_reset).
Abbreviation acquire' := (acquire zero_writer writermem_reset).
Abbreviation content_type :=
  (fun w : W => map_set (Header_of w) (bytes "Content-Type") [bytes "application/json"]).

Implicit Types (c : ctx') (w : H) (s : server') (req : request Body) (v : panic_value).

(** The status is the code, whatever branch is taken. *)
Lemma serveError_Status c code msg : Status (c_writermem (serveError c code msg).1) = code.
Proof.
  unfold serveError. destruct (Written _) eqn:Hw; simpl; [apply Status_set_status|].
  rewrite decide_True by apply Status_set_status.
  match goal with |- context [Write msg ?w] =>
    pose proof (Status_Write msg w) as Hs; destruct (Write msg w) as [w' err] end.
  simpl in *. by rewrite Hs, Status_set_Header, Status_set_status.
Qed.

(** After something was written, only the status changes. *)
Lemma serveError_written c code msg :
  Written (c_writermem c) = true ->
  serveError c code msg = (with_writer c (set_status code (c_writermem c)), None).
Proof. intros Hw. unfold serveError. by rewrite Written_set_status, Hw. Qed.

(** Before, the message is written with the content type of JSON; the
    last line of [serveError] is never reached. *)
Lemma serveError_fresh c code msg :
  Written (c_writermem c) = false ->
  (serveError c code msg).1 =
  with_writer c (Write msg (set_Header (content_type (c_writermem c))
                              (set_status code (c_writermem c)))).1.
Proof.
  intros Hw. unfold serveError.
  rewrite Written_set_status, Hw, decide_True, Header_of_set_status by apply Status_set_status.
  by destruct (Write _ _).
Qed.

Lemma serveError_Written c code msg : Written (c_writermem (serveError c code msg).1) = true.
Proof.
  destruct (Written (c_writermem c)) eqn:Hw.
  - rewrite serveError_written by done. simpl. by rewrite Written_set_status.
  - rewrite serveError_fresh by done. apply Written_Write.
Qed.

(** ** [ServeHTTP] *)

Lemma acquire_Request s w req : c_Request (acquire' s w req).1 = Some req.
Proof. unfold acquire. by destruct (pool_Get _ _). Qed.

Lemma acquire_writer s w req :
  c_writermem (acquire' s w req).1 =
  writermem_reset w (c_writermem (pool_Get zero_writer (sv_pool s)).1).
Proof. unfold acquire. by destruct (pool_Get _ _). Qed.

Lemma acquire_index s w req : c_index (acquire' s w req).1 = (-1)%Z.
Proof. unfold acquire. by destruct (pool_Get _ _). Qed.

(** Every request ends with the status 500 in the writer: the
    deferred function of [ServeHTTP] calls [serveError] with
    [http.StatusInternalServerError] whether the handlers have panicked
    or not, and [serveError] begins by setting the status. *)
Theorem ServeHTTP_status fuel at_panic s w req s' c p :
  ServeHTTP' fuel at_panic s w req = Ok (s', c, p) ->
  Status (c_writermem c) = StatusInternalServerError.
Proof.
  unfold ServeHTTP. destruct (acquire' s w req) as [c0 pool].
  destruct (handleHTTPRequest _ _ _ _) as [c1|v|]; intros [= <- <- <-];
    apply serveError_Status.
Qed.

(** Every request is answered: unless the handlers run for ever,
    [ServeHTTP] returns, whether they have panicked or not, and the
    headers of the response are written when it does. *)
Theorem ServeHTTP_answers fuel at_panic s w req :
  handleHTTPRequest run fuel (sv_engine s) (acquire' s w req).1 ≠ OutOfFuel ->
  exists s' c p, ServeHTTP' fuel at_panic s w req = Ok (s', c, p) /\
                 Written (c_writermem c) = true.
Proof.
  unfold ServeHTTP. destruct (acquire' s w req) as [c0 pool]. simpl.
  destruct (handleHTTPRequest _ _ _ _) as [c1|v|]; [| |done]; intros _;
    eexists _, _, _; (split; [done|apply serveError_Written]).
Qed.

(** [C30] [ServeHTTP] recovers from the panics of the handlers: when they
    panic before anything is written, the panic is printed, the body of
    the error 500 is written with the content type of JSON, and the
    context is not put back into the pool. *)
Theorem ServeHTTP_recovers fuel at_panic s w req v :
  handleHTTPRequest run fuel (sv_engine s) (acquire' s w req).1 = Panic v ->
  Written (c_writermem (at_panic (acquire' s w req).1)) = false ->
  exists c,
    ServeHTTP' fuel at_panic s w req = Ok (mkServer (sv_engine s) (acquire' s w req).2, c, Some v) /\
    c_writermem c =
      (Write default500Body
         (set_Header (content_type (c_writermem (at_panic (acquire' s w req).1)))
            (set_status StatusInternalServerError
               (c_writermem (at_panic (acquire' s w req).1))))).1.
Proof.
  intros Hp Hw. unfold ServeHTTP. destruct (acquire' s w req) as [c0 pool]. simpl in *.
  rewrite Hp. eexists. split; [done|]. by rewrite serveError_fresh.
Qed.

(** A request for which no route is registered is answered with
    [404 page not found], and the context goes back to the pool; the
    status that the writer remembers at the end is 500. *)
Theorem ServeHTTP_not_found fuel at_panic s w req :
  find_handlers (trees (sv_engine s)) (req_Method req) (req_Path req) = Ok None ->
  Written (c_writermem (acquire' s w req).1) = false ->
  exists c,
    ServeHTTP' fuel at_panic s w req =
      Ok (mkServer (sv_engine s) ((acquire' s w req).2 ++ [c]), c, None) /\
    c_writermem c =
      set_status StatusInternalServerError
        (Write default404Body
           (set_Header (content_type (c_writermem (acquire' s w req).1))
              (set_status StatusNotFound (c_writermem (acquire' s w req).1)))).1.
Proof.
  intros Hf Hw. unfold ServeHTTP, handleHTTPRequest.
  pose proof (acquire_Request s w req) as Hr.
  destruct (acquire' s w req) as [c0 pool]. simpl in *. rewrite Hr, Hf. simpl.
  eexists. split; [done|].
  rewrite serveError_written by apply serveError_Written.
  by rewrite serveError_fresh.
Qed.

(** What [ServeHTTP] makes of a chain that was found: the context that
    [Next] returns goes back to the pool with the header written and
    the status 500; a panic of [Next] is recovered. *)
Lemma ServeHTTP_found fuel at_panic s w req hs :
  find_handlers (trees (sv_engine s)) (req_Method req) (req_Path req) = Ok (Some hs) ->
  ServeHTTP' fuel at_panic s w req =
  match Next run fuel (with_handlers (acquire' s w req).1 (Some hs)) with
  | Ok c1 =>
      let c2 := with_writer c1 (set_status StatusInternalServerError
                                  (WriteHeaderNow (c_writermem c1))) in
      Ok (mkServer (sv_engine s) ((acquire' s w req).2 ++ [c2]), c2, None)
  | Panic v =>
      Ok (mkServer (sv_engine s) (acquire' s w req).2,
          (serveError (at_panic (acquire' s w req).1) StatusInternalServerError
             default500Body).1, Some v)
  | OutOfFuel => OutOfFuel
  end.
Proof.
  intros Hf. unfold ServeHTTP, handleHTTPRequest. pose proof (acquire_Request s w req) as Hr.
  destruct (acquire' s w req) as [c0 pool]. cbn [fst snd] in *. rewrite Hr, Hf. cbn [result_bind].
  destruct (Next _ _ _) as [c1|v|]; cbn [result_bind]; [|done..].
  by rewrite serveError_written by apply Written_WriteHeaderNow.
Qed.

(** What [ServeHTTP] does with a chain that was found, of handlers that
    do not call [Next]. *)
Lemma ServeHTTP_runs fuel at_panic s w req hs fs :
  find_handlers (trees (sv_engine s)) (req_Method req) (req_Path req) = Ok (Some hs) ->
  Forall2 (plain run) hs fs -> length hs <= 127 -> length hs <= fuel ->
  let c0 := with_handlers (acquire' s w req).1 (Some hs) in
  let c1 := run_all fs (inc_index c0) in
  let c2 := with_writer c1 (set_status StatusInternalServerError
                              (WriteHeaderNow (c_writermem c1))) in
  ServeHTTP' (S fuel) at_panic s w req =
    Ok (mkServer (sv_engine s) ((acquire' s w req).2 ++ [c2]), c2, None).
Proof.
  intros Hf Hp Hlen Hfuel. rewrite (ServeHTTP_found _ _ _ _ _ hs) by done.
  pose proof (acquire_index s w req) as Hi.
  by destruct (Next_runs run fuel (with_handlers (acquire' s w req).1 (Some hs)) hs fs)
    as [-> _].
Qed.

(** A request for a route that was registered runs the chain of
    the route: after [Engine.addRoute] of a chain of handlers that do not
    call [Next], [ServeHTTP] of a request for the method and the path
    runs the handlers in order on the context it has taken from the pool,
    writes the header, puts the context back and sets the status
    500. *)
Theorem ServeHTTP_registered fuel0 fuel at_panic e e' pool w req hs fs :
  wf_engine e -> Engine_addRoute fuel0 e (req_Method req) (req_Path req) (Some hs) = Ok e' ->
  Forall2 (plain run) hs fs -> length hs <= 127 -> length hs <= fuel ->
  let s := mkServer e' pool in
  let c1 := run_all fs (inc_index (with_handlers (acquire' s w req).1 (Some hs))) in
  let c2 := with_writer c1 (set_status StatusInternalServerError
                              (WriteHeaderNow (c_writermem c1))) in
  ServeHTTP' (S fuel) at_panic s w req = Ok (mkServer e' ((acquire' s w req).2 ++ [c2]), c2, None).
Proof.
  intros Hwf Hadd Hp Hlen Hfuel. apply ServeHTTP_runs; try done.
  by apply (Engine_addRoute_found fuel0 e).
Qed.

(** [C31] The keys of a request are found by the next one: the context
    that has served a request goes back to the pool with its [Keys], and
    neither [pool.Get] nor [reset] clears them. *)
Theorem ServeHTTP_keeps_Keys fuel at_panic s w req s' c w' req' :
  sv_pool s = [] ->
  ServeHTTP run zero_writer writermem_reset fuel at_panic s w req = Ok (s', c, None) ->
  c_Keys (acquire zero_writer writermem_reset s' w' req').1 = c_Keys c.
Proof.
  intros Hpool. unfold ServeHTTP, acquire. rewrite Hpool. simpl.
  destruct (handleHTTPRequest _ _ _ _) as [c1|v|]; intros [= <- <-]. done.
Qed.

End serve_lemmas.

(** ** The sample server *)

(** The requests of the sample server: a handler that calls [c.Ok]
    answers 200 with the JSON of its message; a path without a route is
    answered with 404; a handler that panics with 500, and its context
    is lost to the pool; a handler that writes nothing with 200 and no
    body.  In every case the writer ends with the status 500. *)
Theorem ServeHTTP_examples :
  served_writer (sample_ServeHTTP sample_server tt (sample_get (bytes "/ok"))) =
    Some (mkWriter json_header (Some 29) 500 (Some 200%Z) json_header
            (bytes "{" ++ json_string (bytes "code") ++ bytes ":" ++ json_string (bytes "ok") ++
             bytes "," ++ json_string (bytes "message") ++ bytes ":" ++
             json_string (bytes "hi") ++ bytes "}" ++ newline), 1, None) /\
  served_writer (sample_ServeHTTP sample_server tt (sample_get (bytes "/missing"))) =
    Some (mkWriter error_header (Some 18) 500 (Some 404%Z) error_header default404Body, 1, None) /\
  served_writer (sample_ServeHTTP sample_server tt (sample_get (bytes "/panic"))) =
    Some (mkWriter error_header (Some 14) 500 (Some 500%Z) error_header default500Body, 0,
          Some (PanicMsg (bytes "panic"))) /\
  served_writer (sample_ServeHTTP sample_server tt (sample_get (bytes "/silent"))) =
    Some (mkWriter [] (Some 0) 500 (Some 200%Z) [] [], 1, None).
Proof. repeat split; vm_compute; reflexivity. Qed.

(** A key that a handler sets while one request is served is found
    by the handler of the next request: after [GET /remember], the
    handler of [GET /recall] answers [seen]. *)
Theorem ServeHTTP_keys_leak :
  served_body (serve_then (sample_ServeHTTP sample_server tt (sample_get (bytes "/remember")))
                 (sample_get (bytes "/recall"))) =
  Some (bytes "{" ++ json_string (bytes "code") ++ bytes ":" ++ json_string (bytes "ok") ++
        bytes "," ++ json_string (bytes "message") ++ bytes ":" ++
        json_string (bytes "seen") ++ bytes "}" ++ newline) /\
  served_body (sample_ServeHTTP sample_server tt (sample_get (bytes "/recall"))) =
  Some (bytes "{" ++ json_string (bytes "code") ++ bytes ":" ++ json_string (bytes "ok") ++
        bytes "," ++ json_string (bytes "message") ++ bytes ":" ++
        json_string (bytes "new") ++ bytes "}" ++ newline).
Proof. split; vm_compute; reflexivity. Qed.

Lemma sample_HOk_plain message :
  plain sample_serve_run (HOk message) (fun c => Context_Ok sample_Marshal c message).
Proof. intros next c. by split_and!. Qed.

Lemma ServeHTTP_recovers_witness :
  exists c,
    sample_ServeHTTP sample_server tt (sample_get (bytes "/panic")) =
      Ok (mkServer sample_serve_engine [], c, Some (PanicMsg (bytes "panic"))) /\
    c_writermem c =
      mkWriter error_header (Some 14) 500 (Some 500%Z) error_header default500Body.
Proof.
  destruct (ServeHTTP_recovers sample_serve_run sample_zero_writer (fun _ _ => mem_reset) 10 id
              sample_server tt (sample_get (bytes "/panic")) (PanicMsg (bytes "panic")))
    as (c & Hc & Hw); [vm_compute; reflexivity..|].
  exists c. rewrite Hw. vm_compute in Hc |- *. by rewrite Hc.
Defined.

Lemma ServeHTTP_not_found_witness :
  exists c,
    sample_ServeHTTP sample_server tt (sample_get (bytes "/missing")) =
      Ok (mkServer sample_serve_engine [c], c, None) /\
    c_writermem c =
      mkWriter error_header (Some 18) 500 (Some 404%Z) error_header default404Body.
Proof.
  destruct (ServeHTTP_not_found sample_serve_run sample_zero_writer (fun _ _ => mem_reset) 10 id
              sample_server tt (sample_get (bytes "/missing")))
    as (c & Hc & Hw); [vm_compute; reflexivity..|].
  exists c. rewrite Hw. vm_compute in Hc |- *. by rewrite Hc.
Defined.

Lemma ServeHTTP_registered_witness :
  exists c,
    ServeHTTP sample_serve_run sample_zero_writer (fun _ _ => mem_reset) 2 id
      (mkServer (engine_of (Engine_addRoute 10 New (bytes "GET") (bytes "/ok")
                              (Some [HOk (bytes "hi")]))) [])
      tt (sample_get (bytes "/ok")) =
    Ok (mkServer (engine_of (Engine_addRoute 10 New (bytes "GET") (bytes "/ok")
                               (Some [HOk (bytes "hi")]))) [c], c, None).
Proof.
  eexists.
  apply (ServeHTTP_registered sample_serve_run sample_zero_writer (fun _ _ => mem_reset) 10 1
           id New _ [] tt (sample_get (bytes "/ok")) [HOk (bytes "hi")]
           [fun c => Context_Ok sample_Marshal c (bytes "hi")]);
    [by constructor|vm_compute; reflexivity|repeat constructor; apply sample_HOk_plain|
     simpl; lia..].
Defined.

Lemma ServeHTTP_answers_witness :
  exists s' c p,
    sample_ServeHTTP sample_server tt (sample_get (bytes "/panic")) = Ok (s', c, p) /\
    Written (c_writermem c) = true.
Proof.
  apply (ServeHTTP_answers sample_serve_run sample_zero_writer (fun _ _ => mem_reset) 10 id
           sample_server tt (sample_get (bytes "/panic"))).
  vm_compute. discriminate.
Defined.

Lemma ServeHTTP_keeps_Keys_witness :
  c_Keys (acquire sample_zero_writer (fun _ _ => mem_reset)
            (served_server (sample_ServeHTTP sample_server tt (sample_get (bytes "/remember"))))
            tt (sample_get (bytes "/recall"))).1 =
  c_Keys (served_ctx (sample_ServeHTTP sample_server tt (sample_get (bytes "/remember")))).
Proof.
  apply (ServeHTTP_keeps_Keys sample_serve_run sample_zero_writer (fun _ _ => mem_reset) 10 id
           sample_server tt (sample_get (bytes "/remember"))); vm_compute; reflexivity.
Defined.

Lemma ServeHTTP_status_witness :
  Status (c_writermem (served_ctx (sample_ServeHTTP sample_server tt
                                     (sample_get (bytes "/missing"))))) =
  StatusInternalServerError.
Proof.
  apply (ServeHTTP_status sample_serve_run sample_zero_writer (fun _ _ => mem_reset) 10 id
           sample_server tt (sample_get (bytes "/missing"))
           (served_server (sample_ServeHTTP sample_server tt (sample_get (bytes "/missing"))))
           _ None); vm_compute; reflexivity.
Defined.
