(* ===== verification/Server.v ===== *)
(** * Server: the requests of a server, one after another

    [http.ListenAndServe] calls [Engine.ServeHTTP] of
    [src/unnamed/part_000] once for every request.  Here the calls come
    one after another: a run of the server is a sequence of steps, each
    of them one call of [ServeHTTP] that has returned, labelled with the
    request and with what the call has left.

    - [serve_all] is the run as a function of the list of the requests;
      [serving] is the run as a relation, the closure of the steps
      [serves]; the two agree ([serve_all_serving], [serving_serve_all]).
    - The invariants of the server are proved by induction on the run:
      the engine does not change, the contexts of the pool have been
      answered, and the pool of a server that began with at most one
      context never has more than one.
    - Requests that are served at the same time share the pool through
      [sync.Pool]; they are the subject of [Race]. *)

From stdpp Require Import gmap.
From S2P Require Import Prelude Strconv Utils Tree Mode Router Binding Context.
From S2P Require Import Writer Response Serve.

Section server.
Context {HandlerFunc float64 Time other W H Body : Type}.
Context `{!ResponseWriter W}.
Variable run : HandlerFunc ->
  (ctx HandlerFunc float64 Time other W (option (request Body)) ->
   result (ctx HandlerFunc float64 Time other W (option (request Body)))) ->
  ctx HandlerFunc float64 Time other W (option (request Body)) ->
  result (ctx HandlerFunc float64 Time other W (option (request Body))).
Variable zero_writer : W.
Variable writermem_reset : H -> W -> W.
Variable fuel : nat.

Abbreviation ctx := (ctx HandlerFunc float64 Time other W (option (request Body))).
Abbreviation server := (server HandlerFunc float64 Time other W Body).

Variable at_panic : ctx -> ctx.

(** What a call of [ServeHTTP] is given, and what it leaves: the
    context at the end of the deferred function, and the panic that was
    recovered. *)
Record served : Type := mkServed {
  sd_writer : H;
  sd_request : request Body;
  sd_ctx : ctx;
  sd_panic : option panic_value
}.

(** The requests of a list, served one after another. *)
Fixpoint serve_all (s : server) (reqs : list (H * request Body)) :
    result (server * list served) :=
  match reqs with
  | [] => Ok (s, [])
  | (w, req) :: reqs =>
      let* '(s, c, p) := ServeHTTP run zero_writer writermem_reset fuel at_panic s w req in
      let* '(s, out) := serve_all s reqs in
      Ok (s, mkServed w req c p :: out)
  end.

(** One step of the server: a call of [ServeHTTP] that has returned. *)
Inductive serves : server -> served -> server -> Prop :=
| serves_request s w req s' c p :
    ServeHTTP run zero_writer writermem_reset fuel at_panic s w req = Ok (s', c, p) ->
    serves s (mkServed w req c p) s'.

(** A run of the server. *)
Inductive serving : server -> list served -> server -> Prop :=
| serving_nil s : serving s [] s
| serving_cons s ev s' evs s'' :
    serves s ev s' -> serving s' evs s'' -> serving s (ev :: evs) s''.

(** The servers that a run reaches from the engine [e] with an empty
    pool. *)
Definition reachable (e : Engine HandlerFunc) (s : server) : Prop :=
  exists evs, serving (mkServer e []) evs s.

(** A context that has been answered: the header is written, and the
    status that the writer remembers is 500. *)
Definition answered (c : ctx) : Prop :=
  Written (c_writermem c) = true /\ Status (c_writermem c) = StatusInternalServerError.

(** The invariant of the pool. *)
Definition pool_ok (s : server) : Prop := Forall answered (sv_pool s).

End server.

Arguments served : clear implicits.

(** ** The sample server, for the witnesses *)

(** Three requests for the sample server of [Serve]: a key is set, the
    handler panics, and the key is asked for. *)
Definition sample_requests : list (unit * request unit) :=
  [(tt, sample_get (bytes "/remember")); (tt, sample_get (bytes "/panic"));
   (tt, sample_get (bytes "/recall"))].

Definition sample_serve_all :=
  serve_all sample_serve_run sample_zero_writer (fun (_ : unit) _ => mem_reset) 10 id.

(** The server and the answers of a run. *)
Definition run_server
    (r : result (Serve.server sample_serve_handler unit unit unit mem_writer unit *
                 list (served sample_serve_handler unit unit unit mem_writer unit unit))) :=
  match r with
  | Ok (s, _) => s
  | _ => sample_server
  end.

Definition run_answers
    (r : result (Serve.server sample_serve_handler unit unit unit mem_writer unit *
                 list (served sample_serve_handler unit unit unit mem_writer unit unit))) :=
  match r with
  | Ok (_, out) => out
  | _ => []
  end.

(** ** Steps *)

Section server_lemmas.
Context {HandlerFunc float64 Time other W H Body : Type}.
Context `{!ResponseWriter W, !ResponseWriterLaws W}.
Variable run : HandlerFunc ->
  (Context.ctx HandlerFunc float64 Time other W (option (request Body)) ->
   result (Context.ctx HandlerFunc float64 Time other W (option (request Body)))) ->
  Context.ctx HandlerFunc float64 Time other W (option (request Body)) ->
  result (Context.ctx HandlerFunc float64 Time other W (option (request Body))).
Variable zero_writer : W.
Variable writermem_reset : H -> W -> W.
Variable fuel : nat.

Abbreviation ctx' := (Context.ctx HandlerFunc float64 Time other W (option (request Body))).
Abbreviation server' := (Serve.server HandlerFunc float64 Time other W Body).
Abbreviation served' := (served HandlerFunc float64 Time other W H Body).

Variable at_panic : ctx' -> ctx'.

Abbreviation ServeHTTP' := (ServeHTTP run zero_writer writermem_reset fuel at_panic).
Abbreviation serve_all' := (serve_all run zero_writer writermem_reset fuel at_panic).
Abbreviation serves' := (serves run zero_writer writermem_reset fuel at_panic).
Abbreviation serving' := (serving run zero_writer writermem_reset fuel at_panic).
Abbreviation reachable' := (reachable run zero_writer writermem_reset fuel at_panic).

Implicit Types (s : server') (c : ctx') (ev : served') (evs : list served').
Implicit Types (reqs : list (H * request Body)) (e : Engine HandlerFunc).

(** What one call of [ServeHTTP] does to the server: the engine is the
    same; the context is answered; and the pool is what was left of it
    after [pool.Get], with the context at its end unless the handlers
    have panicked. *)
Lemma ServeHTTP_step s w req s' c p :
  ServeHTTP' s w req = Ok (s', c, p) ->
  sv_engine s' = sv_engine s /\ answered c /\
  sv_pool s' = tail (sv_pool s) ++ (if p is Some _ then [] else [c]).
Proof.
  unfold ServeHTTP, acquire, pool_Get.
  destruct (sv_pool s) as [|c0 pool]; simpl;
    destruct (handleHTTPRequest _ _ _ _) as [c1|v|]; intros [= <- <- <-]; simpl;
    rewrite ?app_nil_r; (split_and!; [done|split; [apply serveError_Written
                                                   |apply serveError_Status]|done]).
Qed.

Lemma serves_step s ev s' :
  serves' s ev s' ->
  sv_engine s' = sv_engine s /\ answered (sd_ctx ev) /\
  sv_pool s' = tail (sv_pool s) ++ (if sd_panic ev is Some _ then [] else [sd_ctx ev]).
Proof. intros [s0 w req s1 c p Hs]. by apply (ServeHTTP_step s0 w req). Qed.

(** A step keeps the invariant of the pool, and the pool short. *)
Lemma serves_pool_ok s ev s' : serves' s ev s' -> pool_ok s -> pool_ok s'.
Proof.
  intros (_ & Ha & Hp)%serves_step Hok. unfold pool_ok in *. rewrite Hp.
  apply Forall_app. split; [by apply Forall_tail|].
  destruct (sd_panic ev); [apply Forall_nil_2|by apply Forall_singleton].
Qed.

Lemma serves_pool_length s ev s' :
  serves' s ev s' -> length (sv_pool s) <= 1 -> length (sv_pool s') <= 1.
Proof.
  intros (_ & _ & Hp)%serves_step Hlen. rewrite Hp, length_app.
  destruct (sv_pool s) as [|? []], (sd_panic ev); simpl in *; lia.
Qed.

(** [ServeHTTP] never panics: the deferred function recovers from
    every panic of the handlers. *)
Lemma ServeHTTP_no_panic s w req v : ServeHTTP' s w req ≠ Panic v.
Proof.
  unfold ServeHTTP. destruct (acquire _ _ _ _ _) as [c pool].
  by destruct (handleHTTPRequest _ _ _ _).
Qed.

(** ** Runs *)

Lemma serving_app s evs s' evs' s'' :
  serving' s evs s' -> serving' s' evs' s'' -> serving' s (evs ++ evs') s''.
Proof. induction 1; simpl; eauto using serving. Qed.

(** The function and the relation agree: the run of a list of requests
    is the run that [serve_all] computes. *)
Lemma serve_all_serving s reqs s' out :
  serve_all' s reqs = Ok (s', out) ->
  serving' s out s' /\ reqs = (fun ev => (sd_writer ev, sd_request ev)) <$> out.
Proof.
  revert s s' out. induction reqs as [|[w req] reqs IH]; intros s s' out; simpl.
  { intros [= <- <-]. split; [constructor|done]. }
  intros ([[s1 c] p] & Hs & ([s2 out'] & Hall & [= <- <-])%result_bind_Ok)%result_bind_Ok.
  destruct (IH _ _ _ Hall) as [Hrun ->]. split; [|done].
  econstructor; [|done]. by constructor.
Qed.

Lemma serving_serve_all s evs s' :
  serving' s evs s' ->
  serve_all' s ((fun ev => (sd_writer ev, sd_request ev)) <$> evs) = Ok (s', evs).
Proof.
  induction 1 as [s|s ev s' evs s'' [s0 w req s1 c p Hs] _ IH]; [done|].
  rewrite fmap_cons. cbn [serve_all sd_writer sd_request]. rewrite Hs. cbn [result_bind].
  by rewrite IH.
Qed.

(** A server is deterministic: the requests determine the run. *)
Lemma serving_deterministic s evs1 s1 evs2 s2 :
  serving' s evs1 s1 -> serving' s evs2 s2 ->
  (fun ev => (sd_writer ev, sd_request ev)) <$> evs1 =
  (fun ev => (sd_writer ev, sd_request ev)) <$> evs2 ->
  evs1 = evs2 /\ s1 = s2.
Proof.
  intros H1%serving_serve_all H2%serving_serve_all Heq. rewrite Heq, H2 in H1.
  by injection H1 as -> ->.
Qed.

(** The server never panics; it stops only when a handler does not
    return. *)
Lemma serve_all_no_panic s reqs v : serve_all' s reqs ≠ Panic v.
Proof.
  revert s. induction reqs as [|[w req] reqs IH]; intros s; cbn [serve_all]; [done|].
  destruct (ServeHTTP' s w req) as [[[s1 c] p]|v'|] eqn:Hs; cbn [result_bind].
  - specialize (IH s1). by destruct (serve_all' s1 reqs) as [[]| |].
  - by destruct (ServeHTTP_no_panic s w req v').
  - done.
Qed.

(** ** The invariants of a run *)

(** Every run keeps the engine, and with it the routes. *)
Lemma serving_engine s evs s' : serving' s evs s' -> sv_engine s' = sv_engine s.
Proof.
  induction 1 as [|s ev s' evs s'' (He & _)%serves_step _ IH]; [done|]. by rewrite IH.
Qed.

Lemma serving_pool_ok s evs s' : serving' s evs s' -> pool_ok s -> pool_ok s'.
Proof. induction 1; eauto using serves_pool_ok. Qed.

Lemma serving_pool_length s evs s' :
  serving' s evs s' -> length (sv_pool s) <= 1 -> length (sv_pool s') <= 1.
Proof. induction 1; eauto using serves_pool_length. Qed.

(** Every request of a run is answered. *)
Lemma serving_answered s evs s' :
  serving' s evs s' -> Forall (fun ev => answered (sd_ctx ev)) evs.
Proof.
  induction 1 as [|s ev s' evs s'' (_ & Ha & _)%serves_step _ IH]; by constructor.
Qed.

(** [C26] The invariant of the server.  In every server that a run
    reaches from an engine with an empty pool, the engine is the one
    that was started, so that every route is found as it was
    registered; the pool holds at most one context; and the contexts of
    the pool have been answered: their header is written, and their
    status is 500. *)
Theorem reachable_invariant e s :
  reachable run zero_writer writermem_reset fuel at_panic e s ->
  sv_engine s = e /\ length (sv_pool s) <= 1 /\ pool_ok s /\
  forall m p, find_handlers (trees (sv_engine s)) m p = find_handlers (trees e) m p.
Proof.
  intros [evs Hrun].
  pose proof (serving_engine _ _ _ Hrun) as He. simpl in He.
  split_and!; [done| | |by rewrite He].
  - apply (serving_pool_length _ _ _ Hrun). simpl. lia.
  - apply (serving_pool_ok _ _ _ Hrun). constructor.
Qed.

(** [C15] The requests of a list are all answered.  When no handler
    runs for ever, [serve_all] returns; its answers are one for each
    request, in order, each with the header written and the status 500;
    and it is the run of the server on these requests. *)
Theorem serve_all_answers s reqs :
  serve_all run zero_writer writermem_reset fuel at_panic s reqs ≠ OutOfFuel ->
  exists s' out,
    serve_all run zero_writer writermem_reset fuel at_panic s reqs = Ok (s', out) /\
    serving' s out s' /\
    reqs = (fun ev => (sd_writer ev, sd_request ev)) <$> out /\
    Forall (fun ev => answered (sd_ctx ev)) out.
Proof.
  intros Hfuel. pose proof (serve_all_no_panic s reqs) as Hpanic.
  destruct (serve_all' s reqs) as [[s' out]|v|] eqn:Hall; [|by destruct (Hpanic v)|done].
  destruct (serve_all_serving _ _ _ _ Hall) as [Hrun Hreqs].
  exists s', out. split_and!; [done..|]. by apply (serving_answered s out s').
Qed.

End server_lemmas.

(** ** The sample server *)

(** The three requests of the sample: the run returns, the context of
    the first request is lost with the panic of the second, and the
    third request does not find the key of the first. *)
Theorem sample_requests_served :
  length (sv_pool (run_server (sample_serve_all sample_server sample_requests))) = 1 /\
  (fun ev => (sd_panic ev, mw_sent (c_writermem (sd_ctx ev)))) <$>
    run_answers (sample_serve_all sample_server sample_requests) =
  [(None, Some 200%Z); (Some (PanicMsg (bytes "panic")), Some 500%Z); (None, Some 200%Z)] /\
  mw_body (c_writermem (sd_ctx (default (mkServed tt (sample_get []) (allocateContext
             sample_zero_writer) None)
     (last (run_answers (sample_serve_all sample_server sample_requests)))))) =
  bytes "{" ++ json_string (bytes "code") ++ bytes ":" ++ json_string (bytes "ok") ++
  bytes "," ++ json_string (bytes "message") ++ bytes ":" ++
  json_string (bytes "new") ++ bytes "}" ++ newline.
Proof. repeat split; vm_compute; reflexivity. Qed.

Lemma reachable_invariant_witness :
  sv_engine (run_server (sample_serve_all sample_server sample_requests)) =
    sample_serve_engine /\
  length (sv_pool (run_server (sample_serve_all sample_server sample_requests))) <= 1 /\
  pool_ok (run_server (sample_serve_all sample_server sample_requests)) /\
  forall m p,
    find_handlers
      (trees (sv_engine (run_server (sample_serve_all sample_server sample_requests)))) m p =
    find_handlers (trees sample_serve_engine) m p.
Proof.
  apply (reachable_invariant sample_serve_run
           sample_zero_writer (fun (_ : unit) _ => mem_reset) 10 id).
  exists (run_answers (sample_serve_all sample_server sample_requests)).
  refine (proj1 (serve_all_serving sample_serve_run sample_zero_writer
                   (fun (_ : unit) _ => mem_reset) 10 id sample_server sample_requests
                   _ _ _)).
  vm_compute. reflexivity.
Defined.

Lemma serve_all_answers_witness :
  exists s' out,
    sample_serve_all sample_server sample_requests = Ok (s', out) /\
    serving sample_serve_run sample_zero_writer (fun (_ : unit) _ => mem_reset) 10 id
      sample_server out s' /\
    sample_requests = (fun ev => (sd_writer ev, sd_request ev)) <$> out /\
    Forall (fun ev => answered (sd_ctx ev)) out.
Proof.
  apply (serve_all_answers sample_serve_run
           sample_zero_writer (fun (_ : unit) _ => mem_reset) 10 id sample_server
           sample_requests).
  vm_compute. discriminate.
Defined.
