(* ===== verification/Race.v ===== *)
(** * Race: two requests and one context

    [Engine.ServeHTTP] of [src/unnamed/part_000] puts the context back
    into the pool at the end of its body, and its deferred function,
    which runs after the body, calls [serveError] on the context.
    Between the two, the context is in the pool and in the hands of the
    goroutine.  Here [ServeHTTP] is cut into its five steps, the
    goroutines of several requests take their steps in any order, and
    the contexts live in a memory that the goroutines share.

    - The memory is the list of the contexts that were allocated; an
      address is an index of the list.  The pool is a list of
      addresses.  An address is never dangling ([shared_ok]), and a
      lookup outside the list gives a new context.
    - The handlers of a request run in one step: the interleavings of
      the handlers themselves are not modelled.
    - A goroutine that has returned takes no further step.
    - One goroutine alone does what [Serve.ServeHTTP] does
      ([ServeHTTP_steps_refines]), and goroutines that step one after
      another do what [Server.serve_all] does ([sequential_serve_all]).
      No schedule makes the server panic; a goroutine that is given its
      five steps returns, whatever the others do in between; and when
      all have returned, every context has been answered and the pool
      has every context but those of the requests whose handlers have
      panicked ([every_request_returns], with the invariant
      [serving_ok]).  Along every interleaving a context
      that a goroutine owns is owned by no other ([own_context]); after
      [engine.pool.Put(c)] the goroutine owns it no more, and the
      deferred function writes into the context of the request that has
      taken it since ([Put_before_deferred], [sample_overtaken]). *)

From stdpp Require Import gmap.
From S2P Require Import Prelude Strconv Utils Tree Mode Router Binding Context.
From S2P Require Import Writer Response Serve Server.

Section race.
Context {HandlerFunc float64 Time other W H Body : Type}.
Context `{!ResponseWriter W}.
Variable run : HandlerFunc ->
  (ctx HandlerFunc float64 Time other W (option (request Body)) ->
   result (ctx HandlerFunc float64 Time other W (option (request Body)))) ->
  ctx HandlerFunc float64 Time other W (option (request Body)) ->
  result (ctx HandlerFunc float64 Time other W (option (request Body))).
Variable zero_writer : W.
Variable writermem_reset : H -> W -> W.
Variable fuel : nat.

Abbreviation ctx := (ctx HandlerFunc float64 Time other W (option (request Body))).

Variable at_panic : ctx -> ctx.
Variable engine : Engine HandlerFunc.

(** ** The shared memory *)

(** The contexts that were allocated, by address, and the pool of the
    engine. *)
Record shared : Type := mkShared {
  sh_heap : list ctx;
  sh_pool : list nat
}.

(** [*c], and an assignment through [c]. *)
Definition ctx_at (sh : shared) (a : nat) : ctx :=
  default (allocateContext zero_writer) (sh_heap sh !! a).

Definition store (sh : shared) (a : nat) (c : ctx) : shared :=
  mkShared (<[a := c]> (sh_heap sh)) (sh_pool sh).

(** ** The steps of [ServeHTTP] *)

(** Where a call of [ServeHTTP] is: before [engine.pool.Get()]; before
    [c.writermem.reset(w)], [c.Request = req] and [c.reset()]; before
    [engine.handleHTTPRequest(c)]; before [engine.pool.Put(c)]; before
    the deferred function, with the panic that it recovers; and after
    the call. *)
Inductive point : Type :=
| AtGet
| AtReset (c : nat)
| AtHandle (c : nat)
| AtPut (c : nat)
| AtDeferred (c : nat) (err : option panic_value)
| Returned (err : option panic_value).

(** The goroutine of a request. *)
Record goroutine : Type := mkGoroutine {
  g_writer : H;
  g_request : request Body;
  g_at : point
}.

Definition goto (g : goroutine) (p : point) : goroutine :=
  mkGoroutine (g_writer g) (g_request g) p.

(** One step of [ServeHTTP]. *)
Definition ServeHTTP_step (sh : shared) (g : goroutine) : result (shared * goroutine) :=
  match g_at g with
  | AtGet =>
      match sh_pool sh with
      | c :: pool => Ok (mkShared (sh_heap sh) pool, goto g (AtReset c))
      | [] =>
          Ok (mkShared (sh_heap sh ++ [allocateContext zero_writer]) [],
              goto g (AtReset (length (sh_heap sh))))
      end
  | AtReset a =>
      let c := ctx_at sh a in
      let c := with_writer c (writermem_reset (g_writer g) (c_writermem c)) in
      let c := with_Request c (Some (g_request g)) in
      Ok (store sh a (reset c), goto g (AtHandle a))
  | AtHandle a =>
      match handleHTTPRequest run fuel engine (ctx_at sh a) with
      | Ok c => Ok (store sh a c, goto g (AtPut a))
      | Panic v => Ok (store sh a (at_panic (ctx_at sh a)), goto g (AtDeferred a (Some v)))
      | OutOfFuel => OutOfFuel
      end
  | AtPut a => Ok (mkShared (sh_heap sh) (sh_pool sh ++ [a]), goto g (AtDeferred a None))
  | AtDeferred a err =>
      Ok (store sh a (serveError (ctx_at sh a) StatusInternalServerError default500Body).1,
          goto g (Returned err))
  | Returned _ => Ok (sh, g)
  end.

(** Some steps of one goroutine. *)
Fixpoint ServeHTTP_steps (n : nat) (sh : shared) (g : goroutine) :
    result (shared * goroutine) :=
  match n with
  | 0 => Ok (sh, g)
  | S n => let* '(sh, g) := ServeHTTP_step sh g in ServeHTTP_steps n sh g
  end.

(** ** The goroutines *)

(** The memory and the goroutines. *)
Record system : Type := mkSystem {
  sys_shared : shared;
  sys_goroutines : list goroutine
}.

(** A step of the goroutine [i]. *)
Definition schedule_step (sys : system) (i : nat) : result system :=
  match sys_goroutines sys !! i with
  | Some g =>
      let* '(sh, g) := ServeHTTP_step (sys_shared sys) g in
      Ok (mkSystem sh (<[i := g]> (sys_goroutines sys)))
  | None => Ok sys
  end.

(** The steps of a schedule: the goroutines that step, in order. *)
Fixpoint run_schedule (schedule : list nat) (sys : system) : result system :=
  match schedule with
  | [] => Ok sys
  | i :: schedule => let* sys := schedule_step sys i in run_schedule schedule sys
  end.

(** The systems that some schedule reaches. *)
Inductive interleaves : system -> system -> Prop :=
| interleaves_refl sys : interleaves sys sys
| interleaves_step sys i sys' sys'' :
    schedule_step sys i = Ok sys' -> interleaves sys' sys'' -> interleaves sys sys''.

(** ** The memory and the server *)

(** The contexts of the pool, and the server of [Serve] that a memory
    is when no call of [ServeHTTP] is under way. *)
Definition contents (sh : shared) : list ctx := ctx_at sh <$> sh_pool sh.

Definition server_of (sh : shared) : server HandlerFunc float64 Time other W Body :=
  mkServer engine (contents sh).

(** No address of the pool is dangling, and none is there twice. *)
Definition shared_ok (sh : shared) : Prop :=
  NoDup (sh_pool sh) /\ Forall (fun a => a < length (sh_heap sh)) (sh_pool sh).

(** The memory after [engine.pool.Get()]: the first address has left
    the pool, and the [New] of an empty pool has allocated a context. *)
Definition after_Get (sh : shared) : shared :=
  match sh_pool sh with
  | _ :: pool => mkShared (sh_heap sh) pool
  | [] => mkShared (sh_heap sh ++ [allocateContext zero_writer]) []
  end.

(** The context that a goroutine has a pointer to, and the context
    that is its own: after [engine.pool.Put(c)] the goroutine has the
    pointer and the pool has the context. *)
Definition holds (g : goroutine) : option nat :=
  match g_at g with
  | AtReset a | AtHandle a | AtPut a | AtDeferred a _ => Some a
  | AtGet | Returned _ => None
  end.

Definition owns (g : goroutine) : option nat :=
  match g_at g with
  | AtReset a | AtHandle a | AtPut a | AtDeferred a (Some _) => Some a
  | AtGet | AtDeferred _ None | Returned _ => None
  end.

(** The invariant of the goroutines: a context is in the pool once, or
    it is the own context of one goroutine, and no pointer is
    dangling. *)
Definition system_ok (sys : system) : Prop :=
  NoDup (sh_pool (sys_shared sys) ++ omap owns (sys_goroutines sys)) /\
  Forall (fun a => a < length (sh_heap (sys_shared sys)))
    (sh_pool (sys_shared sys) ++ omap holds (sys_goroutines sys)).

(** The panic of a request whose handlers have panicked and which has
    returned: [ServeHTTP] has not put its context back. *)
Definition lost (g : goroutine) : option panic_value :=
  match g_at g with
  | Returned (Some v) => Some v
  | _ => None
  end.

(** The accounts of the contexts: as many contexts have been allocated
    as are in the pool, are the own context of a goroutine, or were not
    put back after a panic. *)
Definition accounted (sys : system) : Prop :=
  length (sh_heap (sys_shared sys)) =
  length (sh_pool (sys_shared sys)) + length (omap owns (sys_goroutines sys)) +
  length (omap lost (sys_goroutines sys)).

(** A context of the memory has been answered, with the header written
    and the status 500, or a goroutine has a pointer to it. *)
Definition answered_or_held (sys : system) : Prop :=
  forall a c, sh_heap (sys_shared sys) !! a = Some c ->
    answered c \/ a ∈ omap holds (sys_goroutines sys).

(** The invariant of a server that serves requests at the same time. *)
Definition serving_ok (sys : system) : Prop :=
  system_ok sys /\ accounted sys /\ answered_or_held sys.

(** ** Schedules *)

(** The steps that a call has before it: a panic of the handlers
    leaves out [engine.pool.Put(c)]. *)
Definition remaining (p : point) : nat :=
  match p with
  | AtGet => 5
  | AtReset _ => 4
  | AtHandle _ => 3
  | AtPut _ => 2
  | AtDeferred _ _ => 1
  | Returned _ => 0
  end.

(** The goroutines of requests that have come, and of requests that
    were served. *)
Definition arriving (reqs : list (H * request Body)) : list goroutine :=
  (fun '(w, req) => mkGoroutine w req AtGet) <$> reqs.

Definition returning (out : list (served HandlerFunc float64 Time other W H Body)) :
    list goroutine :=
  (fun ev => mkGoroutine (sd_writer ev) (sd_request ev) (Returned (sd_panic ev))) <$> out.

(** The schedule of [n] goroutines from the [i]th on, one after
    another: each takes its five steps before the next takes its
    first. *)
Fixpoint sequential (i n : nat) : list nat :=
  match n with
  | 0 => []
  | S n => replicate 5 i ++ sequential (S i) n
  end.

End race.

Arguments shared : clear implicits.
Arguments goroutine : clear implicits.
Arguments system : clear implicits.

(** ** Two requests of the sample server *)

(** Two requests of [GET /ok] on the server of [Serve], with no
    context in the pool. *)
Definition sample_system : system sample_serve_handler unit unit unit mem_writer unit unit :=
  mkSystem (mkShared [] [])
    [mkGoroutine tt (sample_get (bytes "/ok")) AtGet;
     mkGoroutine tt (sample_get (bytes "/ok")) AtGet].

Definition sample_schedule :=
  run_schedule sample_serve_run sample_zero_writer (fun (_ : unit) _ => mem_reset) 10 id
    sample_serve_engine.

(** The first request and then the second; and the second request
    taking the context between [engine.pool.Put(c)] and the deferred
    function of the first. *)
Definition one_by_one : list nat := [0; 0; 0; 0; 0; 1; 1; 1; 1; 1].
Definition overtaken : list nat := [0; 0; 0; 0; 1; 1; 0; 1; 1; 1].

(** What the writers of the contexts have sent at the end of a
    schedule: the status and the body. *)
Definition sent_at_end
    (r : result (system sample_serve_handler unit unit unit mem_writer unit unit)) :
    list (option Z * gostring) :=
  match r with
  | Ok sys =>
      (fun c => (mw_sent (c_writermem c), mw_body (c_writermem c))) <$>
        sh_heap (sys_shared sys)
  | _ => []
  end.

(** The system at the end of a schedule, and the context of the first
    request when its handlers have returned. *)
Definition run_system
    (r : result (system sample_serve_handler unit unit unit mem_writer unit unit)) :=
  match r with
  | Ok sys => sys
  | _ => sample_system
  end.

Definition sample_handled : serve_ctx :=
  match
    handleHTTPRequest sample_serve_run 10 sample_serve_engine
      (acquire sample_zero_writer (fun (_ : unit) _ => mem_reset) sample_server tt
         (sample_get (bytes "/ok"))).1
  with
  | Ok c => c
  | _ => allocateContext sample_zero_writer
  end.

(** The steps of a schedule on a system that is given, as far as the
    handlers. *)
Ltac run_steps :=
  cbn [run_schedule schedule_step sys_goroutines sys_shared lookup list_lookup
       ServeHTTP_step g_at goto g_writer g_request result_bind sh_pool sh_heap
       insert list_insert app length store ctx_at from_option id].

(** ** One request alone *)

Section race_lemmas.
Context {HandlerFunc float64 Time other W H Body : Type}.
Context `{!ResponseWriter W, !ResponseWriterLaws W}.
Variable run : HandlerFunc ->
  (Context.ctx HandlerFunc float64 Time other W (option (request Body)) ->
   result (Context.ctx HandlerFunc float64 Time other W (option (request Body)))) ->
  Context.ctx HandlerFunc float64 Time other W (option (request Body)) ->
  result (Context.ctx HandlerFunc float64 Time other W (option (request Body))).
Variable zero_writer : W.
Variable writermem_reset : H -> W -> W.
Variable fuel : nat.
Variable at_panic :
  Context.ctx HandlerFunc float64 Time other W (option (request Body)) ->
  Context.ctx HandlerFunc float64 Time other W (option (request Body)).
Variable engine : Engine HandlerFunc.

Abbreviation ctx' := (Context.ctx HandlerFunc float64 Time other W (option (request Body))).
Abbreviation shared' := (shared HandlerFunc float64 Time other W Body).
Abbreviation goroutine' := (goroutine H Body).
Abbreviation system' := (system HandlerFunc float64 Time other W H Body).
Abbreviation ctx_at' := (ctx_at zero_writer).
Abbreviation contents' := (contents zero_writer).
Abbreviation server_of' := (server_of zero_writer engine).
Abbreviation ServeHTTP_steps' :=
  (ServeHTTP_steps run zero_writer writermem_reset fuel at_panic engine).
Abbreviation ServeHTTP_step' :=
  (ServeHTTP_step run zero_writer writermem_reset fuel at_panic engine).
Abbreviation schedule_step' :=
  (schedule_step run zero_writer writermem_reset fuel at_panic engine).
Abbreviation run_schedule' :=
  (run_schedule run zero_writer writermem_reset fuel at_panic engine).
Abbreviation interleaves' :=
  (interleaves run zero_writer writermem_reset fuel at_panic engine).
Abbreviation serve_all' := (serve_all run zero_writer writermem_reset fuel at_panic).
Abbreviation acquired c w req :=
  (reset (with_Request (with_writer c (writermem_reset w (c_writermem c))) (Some req))).

Implicit Types (sh : shared') (g : goroutine') (sys : system') (a i : nat) (w : H)
  (req : request Body).

(** Reading and writing the memory. *)
Lemma ctx_at_store sh a c : a < length (sh_heap sh) -> ctx_at' (store sh a c) a = c.
Proof. intros Ha. unfold ctx_at, store. simpl. by rewrite list_lookup_insert_eq. Qed.

Lemma ctx_at_store_ne sh a b c : a ≠ b -> ctx_at' (store sh a c) b = ctx_at' sh b.
Proof. intros Hab. unfold ctx_at, store. simpl. by rewrite list_lookup_insert_ne. Qed.

Lemma ctx_at_pool sh pool a : ctx_at' (mkShared (sh_heap sh) pool) a = ctx_at' sh a.
Proof. done. Qed.

Lemma contents_store sh a c :
  a ∉ sh_pool sh -> contents' (store sh a c) = contents' sh.
Proof.
  intros Ha. unfold contents. simpl. apply Forall_fmap_ext_1, Forall_forall.
  intros b Hb. apply ctx_at_store_ne. by intros ->.
Qed.

Lemma contents_Put sh a c :
  a < length (sh_heap sh) -> a ∉ sh_pool sh ->
  contents' (mkShared (<[a := c]> (sh_heap sh)) (sh_pool sh ++ [a])) = contents' sh ++ [c].
Proof.
  intros Ha Hn. unfold contents. simpl. rewrite fmap_app. f_equal.
  - by apply (contents_store sh a c).
  - simpl. f_equal. by apply (ctx_at_store sh a c).
Qed.

Lemma ServeHTTP_steps_S n sh g :
  ServeHTTP_steps' (S n) sh g =
  let* '(sh, g) := ServeHTTP_step' sh g in ServeHTTP_steps' n sh g.
Proof. done. Qed.

(** The four steps after [engine.pool.Get()]. *)
Lemma ServeHTTP_steps_reset sh w req a :
  a < length (sh_heap sh) ->
  ServeHTTP_steps' 4 sh (mkGoroutine w req (AtReset a)) =
  match handleHTTPRequest run fuel engine (acquired (ctx_at' sh a) w req) with
  | Ok c =>
      Ok (mkShared
            (<[a := (serveError c StatusInternalServerError default500Body).1]> (sh_heap sh))
            (sh_pool sh ++ [a]),
          mkGoroutine w req (Returned None))
  | Panic v =>
      Ok (store sh a
            (serveError (at_panic (acquired (ctx_at' sh a) w req)) StatusInternalServerError
               default500Body).1,
          mkGoroutine w req (Returned (Some v)))
  | OutOfFuel => OutOfFuel
  end.
Proof.
  intros Ha. cbn [ServeHTTP_steps ServeHTTP_step g_at goto g_writer g_request result_bind].
  rewrite ctx_at_store by done.
  destruct (handleHTTPRequest _ _ _ _) as [c|v|];
    cbn [ServeHTTP_steps ServeHTTP_step g_at goto g_writer g_request result_bind]; [| |done].
  - rewrite ctx_at_pool, ctx_at_store by (simpl; by rewrite length_insert).
    unfold store. simpl. by rewrite !list_insert_insert_eq.
  - rewrite ctx_at_store by (simpl; by rewrite length_insert).
    unfold store. simpl. by rewrite !list_insert_insert_eq.
Qed.

(** [engine.pool.Get()] on the memory and on the pool of the server. *)
Lemma ServeHTTP_step_Get sh w req :
  shared_ok sh ->
  exists a,
    ServeHTTP_step' sh (mkGoroutine w req AtGet) =
      Ok (after_Get zero_writer sh, mkGoroutine w req (AtReset a)) /\
    a < length (sh_heap (after_Get zero_writer sh)) /\
    (a ∉ sh_pool (after_Get zero_writer sh)) /\
    pool_Get zero_writer (contents' sh) =
      (ctx_at' (after_Get zero_writer sh) a, contents' (after_Get zero_writer sh)).
Proof.
  intros [Hnd Hok]. destruct sh as [heap [|a pool]]; unfold after_Get, ctx_at; simpl in *.
  - exists (length heap). rewrite length_app, list_lookup_middle by done.
    repeat split; [simpl; lia|set_solver].
  - exists a. apply NoDup_cons in Hnd as [Ha _]. apply Forall_cons in Hok as [Hlt _].
    by repeat split.
Qed.

(** The memory that a call has left is well formed. *)
Lemma shared_ok_Put sh a c :
  a < length (sh_heap sh) -> a ∉ sh_pool sh -> shared_ok sh ->
  shared_ok (mkShared (<[a := c]> (sh_heap sh)) (sh_pool sh ++ [a])).
Proof.
  intros Ha Hn [Hnd Hok]. split; simpl in *.
  - apply NoDup_app. repeat split; [done|set_solver|apply NoDup_singleton].
  - rewrite length_insert. apply Forall_app. split; [done|by apply Forall_singleton].
Qed.

Lemma shared_ok_store sh a c : shared_ok sh -> shared_ok (store sh a c).
Proof. intros [Hnd Hok]. split; simpl; [done|]. by rewrite length_insert. Qed.

Lemma shared_ok_Get sh : shared_ok sh -> shared_ok (after_Get zero_writer sh).
Proof.
  intros [Hnd Hok]. unfold after_Get. destruct (sh_pool sh) as [|a pool]; split; simpl.
  - apply NoDup_nil_2.
  - apply Forall_nil_2.
  - by apply NoDup_cons in Hnd as [_ ?].
  - by apply Forall_cons in Hok as [_ ?].
Qed.

(** A request that is served alone.  The five steps of
    [ServeHTTP] on the shared memory do what the function [ServeHTTP] of
    [Serve] does on the server whose pool holds the contexts of the
    addresses of the pool: the steps return when the function returns,
    with the same panic recovered, the context of the request is in the
    memory as the function returns it, the pool holds the contexts of
    the pool of the function, and no address of it is dangling. *)
Theorem ServeHTTP_steps_refines sh w req :
  shared_ok sh ->
  match ServeHTTP run zero_writer writermem_reset fuel at_panic (server_of' sh) w req with
  | Ok (s', c, p) =>
      exists sh' a,
        ServeHTTP_steps' 5 sh (mkGoroutine w req AtGet) =
          Ok (sh', mkGoroutine w req (Returned p)) /\
        server_of' sh' = s' /\ sh_heap sh' !! a = Some c /\ shared_ok sh'
  | Panic _ => False
  | OutOfFuel => ServeHTTP_steps' 5 sh (mkGoroutine w req AtGet) = OutOfFuel
  end.
Proof.
  intros Hsh. destruct (ServeHTTP_step_Get sh w req Hsh) as (a & Hget & Ha & Hn & Hpool).
  rewrite (ServeHTTP_steps_S 4), Hget. cbn [result_bind]. rewrite ServeHTTP_steps_reset by done.
  unfold ServeHTTP, acquire, server_of. cbn [sv_pool sv_engine]. rewrite Hpool.
  apply shared_ok_Get in Hsh. set (sh1 := after_Get zero_writer sh) in *.
  destruct (handleHTTPRequest _ _ _ _) as [c|v|]; [| |done].
  - eexists _, a. split; [done|]. repeat split.
    + f_equal. by apply contents_Put.
    + by apply list_lookup_insert_eq.
    + by apply shared_ok_Put.
    + by apply shared_ok_Put.
  - eexists _, a. split; [done|]. repeat split.
    + f_equal. by rewrite contents_store.
    + by apply list_lookup_insert_eq.
    + apply Hsh.
    + simpl. rewrite length_insert. apply Hsh.
Qed.

(** ** Two requests *)

(** [C17] The order of [engine.pool.Put(c)] and the deferred function.
    Two requests come to a server whose pool is empty.  When the
    handlers of the first return and its goroutine has put the context
    into the pool, the second goroutine may take the context and reset
    it for its own writer and request before the deferred function of
    the first runs.  Then [serveError] of the first request writes into
    the context of the second: the handlers of the second request start
    with a writer to which the status 500 and the body of
    [default500Body] were written, when the writer that
    [writermem.reset] leaves has written nothing. *)
Theorem Put_before_deferred wA reqA wB reqB cA :
  handleHTTPRequest run fuel engine (acquired (allocateContext zero_writer : ctx') wA reqA) =
    Ok cA ->
  Written (writermem_reset wB (c_writermem cA)) = false ->
  exists cB : ctx',
    run_schedule' [0; 0; 0; 0; 1; 1; 0]
      (mkSystem (mkShared [] []) [mkGoroutine wA reqA AtGet; mkGoroutine wB reqB AtGet]) =
    Ok (mkSystem (mkShared [cB] [])
          [mkGoroutine wA reqA (Returned None); mkGoroutine wB reqB (AtHandle 0)]) /\
    c_Request cB = Some reqB /\
    c_writermem cB =
      (Write default500Body
         (set_Header (map_set (Header_of (writermem_reset wB (c_writermem cA)))
                        (bytes "Content-Type") [bytes "application/json"])
            (set_status StatusInternalServerError
               (writermem_reset wB (c_writermem cA))))).1.
Proof.
  intros HA Hw. eexists. split.
  - run_steps. rewrite HA. run_steps. reflexivity.
  - by rewrite serveError_fresh.
Qed.

(** ** The invariant of the goroutines *)

Lemma owns_holds g a : owns g = Some a -> holds g = Some a.
Proof. unfold owns, holds. by destruct (g_at g) as [| | | |? []|]. Qed.

Lemma Forall_owns (P : nat -> Prop) (gs : list goroutine') :
  Forall P (omap holds gs) -> Forall P (omap owns gs).
Proof.
  intros HP. apply Forall_forall. intros a (g & Hg & Ho)%list_elem_of_omap.
  apply (proj1 (Forall_forall _ _) HP), list_elem_of_omap. exists g.
  split; [done|by apply owns_holds].
Qed.

Lemma omap_middle {A B} (f : A -> option B) l1 x l2 :
  omap f (l1 ++ x :: l2) ≡ₚ option_list (f x) ++ omap f (l1 ++ l2).
Proof.
  rewrite !omap_app. simpl. destruct (f x); simpl; [|done]. by rewrite Permutation_middle.
Qed.

(** A step of a goroutine, with the contexts [R] that the others own
    and the contexts [R'] that they have a pointer to. *)
Lemma ServeHTTP_step_ok sh g sh' g' R R' :
  ServeHTTP_step' sh g = Ok (sh', g') ->
  Forall (fun a => a < length (sh_heap sh)) R ->
  NoDup (sh_pool sh ++ option_list (owns g) ++ R) ->
  Forall (fun a => a < length (sh_heap sh)) (sh_pool sh ++ option_list (holds g) ++ R') ->
  NoDup (sh_pool sh' ++ option_list (owns g') ++ R) /\
  Forall (fun a => a < length (sh_heap sh')) (sh_pool sh' ++ option_list (holds g') ++ R').
Proof.
  destruct g as [w req p], sh as [heap pool]. unfold ServeHTTP_step, owns, holds. simpl.
  destruct p as [|a|a|a|a err|err]; simpl.
  - destruct pool as [|a pool]; intros; simplify_eq; simpl in *.
    + split.
      * apply NoDup_cons. split; [|done]. intros Hin.
        by apply (proj1 (Forall_forall _ _) H1), Nat.lt_irrefl in Hin.
      * rewrite length_app. simpl. constructor; [lia|].
        eapply Forall_impl; [done|]. simpl. lia.
    + by rewrite <- !Permutation_middle.
  - intros; simplify_eq; simpl. by rewrite length_insert.
  - destruct (handleHTTPRequest _ _ _ _); intros; simplify_eq; simpl;
      by rewrite length_insert.
  - intros; simplify_eq; simpl. rewrite <- !app_assoc. simpl. split; [done|].
    rewrite <- Permutation_middle. constructor; [|done].
    by apply Forall_app in H3 as [_ [? _]%Forall_cons].
  - intros; simplify_eq; simpl. rewrite length_insert.
    rewrite <- Permutation_middle in H3. apply Forall_cons in H3 as [_ H3].
    split; [|done]. destruct err; simpl in *; [|done].
    rewrite <- Permutation_middle in H2. by apply NoDup_cons in H2 as [_ ?].
  - by intros; simplify_eq.
Qed.

Lemma schedule_step_ok sys i sys' :
  schedule_step' sys i = Ok sys' -> system_ok sys -> system_ok sys'.
Proof.
  unfold schedule_step, system_ok.
  destruct (sys_goroutines sys !! i) as [g|] eqn:Hg; [|by intros; simplify_eq].
  destruct (ServeHTTP_step' _ g) as [[sh' g']| |] eqn:Hs; [|done..].
  apply list_elem_of_split_length in Hg as (l1 & l2 & Hgs & ->).
  intros [= <-]. rewrite Hgs. simpl. rewrite insert_app_r_alt, Nat.sub_diag by done.
  simpl. rewrite !omap_middle. intros [Hnd Hok]. eapply ServeHTTP_step_ok; [done| |done..].
  apply Forall_owns. by apply Forall_app in Hok as [_ [_ ?]%Forall_app].
Qed.

(** The schedules and the relation. *)
Lemma run_schedule_interleaves schedule sys sys' :
  run_schedule' schedule sys = Ok sys' -> interleaves' sys sys'.
Proof.
  revert sys. induction schedule as [|i schedule IH]; intros sys; simpl.
  - intros [= <-]. constructor.
  - destruct (schedule_step' sys i) as [sys1| |] eqn:Hs; [|done..]. simpl.
    intros Hr. by eapply interleaves_step; [|apply IH].
Qed.

Lemma interleaves_run_schedule sys sys' :
  interleaves' sys sys' -> exists schedule, run_schedule' schedule sys = Ok sys'.
Proof.
  induction 1 as [sys|sys i sys1 sys2 Hs _ [schedule IH]]; [by exists []|].
  exists (i :: schedule). simpl. by rewrite Hs.
Qed.

Lemma interleaves_ok sys sys' : interleaves' sys sys' -> system_ok sys -> system_ok sys'.
Proof. induction 1; eauto using schedule_step_ok. Qed.

(** What two elements of a list are given by [f], when [omap f] has
    nothing twice. *)
Lemma NoDup_omap_lookup {A B} (f : A -> option B) l i j x y b :
  NoDup (omap f l) -> l !! i = Some x -> l !! j = Some y ->
  f x = Some b -> f y = Some b -> i = j.
Proof.
  revert i j. induction l as [|z l IH]; intros i j Hnd Hi Hj Hx Hy; [done|].
  assert (forall k u, l !! k = Some u -> f u = Some b -> f z = Some b -> False) as Hz.
  { intros k u Hk Hu Hfz. simpl in Hnd. rewrite Hfz in Hnd.
    apply NoDup_cons in Hnd as [Hn _]. apply Hn, list_elem_of_omap.
    exists u. split; [by eapply list_elem_of_lookup_2|done]. }
  assert (NoDup (omap f l)) as Hl.
  { simpl in Hnd. destruct (f z); [by apply NoDup_cons in Hnd as [_ ?]|done]. }
  destruct i as [|i], j as [|j]; simpl in *; simplify_eq; [done|..].
  - by destruct (Hz j y).
  - by destruct (Hz i x).
  - f_equal. by apply IH.
Qed.

(** [C27] The contexts of the requests that are served at the same
    time.  In every system that the goroutines reach, in whatever order
    they take their steps, from a system in which it is so: no pointer
    is dangling; a context that a goroutine owns, from
    [engine.pool.Get()] to [engine.pool.Put(c)] and, after a panic, to
    the end of the deferred function, is owned by no other goroutine
    and is not in the pool.  So the handlers of two requests never run
    on one context. *)
Theorem own_context sys sys' :
  interleaves' sys sys' -> system_ok sys ->
  system_ok sys' /\
  (forall i j gi gj a,
     sys_goroutines sys' !! i = Some gi -> sys_goroutines sys' !! j = Some gj ->
     owns gi = Some a -> owns gj = Some a -> i = j) /\
  (forall i gi a,
     sys_goroutines sys' !! i = Some gi -> owns gi = Some a ->
     (a ∉ sh_pool (sys_shared sys')) /\ a < length (sh_heap (sys_shared sys'))).
Proof.
  intros Hrun Hok. apply (interleaves_ok _ _ Hrun) in Hok as Hok'. split; [done|].
  destruct Hok' as [Hnd Hlt]. apply NoDup_app in Hnd as (_ & Hpool & Hnd).
  apply Forall_app in Hlt as [_ Hlt]. split.
  - intros i j gi gj a. by apply NoDup_omap_lookup.
  - intros i gi a Hi Ha. split.
    + intros Hin. apply (Hpool _ Hin), list_elem_of_omap. exists gi.
      split; [by eapply list_elem_of_lookup_2|done].
    + apply (proj1 (Forall_forall _ _) Hlt), list_elem_of_omap. exists gi.
      split; [by eapply list_elem_of_lookup_2|by apply owns_holds].
Qed.

(** ** One after another *)

(** A step, and some steps, of one goroutine among the others. *)
Lemma schedule_step_middle sh gs1 g gs2 :
  schedule_step' (mkSystem sh (gs1 ++ g :: gs2)) (length gs1) =
  let* '(sh', g') := ServeHTTP_step' sh g in Ok (mkSystem sh' (gs1 ++ g' :: gs2)).
Proof.
  unfold schedule_step. simpl. rewrite list_lookup_middle by done.
  destruct (ServeHTTP_step' sh g) as [[sh' g']| |]; [|done..]. simpl.
  by rewrite insert_app_r_alt, Nat.sub_diag.
Qed.

Lemma run_schedule_replicate n schedule sh gs1 g gs2 :
  run_schedule' (replicate n (length gs1) ++ schedule) (mkSystem sh (gs1 ++ g :: gs2)) =
  let* '(sh', g') := ServeHTTP_steps' n sh g in
  run_schedule' schedule (mkSystem sh' (gs1 ++ g' :: gs2)).
Proof.
  revert sh g. induction n as [|n IH]; intros sh g; [done|].
  cbn [replicate app run_schedule]. rewrite schedule_step_middle, ServeHTTP_steps_S.
  destruct (ServeHTTP_step' sh g) as [[sh' g']| |]; [|done..]. apply IH.
Qed.

(** The requests that are left, behind the goroutines that have
    returned. *)
Lemma sequential_behind reqs :
  forall (gs : list goroutine') sh s' out,
    shared_ok sh ->
    serve_all' (server_of' sh) reqs = Ok (s', out) ->
    exists sh',
      run_schedule' (sequential (length gs) (length reqs))
        (mkSystem sh (gs ++ arriving reqs)) =
        Ok (mkSystem sh' (gs ++ returning out)) /\
      server_of' sh' = s' /\ shared_ok sh'.
Proof.
  induction reqs as [|[w req] reqs IH]; intros gs sh s' out Hsh Hall.
  - injection Hall as <- <-. by exists sh.
  - cbn [serve_all] in Hall. pose proof (ServeHTTP_steps_refines sh w req Hsh) as Href.
    destruct (ServeHTTP _ _ _ _ _ (server_of' sh) w req) as [[[s1 c] p]| |]; [|done..].
    destruct Href as (sh1 & a & Hsteps & <- & _ & Hsh1). cbn [result_bind] in Hall.
    destruct (serve_all' (server_of' sh1) reqs) as [[s2 out2]| |] eqn:Hrest; [|done..].
    injection Hall as <- <-.
    destruct (IH (gs ++ [mkGoroutine w req (Returned p)]) sh1 s2 out2 Hsh1 Hrest)
      as (sh' & Hrun & Hs' & Hok).
    exists sh'. split; [|done].
    cbn [length sequential arriving returning fmap list_fmap].
    rewrite run_schedule_replicate, Hsteps. cbn [result_bind].
    rewrite length_app, Nat.add_1_r, <- !app_assoc in Hrun. apply Hrun.
Qed.

(** [C16] Requests that do not meet.  When every goroutine takes its
    five steps before the next takes its first, the system does what
    the server of [Server] does with the list of the requests: the
    schedule returns when [serve_all] returns, every goroutine has
    returned with the panic that [serve_all] reports for its request,
    and the pool holds the contexts of the pool of the server, none
    dangling and none twice. *)
Theorem sequential_serve_all sh reqs s' out :
  shared_ok sh ->
  serve_all run zero_writer writermem_reset fuel at_panic (server_of' sh) reqs =
    Ok (s', out) ->
  exists sh',
    run_schedule' (sequential 0 (length reqs)) (mkSystem sh (arriving reqs)) =
      Ok (mkSystem sh' (returning out)) /\
    server_of' sh' = s' /\ shared_ok sh'.
Proof. apply (sequential_behind reqs []). Qed.

(** ** Every request returns *)

Lemma ServeHTTP_step_remaining sh g sh' g' :
  ServeHTTP_step' sh g = Ok (sh', g') ->
  g_writer g' = g_writer g /\ g_request g' = g_request g /\
  remaining (g_at g') <= pred (remaining (g_at g)).
Proof.
  destruct g as [w req p]. unfold ServeHTTP_step. simpl.
  destruct p as [|a|a|a|a err|err]; simpl;
    [destruct (sh_pool sh)| |destruct (handleHTTPRequest _ _ _ _)|..];
    intros; simplify_eq; simpl; split_and!; (done || lia).
Qed.

Lemma ServeHTTP_step_no_panic sh g v : ServeHTTP_step' sh g ≠ Panic v.
Proof.
  unfold ServeHTTP_step.
  destruct (g_at g); [destruct (sh_pool sh)| |destruct (handleHTTPRequest _ _ _ _)|..]; done.
Qed.

(** A step of the system, for the goroutine that takes it and for the
    others. *)
Lemma schedule_step_own sys i sys' g :
  schedule_step' sys i = Ok sys' -> sys_goroutines sys !! i = Some g ->
  exists sh' g',
    ServeHTTP_step' (sys_shared sys) g = Ok (sh', g') /\ sys_goroutines sys' !! i = Some g'.
Proof.
  unfold schedule_step. intros Hs Hg. rewrite Hg in Hs.
  destruct (ServeHTTP_step' _ g) as [[sh' g']| |]; [|done..]. injection Hs as <-.
  exists sh', g'. split; [done|]. simpl. apply list_lookup_insert_eq.
  by eapply lookup_lt_Some.
Qed.

Lemma schedule_step_other sys i sys' j :
  schedule_step' sys i = Ok sys' -> i ≠ j ->
  sys_goroutines sys' !! j = sys_goroutines sys !! j.
Proof.
  unfold schedule_step. destruct (sys_goroutines sys !! i) as [g|]; [|by intros [= <-]].
  destruct (ServeHTTP_step' _ g) as [[sh' g']| |]; [|done..]. intros [= <-] Hne. simpl.
  by apply list_lookup_insert_ne.
Qed.

(** No schedule makes the server panic: a panic of the handlers is
    recovered in whatever order the goroutines step. *)
Lemma run_schedule_no_panic schedule sys v : run_schedule' schedule sys ≠ Panic v.
Proof.
  revert sys. induction schedule as [|i schedule IH]; intros sys; [done|]. simpl.
  destruct (schedule_step' sys i) as [sys1|v1|] eqn:Hs; simpl; [apply IH| |done].
  unfold schedule_step in Hs. destruct (sys_goroutines sys !! i) as [g|]; [|done].
  pose proof (ServeHTTP_step_no_panic (sys_shared sys) g v1).
  destruct (ServeHTTP_step' _ g) as [[]| |]; simpl in Hs; congruence.
Qed.

(** Along a schedule that returns, a goroutine that is given as many
    steps as its call has before it, five from the start, has returned
    at the end, with the writer and the request that it came with. *)
Lemma run_schedule_returned schedule sys sys' i g :
  run_schedule' schedule sys = Ok sys' ->
  sys_goroutines sys !! i = Some g ->
  remaining (g_at g) <= count_occ Nat.eq_dec schedule i ->
  exists p,
    sys_goroutines sys' !! i = Some (mkGoroutine (g_writer g) (g_request g) (Returned p)).
Proof.
  revert sys g. induction schedule as [|j schedule IH]; intros sys g Hrun Hg Hn.
  - injection Hrun as <-. destruct g as [w req []]; simpl in *; try lia. by eexists.
  - cbn [run_schedule] in Hrun.
    destruct (schedule_step' sys j) as [sys1| |] eqn:Hs; [|done..]. cbn [result_bind] in Hrun.
    destruct (decide (j = i)) as [->|Hne].
    + destruct (schedule_step_own _ _ _ _ Hs Hg) as (sh1 & g1 & Hstep & Hg1).
      apply ServeHTTP_step_remaining in Hstep as (Hw & Hr & Hrem).
      rewrite count_occ_cons_eq in Hn by done.
      destruct (IH sys1 g1 Hrun Hg1) as [p Hp]; [lia|]. exists p. by rewrite Hp, Hw, Hr.
    + rewrite count_occ_cons_neq in Hn by done. apply (IH sys1 g Hrun); [|done].
      by rewrite (schedule_step_other _ _ _ _ Hs Hne).
Qed.

(** ** Every request is answered *)

(** The goroutine that takes a step, among the others. *)
Lemma schedule_step_focus sys i sys' :
  schedule_step' sys i = Ok sys' ->
  sys' = sys \/
  exists gs1 g gs2 sh' g',
    sys_goroutines sys = gs1 ++ g :: gs2 /\
    ServeHTTP_step' (sys_shared sys) g = Ok (sh', g') /\
    sys' = mkSystem sh' (gs1 ++ g' :: gs2).
Proof.
  unfold schedule_step.
  destruct (sys_goroutines sys !! i) as [g|] eqn:Hg; [|intros [= <-]; by left].
  destruct (ServeHTTP_step' _ g) as [[sh' g']| |] eqn:Hs; [|done..].
  apply list_elem_of_split_length in Hg as (l1 & l2 & Hgs & ->).
  intros [= <-]. right. exists l1, g, l2, sh', g'. split_and!; [done..|].
  by rewrite Hgs, insert_app_r_alt, Nat.sub_diag.
Qed.

(** A step keeps the accounts, with the [n] contexts of the others. *)
Lemma ServeHTTP_step_accounted sh g sh' g' n :
  ServeHTTP_step' sh g = Ok (sh', g') ->
  length (sh_heap sh) =
    length (sh_pool sh) + length (option_list (owns g)) + length (option_list (lost g)) + n ->
  length (sh_heap sh') =
    length (sh_pool sh') + length (option_list (owns g')) + length (option_list (lost g')) + n.
Proof.
  destruct g as [w req p], sh as [heap pool]. unfold ServeHTTP_step, owns, lost. simpl.
  destruct p as [|a|a|a|a [v|]|[v|]]; simpl;
    [destruct pool| |destruct (handleHTTPRequest _ _ _ _)|..];
    intros; simplify_eq; simpl in *; rewrite ?length_app, ?length_insert; simpl; lia.
Qed.

(** What the deferred function leaves is answered. *)
Lemma serveError_answered (c : ctx') :
  answered (serveError c StatusInternalServerError default500Body).1.
Proof. split; [apply serveError_Written|apply serveError_Status]. Qed.

(** An assignment through a pointer [a0] that the goroutine has. *)
Lemma answered_store (heap : list ctx') a0 c0 (R R' : list nat) :
  (forall a c, heap !! a = Some c -> answered c \/ a ∈ a0 :: R) ->
  answered c0 \/ a0 ∈ R' -> (forall a, a ∈ R -> a ∈ R') ->
  forall a c, <[a0 := c0]> heap !! a = Some c -> answered c \/ a ∈ R'.
Proof.
  intros Hold H0 Hsub a c [(<- & <- & _)|[Hne Hl]]%list_lookup_insert_Some; [done|].
  destruct (Hold a c Hl) as [?|[->|?]%elem_of_cons]; [by left|done|right; by apply Hsub].
Qed.

(** A step of a goroutine, with the contexts [R] that the others have
    a pointer to. *)
Lemma ServeHTTP_step_answered sh g sh' g' (R : list nat) :
  ServeHTTP_step' sh g = Ok (sh', g') ->
  (forall a c, sh_heap sh !! a = Some c -> answered c \/ a ∈ option_list (holds g) ++ R) ->
  forall a c, sh_heap sh' !! a = Some c -> answered c \/ a ∈ option_list (holds g') ++ R.
Proof.
  destruct g as [w req p], sh as [heap pool]. unfold ServeHTTP_step, holds. simpl.
  destruct p as [|a0|a0|a0|a0 err|err]; simpl.
  - destruct pool as [|a0 pool]; intros [= <- <-] Hold a c; simpl.
    + intros [Hl|[Hle [Hz <-]%list_lookup_singleton_Some]]%lookup_app_Some.
      * destruct (Hold a c Hl); [by left|right; by apply elem_of_cons; right].
      * right. apply elem_of_cons. left. lia.
    + intros Hl. destruct (Hold a c Hl); [by left|right; by apply elem_of_cons; right].
  - intros [= <- <-] Hold. simpl. apply (answered_store _ _ _ R _ Hold); set_solver.
  - destruct (handleHTTPRequest _ _ _ _); intros [= <- <-] Hold; simpl;
      (apply (answered_store _ _ _ R _ Hold); set_solver).
  - by intros [= <- <-].
  - intros [= <- <-] Hold. simpl.
    apply (answered_store _ _ _ R _ Hold); [left; apply serveError_answered|done].
  - by intros [= <- <-].
Qed.

Lemma schedule_step_serving sys i sys' :
  schedule_step' sys i = Ok sys' -> serving_ok sys -> serving_ok sys'.
Proof.
  intros Hs (Hok & Hacc & Hans). split; [by eapply schedule_step_ok|].
  apply schedule_step_focus in Hs as [->|(gs1 & g & gs2 & sh' & g' & Hgs & Hstep & ->)];
    [done|].
  unfold accounted, answered_or_held in *. rewrite Hgs in Hacc, Hans. simpl. split.
  - rewrite !omap_middle, !length_app in *.
    apply (ServeHTTP_step_accounted _ _ _ _
             (length (omap owns (gs1 ++ gs2)) + length (omap lost (gs1 ++ gs2)))) in Hstep;
      lia.
  - intros a c. rewrite omap_middle. apply (ServeHTTP_step_answered _ _ _ _ _ Hstep).
    intros a1 c1 Hl. rewrite <- omap_middle. by apply Hans.
Qed.

Lemma run_schedule_serving schedule sys sys' :
  run_schedule' schedule sys = Ok sys' -> serving_ok sys -> serving_ok sys'.
Proof.
  intros Hrun%run_schedule_interleaves. induction Hrun; eauto using schedule_step_serving.
Qed.

(** When every goroutine has returned, no goroutine has a pointer to a
    context. *)
Lemma returned_holds (gs : list goroutine') :
  Forall (fun g => remaining (g_at g) = 0) gs -> omap holds gs = [] /\ omap owns gs = [].
Proof.
  induction 1 as [|[w req []] gs Hg _ [IH1 IH2]]; [done|simpl in Hg; try lia..].
  cbn. by rewrite IH1, IH2.
Qed.

Lemma serving_ok_returned sys :
  serving_ok sys -> Forall (fun g => remaining (g_at g) = 0) (sys_goroutines sys) ->
  Forall answered (sh_heap (sys_shared sys)) /\
  length (sh_heap (sys_shared sys)) =
    length (sh_pool (sys_shared sys)) + length (omap lost (sys_goroutines sys)).
Proof.
  intros (_ & Hacc & Hans) [Hh Ho]%returned_holds. unfold accounted in Hacc.
  rewrite Ho in Hacc. simpl in Hacc. split; [|lia].
  apply Forall_lookup. intros a c Hl. destruct (Hans a c Hl) as [?|Hin]; [done|].
  rewrite Hh in Hin. by apply elem_of_nil in Hin.
Qed.

(** [C28] Every request is answered.  From a server in which every
    context is in the pool or with a goroutine, the goroutines take
    their steps in any order.  Unless a handler runs for ever, the
    schedule returns: a panic of the handlers is recovered.  A goroutine
    that is given as many steps as its call has before it, five from
    the start, has returned, with the writer and the request that it
    came with.  And when all of them have returned, every context of
    the memory has its header written and the status 500, and the pool
    has all the contexts but one for each request whose handlers have
    panicked. *)
Theorem every_request_returns schedule sys :
  serving_ok sys ->
  run_schedule run zero_writer writermem_reset fuel at_panic engine schedule sys ≠ OutOfFuel ->
  exists sys',
    run_schedule run zero_writer writermem_reset fuel at_panic engine schedule sys = Ok sys' /\
    serving_ok sys' /\
    (forall i g,
       sys_goroutines sys !! i = Some g ->
       remaining (g_at g) <= count_occ Nat.eq_dec schedule i ->
       exists p,
         sys_goroutines sys' !! i =
           Some (mkGoroutine (g_writer g) (g_request g) (Returned p))) /\
    (Forall (fun g => remaining (g_at g) = 0) (sys_goroutines sys') ->
     Forall answered (sh_heap (sys_shared sys')) /\
     length (sh_heap (sys_shared sys')) =
       length (sh_pool (sys_shared sys')) + length (omap lost (sys_goroutines sys'))).
Proof.
  intros Hok Hfuel. pose proof (run_schedule_no_panic schedule sys) as Hpanic.
  destruct (run_schedule' schedule sys) as [sys'|v|] eqn:Hrun; [|by destruct (Hpanic v)|done].
  pose proof (run_schedule_serving _ _ _ Hrun Hok) as Hok'.
  exists sys'. split_and!; [done..| |by apply serving_ok_returned].
  intros i g. by apply run_schedule_returned.
Qed.

End race_lemmas.

(** ** The sample server *)

(** Two requests of [GET /ok].  One after the other, both are answered
    in the one context of the server, and its writer has sent the
    status 200 and the body of the handler to the second client.  When
    the second request takes the context before the deferred function
    of the first has run, the second client receives the status 500 and
    [500 server err] before the body of the handler; the pool and the
    goroutines end as they do in the other order. *)
Theorem sample_overtaken :
  sent_at_end (sample_schedule one_by_one sample_system) =
    [(Some 200%Z,
      bytes "{" ++ json_string (bytes "code") ++ bytes ":" ++ json_string (bytes "ok") ++
      bytes "," ++ json_string (bytes "message") ++ bytes ":" ++
      json_string (bytes "hi") ++ bytes "}" ++ newline)] /\
  sent_at_end (sample_schedule overtaken sample_system) =
    [(Some 500%Z,
      default500Body ++
      bytes "{" ++ json_string (bytes "code") ++ bytes ":" ++ json_string (bytes "ok") ++
      bytes "," ++ json_string (bytes "message") ++ bytes ":" ++
      json_string (bytes "hi") ++ bytes "}" ++ newline)] /\
  sh_pool (sys_shared (run_system (sample_schedule overtaken sample_system))) = [0] /\
  g_at <$> sys_goroutines (run_system (sample_schedule overtaken sample_system)) =
    [Returned None; Returned None] /\
  holds <$> sys_goroutines (run_system (sample_schedule [0; 0; 0; 0; 1] sample_system)) =
    [Some 0; Some 0].
Proof. repeat split; vm_compute; reflexivity. Qed.

(** ** Witnesses *)

Lemma sequential_serve_all_witness :
  exists sh',
    sample_schedule (sequential 0 (length sample_requests))
      (mkSystem (mkShared [] []) (arriving sample_requests)) =
      Ok (mkSystem sh' (returning (run_answers (sample_serve_all sample_server
                                                  sample_requests)))) /\
    server_of sample_zero_writer sample_serve_engine sh' =
      run_server (sample_serve_all sample_server sample_requests) /\
    shared_ok sh'.
Proof.
  apply (sequential_serve_all sample_serve_run sample_zero_writer
           (fun (_ : unit) _ => mem_reset) 10 id sample_serve_engine (mkShared [] [])
           sample_requests).
  - split; [apply NoDup_nil_2|apply Forall_nil_2].
  - vm_compute. reflexivity.
Defined.

Lemma every_request_returns_witness :
  exists sys',
    sample_schedule overtaken sample_system = Ok sys' /\
    serving_ok sys' /\
    (forall i g,
       sys_goroutines sample_system !! i = Some g ->
       remaining (g_at g) <= count_occ Nat.eq_dec overtaken i ->
       exists p,
         sys_goroutines sys' !! i =
           Some (mkGoroutine (g_writer g) (g_request g) (Returned p))) /\
    (Forall (fun g => remaining (g_at g) = 0) (sys_goroutines sys') ->
     Forall answered (sh_heap (sys_shared sys')) /\
     length (sh_heap (sys_shared sys')) =
       length (sh_pool (sys_shared sys')) + length (omap lost (sys_goroutines sys'))).
Proof.
  apply (every_request_returns sample_serve_run sample_zero_writer
           (fun (_ : unit) _ => mem_reset) 10 id sample_serve_engine overtaken sample_system).
  - split_and!; [split; simpl; [apply NoDup_nil_2|apply Forall_nil_2]|reflexivity|].
    by intros a c.
  - vm_compute. discriminate.
Defined.

Lemma Put_before_deferred_witness :
  exists cB : serve_ctx,
    sample_schedule [0; 0; 0; 0; 1; 1; 0] sample_system =
    Ok (mkSystem (mkShared [cB] [])
          [mkGoroutine tt (sample_get (bytes "/ok")) (Returned None);
           mkGoroutine tt (sample_get (bytes "/ok")) (AtHandle 0)]) /\
    c_Request cB = Some (sample_get (bytes "/ok")) /\
    c_writermem cB =
      (Write default500Body
         (set_Header (map_set (Header_of mem_reset) (bytes "Content-Type")
                        [bytes "application/json"])
            (set_status StatusInternalServerError mem_reset))).1.
Proof.
  apply (Put_before_deferred sample_serve_run sample_zero_writer
           (fun (_ : unit) _ => mem_reset) 10 id sample_serve_engine tt
           (sample_get (bytes "/ok")) tt (sample_get (bytes "/ok")) sample_handled);
    vm_compute; reflexivity.
Defined.

Lemma own_context_witness :
  system_ok (run_system (sample_schedule [0; 0; 0; 0; 1] sample_system)) /\
  (forall i j gi gj a,
     sys_goroutines (run_system (sample_schedule [0; 0; 0; 0; 1] sample_system)) !! i =
       Some gi ->
     sys_goroutines (run_system (sample_schedule [0; 0; 0; 0; 1] sample_system)) !! j =
       Some gj ->
     owns gi = Some a -> owns gj = Some a -> i = j) /\
  (forall i gi a,
     sys_goroutines (run_system (sample_schedule [0; 0; 0; 0; 1] sample_system)) !! i =
       Some gi ->
     owns gi = Some a ->
     (a ∉ sh_pool (sys_shared (run_system (sample_schedule [0; 0; 0; 0; 1] sample_system)))) /\
     a < length (sh_heap (sys_shared
                            (run_system (sample_schedule [0; 0; 0; 0; 1] sample_system))))).
Proof.
  apply (own_context sample_serve_run sample_zero_writer (fun (_ : unit) _ => mem_reset) 10
           id sample_serve_engine sample_system).
  - apply (run_schedule_interleaves _ _ _ _ _ _ [0; 0; 0; 0; 1]). vm_compute. reflexivity.
  - split; simpl; [apply NoDup_nil_2|apply Forall_nil_2].
Defined.
