(* ===== verification/Pipeline.v ===== *)
(** * Pipeline: from the registration of a function to its answer

    The path of a function through the library: [RouterGroup.handle] of
    [src/unnamed/part_001] passes it to [convertHandler] of
    [src/convert.go] and registers what comes back, after the middleware
    of the group, with [Engine.addRoute]; [ServeHTTP] of
    [src/unnamed/part_000] finds the chain, and [Next] calls the
    middleware and then the converted handler.

    - A [HandlerFunc] is a Go function value: [nil], or an element of a
      type [F] of functions.  [of_converted] is the closure that
      [convertHandler] returns, as an element of [F], and [call] is the
      call of an element of [F]; the theorems ask that the call of
      [of_converted cv] is [run_converted cv].  In the example program
      every function is such a closure ([Example]).
    - The middleware of the group are handlers that never call [Next]
      and keep the request; the function of the program may do to the
      context what it likes, as long as it leaves the request and the
      chain ([keeps_context]). *)

From stdpp Require Import gmap.
From S2P Require Import Prelude Strconv Utils Reflect Setters Traverse Binding BindingReq.
From S2P Require Import Tree Mode Router Group Context Writer Response Handler Serve.

Section pipeline.
Context {F float64 Time other W Body float opaque U : Type}.
Variable zero_float : float.
Variable zero_opaque : rtype -> opaque.
Variable is_ContextPtr : rtype -> bool.
Variable Implements_error : rtype -> bool.

Abbreviation ctx := (ctx (option F) float64 Time other W (option (request Body))).

(** The closure of [convertHandler], and the call of a function. *)
Variable of_converted : converted U -> F.
Variable call : F -> (ctx -> result ctx) -> ctx -> result ctx.

(** [convertHandler(handler, relativePath)], as a [HandlerFunc]: the
    handler that was given, or the closure over what was captured. *)
Definition as_HandlerFunc (h : handler (option F) U) (path : gostring) : result (option F) :=
  let* r := convertHandler zero_float zero_opaque is_ContextPtr Implements_error h path in
  Ok (match r with
      | inl h => h
      | inr cv => Some (of_converted cv)
      end).

(** [c.handlers[c.index](c)]: the call of a function value, which panics
    when the value is [nil]. *)
Definition call_handler (h : option F) (next : ctx -> result ctx) (c : ctx) : result ctx :=
  match h with
  | Some f => call f next c
  | None => nil_dereference
  end.

(** What the converted handler keeps of the context [c0] it is called
    on: the request, and the place in the chain. *)
Definition in_chain (c0 c : ctx) : Prop :=
  is_Some (c_Request c) /\ c_index c = c_index c0 /\ c_handlers c = c_handlers c0.

(** A function [u] of the program that leaves the request and the chain
    of the context as they are, and a response of the type of its
    second parameter in [resp]. *)
Definition keeps_context
    (Call : U -> ctx -> rvalue float opaque -> rvalue float opaque ->
            result (ctx * rvalue float opaque)) (req resp : rtype) (u : U) : Prop :=
  forall c rq rs c' rs',
    is_Some (c_Request c) -> has_type req rq -> has_type (strip_ptr resp) rs ->
    Call u c rq rs = Ok (c', rs') ->
    in_chain c c' /\ has_type (strip_ptr resp) rs'.

(** How a request for the function [u] ends, where [served_by] is what
    [ServeHTTP] returns and [run] is the converted handler: answered,
    with the header written, by the handler or after a panic that is
    [args-err] or the panic of [u]; or never, when [u] does not
    return. *)
Definition answered_by `{!ResponseWriter W}
    (Call : U -> ctx -> rvalue float opaque -> rvalue float opaque ->
            result (ctx * rvalue float opaque))
    (run : ctx -> result ctx) (req resp : rtype) (u : U)
    (served_by : result (server (option F) float64 Time other W Body * ctx *
                         option panic_value)) : Prop :=
  let zero_resp := zero zero_float zero_opaque (strip_ptr resp) in
  (exists s' c p, served_by = Ok (s', c, p) /\ Written (c_writermem c) = true /\
     match p with
     | None =>
         exists c0 c1, run c0 = Ok c1 /\
           c_writermem c = set_status StatusInternalServerError (WriteHeaderNow (c_writermem c1))
     | Some v =>
         v = PanicMsg (bytes "args-err") \/
         exists c1 rq, has_type req rq /\ Call u c1 rq zero_resp = Panic v
     end) \/
  exists c1 rq, has_type req rq /\ Call u c1 rq zero_resp = OutOfFuel.

End pipeline.

(** ** The chain of a registered function, served *)

Section pipeline_lemmas.
Context {F float64 Time other W H Body float opaque E U : Type}.
Context `{!ResponseWriter W, !ResponseWriterLaws W} `{!PathLib}.
Variable ParseFloat : gostring -> Z -> float + error.
Variable Unmarshal : rtype -> gostring -> rvalue float opaque ->
                     rvalue float opaque * option error.
Variable zero_float : float.
Variable zero_opaque : rtype -> opaque.
Variable Tag_Get : gostring -> gostring -> gostring.
Variable struct_tag_Lookup : gostring -> gostring -> gostring * bool.
Variable is_ContextPtr : rtype -> bool.
Variable ReadAll : Body -> Body * (gostring + error).
Variable NopCloser : gostring -> Body.
Variable Marshal : json_doc float opaque -> gostring + error.
Variable err_CodeMessage : E -> option (Z * gostring).
Variable err_Data : E -> option (iface float opaque).
Variable ServerErr : Z.
Variable opaque_IsNil : opaque -> bool.
Variable Implements_error : rtype -> bool.
Variable as_error : rtype -> rvalue float opaque -> E.

Abbreviation ctx' := (Context.ctx (option F) float64 Time other W (option (request Body))).

Variable ValueOf_ctx : ctx' -> rvalue float opaque.
Variable Call : U -> ctx' -> rvalue float opaque -> rvalue float opaque ->
                result (ctx' * rvalue float opaque).
Variable of_converted : converted U -> F.
Variable call : F -> (ctx' -> result ctx') -> ctx' -> result ctx'.
Variable zero_writer : W.
Variable writermem_reset : H -> W -> W.

Abbreviation run_converted' :=
  (run_converted ParseFloat Unmarshal zero_float zero_opaque Tag_Get struct_tag_Lookup
     is_ContextPtr ReadAll NopCloser Marshal err_CodeMessage err_Data ServerErr opaque_IsNil
     as_error ValueOf_ctx Call).
Abbreviation convertHandler' :=
  (convertHandler (HandlerFunc := option F) (U := U) zero_float zero_opaque is_ContextPtr
     Implements_error).
Abbreviation as_HandlerFunc' :=
  (as_HandlerFunc zero_float zero_opaque is_ContextPtr Implements_error of_converted).
Abbreviation call_handler' := (call_handler call).
Abbreviation ServeHTTP' := (ServeHTTP call_handler' zero_writer writermem_reset).
Abbreviation acquire' := (acquire (HandlerFunc := option F) zero_writer writermem_reset).
Abbreviation served := (fun c : ctx' => is_Some (c_Request c)).
Abbreviation zero_of t := (zero zero_float zero_opaque (strip_ptr t)).
Abbreviation answered_by' cv := (answered_by zero_float zero_opaque Call (run_converted' cv)).

(** [json.Unmarshal] and [reflect.ValueOf] keep the types, and the call
    of a closure of [convertHandler] runs it. *)
Hypothesis Unmarshal_has_type : forall t s v, has_type t v -> has_type t (Unmarshal t s v).1.
Hypothesis ValueOf_ctx_has_type :
  forall t c, is_ContextPtr t = true -> has_type t (ValueOf_ctx c).
Hypothesis call_converted : forall cv next c, call (of_converted cv) next c = run_converted' cv c.

Implicit Types (c : ctx') (g : RouterGroup (option F)) (e : Engine (option F)).
Implicit Types (req resp : rtype) (u : U) (cv : converted U).
Implicit Types (mw : list (option F)) (fs : list (ctx' -> ctx')).

(** *** Registration *)

(** What [handle] registers for a function of two parameters: the
    middleware of the group, then the closure of [convertHandler]. *)
Lemma handle_converted fuel g e m rel req resp u e' ret :
  wf_engine e ->
  handle as_HandlerFunc' fuel g e m rel (Handler_value (TFunc [req; resp] []) u) =
    Ok (e', ret) ->
  exists abs cv,
    joinPaths (basePath g) rel = Ok abs /\
    convertHandler' (Handler_value (TFunc [req; resp] []) u) rel = Ok (inr cv) /\
    find_handlers (trees e') m abs = Ok (Some (Handlers g ++ [Some (of_converted cv)])).
Proof.
  intros Hwf (abs & h & Habs & Hh & Hadd)%handle_Ok.
  apply result_bind_Ok in Hh as (r & Hr & [= <-]).
  destruct (convertHandler_value _ _ _ _ _ _ _ _ _ Hr) as [cv ->].
  exists abs, cv. split_and!; [done..|]. by apply (Engine_addRoute_found fuel e).
Qed.

(** *** The chain *)

(** The middleware of a chain keeps the request of the context. *)
Lemma run_all_served fs c :
  Forall (fun f => forall c, served c -> served (f c)) fs -> served c -> served (run_all fs c).
Proof.
  intros Hfs. revert c. induction Hfs as [|f fs Hf _ IH]; intros c Hc; [done|].
  apply IH. by apply Hf.
Qed.

Lemma in_chain_writer c0 c (w : W) : in_chain c0 c -> in_chain c0 (with_writer c w).
Proof. done. Qed.

Lemma in_chain_RequestBody c0 c c' r :
  in_chain c0 c -> RequestBody ReadAll NopCloser c = Ok (c', r) -> in_chain c0 c'.
Proof.
  intros (_ & Hi & Hh) (Hs & Hi' & Hh' & _)%RequestBody_keeps.
  split_and!; [done|congruence..].
Qed.

(** The three ways in which the converted handler ends, with its place
    in the chain kept when it returns. *)
Lemma run_converted_in_chain req resp u path cv c :
  wf_type req = true -> wf_type resp = true ->
  convertHandler' (Handler_value (TFunc [req; resp] []) u) path = Ok (inr cv) ->
  bindable (strip_ptr req) = true -> resp_writable (strip_ptr resp) = true ->
  keeps_context Call req resp u -> served c ->
  (exists c1, run_converted' cv c = Ok c1 /\ in_chain c c1) \/
  run_converted' cv c = Panic (PanicMsg (bytes "args-err")) \/
  exists c1 rq', has_type req rq' /\ is_ok (Call u c1 rq' (zero_of resp)) = false /\
    run_converted' cv c = let* _ := Call u c1 rq' (zero_of resp) in OutOfFuel.
Proof.
  intros Hwf Hwf' Hcv Hb Hw Hcall Hs.
  apply (run_converted_returns ParseFloat Unmarshal zero_float zero_opaque Tag_Get
           struct_tag_Lookup is_ContextPtr ReadAll NopCloser Marshal err_CodeMessage err_Data
           ServerErr opaque_IsNil Implements_error as_error ValueOf_ctx Call Unmarshal_has_type
           ValueOf_ctx_has_type (in_chain c) req resp u path cv c); try done.
  - by intros c1 [? _].
  - apply in_chain_RequestBody.
  - intros c1 rq' rs c2 rs' (Hs1 & Hi1 & Hh1) Hrq Hrs HC.
    destruct (Hcall c1 rq' rs c2 rs' Hs1 Hrq Hrs HC) as [(Hs2 & Hi2 & Hh2) Hrs'].
    split; [|done]. split_and!; [done|congruence..].
Qed.

(** [Next] on the chain of a registered function: the middleware, then
    the converted handler, and nothing after it. *)
Lemma Next_converted fuel c mw fs req resp u path cv :
  c_handlers c = Some (mw ++ [Some (of_converted cv)]) -> c_index c = (-1)%Z ->
  Forall2 (plain call_handler') mw fs -> length mw < 127 -> length mw < fuel ->
  wf_type req = true -> wf_type resp = true ->
  convertHandler' (Handler_value (TFunc [req; resp] []) u) path = Ok (inr cv) ->
  bindable (strip_ptr req) = true -> resp_writable (strip_ptr resp) = true ->
  keeps_context Call req resp u -> served (run_all fs (inc_index c)) ->
  (exists c1, run_converted' cv (run_all fs (inc_index c)) = Ok c1 /\
              Next call_handler' (S fuel) c = Ok (inc_index c1)) \/
  Next call_handler' (S fuel) c = Panic (PanicMsg (bytes "args-err")) \/
  exists c1 rq', has_type req rq' /\ is_ok (Call u c1 rq' (zero_of resp)) = false /\
    Next call_handler' (S fuel) c = let* _ := Call u c1 rq' (zero_of resp) in OutOfFuel.
Proof.
  intros Hh Hi Hp Hlen Hf Hwf Hwf' Hcv Hb Hw Hcall Hs.
  destruct (Next_last call_handler' fuel c mw (Some (of_converted cv)) fs)
    as (_ & _ & HN); [done..|]. cbn [call_handler] in HN. rewrite call_converted in HN.
  destruct (run_converted_in_chain req resp u path cv _ Hwf Hwf' Hcv Hb Hw Hcall Hs)
    as [(c1 & Hrun & _ & Hi1 & Hh1)|[Hrun|(c1 & rq' & Hrq & Hok & Hrun)]].
  - left. exists c1. split; [done|].
    apply (Next_last_returns call_handler' fuel c mw (Some (of_converted cv)) fs);
      try done. cbn [call_handler]. by rewrite call_converted.
  - right; left. by rewrite HN, Hrun.
  - right; right. exists c1, rq'. split_and!; [done..|]. rewrite HN, Hrun.
    by destruct (Call u c1 rq' _) as [[]| |].
Qed.

(** *** The request *)

(** [ServeHTTP] on a chain that ends with a converted handler. *)
Lemma ServeHTTP_converted fuel at_panic s w rq mw fs req resp u path cv :
  find_handlers (trees (sv_engine s)) (req_Method rq) (req_Path rq) =
    Ok (Some (mw ++ [Some (of_converted cv)])) ->
  Forall2 (plain call_handler') mw fs ->
  Forall (fun f => forall c, served c -> served (f c)) fs ->
  length mw < 127 -> length mw < fuel ->
  wf_type req = true -> wf_type resp = true ->
  convertHandler' (Handler_value (TFunc [req; resp] []) u) path = Ok (inr cv) ->
  bindable (strip_ptr req) = true -> resp_writable (strip_ptr resp) = true ->
  keeps_context Call req resp u ->
  answered_by' cv req resp u (ServeHTTP' (S fuel) at_panic s w rq).
Proof.
  intros Hfind Hp Hfs Hlen Hfuel Hwf Hwf' Hcv Hb Hw Hcall. unfold answered_by.
  rewrite (ServeHTTP_found _ _ _ _ _ _ _ _ (mw ++ [Some (of_converted cv)])) by done.
  set (c := with_handlers (acquire' s w rq).1 _).
  destruct (Next_converted fuel c mw fs req resp u path cv)
    as [(c1 & Hrun & ->)|[->|(c1 & rq' & Hrq & Hok & ->)]]; try done.
  - apply acquire_index.
  - apply run_all_served; [done|]. simpl. rewrite acquire_Request. by eexists.
  - left. eexists _, _, _. split; [done|]. split; [|by eexists _, _]. simpl.
    by rewrite Written_set_status, Written_WriteHeaderNow.
  - left. eexists _, _, _. split; [done|]. split; [apply serveError_Written|by left].
  - destruct (Call u c1 rq' _) as [[]|v|] eqn:HC; [done| |right; by eexists _, _].
    left. eexists _, _, _. split; [done|]. split; [apply serveError_Written|].
    right. by eexists _, _.
Qed.

(** [C13] A function that is registered answers its requests.  After
    [handle] has registered, under a method and a path, a function of a
    request and a response whose types can be bound and written, behind
    middleware that never calls [Next] and keeps the request, and after
    the program has registered whatever other routes it has,
    [ServeHTTP] of a request for the method and the joined path runs
    the middleware and the converted handler and returns with the header
    written: with what the handler has written, when the function
    returns; after a panic, which is [args-err] or the panic of the
    function itself.  Only a function that does not return keeps
    [ServeHTTP] from returning.  No panic comes from the binding of the
    request, from the writing of the response or from the chain. *)
Theorem registered_function_served fuel0 fuel at_panic g e e' ret rs e'' pool w rq rel req resp
    u fs :
  wf_engine e ->
  handle as_HandlerFunc' fuel0 g e (req_Method rq) rel
    (Handler_value (TFunc [req; resp] []) u) = Ok (e', ret) ->
  register_all as_HandlerFunc' fuel0 e' rs = Ok e'' ->
  joinPaths (basePath g) rel = Ok (req_Path rq) ->
  Forall2 (plain call_handler') (Handlers g) fs ->
  Forall (fun f => forall c, served c -> served (f c)) fs ->
  length (Handlers g) < 127 -> length (Handlers g) < fuel ->
  wf_type req = true -> wf_type resp = true ->
  bindable (strip_ptr req) = true -> resp_writable (strip_ptr resp) = true ->
  keeps_context Call req resp u ->
  exists cv,
    convertHandler' (Handler_value (TFunc [req; resp] []) u) rel = Ok (inr cv) /\
    answered_by zero_float zero_opaque Call (run_converted' cv) req resp u
      (ServeHTTP call_handler' zero_writer writermem_reset (S fuel) at_panic
         (mkServer e'' pool) w rq).
Proof.
  intros Hwfe Hhandle Hrs Hrq Hp Hfs Hlen Hfuel Hwf Hwf' Hb Hw Hcall.
  pose proof (handle_registers _ _ _ _ _ _ _ _ _ Hwfe Hhandle) as (_ & _ & _ & _ & _ & Hwfe').
  apply handle_converted in Hhandle as (abs & cv & Habs & Hcv & Hfind); [|done].
  exists cv. split; [done|]. replace abs with (req_Path rq) in Hfind by congruence.
  apply (register_all_keeps _ _ _ _ _ _ _ _ Hwfe' Hrs) in Hfind as [_ Hfind].
  by apply (ServeHTTP_converted fuel at_panic _ w rq (Handlers g) fs req resp u rel cv).
Qed.

End pipeline_lemmas.
