(* ===== verification/Example.v ===== *)
(** * Example: the example program, registered and served

    [func main] of [src/unnamed/part_001] makes the default engine,
    registers three functions with [GET] and calls [Run].  Here the
    pieces of the development meet: [Group.GET] calls [convertHandler] of
    [Handler] on the function and [Engine.addRoute] of [Router] on what
    it returns; [ServeHTTP] of [Serve] finds the chain in the tree of
    [Tree], and [Next] of [Context] calls the converted handler, which
    fills the request with [Binding], calls the function and writes the
    response with [Response] to the writer of [Writer].

    - A handler of a chain is [example_HandlerFunc]: [nil], or what
      [convertHandler] has captured; the call of [nil] is the panic of
      Go.
    - [http.ListenAndServe] is a parameter of [main]; the requests that
      it would pass to the handler are served by [example_ServeHTTP].
    - The bodies of the three functions are [Handler.example_Call].
      The encoder [Handler.example_Marshal] stands for [encoding/json]
      on the values of the example, and the writer is
      [Writer.mem_writer]: what this file shows of bodies and headers
      is shown for them, as examples of the theorems of [Pipeline] and
      [Serve], which hold for every encoder and every writer. *)

From stdpp Require Import gmap.
From S2P Require Import Prelude Strconv Utils Reflect Setters Traverse Binding BindingReq.
From S2P Require Import Tree Mode Router Group Context Writer Response Handler Serve.
From S2P Require Import Pipeline.

(** [convertHandler], as [handle] calls it: every function of the
    example is what [convertHandler] has captured. *)
Definition example_convert (h : handler example_HandlerFunc example_func)
    (relativePath : gostring) : result example_HandlerFunc :=
  as_HandlerFunc tt (fun _ => tt) sample_is_ContextPtr sample_Implements_error id
    h relativePath.

(** The call of a handler of a chain. *)
Definition example_run (h : example_HandlerFunc) (next : example_ctx -> result example_ctx)
    (c : example_ctx) : result example_ctx :=
  call_handler (fun cv _ c => example_run_converted cv c) h next c.

(** [serv.GET(path, f)] on an engine. *)
Definition example_GET (fuel : nat) (serv : Engine example_HandlerFunc) (path : gostring)
    (u : example_func) : result (Engine example_HandlerFunc) :=
  let* '(serv, _) :=
    GET (H := reference_PathLib) example_convert fuel (group serv) serv path
      (Handler_value example_func_type u) in
  Ok serv.

(** The first lines of [func main]: the engine with the three routes. *)
Definition main_routes (fuel : nat) : result (Engine example_HandlerFunc) :=
  let serv := Default in
  let* serv := example_GET fuel serv (bytes "/") FuncIndex in
  let* serv := example_GET fuel serv (bytes "/err") FuncErr in
  example_GET fuel serv (bytes "/panic") FuncPanic.

(** The name that the run time gives a handler of the example: each is
    the closure that [convertHandler] returns. *)
Definition example_name (h : example_HandlerFunc) : gostring :=
  match h with
  | Some _ => bytes "github.com/hookya/hapi.convertHandler.func1"
  | None => []
  end.

(** [serv.GET(path, f)] with what it prints. *)
Definition example_GET_out (st : mode_state) (fuel : nat) (serv : Engine example_HandlerFunc)
    (path : gostring) (u : example_func) : logged (Engine example_HandlerFunc) :=
  let+ '(serv, _) :=
    GET_out (H := reference_PathLib) example_convert example_name st None fuel (group serv)
      serv path (Handler_value example_func_type u) in
  log_lift (Ok serv).

(** [func main]: what it prints, and the panic with the error of
    [Run]. *)
Definition main (fuel : nat) (ListenAndServe : gostring -> http_handler -> option error)
    (Error : error -> gostring) (st : mode_state) : logged unit :=
  let serv := Default in
  let+ serv := example_GET_out st fuel serv (bytes "/") FuncIndex in
  let+ serv := example_GET_out st fuel serv (bytes "/err") FuncErr in
  let+ serv := example_GET_out st fuel serv (bytes "/panic") FuncPanic in
  let '(out, err) := Run ListenAndServe st serv [] in
  let+ _ := log_print out in
  match err with
  | Some err => log_lift (Panic (PanicMsg (Error err)))
  | None => log_lift (Ok tt)
  end.

(** The line that a registration of the example prints. *)
Definition route_line (path : gostring) : output :=
  Fprintf (bytes "[hapi-debug] %-6s %-25s --> %s (%d handlers)" ++ newline)
    [VString (bytes "GET"); VString path;
     VString (bytes "github.com/hookya/hapi.convertHandler.func1"); VInt 1].

(** The engine of the example, and a server with an empty pool. *)
Definition example_engine : Engine example_HandlerFunc := engine_of (main_routes 10).

(** The registrations of [func main] after the first. *)
Definition example_later :
    list (registration (handler example_HandlerFunc example_func) (converted example_func)) :=
  [mkRegistration (group Default) MethodGet (bytes "/err")
     (Handler_value example_func_type FuncErr);
   mkRegistration (group Default) MethodGet (bytes "/panic")
     (Handler_value example_func_type FuncPanic)].

Definition example_server :
    server example_HandlerFunc unit unit unit mem_writer gostring :=
  mkServer example_engine [].

(** [ServeHTTP] on the engine of the example. *)
Definition example_ServeHTTP :=
  ServeHTTP example_run sample_zero_writer (fun (_ : unit) _ => mem_reset) 10 id.

(** The request [GET path?query]. *)
Definition get_request (path : gostring) (query : values_map) : request gostring :=
  mkRequest (bytes "GET") path query [] None [].

(** What a client sees of a request, the status and the body, with the
    status that the writer remembers, the length of the pool and the
    panic that was recovered. *)
Definition example_answer
    (r : result (server example_HandlerFunc unit unit unit mem_writer gostring * example_ctx *
                 option panic_value)) :
    option (option Z * gostring * Z * nat * option panic_value) :=
  match r with
  | Ok (s, c, p) =>
      Some (mw_sent (c_writermem c), mw_body (c_writermem c), mw_status (c_writermem c),
            length (sv_pool s), p)
  | _ => None
  end.

(** The body of a response of [Data] without data. *)
Definition status_body (code : Z) (message : gostring) : gostring :=
  json_object [(bytes "code", FormatInt code); (bytes "message", json_string message)] ++
  newline.

(** ** Registration *)

(** [func main] registers its three routes: the calls of [GET]
    return, and the engine finds under [GET] and each of the three
    paths the chain of the one handler that [convertHandler] has made of
    the function; under another path, and under another method, it
    finds nothing. *)
Theorem main_registers :
  main_routes 10 = Ok example_engine /\
  find_handlers (trees example_engine) (bytes "GET") (bytes "/") =
    Ok (Some [Some (example_converted FuncIndex)]) /\
  find_handlers (trees example_engine) (bytes "GET") (bytes "/err") =
    Ok (Some [Some (example_converted FuncErr)]) /\
  find_handlers (trees example_engine) (bytes "GET") (bytes "/panic") =
    Ok (Some [Some (example_converted FuncPanic)]) /\
  find_handlers (trees example_engine) (bytes "GET") (bytes "/missing") = Ok None /\
  find_handlers (trees example_engine) (bytes "POST") (bytes "/") = Ok None.
Proof. repeat split; vm_compute; reflexivity. Qed.

(** What [func main] prints.  In debug mode, the mode of a program that
    sets none: one line for each route, each with the name of the same
    closure of [convertHandler], and the line of [Run]; when
    [http.ListenAndServe] returns an error, the panic comes after the
    four lines.  In release mode nothing is printed. *)
Theorem main_prints :
  main 10 (fun _ _ => None) (fun _ => []) initial_mode =
    ([route_line (bytes "/"); route_line (bytes "/err"); route_line (bytes "/panic");
      Fprintf (bytes "[hapi-debug] Listening and serving HTTP on %s" ++ newline)
        [VString (bytes ":8080")]], Ok tt) /\
  main 10 (fun _ _ => Some (ErrJSON (bytes "bind"))) (fun _ => bytes "bind") initial_mode =
    ([route_line (bytes "/"); route_line (bytes "/err"); route_line (bytes "/panic");
      Fprintf (bytes "[hapi-debug] Listening and serving HTTP on %s" ++ newline)
        [VString (bytes ":8080")]], Panic (PanicMsg (bytes "bind"))) /\
  main 10 (fun _ _ => None) (fun _ => []) (ModeState releaseCode ReleaseMode) = ([], Ok tt).
Proof. repeat split; vm_compute; reflexivity. Qed.

(** ** Serving *)

(** The example program, served.  [GET /?id=7&name=x] is answered
    with 200 and the parameters as the data of the body; [GET /err]
    with 500 and [Server Error.]; [GET /panic] and a request whose [id]
    is not a number with 500 and [500 server err], the panic recovered
    and the context lost to the pool; [GET /missing] with 404.  After each of them the
    writer remembers the status 500. *)
Theorem example_served :
  example_answer (example_ServeHTTP example_server tt
                    (get_request (bytes "/") [(bytes "id", [bytes "7"]);
                                                  (bytes "name", [bytes "x"])])) =
    Some (Some 200%Z,
          json_object [(bytes "code", bytes "0");
                       (bytes "message", json_string (bytes "success"));
                       (bytes "data", json_object [(bytes "id", bytes "7");
                                                   (bytes "name", json_string (bytes "x"))])] ++
          newline, 500%Z, 1, None) /\
  example_answer (example_ServeHTTP example_server tt (get_request (bytes "/err") [])) =
    Some (Some 500%Z, status_body 500 (bytes "Server Error."), 500%Z, 1, None) /\
  example_answer (example_ServeHTTP example_server tt (get_request (bytes "/panic") [])) =
    Some (Some 500%Z, default500Body, 500%Z, 0, Some (PanicMsg (bytes "panic"))) /\
  example_answer (example_ServeHTTP example_server tt
                    (get_request (bytes "/") sample_bad_query)) =
    Some (Some 500%Z, default500Body, 500%Z, 0, Some (PanicMsg (bytes "args-err"))) /\
  example_answer (example_ServeHTTP example_server tt
                    (get_request (bytes "/missing") [])) =
    Some (Some 404%Z, default404Body, 500%Z, 1, None).
Proof. repeat split; vm_compute; reflexivity. Qed.

(** ** The first route, by the theorem of the pipeline *)

(** The functions of the example leave the context as it is, and a
    response of the type of their parameter. *)
Lemma example_Call_keeps u :
  keeps_context example_Call (TPtr example_req) (TPtr example_resp) u.
Proof.
  intros c rq rs c' rs' Hs Hrq Hrs HC.
  destruct (example_Call_typed u c rq rs c' rs' Hs Hrq Hrs HC) as [_ Hrs'].
  split; [|done]. destruct u; simpl in HC; [| |done].
  - destruct rq as [| | | | |[[| | | | | | | |[|query []]| |]|]| | | | |]; try done.
    destruct rs as [| | | | | | | |[|d [|e []]]| |]; try done. by intros; simplify_eq.
  - destruct rs as [| | | | | | | |[|d [|e []]]| |]; try done. by intros; simplify_eq.
Qed.

Lemma registered_function_served_witness :
  exists cv,
    example_convertHandler (Handler_value example_func_type FuncIndex) (bytes "/") =
      Ok (inr cv) /\
    answered_by tt (fun _ => tt) example_Call (example_run_converted cv)
      (TPtr example_req) (TPtr example_resp) FuncIndex
      (ServeHTTP example_run sample_zero_writer (fun (_ : unit) _ => mem_reset) 10 id
         (mkServer example_engine []) tt (get_request (bytes "/") sample_query)).
Proof.
  apply (registered_function_served (H0 := reference_PathLib)
           sample_ParseFloat sample_Unmarshal tt (fun _ => tt)
           reference_Tag_Get sample_Lookup sample_is_ContextPtr sample_ReadAll id
           example_Marshal sample_err_CodeMessage (fun _ => None) sample_ServerErr
           (fun _ => false) sample_Implements_error sample_as_error
           (fun _ => RPtr (Some (RStruct []))) example_Call id
           (fun cv _ c => example_run_converted cv c) sample_zero_writer
           (fun (_ : unit) _ => mem_reset) sample_Unmarshal_typed example_ValueOf_typed
           (fun _ _ _ => eq_refl) 10 9 id (group Default) Default
           (engine_of (example_GET 10 Default (bytes "/") FuncIndex)) ReturnsGroup
           example_later example_engine [] tt
           (get_request (bytes "/") sample_query) (bytes "/") (TPtr example_req)
           (TPtr example_resp) FuncIndex []);
    [apply New_wf|vm_compute; reflexivity|vm_compute; reflexivity|vm_compute; reflexivity|
     constructor|constructor|simpl; lia|simpl; lia|reflexivity|reflexivity|reflexivity|
     reflexivity|apply example_Call_keeps].
Defined.
